(** * Cerebro research orchestrator: a shallow embedding of [main.py]

    The service is glue around two external providers (an LLM chat endpoint
    and an Airtable table).  The embedding keeps the Python code's shape:

    - text is [string], read as a sequence of code points below 256;
    - JSON-like values ([Dict[str, Any]], lists, strings, ...) are the
      inductive type [json]; a Python dict used as a JSON object is an
      association list with unique keys, dicts used as process-wide maps
      ([SESSION_CACHE], [PROVIDER_ISSUES], [AUTH_TOKENS], write payloads) are
      [gmap string _];
    - exceptions are values of [exn]; only the distinction the handlers make
      ([HTTPException] or not) and the text [str(e)] are kept;
    - the providers, the clock, the random generator and the library calls
      whose results the code only passes along are fields of [Externals];
      every call to a provider is logged in the world's [trace]. *)

From Stdlib Require Import ZArith Ascii String List Bool Lia.
From stdpp Require Import base option list gmap strings pretty sorting.

Local Open Scope string_scope.
Local Open Scope Z_scope.
Set Warnings "-register-all".
Set Default Proof Using "Type".

(** ** Text primitives *)

Module Text.

Definition code (c : ascii) : N := N_of_ascii c.

(** [str.lower] on code points below 256: A-Z and the Latin-1 capitals
    (0xC0-0xDE except the multiplication sign 0xD7) move up by 32. *)
Definition lower_char (c : ascii) : ascii :=
  let n := code c in
  if ((65 <=? n) && (n <=? 90))%N then ascii_of_N (n + 32)
  else if ((192 <=? n) && (n <=? 222) && negb (n =? 215))%N
       then ascii_of_N (n + 32)
  else c.

Fixpoint lower (s : string) : string :=
  match s with
  | EmptyString => EmptyString
  | String c r => String (lower_char c) (lower r)
  end.

(** [str.isspace] on code points below 256. *)
Definition is_space (c : ascii) : bool :=
  let n := code c in
  (((9 <=? n) && (n <=? 13)) || ((28 <=? n) && (n <=? 32))
   || (n =? 133) || (n =? 160))%N.

Fixpoint lstrip (s : string) : string :=
  match s with
  | EmptyString => EmptyString
  | String c r => if is_space c then lstrip r else s
  end.

Fixpoint rstrip (s : string) : string :=
  match s with
  | EmptyString => EmptyString
  | String c r =>
      match rstrip r with
      | EmptyString => if is_space c then EmptyString else String c EmptyString
      | r' => String c r'
      end
  end.

Definition strip (s : string) : string := rstrip (lstrip s).

Fixpoint startswith (p s : string) : bool :=
  match p, s with
  | EmptyString, _ => true
  | String a p', String b s' => if Ascii.eqb a b then startswith p' s' else false
  | String _ _, EmptyString => false
  end.

(** [needle in hay] *)
Fixpoint contains (needle hay : string) : bool :=
  if startswith needle hay then true
  else match hay with
       | EmptyString => false
       | String _ r => contains needle r
       end.

Fixpoint drop (n : nat) (s : string) : string :=
  match n, s with
  | O, _ => s
  | S n', String _ r => drop n' r
  | S _, EmptyString => EmptyString
  end.

(** [s.removeprefix(p)] *)
Definition removeprefix (p s : string) : string :=
  if startswith p s then drop (String.length p) s else s.

(** [hay.split(sep, 1)[1]] when [sep in hay]: what follows the first
    occurrence of [sep]. *)
Fixpoint after_first (sep hay : string) : option string :=
  if startswith sep hay then Some (drop (String.length sep) hay)
  else match hay with
       | EmptyString => None
       | String _ r => after_first sep r
       end.

(** [s.split(c, 1)[0]] for a one-character separator. *)
Fixpoint before_char (c : ascii) (s : string) : string :=
  match s with
  | EmptyString => EmptyString
  | String a r => if Ascii.eqb a c then EmptyString else String a (before_char c r)
  end.

(** [sep.join(l)] *)
Fixpoint join (sep : string) (l : list string) : string :=
  match l with
  | [] => EmptyString
  | [x] => x
  | x :: r => x +:+ sep +:+ join sep r
  end.

(** [s.split(c)] for a one-character separator: never the empty list. *)
Fixpoint split_char (c : ascii) (s : string) : list string :=
  match s with
  | EmptyString => [EmptyString]
  | String a r =>
      if Ascii.eqb a c then EmptyString :: split_char c r
      else match split_char c r with
           | [] => [String a EmptyString]
           | x :: xs => String a x :: xs
           end
  end.

(** [s[:n]] *)
Fixpoint take (n : nat) (s : string) : string :=
  match n, s with
  | O, _ => EmptyString
  | S n', String c r => String c (take n' r)
  | S _, EmptyString => EmptyString
  end.

Definition quote : ascii := ascii_of_N 34.
Definition dq : string := String quote EmptyString.
Definition apostrophe : ascii := ascii_of_N 39.
Definition backslash : ascii := ascii_of_N 92.

(** [bool(s)] *)
Definition nonempty (s : string) : bool :=
  match s with EmptyString => false | _ => true end.

End Text.

(** ** JSON-like values and Python's dynamic operations on them *)

Inductive json : Type :=
| JNull
| JBool (b : bool)
| JNum (n : Z)
| JStr (s : string)
| JArr (l : list json)
| JObj (kv : list (string * json)).

(** Exceptions: [HTTPException(status_code, detail)] is told apart from
    every other exception, of which only the text is kept. *)
Inductive exn : Type :=
| HTTPException (status_code : Z) (detail : string)
| Exception (text : string).

(** [str(e)]; Starlette prints an [HTTPException] as
    ["<status_code>: <detail>"]. *)
Definition exn_str (e : exn) : string :=
  match e with
  | HTTPException c d => pretty c +:+ ": " +:+ d
  | Exception t => t
  end.

(** Results of pure code that may raise. *)
Definition R (A : Type) : Type := exn + A.

Definition rbind {A B} (r : R A) (k : A -> R B) : R B :=
  match r with inl e => inl e | inr a => k a end.

Notation "'do?' x <- r ; k" := (rbind r (fun x => k))
  (at level 10, x name, r at level 100, k at level 200).

Fixpoint rmap {A B} (f : A -> R B) (l : list A) : R (list B) :=
  match l with
  | [] => inr []
  | x :: r => do? y <- f x; do? ys <- rmap f r; inr (y :: ys)
  end.

Module Py.

Definition type_name (j : json) : string :=
  match j with
  | JNull => "NoneType" | JBool _ => "bool" | JNum _ => "int"
  | JStr _ => "str" | JArr _ => "list" | JObj _ => "dict"
  end.

(** [bool(j)] *)
Definition truthy (j : json) : bool :=
  match j with
  | JNull => false
  | JBool b => b
  | JNum n => negb (n =? 0)
  | JStr s => Text.nonempty s
  | JArr l => match l with [] => false | _ => true end
  | JObj kv => match kv with [] => false | _ => true end
  end.

(** [a or b] *)
Definition or_else (a b : json) : json := if truthy a then a else b.

Fixpoint assoc (k : string) (kv : list (string * json)) : option json :=
  match kv with
  | [] => None
  | (k', v) :: r => if String.eqb k k' then Some v else assoc k r
  end.

(** [d[k] = v] on a dict: an existing key keeps its place. *)
Fixpoint dict_set (k : string) (v : json) (kv : list (string * json))
  : list (string * json) :=
  match kv with
  | [] => [(k, v)]
  | (k', v') :: r =>
      if String.eqb k k' then (k, v) :: r else (k', v') :: dict_set k v r
  end.

Definition attribute_error (j : json) (attr : string) : exn :=
  Exception ("'" +:+ type_name j +:+ "' object has no attribute '" +:+ attr +:+ "'").

(** [j.get(k, default)] *)
Definition get (j : json) (k : string) (default : json) : R json :=
  match j with
  | JObj kv => inr (match assoc k kv with Some v => v | None => default end)
  | _ => inl (attribute_error j "get")
  end.

(** [j[k]] with a string key *)
Definition getitem (j : json) (k : string) : R json :=
  match j with
  | JObj kv =>
      match assoc k kv with
      | Some v => inr v
      | None => inl (Exception ("'" +:+ k +:+ "'"))
      end
  | JStr _ => inl (Exception "string indices must be integers, not 'str'")
  | JArr _ => inl (Exception "list indices must be integers or slices, not str")
  | _ => inl (Exception ("'" +:+ type_name j +:+ "' object is not subscriptable"))
  end.

Fixpoint chars (s : string) : list json :=
  match s with
  | EmptyString => []
  | String c r => JStr (String c EmptyString) :: chars r
  end.

(** [for x in j]: lists give their elements, strings their characters,
    dicts their keys. *)
Definition iterate (j : json) : R (list json) :=
  match j with
  | JArr l => inr l
  | JStr s => inr (chars s)
  | JObj kv => inr (map (fun p => JStr (fst p)) kv)
  | _ => inl (Exception ("'" +:+ type_name j +:+ "' object is not iterable"))
  end.

(** [l[:n]] where [l] is used as a list afterwards. *)
Definition slice_to (n : nat) (j : json) : R json :=
  match j with
  | JArr l => inr (JArr (firstn n l))
  | JStr s => inr (JStr (Text.take n s))
  | JObj _ => inl (Exception "unhashable type: 'slice'")
  | _ => inl (Exception ("'" +:+ type_name j +:+ "' object is not subscriptable"))
  end.

(** [sep.join(l)] where the elements come from JSON: the error names the
    position of the first element that is not a string. *)
Fixpoint all_str_from (i : nat) (l : list json) : R (list string) :=
  match l with
  | [] => inr []
  | JStr s :: r => do? ss <- all_str_from (S i) r; inr (s :: ss)
  | j :: _ => inl (Exception ("sequence item " +:+ pretty i
                              +:+ ": expected str instance, "
                              +:+ type_name j +:+ " found"))
  end.

Definition all_str (l : list json) : R (list string) := all_str_from 0 l.

Definition join (sep : string) (j : json) : R string :=
  do? l <- iterate j;
  do? ss <- all_str l;
  inr (Text.join sep ss).

End Py.

(** ** Records: the store's rows, the pydantic models, the configuration *)

(** A row as pyairtable returns it: [{"id", "createdTime", "fields"}]. *)
Record record : Type := {
  rec_id : string;
  rec_createdTime : string;
  rec_fields : list (string * json);
}.

Record SubTopic : Type := {
  st_id : string;
  st_title : string;
  st_description : string;
}.

Record ResearchOutline : Type := {
  o_title : string;
  o_description : string;
  o_subTopics : list SubTopic;
}.

Record ResearchResponse : Type := {
  rr_sessionId : string;
  rr_outline : ResearchOutline;
  rr_createdAt : option string;
  rr_tags : list string;
  rr_progress : Z;
}.

Record PagedHistoryResponse : Type := {
  ph_items : list ResearchResponse;
  ph_page : Z;
  ph_limit : Z;
  ph_total : Z;
  ph_totalPages : Z;
}.

Record RefinementEntry : Type := {
  re_subtopic : string;
  re_insight : string;
  re_createdAt : option string;
}.

Record SessionDetail : Type := {
  sd_sessionId : string;
  sd_outline : ResearchOutline;
  sd_createdAt : option string;
  sd_refinements : list RefinementEntry;
  sd_summary : option string;
  sd_tags : list string;
}.

Record ResearchRequest : Type := { rq_topic : string }.

Record RefineRequest : Type := {
  rf_sessionId : string;
  rf_subtopic : string;
}.

Record RefineResponse : Type := {
  rfr_sessionId : string;
  rfr_subtopic : string;
  rfr_insight : string;
}.

Record FinalizeRequest : Type := {
  fq_sessionId : string;
  fq_tags : option (list string);
}.

Record FinalizeResponse : Type := {
  fr_sessionId : string;
  fr_summary : string;
  fr_tags : list string;
}.

(** The part of a [Request] the handlers and their decorators read: the
    authorization header ([None] when absent) and the address of the
    client, which is what the rate limiter keys its counters on. *)
Record Request : Type := {
  authorization : option string;
  client_host : option string;
}.

(** Module-level configuration, read from the environment at start-up.
    The three prompt constants are kept as parameters: only their place in
    the prompt matters. *)
Record Config : Type := {
  GROQ_API_KEY : option string;
  groq_importable : bool;
  AIRTABLE_API_KEY : option string;
  AIRTABLE_BASE_ID : option string;
  DEFAULT_USER_ID : string;
  AUTH_TOKENS : gmap string string;
  ENABLE_FALLBACK_ON_QUOTA : bool;
  SYSTEM_PROMPT : string;
  REFINEMENT_PROMPT : string;
  FINALIZE_PROMPT : string;
}.

Definition env_set (v : option string) : bool :=
  match v with Some s => Text.nonempty s | None => false end.

(** [groq_client is not None] *)
Definition groq_client (c : Config) : bool :=
  groq_importable c && env_set (GROQ_API_KEY c).

(** [bool(table)] *)
Definition table (c : Config) : bool :=
  env_set (AIRTABLE_API_KEY c) && env_set (AIRTABLE_BASE_ID c).

(** Calls that leave the process. *)
Inductive event : Type :=
| EvLLM (contents : string)
| EvSleep (delay_ms : Z)
| EvAll (formula : string) (max_records : option Z)
| EvGet (record_id : string)
| EvCreate (fields : gmap string json)
| EvUpdate (record_id : string) (fields : gmap string json).

(** What the code does not define itself.  [Ext] is the state of the world
    outside the process; a provider call returns [inl text] when it raises
    an exception whose [str] is [text].

    - [x_llm]: [groq_client.chat.completions.create(...)] followed by
      [completion.choices[0].message.content];
    - [x_all], [x_get], [x_create], [x_update]: the pyairtable table;
    - [x_now]: [datetime.now(timezone.utc).isoformat()];
    - [x_urandom]: [os.urandom(4).hex().upper()];
    - [x_loads], [x_dumps]: [json.loads], [json.dumps];
    - [x_repr]: [str(v)] for a value that is not a string;
    - [x_title]: [str.title];
    - [x_seconds_ms]: [int(float(s) * 1000)] for a text of digits; the
      arithmetic is floating point and kept opaque, [inl text] is the
      [OverflowError] that [int] raises when the product is infinite;
    - [x_invalid]: the text of pydantic's [ValidationError] for an input;
    - [x_limit]: slowapi's check of the limit [1/5seconds] for a route and
      a request, with the hit it records: [Some detail] when the limit is
      exceeded, which slowapi reports by raising [RateLimitExceeded], an
      [HTTPException] with status 429 and that detail. *)
Record Externals : Type := {
  Ext : Type;
  x_llm : string -> Ext -> (string + option string) * Ext;
  x_all : string -> option Z -> Ext -> (string + list record) * Ext;
  x_get : string -> Ext -> (string + record) * Ext;
  x_create : gmap string json -> Ext -> (string + record) * Ext;
  x_update : string -> gmap string json -> Ext -> (string + unit) * Ext;
  x_now : Ext -> string * Ext;
  x_urandom : Ext -> string * Ext;
  x_loads : string -> string + json;
  x_dumps : json -> string;
  x_repr : json -> string;
  x_title : string -> string;
  x_seconds_ms : string -> string + Z;
  x_invalid : json -> string;
  x_limit : string -> Request -> Ext -> option string * Ext;
}.

(** An entry of [SESSION_CACHE]. *)
Record cache_item : Type := {
  ci_user_id : string;
  ci_created_at : string;
  ci_data : json;
}.

(** An entry of [PROVIDER_ISSUES]. *)
Record issue : Type := {
  is_kind : string;
  is_message : string;
  is_updatedAt : string;
}.

(** The process state and the outside world. *)
Record World (X : Externals) : Type := {
  ext : Ext X;
  SESSION_CACHE : gmap string cache_item;
  PROVIDER_ISSUES : gmap string issue;
  trace : list event;
}.
Arguments ext {X} _.
Arguments SESSION_CACHE {X} _.
Arguments PROVIDER_ISSUES {X} _.
Arguments trace {X} _.
Arguments Build_World {X} _ _ _ _.

(** ** The program *)

Section Model.

Variable X : Externals.
Variable cfg : Config.

(** *** State and exceptions: the monad the handlers run in *)

Definition M (A : Type) : Type := World X -> R A * World X.

Definition ret {A} (a : A) : M A := fun w => (inr a, w).

Definition raise {A} (e : exn) : M A := fun w => (inl e, w).

Definition bind {A B} (m : M A) (k : A -> M B) : M B :=
  fun w => match m w with
           | (inl e, w') => (inl e, w')
           | (inr a, w') => k a w'
           end.

(** [try: m  except Exception as e: h e] *)
Definition try_except {A} (m : M A) (h : exn -> M A) : M A :=
  fun w => match m w with
           | (inl e, w') => h e w'
           | (inr a, w') => (inr a, w')
           end.

Definition lift {A} (r : R A) : M A := fun w => (r, w).

Notation "'do!' x <- m ; k" := (bind m (fun x => k))
  (at level 10, x name, m at level 100, k at level 200).
Notation "m ;; k" := (bind m (fun _ => k))
  (at level 100, k at level 200, right associativity).

Definition emit (ev : event) : M unit :=
  fun w => (inr tt, Build_World (ext w) (SESSION_CACHE w) (PROVIDER_ISSUES w)
                                (trace w ++ [ev])%list).

Definition outside {A} (f : Ext X -> A * Ext X) : M A :=
  fun w => let (a, s) := f (ext w) in
           (inr a, Build_World s (SESSION_CACHE w) (PROVIDER_ISSUES w) (trace w)).

(** A provider call: logged, then run; its failure becomes an exception. *)
Definition provider {A} (ev : event) (f : Ext X -> (string + A) * Ext X) : M A :=
  emit ev ;;
  do! r <- outside f;
  match r with
  | inl t => raise (Exception t)
  | inr a => ret a
  end.

Definition now : M string := outside (x_now X).

(** *** Small helpers *)

Definition nl : string := String (ascii_of_N 10) EmptyString.

(** [str(j)] *)
Definition str (j : json) : string :=
  match j with JStr s => s | _ => x_repr X j end.

Definition fields_get (fields : list (string * json)) (k : string) (default : json)
  : json :=
  match Py.assoc k fields with Some v => v | None => default end.

(** [json.loads(j)] *)
Definition json_loads (j : json) : R json :=
  match j with
  | JStr s => match x_loads X s with
              | inl t => inl (Exception t)
              | inr v => inr v
              end
  | _ => inl (Exception ("the JSON object must be str, bytes or bytearray, not "
                         +:+ Py.type_name j))
  end.

Definition session_dict (outline refinements summary tags : json) : json :=
  JObj [("outline", outline); ("refinements", refinements);
        ("summary", summary); ("tags", tags)].

Definition _parse_data_blob (fields : list (string * json)) : R json :=
  let default_outline :=
    JObj [("title", fields_get fields "Topic" (JStr "Untitled"));
          ("description", fields_get fields "Initial Outline" (JStr ""));
          ("subTopics", JArr [])] in
  match Py.assoc "Data" fields with
  | None => inr (session_dict default_outline (JArr []) (JStr "") (JArr []))
  | Some d =>
      do? parsed <- json_loads d;
      match parsed with
      | JObj kv =>
          match Py.assoc "outline" kv with
          | Some o =>
              inr (session_dict o
                     (fields_get kv "refinements" (JArr []))
                     (fields_get kv "summary" (JStr ""))
                     (fields_get kv "tags" (JArr [])))
          | None => inr (session_dict parsed (JArr []) (JStr "") (JArr []))
          end
      | _ =>
          (* Backward compatibility for older records where Data == outline payload *)
          inr (session_dict parsed (JArr []) (JStr "") (JArr []))
      end
  end.

Definition _build_session_formula (session_id user_id : string) : string :=
  "AND({Session ID} = '" +:+ session_id +:+ "', {User ID} = '" +:+ user_id +:+ "')".

(** [value.replace("'", "\\'")] *)
Fixpoint _escape_formula (value : string) : string :=
  match value with
  | EmptyString => EmptyString
  | String c r =>
      if Ascii.eqb c Text.apostrophe
      then String Text.backslash (String Text.apostrophe (_escape_formula r))
      else String c (_escape_formula r)
  end.

Definition _resolve_user_id (request : Request) : R string :=
  let auth_header := match authorization request with Some h => h | None => "" end in
  if negb (bool_decide (AUTH_TOKENS cfg = ∅)) then
    if negb (Text.startswith "Bearer " auth_header)
    then inl (HTTPException 401 "Missing bearer token.")
    else
      let token := Text.strip (Text.removeprefix "Bearer " auth_header) in
      match AUTH_TOKENS cfg !! token with
      | Some user_id =>
          if Text.nonempty user_id then inr user_id
          else inl (HTTPException 401 "Invalid token.")
      | None => inl (HTTPException 401 "Invalid token.")
      end
  else inr (DEFAULT_USER_ID cfg).

Definition _progress_for (data : json) : R Z :=
  do? outline <- Py.get data "outline" (JObj []);
  do? subtopics <- Py.get outline "subTopics" (JArr []);
  do? refinements <- Py.get data "refinements" (JArr []);
  do? summary_v <- Py.get data "summary" (JStr "");
  let summary := Text.strip (str summary_v) in
  do? tags <- Py.get data "tags" (JArr []);
  let progress := 25 in
  let progress := if Py.truthy subtopics then progress + 25 else progress in
  let progress := if Py.truthy refinements then progress + 25 else progress in
  let progress := if Text.nonempty summary || Py.truthy tags
                  then progress + 25 else progress in
  inr (Z.min progress 100).

Definition _require_table : M unit :=
  if table cfg then ret tt
  else raise (HTTPException 503 "Airtable not configured.").

Definition _require_genai : M unit :=
  if negb (env_set (GROQ_API_KEY cfg))
  then raise (HTTPException 500 "Groq API key not configured.")
  else if negb (groq_client cfg)
  then raise (HTTPException 500 "Groq client is not initialized.")
  else ret tt.

Definition _set_provider_issue (provider_name kind message : string) : M unit :=
  do! t <- now;
  fun w => (inr tt,
            Build_World (ext w) (SESSION_CACHE w)
              (<[provider_name := {| is_kind := kind;
                                     is_message := Text.take 300 message;
                                     is_updatedAt := t |}]> (PROVIDER_ISSUES w))
              (trace w)).

Definition _clear_provider_issue (provider_name : string) : M unit :=
  fun w => (inr tt,
            Build_World (ext w) (SESSION_CACHE w)
              (delete provider_name (PROVIDER_ISSUES w)) (trace w)).

Definition _is_quota_error (err : exn) : bool :=
  let text := Text.lower (exn_str err) in
  Text.contains "resource_exhausted" text
  || Text.contains "quota exceeded" text
  || Text.contains "429" text
  || Text.contains "rate limit" text
  || Text.contains "too many requests" text.

(** *** Local fallback artefacts *)

Definition fallback_description : string :=
  "This is a fallback outline generated locally because LLM quota is currently exhausted. "
  +:+ "It still provides a structured map so you can continue your workflow.".

Definition subtopic_dict (id title description : string) : json :=
  JObj [("id", JStr id); ("title", JStr title); ("description", JStr description)].

Definition _fallback_outline (topic : string) : json :=
  let base := match Text.strip topic with
              | EmptyString => "Research Topic"
              | b => b
              end in
  JObj [("title", JStr (x_title X base));
        ("description", JStr fallback_description);
        ("subTopics", JArr [
           subtopic_dict "1" "Core Concepts" ("Define the foundations of " +:+ base +:+ ".");
           subtopic_dict "2" "Current Landscape" ("Understand where " +:+ base +:+ " stands today.");
           subtopic_dict "3" "Practical Applications" ("Identify real-world uses of " +:+ base +:+ ".");
           subtopic_dict "4" "Risks and Constraints" ("Analyze challenges and limits in " +:+ base +:+ ".");
           subtopic_dict "5" "Future Outlook" ("Explore likely next developments in " +:+ base +:+ ".")])].

Definition _fallback_refinement (subtopic : string) (topic : json) : string :=
  "Fallback deep-dive for '" +:+ subtopic +:+ "' under '" +:+ str topic +:+ "'. "
  +:+ "LLM quota is exhausted, so this insight is generated locally to keep progress moving. "
  +:+ "Focus on definitions, current patterns, measurable outcomes, constraints, and practical next steps.".

(** [[x.get("title", "") for x in outline.get("subTopics", [])[:5]]] and
    then [[t for t in tags if t]] *)
Definition subtopic_titles5 (outline : json) : R (list json) :=
  do? subs <- Py.get outline "subTopics" (JArr []);
  do? first5 <- Py.slice_to 5 subs;
  do? xs <- Py.iterate first5;
  do? titles <- rmap (fun x => Py.get x "title" (JStr "")) xs;
  inr (filter (fun t => Py.truthy t = true) titles).

Definition _fallback_finalize (outline : json) : R (string * list json) :=
  do? title <- Py.get outline "title" (JStr "Untitled Topic");
  let summary :=
    "This session on " +:+ str title
    +:+ " was finalized with local fallback logic due to LLM quota exhaustion. "
    +:+ "You have a clear topic framing, subtopic breakdown, and stored refinements to continue analysis." in
  do? tags <- subtopic_titles5 outline;
  let tags := match tags with
              | [] => [JStr "Research"; JStr "Fallback"; JStr "Analysis"]
              | _ => tags
              end in
  inr (summary, tags).

(** *** Quota-aware LLM call *)

Definition is_digit (c : ascii) : bool :=
  ((48 <=? Text.code c) && (Text.code c <=? 57))%N.

(** The longest prefix of digits and what follows it. *)
Fixpoint span_digits (s : string) : string * string :=
  match s with
  | EmptyString => (EmptyString, EmptyString)
  | String c r =>
      if is_digit c then let (d, rest) := span_digits r in (String c d, rest)
      else (EmptyString, s)
  end.

Definition is_s (c : ascii) : bool :=
  Ascii.eqb (Text.lower_char c) (ascii_of_N 115).

(** A match of [retry in ([0-9]+(?:\.[0-9]+)?)s] (ignoring case) at the
    start of [s]: the text of group 1. *)
Definition hint_here (s : string) : option string :=
  if Text.startswith "retry in " (Text.lower s) then
    let (d, r) := span_digits (Text.drop 9 s) in
    if Text.nonempty d then
      match r with
      | String c r' =>
          if Ascii.eqb c (ascii_of_N 46) then
            let (f, r2) := span_digits r' in
            match r2 with
            | String c2 _ =>
                if Text.nonempty f && is_s c2 then Some (d +:+ "." +:+ f) else None
            | EmptyString => None
            end
          else if is_s c then Some d else None
      | EmptyString => None
      end
    else None
  else None.

(** [re.search(...)]: the leftmost match. *)
Fixpoint retry_hint (txt : string) : option string :=
  match hint_here txt with
  | Some g => Some g
  | None => match txt with
            | EmptyString => None
            | String _ r => retry_hint r
            end
  end.

(** The delay before the retry.  Converting the hint may raise, inside
    the [except] clause. *)
Definition retry_delay_ms (wait_ms : Z) (err : exn) : R Z :=
  match retry_hint (exn_str err) with
  | Some g =>
      match x_seconds_ms X g with
      | inr hinted_ms => inr (Z.max wait_ms hinted_ms)
      | inl t => inl (Exception t)
      end
  | None => inr wait_ms
  end.

(** [completion.choices[0].message.content or "{}"] *)
Definition llm_text (content : option string) : string :=
  match content with
  | Some t => if Text.nonempty t then t else "{}"
  | None => "{}"
  end.

(** One [chat.completions.create] call. *)
Definition llm_call (contents : string) : M string :=
  do! content <- provider (EvLLM contents) (x_llm X contents);
  ret (llm_text content).

(** The body of [for attempt in range(max_retries + 1)], with the
    iterations still to run as [fuel]. *)
Fixpoint retry_loop (fuel : nat) (attempt : Z) (contents : string)
         (max_retries wait_ms : Z) (last_error : option exn) : M string :=
  match fuel with
  | O => match last_error with
         | Some e => raise e
         | None => raise (Exception "LLM request failed unexpectedly.")
         end
  | S fuel' =>
      try_except (llm_call contents)
        (fun err =>
           if _is_quota_error err && (attempt <? max_retries) then
             (* Respect provider hint when present, but never wait less than wait_ms. *)
             do! delay_ms <- lift (retry_delay_ms wait_ms err);
             emit (EvSleep delay_ms) ;;
             retry_loop fuel' (attempt + 1) contents max_retries wait_ms (Some err)
           else raise err)
  end.

Definition _generate_content_with_retry (contents : string) (max_retries wait_ms : Z)
  : M string :=
  retry_loop (Z.to_nat (max_retries + 1)) 0 contents max_retries wait_ms None.

(** *** History filtering *)

Definition any_contains (needle : string) (l : list string) : bool :=
  existsb (fun x => Text.contains needle x) l.

Definition _matches_filters (outline : json) (tags : list string)
           (category_values : list string) (search : string) : R bool :=
  let category_ok :=
    match category_values with
    | [] => true
    | _ => let tag_l := map Text.lower tags in
           existsb (fun cat => any_contains cat tag_l) category_values
    end in
  if negb category_ok then inr false
  else if Text.nonempty search then
    do? title_v <- Py.get outline "title" (JStr "");
    let title := Text.lower (str title_v) in
    do? description_v <- Py.get outline "description" (JStr "");
    let description := Text.lower (str description_v) in
    do? subs <- Py.get outline "subTopics" (JArr []);
    do? xs <- Py.iterate subs;
    do? sub_titles <- rmap (fun x => Py.get x "title" (JStr "")) xs;
    let subtopics := map (fun t => Text.lower (str t)) sub_titles in
    let tags_l := map Text.lower tags in
    if negb (Text.contains search title)
       && negb (Text.contains search description)
       && forallb (fun x => negb (Text.contains search x)) subtopics
       && forallb (fun x => negb (Text.contains search x)) tags_l
    then inr false
    else inr true
  else inr true.

Definition find_clause (field value : string) : string :=
  "FIND('" +:+ _escape_formula value +:+ "', LOWER({" +:+ field +:+ "}))".

Definition user_formula (user_id : string) : string :=
  "{User ID} = '" +:+ _escape_formula user_id +:+ "'".

Definition _build_history_formula (user_id : string) (category_values : list string)
           (search : string) : string :=
  let clauses := [user_formula user_id] in
  let clauses :=
    match category_values with
    | [] => clauses
    | _ => (clauses ++ ["OR(" +:+ Text.join "," (map (find_clause "Tags") category_values)
                        +:+ ")"])%list
    end in
  let clauses :=
    if Text.nonempty search then
      (clauses ++ ["OR(" +:+ find_clause "Topic" search +:+ ","
                   +:+ find_clause "Subtopics" search +:+ ","
                   +:+ find_clause "Summary" search +:+ ","
                   +:+ find_clause "Tags" search +:+ ")"])%list
    else clauses in
  "AND(" +:+ Text.join "," clauses +:+ ")".

(** *** pydantic validation *)

Definition invalid {A} (j : json) : R A := inl (Exception (x_invalid X j)).

Definition validate_str (j : json) : R string :=
  match j with JStr s => inr s | _ => invalid j end.

Definition validate_opt_str (j : json) : R (option string) :=
  match j with
  | JNull => inr None
  | JStr s => inr (Some s)
  | _ => invalid j
  end.

Definition required (kv : list (string * json)) (k : string) (whole : json) : R json :=
  match Py.assoc k kv with Some v => inr v | None => invalid whole end.

Definition validate_SubTopic (j : json) : R SubTopic :=
  match j with
  | JObj kv =>
      do? i <- required kv "id" j; do? i <- validate_str i;
      do? t <- required kv "title" j; do? t <- validate_str t;
      do? d <- required kv "description" j; do? d <- validate_str d;
      inr {| st_id := i; st_title := t; st_description := d |}
  | _ => invalid j
  end.

(** [ResearchOutline.model_validate(j)] *)
Definition validate_ResearchOutline (j : json) : R ResearchOutline :=
  match j with
  | JObj kv =>
      do? t <- required kv "title" j; do? t <- validate_str t;
      do? d <- required kv "description" j; do? d <- validate_str d;
      do? s <- required kv "subTopics" j;
      match s with
      | JArr l =>
          do? subs <- rmap validate_SubTopic l;
          inr {| o_title := t; o_description := d; o_subTopics := subs |}
      | _ => invalid s
      end
  | _ => invalid j
  end.

(** [RefinementEntry.model_validate(j)] *)
Definition validate_RefinementEntry (j : json) : R RefinementEntry :=
  match j with
  | JObj kv =>
      do? s <- required kv "subtopic" j; do? s <- validate_str s;
      do? i <- required kv "insight" j; do? i <- validate_str i;
      do? c <- validate_opt_str (fields_get kv "createdAt" JNull);
      inr {| re_subtopic := s; re_insight := i; re_createdAt := c |}
  | _ => invalid j
  end.

(** A [List[str]] field. *)
Definition validate_str_list (j : json) : R (list string) :=
  match j with
  | JArr l => rmap validate_str l
  | _ => invalid j
  end.

(** *** History items *)

(** [[str(x).strip() for x in v if str(x).strip()]] *)
Definition stripped_nonblank (xs : list json) : list string :=
  filter (fun s => Text.nonempty s = true) (map (fun x => Text.strip (str x)) xs).

Definition category_values_of (category : string) : list string :=
  let normalized_category := Text.lower (Text.strip category) in
  if negb (Text.nonempty normalized_category) || String.eqb normalized_category "all"
  then []
  else filter (fun s => Text.nonempty s = true)
              (map Text.strip (Text.split_char (ascii_of_N 44) normalized_category)).

(** One turn of the loop over the fetched rows: [None] is [continue]. *)
Definition history_item (category_values : list string) (normalized_search : string)
           (r : record) : R (option ResearchResponse) :=
  let fields := rec_fields r in
  do? data <- _parse_data_blob fields;
  do? outline <- Py.getitem data "outline";
  do? tags_v <- Py.get data "tags" (JArr []);
  do? tag_items <- Py.iterate tags_v;
  let tags := stripped_nonblank tag_items in
  do? keep <- _matches_filters outline tags category_values normalized_search;
  if negb keep then inr None
  else
    let session_id :=
      Py.or_else (Py.or_else (fields_get fields "Session ID" JNull) (JStr (rec_id r)))
                 (JStr "UNKNOWN") in
    do? o <- validate_ResearchOutline outline;
    let created_at :=
      Py.or_else (fields_get fields "Created Time" JNull) (JStr (rec_createdTime r)) in
    do? progress <- _progress_for data;
    do? sid <- validate_str session_id;
    do? created <- validate_opt_str created_at;
    inr (Some {| rr_sessionId := sid; rr_outline := o; rr_createdAt := created;
                 rr_tags := tags; rr_progress := progress |}).

Fixpoint history_loop (category_values : list string) (normalized_search : string)
         (records : list record) : R (list ResearchResponse) :=
  match records with
  | [] => inr []
  | r :: rest =>
      do? item <- history_item category_values normalized_search r;
      do? items <- history_loop category_values normalized_search rest;
      inr (match item with Some i => i :: items | None => items end)
  end.

Definition table_all (formula : string) (max_records : option Z) : M (list record) :=
  _require_table ;;
  provider (EvAll formula max_records) (x_all X formula max_records).

Definition _build_history_items (user_id category search : string) (limit : option Z)
  : M (list ResearchResponse) :=
  let category_values := category_values_of category in
  let normalized_search := Text.lower (Text.strip search) in
  let formula := _build_history_formula user_id category_values normalized_search in
  do! records <-
    try_except (table_all formula limit)
      (* Backward compatibility with bases that don't have optional computed fields *)
      (fun _ => table_all (user_formula user_id) limit);
  lift (history_loop category_values normalized_search records).

(** *** Session lookup in the store *)

Definition _find_session_record (session_id user_id : string) : M (option record) :=
  if negb (table cfg) then ret None
  else
    (* Primary lookup by Session ID field. *)
    do! records <-
      table_all (_build_session_formula (_escape_formula session_id)
                                        (_escape_formula user_id)) (Some 1);
    match records with
    | r :: _ => ret (Some r)
    | [] =>
        (* Fallback lookup by Airtable record id. *)
        try_except
          (_require_table ;;
           do! rec <- provider (EvGet session_id) (x_get X session_id);
           match Py.assoc "User ID" (rec_fields rec) with
           | Some (JStr u) => if String.eqb u user_id then ret (Some rec) else ret None
           | _ => ret None
           end)
          (fun _ => ret None)
    end.

(** *** Schema-drift-tolerant writes *)

Definition marker_unknown : string := "Unknown field name: " +:+ Text.dq.
Definition marker_computed : string := "Field " +:+ Text.dq.
Definition marker_computed_suffix : string :=
  Text.dq +:+ " cannot accept a value because the field is computed".

(** [text.split(marker, 1)[1]] cut at its first double quote. *)
Definition named_field (marker text : string) : option string :=
  match Text.after_first marker text with
  | Some rest => Some (Text.before_char Text.quote rest)
  | None => None
  end.

Definition is_in (k : string) (payload : gmap string json) : bool :=
  match payload !! k with Some _ => true | None => false end.

(** The three tests of [_strip_invalid_airtable_field], each with the field
    it would remove. *)
Definition named_in_payload (marker text : string) (payload : gmap string json)
  : option string :=
  match named_field marker text with
  | Some field => if is_in field payload then Some field else None
  | None => None
  end.

Definition unknown_candidate (text : string) (payload : gmap string json) : option string :=
  if Text.contains marker_unknown text
  then named_in_payload marker_unknown text payload
  else None.

Definition computed_candidate (text : string) (payload : gmap string json) : option string :=
  if Text.contains marker_computed text && Text.contains marker_computed_suffix text
  then named_in_payload marker_computed text payload
  else None.

(** Some bases use restricted single-select fields and reject new values:
    drop [Status] so core [Data] updates can still persist. *)
Definition choice_candidate (text : string) (payload : gmap string json) : option string :=
  if Text.contains "INVALID_MULTIPLE_CHOICE_OPTIONS" text && is_in "Status" payload
  then Some "Status"
  else None.

Definition or_next {A} (first : option A) (next : option A) : option A :=
  match first with Some x => Some x | None => next end.

(** The field the call removes for this error text and payload, if any:
    the first of the three tests that applies. *)
Definition field_to_strip (text : string) (payload : gmap string json) : option string :=
  or_next (unknown_candidate text payload)
          (or_next (computed_candidate text payload) (choice_candidate text payload)).

(** Returns the flag and the payload as the call leaves it. *)
Definition _strip_invalid_airtable_field (err : exn) (payload : gmap string json)
  : bool * gmap string json :=
  match field_to_strip (exn_str err) payload with
  | Some field => (true, delete field payload)
  | None => (false, payload)
  end.

Definition table_create (fields : gmap string json) : M record :=
  _require_table ;; provider (EvCreate fields) (x_create X fields).

Definition table_update (record_id : string) (fields : gmap string json) : M unit :=
  _require_table ;; provider (EvUpdate record_id fields) (x_update X record_id fields).

Definition create_exhausted : exn :=
  Exception "Unable to create Airtable record after removing invalid fields.".

(** [for _ in range(8)] of [_create_record_resilient], with the turns
    still to run. *)
Fixpoint create_loop (turns : nat) (attempt_fields : gmap string json) : M record :=
  match turns with
  | O => raise create_exhausted
  | S turns' =>
      try_except (table_create attempt_fields)
        (fun e =>
           let (stripped, attempt_fields') :=
             _strip_invalid_airtable_field e attempt_fields in
           if stripped then create_loop turns' attempt_fields' else raise e)
  end.

Definition _create_record_resilient (fields : gmap string json) : M record :=
  create_loop 8 fields.

Definition critical_fields (fields : gmap string json) : gmap string json :=
  <["Data" := default (JStr "{}") (fields !! "Data")]>
    (<["Status" := default (JStr "Updated") (fields !! "Status")]> ∅).

Fixpoint update_loop (turns : nat) (record_id : string)
         (fields attempt_fields : gmap string json) : M unit :=
  match turns with
  | O =>
      (* Last resort: keep critical state update only. *)
      table_update record_id (critical_fields fields)
  | S turns' =>
      try_except (table_update record_id attempt_fields)
        (fun e =>
           let (stripped, attempt_fields') :=
             _strip_invalid_airtable_field e attempt_fields in
           if stripped then update_loop turns' record_id fields attempt_fields'
           else raise e)
  end.

Definition _update_record_resilient (record_id : string) (fields : gmap string json)
  : M unit :=
  update_loop 8 record_id fields fields.

(** *** Session cache *)

Definition _cache_get (session_id user_id : string) : M (option cache_item) :=
  fun w => (inr (match SESSION_CACHE w !! session_id with
                 | None => None
                 | Some item =>
                     if String.eqb (ci_user_id item) user_id then Some item else None
                 end), w).

Definition _cache_put (session_id user_id : string) (data : json)
           (created_at : option string) : M unit :=
  do! created <-
    match created_at with
    | Some c => if Text.nonempty c then ret c else now
    | None => now
    end;
  fun w => (inr tt,
            Build_World (ext w)
              (<[session_id := {| ci_user_id := user_id; ci_created_at := created;
                                  ci_data := data |}]> (SESSION_CACHE w))
              (PROVIDER_ISSUES w) (trace w)).

(** *** Pieces shared by the handlers *)

(** [@limiter.limit("1/5seconds")] on a handler: the check slowapi makes
    before it calls the handler.  A request over the limit never reaches
    the body. *)
Definition limiter_limit (route : string) (request : Request) : M unit :=
  do! verdict <- outside (x_limit X route request);
  match verdict with
  | Some detail => raise (HTTPException 429 detail)
  | None => ret tt
  end.

(** ["429" in str(e) or "ResourceExhausted" in str(e)] *)
Definition looks_like_quota (e : exn) : bool :=
  Text.contains "429" (exn_str e) || Text.contains "ResourceExhausted" (exn_str e).

(** [response.text or "{}"] *)
Definition text_or_braces (text : string) : string :=
  if Text.nonempty text then text else "{}".

(** [d[k] = v] *)
Definition setitem (d : json) (k : string) (v : json) : R json :=
  match d with
  | JObj kv => inr (JObj (Py.dict_set k v kv))
  | _ => inl (Exception ("'" +:+ Py.type_name d
                         +:+ "' object does not support item assignment"))
  end.

(** Keys of a Python dict: [True] and [1] are the same key. *)
Inductive key : Type := KNone | KNum (n : Z) | KStr (s : string).

#[local] Instance key_eq_dec : EqDecision key.
Proof. solve_decision. Defined.

Definition key_of (j : json) : R key :=
  match j with
  | JNull => inr KNone
  | JBool b => inr (KNum (if b then 1 else 0))
  | JNum n => inr (KNum n)
  | JStr s => inr (KStr s)
  | _ => inl (Exception ("unhashable type: '" +:+ Py.type_name j +:+ "'"))
  end.

(** [list(dict.fromkeys(l))], with the keys met so far. *)
Fixpoint fromkeys (seen : list key) (l : list json) : R (list json) :=
  match l with
  | [] => inr []
  | j :: r =>
      do? k <- key_of j;
      if bool_decide (k ∈ seen) then fromkeys seen r
      else do? rest <- fromkeys (k :: seen) r; inr (j :: rest)
  end.

(** The three-way [except] clause after an LLM call. *)
Definition on_llm_error {A} (fallback : M A) (detail_429 : string) (llm_error : exn)
  : M A :=
  if _is_quota_error llm_error && ENABLE_FALLBACK_ON_QUOTA cfg then
    _set_provider_issue "llm" "quota" (exn_str llm_error) ;;
    fallback
  else if _is_quota_error llm_error then
    _set_provider_issue "llm" "quota" (exn_str llm_error) ;;
    raise (HTTPException 429 detail_429)
  else
    _set_provider_issue "llm" "error" (exn_str llm_error) ;;
    raise llm_error.

(** [except HTTPException: raise] followed by [except Exception as e] of
    refine and finalize. *)
Definition on_workflow_error {A} (what : string) (e : exn) : M A :=
  match e with
  | HTTPException _ _ => raise e
  | Exception _ =>
      if looks_like_quota e then
        _set_provider_issue "llm" "quota" (exn_str e) ;;
        raise (HTTPException 429 "LLM API quota exhausted. Please try again soon.")
      else
        _set_provider_issue "airtable" "write_error" (exn_str e) ;;
        raise (HTTPException 500 (what +:+ exn_str e))
  end.

Definition not_found {A} : M A := raise (HTTPException 404 "Session not found.").

(** The session data of refine and finalize: the cache wins. *)
Definition session_data (cached : option cache_item) (record : option record) : M json :=
  match cached, record with
  | Some c, _ => ret (ci_data c)
  | None, Some r => lift (_parse_data_blob (rec_fields r))
  | None, None => not_found
  end.

Definition cached_created_at (cached : option cache_item) : option string :=
  match cached with Some c => Some (ci_created_at c) | None => None end.

(** *** POST /research/start *)

Definition start_prompt (topic : string) : string :=
  SYSTEM_PROMPT cfg +:+ nl +:+ nl +:+ "USER TOPIC: " +:+ topic.

Definition start_quota_detail : string :=
  "LLM quota exhausted. Add billing or a new API key, or enable fallback mode "
  +:+ "with ENABLE_FALLBACK_ON_QUOTA=true.".

Definition start_outline (topic : string) : M json :=
  try_except
    (do! text <- _generate_content_with_retry (start_prompt topic) 1 10000;
     do! raw_data <- lift (json_loads (JStr (text_or_braces text)));
     _clear_provider_issue "llm" ;;
     ret raw_data)
    (on_llm_error (ret (_fallback_outline topic)) start_quota_detail).

Definition start_create_fields (session_id user_id topic subtopics_list : string)
           (description : json) (session_payload : json) : gmap string json :=
  list_to_map
    [("Session ID", JStr session_id);
     ("User ID", JStr user_id);
     ("Topic", JStr topic);
     ("Subtopics", JStr subtopics_list);
     ("Initial Outline", description);
     ("Summary", JStr "");
     ("Tags", JStr "");
     ("Search Text", JStr (topic +:+ " " +:+ subtopics_list +:+ " " +:+ str description));
     ("Status", JStr "Initialized");
     ("Data", JStr (x_dumps X session_payload))].

(** The [try] inside the [if table:] block of start: the write, and the
    session id to answer with. *)
Definition start_store_write (session_id user_id topic : string)
           (raw_data session_payload : json) : M string :=
  do! subs <- lift (Py.get raw_data "subTopics" (JArr []));
  do! xs <- lift (Py.iterate subs);
  do! titles <- lift (rmap (fun s => Py.getitem s "title") xs);
  do! title_strs <- lift (Py.all_str titles);
  let subtopics_list := Text.join ", " title_strs in
  do! description <- lift (Py.get raw_data "description" (JStr ""));
  do! rec <- _create_record_resilient
               (start_create_fields session_id user_id topic subtopics_list
                                    description session_payload);
  (* Always return the persisted value so refine/finalize can resolve the same record. *)
  let persisted_session_id :=
    Py.or_else (fields_get (rec_fields rec) "Session ID" JNull) (JStr (rec_id rec)) in
  ret (if Py.truthy persisted_session_id then str persisted_session_id
       else session_id).

(** The [if table:] block of start: the session id to answer with. *)
Definition start_store (session_id user_id topic : string)
           (raw_data session_payload : json) : M string :=
  if table cfg then
    try_except
      (start_store_write session_id user_id topic raw_data session_payload)
      (fun ae =>
         _set_provider_issue "airtable" "write_error" (exn_str ae) ;;
         ret session_id)
  else ret session_id.

(** The body of the outer [try] of start. *)
Definition start_body (user_id : string) (payload : ResearchRequest)
  : M ResearchResponse :=
  do! raw_data <- start_outline (rq_topic payload);
  do! hex <- outside (x_urandom X);
  let generated_session_id := "SESS-" +:+ hex in
  let session_payload := session_dict raw_data (JArr []) (JStr "") (JArr []) in
  do! session_id <- start_store generated_session_id user_id (rq_topic payload)
                                raw_data session_payload;
  _cache_put session_id user_id session_payload None ;;
  do! outline <- lift (validate_ResearchOutline raw_data);
  ret {| rr_sessionId := session_id; rr_outline := outline; rr_createdAt := None;
         rr_tags := []; rr_progress := 50 |}.

(** The outer [except Exception as e] of start.  ([except
    json.JSONDecodeError] guards a block in which nothing decodes JSON.) *)
Definition on_start_error {A} (e : exn) : M A :=
  (* Specific handling for LLM quota issues *)
  if looks_like_quota e then
    _set_provider_issue "llm" "quota" (exn_str e) ;;
    raise (HTTPException 429
             "LLM API quota exhausted. Add billing/key or use fallback mode.")
  else raise (HTTPException 500 (exn_str e)).

Definition start_research (request : Request) (payload : ResearchRequest)
  : M ResearchResponse :=
  limiter_limit "start_research" request ;;
  _require_genai ;;
  do! user_id <- lift (_resolve_user_id request);
  try_except (start_body user_id payload) on_start_error.

(** *** GET /research/history and GET /research/history/paged *)

Definition get_history (request : Request) (category search : string)
  : M (list ResearchResponse) :=
  _require_table ;;
  do! user_id <- lift (_resolve_user_id request);
  try_except
    (do! items <- _build_history_items user_id category search None;
     _clear_provider_issue "airtable" ;;
     ret items)
    (fun e =>
       _set_provider_issue "airtable" "read_error" (exn_str e) ;;
       raise (HTTPException 500 ("Failed to fetch history: " +:+ exn_str e))).

(** [items[start:end]] for [0 <= start <= end] *)
Definition slice {A} (start stop : Z) (items : list A) : list A :=
  firstn (Z.to_nat (stop - start)) (skipn (Z.to_nat start) items).

Definition safe_page_of (page : Z) : Z := Z.max 1 page.
Definition safe_limit_of (limit : Z) : Z := Z.min (Z.max 1 limit) 100.
Definition fetch_limit_of (page limit : Z) : Z :=
  safe_page_of page * safe_limit_of limit + 1.

(** What [get_history_paged] answers once the items are fetched. *)
Definition paged_response (items : list ResearchResponse) (page limit : Z)
  : PagedHistoryResponse :=
  let safe_page := safe_page_of page in
  let safe_limit := safe_limit_of limit in
  let start := (safe_page - 1) * safe_limit in
  let stop := start + safe_limit in
  let paged_items := slice start stop items in
  let has_more := Z.of_nat (length items) >? stop in
  let total := start + Z.of_nat (length paged_items) + (if has_more then 1 else 0) in
  let total_pages := safe_page + (if has_more then 1 else 0) in
  {| ph_items := paged_items; ph_page := safe_page; ph_limit := safe_limit;
     ph_total := total; ph_totalPages := total_pages |}.

Definition get_history_paged (request : Request) (category search : string)
           (page limit : Z) : M PagedHistoryResponse :=
  _require_table ;;
  do! user_id <- lift (_resolve_user_id request);
  try_except
    (let fetch_limit := fetch_limit_of page limit in
     do! items <- _build_history_items user_id category search (Some fetch_limit);
     let response := paged_response items page limit in
     _clear_provider_issue "airtable" ;;
     ret response)
    (fun e =>
       _set_provider_issue "airtable" "read_error" (exn_str e) ;;
       raise (HTTPException 500 ("Failed to fetch paged history: " +:+ exn_str e))).

(** *** GET /research/session/{session_id} *)

(** The [SessionDetail(...)] call: the two list comprehensions of its
    arguments first, then pydantic's check of the remaining fields. *)
Definition build_SessionDetail (session_id outline created_at refinements summary tags : json)
  : R SessionDetail :=
  do? o <- validate_ResearchOutline outline;
  do? xs <- Py.iterate refinements;
  do? rs <- rmap validate_RefinementEntry xs;
  do? sid <- validate_str session_id;
  do? created <- validate_opt_str created_at;
  do? s <- validate_opt_str (Py.or_else summary JNull);
  do? ts <- validate_str_list tags;
  inr {| sd_sessionId := sid; sd_outline := o; sd_createdAt := created;
         sd_refinements := rs; sd_summary := s; sd_tags := ts |}.

Definition session_from_cache (session_id : string) (cached : cache_item)
  : R SessionDetail :=
  let cached_data := ci_data cached in
  do? outline <- Py.get cached_data "outline" (JObj []);
  do? refinements <- Py.get cached_data "refinements" (JArr []);
  do? summary <- Py.get cached_data "summary" JNull;
  do? tags <- Py.get cached_data "tags" (JArr []);
  build_SessionDetail (JStr session_id) outline (JStr (ci_created_at cached))
                      refinements summary tags.

Definition session_from_record (rec : record) : R SessionDetail :=
  let fields := rec_fields rec in
  do? data <- _parse_data_blob fields;
  do? outline <- Py.getitem data "outline";
  do? refinements <- Py.getitem data "refinements";
  do? summary <- Py.getitem data "summary";
  do? tags <- Py.getitem data "tags";
  build_SessionDetail
    (Py.or_else (fields_get fields "Session ID" JNull) (JStr (rec_id rec)))
    outline
    (Py.or_else (fields_get fields "Created Time" JNull) (JStr (rec_createdTime rec)))
    refinements summary tags.

(** The path of [get_session] after a cache miss. *)
Definition session_via_store (session_id user_id : string) : M SessionDetail :=
  _require_table ;;
  do! record <- _find_session_record session_id user_id;
  match record with
  | None => not_found
  | Some rec => lift (session_from_record rec)
  end.

(** [except HTTPException: raise] followed by [except Exception as e]. *)
Definition on_session_error {A} (e : exn) : M A :=
  match e with
  | HTTPException _ _ => raise e
  | Exception _ => raise (HTTPException 500 ("Failed to fetch session: " +:+ exn_str e))
  end.

Definition get_session (session_id : string) (request : Request) : M SessionDetail :=
  do! user_id <- lift (_resolve_user_id request);
  try_except
    (do! cached <- _cache_get session_id user_id;
     match cached with
     | Some c => lift (session_from_cache session_id c)
     | None => session_via_store session_id user_id
     end)
    on_session_error.

(** *** POST /research/refine *)

Definition refine_prompt (title description : json) (subtopic : string) : string :=
  REFINEMENT_PROMPT cfg +:+ nl +:+ nl
  +:+ "TOPIC: " +:+ str title +:+ nl
  +:+ "TOPIC DESCRIPTION: " +:+ str description +:+ nl
  +:+ "SELECTED SUBTOPIC: " +:+ subtopic +:+ nl.

Definition refine_insight (outline : json) (subtopic : string) : M string :=
  try_except
    (do! title <- lift (Py.get outline "title" (JStr subtopic));
     do! description <- lift (Py.get outline "description" (JStr ""));
     do! text <- _generate_content_with_retry
                   (refine_prompt title description subtopic) 1 10000;
     do! parsed <- lift (json_loads (JStr (text_or_braces text)));
     do! insight <- lift (Py.get parsed "insight" (JStr ""));
     _clear_provider_issue "llm" ;;
     ret (Text.strip (str insight)))
    (on_llm_error
       (do! title <- lift (Py.get outline "title" (JStr subtopic));
        ret (_fallback_refinement subtopic title))
       "LLM quota exhausted. Cannot generate deep-dive.").

(** [refinements.append(entry)] *)
Definition append (refinements entry : json) : R json :=
  match refinements with
  | JArr l => inr (JArr (l ++ [entry])%list)
  | _ => inl (Py.attribute_error refinements "append")
  end.

Definition refine_update_fields (data outline : json) (subtopic insight : string)
  : R (gmap string json) :=
  do? summary <- Py.get data "summary" (JStr "");
  do? tags <- Py.get data "tags" (JArr []);
  do? tags_text <- Py.join ", " tags;
  do? title <- Py.get outline "title" (JStr "");
  do? description <- Py.get outline "description" (JStr "");
  inr (list_to_map
         [("Data", JStr (x_dumps X data));
          ("Summary", summary);
          ("Tags", JStr tags_text);
          ("Search Text", JStr (str title +:+ " " +:+ str description +:+ " "
                                +:+ subtopic +:+ " " +:+ insight));
          ("Status", JStr "Refined")]).

(** What refine and finalize hold when they reach the store-write step:
    the row found (if any), the fields to write (the dict literal is only
    evaluated under [if record:]) and the answer to return. *)
Record staged (A : Type) : Type := {
  st_record : option record;
  st_fields : R (gmap string json);
  st_response : A;
}.
Arguments st_record {A} _.
Arguments st_fields {A} _.
Arguments st_response {A} _.

(** When the session came from the cache, [data] is the very dict the cache
    entry holds: an assignment to one of its keys shows in the cache at
    once. *)
Definition mutate_cached (session_id : string) (cached : option cache_item) (data : json)
  : M unit :=
  match cached with
  | Some c =>
      fun w => (inr tt,
                Build_World (ext w)
                  (<[session_id := {| ci_user_id := ci_user_id c;
                                      ci_created_at := ci_created_at c;
                                      ci_data := data |}]> (SESSION_CACHE w))
                  (PROVIDER_ISSUES w) (trace w))
  | None => ret tt
  end.

(** The store-write step of refine and finalize. *)
Definition write_back (record : option record) (fields : R (gmap string json)) : M unit :=
  match record with
  | Some rec =>
      do! fs <- lift fields;
      _update_record_resilient (rec_id rec) fs ;;
      _clear_provider_issue "airtable"
  | None => ret tt
  end.

(** Refine up to and including the cache write: what is left is the
    store-write step and the answer. *)
Definition refine_stage (user_id : string) (payload : RefineRequest)
  : M (staged RefineResponse) :=
  do! cached <- _cache_get (rf_sessionId payload) user_id;
  do! record <- _find_session_record (rf_sessionId payload) user_id;
  do! data <- session_data cached record;
  do! outline <- lift (Py.getitem data "outline");
  do! insight <- refine_insight outline (rf_subtopic payload);
  if negb (Text.nonempty insight)
  then raise (HTTPException 500 "AI returned an empty refinement.")
  else
    do! refinements <- lift (Py.getitem data "refinements");
    match refinements with
    | JArr _ =>
        do! created <- now;
        do! refinements <-
          lift (append refinements
                  (JObj [("subtopic", JStr (rf_subtopic payload));
                         ("insight", JStr insight);
                         ("createdAt", JStr created)]));
        do! data <- lift (setitem data "refinements" refinements);
        (* [data] may be the cached dict itself; the cache write that follows
           at once stores the same value. *)
        _cache_put (rf_sessionId payload) user_id data (cached_created_at cached) ;;
        ret {| st_record := record;
               st_fields := refine_update_fields data outline (rf_subtopic payload) insight;
               st_response := {| rfr_sessionId := rf_sessionId payload;
                                 rfr_subtopic := rf_subtopic payload;
                                 rfr_insight := insight |} |}
    | _ => raise (Py.attribute_error refinements "append")
    end.

(** The body of the [try] of refine. *)
Definition refine_body (user_id : string) (payload : RefineRequest) : M RefineResponse :=
  do! st <- refine_stage user_id payload;
  write_back (st_record st) (st_fields st) ;;
  ret (st_response st).

Definition refine_research (request : Request) (payload : RefineRequest)
  : M RefineResponse :=
  limiter_limit "refine_research" request ;;
  _require_genai ;;
  do! user_id <- lift (_resolve_user_id request);
  try_except (refine_body user_id payload)
             (on_workflow_error "Failed to refine research: ").

(** *** POST /research/finalize *)

(** [[str(x.get("insight", "")) for x in refinements if x.get("insight")]] *)
Definition insights (refinements : json) : R (list json) :=
  do? xs <- Py.iterate refinements;
  do? vs <- rmap (fun x => Py.get x "insight" JNull) xs;
  inr (map (fun v => JStr (str v)) (filter (fun v => Py.truthy v = true) vs)).

Definition findings_text (outline refinements : json) : R string :=
  do? description <- Py.get outline "description" (JStr "");
  do? more <- insights refinements;
  let findings := description :: more in
  inr (Text.join nl (map (fun x => "- " +:+ str x)
                         (filter (fun x => Py.truthy x = true) findings))).

Definition finalize_prompt (title : json) (findings : string) : string :=
  FINALIZE_PROMPT cfg +:+ nl +:+ nl
  +:+ "TOPIC: " +:+ str title +:+ nl
  +:+ "FINDINGS:" +:+ nl +:+ findings +:+ nl.

Definition finalize_llm (outline : json) (findings : string) : M (string * list json) :=
  try_except
    (do! title <- lift (Py.get outline "title" (JStr "Untitled"));
     do! text <- _generate_content_with_retry (finalize_prompt title findings) 1 10000;
     do! parsed <- lift (json_loads (JStr (text_or_braces text)));
     do! summary <- lift (Py.get parsed "summary" (JStr ""));
     do! tags_v <- lift (Py.get parsed "tags" (JArr []));
     do! tag_items <- lift (Py.iterate tags_v);
     _clear_provider_issue "llm" ;;
     ret (Text.strip (str summary), map JStr (stripped_nonblank tag_items)))
    (on_llm_error (lift (_fallback_finalize outline))
                  "LLM quota exhausted. Cannot finalize session.").

(** [[str(t).strip() for t in (payload.tags or []) if str(t).strip()]] *)
Definition selected_tags (payload : FinalizeRequest) : list string :=
  stripped_nonblank (map JStr (default [] (fq_tags payload))).

Definition finalize_update_fields (data outline : json) (summary : string) (tags : json)
  : R (gmap string json) :=
  do? tags_text <- Py.join ", " tags;
  do? title <- Py.get outline "title" (JStr "");
  do? description <- Py.get outline "description" (JStr "");
  do? tags_words <- Py.join " " tags;
  inr (list_to_map
         [("Data", JStr (x_dumps X data));
          ("Summary", JStr summary);
          ("Tags", JStr tags_text);
          ("Search Text", JStr (str title +:+ " " +:+ str description +:+ " "
                                +:+ summary +:+ " " +:+ tags_words));
          ("Status", JStr "Finalized")]).

(** Finalize up to and including the cache write. *)
Definition finalize_stage (user_id : string) (payload : FinalizeRequest)
  : M (staged (string * json)) :=
  do! cached <- _cache_get (fq_sessionId payload) user_id;
  do! record <- _find_session_record (fq_sessionId payload) user_id;
  do! data <- session_data cached record;
  do! outline <- lift (Py.getitem data "outline");
  do! refinements <- lift (Py.getitem data "refinements");
  do! findings <- lift (findings_text outline refinements);
  do! st <- finalize_llm outline findings;
  let (summary, tags) := st in
  if negb (Text.nonempty summary)
  then raise (HTTPException 500 "AI returned an empty final summary.")
  else
    do! tags <- match tags with
                | [] => lift (subtopic_titles5 outline)
                | _ => ret tags
                end;
    let final_tags := match selected_tags payload with
                      | [] => tags
                      | sel => map JStr sel
                      end in
    do! data <- lift (setitem data "summary" (JStr summary));
    mutate_cached (fq_sessionId payload) cached data ;;
    do! unique <- lift (fromkeys [] final_tags);
    do! data <- lift (setitem data "tags" (JArr unique));
    _cache_put (fq_sessionId payload) user_id data (cached_created_at cached) ;;
    ret {| st_record := record;
           st_fields := finalize_update_fields data outline summary (JArr unique);
           st_response := (summary, JArr unique) |}.

(** The body of the [try] of finalize. *)
Definition finalize_body (user_id : string) (payload : FinalizeRequest)
  : M FinalizeResponse :=
  do! st <- finalize_stage user_id payload;
  write_back (st_record st) (st_fields st) ;;
  do! tag_strs <- lift (validate_str_list (snd (st_response st)));
  ret {| fr_sessionId := fq_sessionId payload;
         fr_summary := fst (st_response st);
         fr_tags := tag_strs |}.

Definition finalize_research (request : Request) (payload : FinalizeRequest)
  : M FinalizeResponse :=
  limiter_limit "finalize_research" request ;;
  _require_genai ;;
  do! user_id <- lift (_resolve_user_id request);
  try_except (finalize_body user_id payload)
             (on_workflow_error "Failed to finalize research: ").

End Model.

Arguments ret {X A} _ _.
Arguments raise {X A} _ _.
Arguments bind {X A B} _ _ _.
Arguments try_except {X A} _ _ _.
Arguments lift {X A} _ _.
Arguments emit {X} _ _.
Arguments not_found {X A} _.
Arguments on_session_error {X A} _ _.
Arguments st_record {A} _.
Arguments st_fields {A} _.
Arguments st_response {A} _.
Arguments on_start_error {X A} _ _.
Arguments on_workflow_error {X A} _ _ _.

(** ** The remaining handlers: categories, exports and health *)

(** What a ReportLab canvas is asked to do. *)
Inductive canvas_op : Type :=
| ShowPage
| SetFont (name : string) (size : Z)
| DrawString (x y : Z) (text : string).

(** A Starlette [Response]. *)
Record Response : Type := {
  content : string;
  media_type : string;
  headers : list (string * string);
}.

(** The two writers the exports hand their data to: [r_csv_row] is the
    text [csv.writer(buffer).writerow(cells)] adds to the buffer, [r_pdf]
    the bytes of the document once the canvas is saved. *)
Record Renderers : Type := {
  r_csv_row : list json -> string;
  r_pdf : list canvas_op -> string;
}.

(** What [GET /health/providers] reports. *)
Record llm_health : Type := {
  lh_provider : string;
  lh_configured : bool;
  lh_model : string;
  lh_fallbackOnQuota : bool;
  lh_issue : option issue;
}.

Record airtable_health : Type := {
  ah_configured : bool;
  ah_baseId : string;
  ah_table : string;
  ah_issue : option issue;
}.

Record providers_health : Type := {
  hp_backend : string;
  hp_llm : llm_health;
  hp_airtable : airtable_health;
}.

(** [list.sort()] on strings: code point order. *)
Definition string_le (a b : string) : Prop := String.leb a b = true.

#[local] Instance string_le_dec (a b : string) : Decision (string_le a b).
Proof. unfold string_le. apply _. Defined.

Definition sort (l : list string) : list string := merge_sort string_le l.

Section Reports.

Variable X : Externals.
Variable cfg : Config.
Variable render : Renderers.
Variable GROQ_MODEL : string.
Variable AIRTABLE_TABLE_NAME : string.

Notation "'do!' x <- m ; k" := (bind m (fun x => k))
  (at level 10, x name, m at level 100, k at level 200).
Notation "m ;; k" := (bind m (fun _ => k))
  (at level 100, k at level 200, right associativity).

(** *** GET /research/categories *)

(** One turn of the loop over the tags of a row: the lower-case keys seen
    so far and the categories collected so far. *)
Definition add_category (acc : gset string * list string) (tag : json)
  : gset string * list string :=
  let tag_s := Text.strip (str X tag) in
  if negb (Text.nonempty tag_s) then acc
  else
    let key := Text.lower tag_s in
    if bool_decide (key ∈ fst acc) then acc
    else ({[ key ]} ∪ fst acc, (snd acc ++ [tag_s])%list).

Fixpoint categories_loop (records : list record) (acc : gset string * list string)
  : R (gset string * list string) :=
  match records with
  | [] => inr acc
  | r :: rest =>
      do? data <- _parse_data_blob X (rec_fields r);
      do? tags_v <- Py.get data "tags" (JArr []);
      do? tags <- Py.iterate tags_v;
      categories_loop rest (fold_left add_category tags acc)
  end.

Definition get_history_categories (request : Request) : M X (list string) :=
  _require_table X cfg ;;
  do! user_id <- lift (_resolve_user_id cfg request);
  try_except
    (do! records <- table_all X cfg (user_formula user_id) (Some 500);
     do! acc <- lift (categories_loop records (∅, []));
     let categories := sort (snd acc) in
     _clear_provider_issue X "airtable" ;;
     ret categories)
    (fun e =>
       _set_provider_issue X "airtable" "read_error" (exn_str e) ;;
       raise (HTTPException 500 ("Failed to fetch categories: " +:+ exn_str e))).

(** *** GET /research/export/csv *)

Definition csv_header : list json :=
  map JStr ["sessionId"; "createdAt"; "title"; "description"; "subtopics";
            "summary"; "tags"].

(** The cells of the row written for one record. *)
Definition csv_cells (r : record) : R (list json) :=
  let fields := rec_fields r in
  do? data <- _parse_data_blob X fields;
  do? outline <- Py.getitem data "outline";
  do? subs <- Py.get outline "subTopics" (JArr []);
  do? xs <- Py.iterate subs;
  do? titles <- rmap (fun x => Py.get x "title" (JStr "")) xs;
  do? title_strs <- Py.all_str titles;
  let subtopics := Text.join ", " title_strs in
  let session_id := fields_get fields "Session ID" (JStr "UNKNOWN") in
  let created_at :=
    Py.or_else (Py.or_else (fields_get fields "Created Time" JNull)
                           (JStr (rec_createdTime r)))
               (JStr "") in
  do? title <- Py.get outline "title" (JStr "");
  do? description <- Py.get outline "description" (JStr "");
  do? summary <- Py.get data "summary" (JStr "");
  do? tags <- Py.get data "tags" (JArr []);
  do? tags_text <- Py.join ", " tags;
  inr [session_id; created_at; title; description; JStr subtopics; summary;
       JStr tags_text].

(** The loop over the records: the buffer grows by one row per record. *)
Fixpoint csv_rows (records : list record) (buffer : string) : R string :=
  match records with
  | [] => inr buffer
  | r :: rest =>
      do? cells <- csv_cells r;
      csv_rows rest (buffer +:+ r_csv_row render cells)
  end.

Definition attachment (filename : string) : list (string * string) :=
  [("Content-Disposition",
    "attachment; filename=" +:+ Text.dq +:+ filename +:+ Text.dq)].

Definition export_history_csv (request : Request) : M X Response :=
  _require_table X cfg ;;
  do! user_id <- lift (_resolve_user_id cfg request);
  try_except
    (do! records <- table_all X cfg (user_formula user_id) None;
     let buffer := r_csv_row render csv_header in
     do! buffer <- lift (csv_rows records buffer);
     ret {| content := buffer; media_type := "text/csv";
            headers := attachment "cerebro-history.csv" |})
    (fun e => raise (HTTPException 500 ("Failed to export CSV: " +:+ exn_str e))).

(** *** GET /research/export/pdf/{session_id} *)

(** The canvas while the report is written: the height [y] of the next
    line and the operations so far. *)
Definition canvas : Type := Z * list canvas_op.

Definition write_line (text : string) (size : Z) (c : canvas) : canvas :=
  let (y, ops) := c in
  let (y, ops) := if y <? 60 then (800, (ops ++ [ShowPage])%list) else (y, ops) in
  (y - 18,
   (ops ++ [SetFont "Helvetica" size; DrawString 50 y (Text.take 110 text)])%list).

(** [for x in xs: write_line(line(x))], where building the line may
    raise. *)
Fixpoint write_each (line : json -> R string) (xs : list json) (c : canvas) : R canvas :=
  match xs with
  | [] => inr c
  | x :: rest => do? text <- line x; write_each line rest (write_line text 11 c)
  end.

(** [summary.split("\n")] *)
Definition split_lines (summary : json) : R (list string) :=
  match summary with
  | JStr s => inr (Text.split_char (ascii_of_N 10) s)
  | _ => inl (Py.attribute_error summary "split")
  end.

Definition subtopic_line (sub : json) : R string :=
  do? title <- Py.get sub "title" (JStr "");
  inr ("- " +:+ str X title).

Definition refinement_line (ref : json) : R string :=
  do? subtopic <- Py.get ref "subtopic" (JStr "");
  do? insight <- Py.get ref "insight" (JStr "");
  do? insight90 <- Py.slice_to 90 insight;
  inr ("- " +:+ str X subtopic +:+ ": " +:+ str X insight90).

(** The report of one record, line by line. *)
Definition pdf_document (session_id : string) (rec : record) : R canvas :=
  let fields := rec_fields rec in
  do? data <- _parse_data_blob X fields;
  do? outline <- Py.getitem data "outline";
  do? refinements <- Py.getitem data "refinements";
  do? summary <- Py.getitem data "summary";
  do? summary <- (if Py.truthy summary then inr summary
                  else Py.get outline "description" (JStr ""));
  do? tags <- Py.getitem data "tags";
  let c : canvas := (800, []) in
  let c := write_line "Cerebro Research Report" 16 c in
  let c := write_line ("Session ID: " +:+ session_id) 11 c in
  do? title <- Py.get outline "title" (JStr "Untitled");
  let c := write_line ("Topic: " +:+ str X title) 11 c in
  let c := write_line "" 11 c in
  let c := write_line "Summary:" 12 c in
  do? chunks <- split_lines summary;
  let c := fold_left (fun c chunk => write_line chunk 11 c) chunks c in
  let c := write_line "" 11 c in
  let c := write_line "Subtopics:" 12 c in
  do? subs <- Py.get outline "subTopics" (JArr []);
  do? subs <- Py.iterate subs;
  do? c <- write_each subtopic_line subs c;
  do? c <- (if Py.truthy refinements then
              let c := write_line "" 11 c in
              let c := write_line "Refinements:" 12 c in
              do? refs <- Py.iterate refinements;
              write_each refinement_line refs c
            else inr c);
  if Py.truthy tags then
    let c := write_line "" 11 c in
    let c := write_line "Tags:" 12 c in
    do? tags_text <- Py.join ", " tags;
    inr (write_line tags_text 11 c)
  else inr c.

(** [except HTTPException: raise] followed by [except Exception as e]. *)
Definition on_export_error {A} (e : exn) : M X A :=
  match e with
  | HTTPException _ _ => raise e
  | Exception _ => raise (HTTPException 500 ("Failed to export PDF: " +:+ exn_str e))
  end.

Definition export_session_pdf (session_id : string) (request : Request) : M X Response :=
  _require_table X cfg ;;
  do! user_id <- lift (_resolve_user_id cfg request);
  try_except
    (do! record <- _find_session_record X cfg session_id user_id;
     match record with
     | None => not_found
     | Some rec =>
         do! c <- lift (pdf_document session_id rec);
         ret {| content := r_pdf render (snd c); media_type := "application/pdf";
                headers := attachment ("cerebro-" +:+ session_id +:+ ".pdf") |}
     end)
    on_export_error.

(** *** GET /health and GET /health/providers *)

Definition health_check : M X string := ret "healthy".

Definition provider_health : M X providers_health :=
  fun w =>
    (inr {| hp_backend := "online";
            hp_llm := {| lh_provider := "groq";
                         lh_configured := env_set (GROQ_API_KEY cfg);
                         lh_model := "groq:" +:+ GROQ_MODEL;
                         lh_fallbackOnQuota := ENABLE_FALLBACK_ON_QUOTA cfg;
                         lh_issue := PROVIDER_ISSUES w !! "llm" |};
            hp_airtable := {| ah_configured := table cfg;
                              ah_baseId := default "" (AIRTABLE_BASE_ID cfg);
                              ah_table := AIRTABLE_TABLE_NAME;
                              ah_issue := PROVIDER_ISSUES w !! "airtable" |} |},
     w).

End Reports.

Arguments on_export_error {X A} _ _.

(** ** A small outside world to run the program in

    Scripted providers: the LLM answers from a list of prepared replies, the
    table holds a list of rows, every row of which satisfies any formula,
    and a write fails with the next text of a list of prepared failures
    before it succeeds. *)

Module Demo.

Record state : Type := {
  llm_replies : list (string + option string);
  rows : list record;
  write_failures : list string;
  ticks : nat;
}.

Definition llm (contents : string) (s : state) : (string + option string) * state :=
  match llm_replies s with
  | [] => (inl "Connection error.", s)
  | r :: rest =>
      (r, {| llm_replies := rest; rows := rows s;
             write_failures := write_failures s; ticks := ticks s |})
  end.

Definition all (formula : string) (max_records : option Z) (s : state)
  : (string + list record) * state :=
  (inr (match max_records with
        | Some n => firstn (Z.to_nat n) (rows s)
        | None => rows s
        end), s).

Definition get (record_id : string) (s : state) : (string + record) * state :=
  match List.find (fun r => String.eqb (rec_id r) record_id) (rows s) with
  | Some r => (inr r, s)
  | None => (inl "404 Client Error: Not Found", s)
  end.

Definition next_write {A} (ok : A) (s : state) : (string + A) * state :=
  match write_failures s with
  | [] => (inr ok, s)
  | t :: rest =>
      (inl t, {| llm_replies := llm_replies s; rows := rows s;
                 write_failures := rest; ticks := ticks s |})
  end.

Definition create (fields : gmap string json) (s : state) : (string + record) * state :=
  next_write {| rec_id := "recNEW0000000001";
                rec_createdTime := "2026-01-01T00:00:00.000Z";
                rec_fields := map_to_list fields |} s.

Definition update (record_id : string) (fields : gmap string json) (s : state)
  : (string + unit) * state :=
  next_write tt s.

Definition clock (s : state) : string * state :=
  ("2026-01-01T00:00:00+00:00#" +:+ pretty (ticks s),
   {| llm_replies := llm_replies s; rows := rows s;
      write_failures := write_failures s; ticks := S (ticks s) |}).

Definition urandom (s : state) : string * state := ("0A1B2C3D", s).

Definition insight_text : string := "Graph stores keep relations first-class.".

Definition summary_text : string := "Graph databases model data as nodes and edges.".

Definition field_text (k v : string) : string :=
  Text.dq +:+ k +:+ Text.dq +:+ ": " +:+ v.

(** The LLM's reply to refine: an object with the key [insight]. *)
Definition insight_reply : string :=
  "{" +:+ field_text "insight" (Text.dq +:+ insight_text +:+ Text.dq) +:+ "}".

(** The LLM's reply to finalize: a summary and four tags, one of them
    twice. *)
Definition finalize_reply : string :=
  "{" +:+ field_text "summary" (Text.dq +:+ summary_text +:+ Text.dq) +:+ ", "
  +:+ field_text "tags" ("[" +:+ Text.dq +:+ "Graphs" +:+ Text.dq +:+ ", "
                         +:+ Text.dq +:+ "Databases" +:+ Text.dq +:+ ", "
                         +:+ Text.dq +:+ "Graphs" +:+ Text.dq +:+ ", "
                         +:+ Text.dq +:+ "Storage" +:+ Text.dq +:+ "]")
  +:+ "}".

(** A decoder for the documents the examples need. *)
Definition loads (s : string) : string + json :=
  if String.eqb s "{}" then inr (JObj [])
  else if String.eqb s insight_reply then inr (JObj [("insight", JStr insight_text)])
  else if String.eqb s finalize_reply
       then inr (JObj [("summary", JStr summary_text);
                       ("tags", JArr [JStr "Graphs"; JStr "Databases";
                                      JStr "Graphs"; JStr "Storage"])])
  else inl "Expecting value: line 1 column 1 (char 0)".

(** A compact serialiser, for strings that need no escaping. *)
Fixpoint dumps (j : json) : string :=
  match j with
  | JNull => "null"
  | JBool b => if b then "true" else "false"
  | JNum n => pretty n
  | JStr s => Text.dq +:+ s +:+ Text.dq
  | JArr l => "[" +:+ Text.join ", " (map dumps l) +:+ "]"
  | JObj kv =>
      "{" +:+ Text.join ", "
                (map (fun p => Text.dq +:+ fst p +:+ Text.dq +:+ ": " +:+ dumps (snd p)) kv)
      +:+ "}"
  end.

Definition repr (j : json) : string :=
  match j with
  | JNull => "None"
  | JBool b => if b then "True" else "False"
  | _ => dumps j
  end.

Definition upper_char (c : ascii) : ascii :=
  let n := Text.code c in
  if ((97 <=? n) && (n <=? 122))%N then ascii_of_N (n - 32) else c.

Definition is_letter (c : ascii) : bool :=
  let n := Text.code (Text.lower_char c) in ((97 <=? n) && (n <=? 122))%N.

(** [str.title] on plain letters. *)
Fixpoint title_from (after_letter : bool) (s : string) : string :=
  match s with
  | EmptyString => EmptyString
  | String c r =>
      String (if after_letter then Text.lower_char c else upper_char c)
             (title_from (is_letter c) r)
  end.

Definition digit_value (c : ascii) : Z := Z.of_N (Text.code c) - 48.

Fixpoint digits_value (acc : Z) (s : string) : Z :=
  match s with
  | EmptyString => acc
  | String c r => digits_value (10 * acc + digit_value c) r
  end.

(** Whole seconds to milliseconds; a fraction is dropped. *)
Definition seconds_ms (s : string) : Z :=
  1000 * digits_value 0 (Text.before_char (ascii_of_N 46) s).

(** The conversion as Python makes it: a product of [2 ^ 1024] or more is
    infinite as a float, and [int] refuses it. *)
Definition to_ms (s : string) : string + Z :=
  if 2 ^ 1024 <=? seconds_ms s
  then inl "cannot convert float infinity to integer"
  else inr (seconds_ms s).

(** A limiter that lets every request through: the requests of the
    examples come more than five seconds apart. *)
Definition unlimited (route : string) (request : Request) (s : state)
  : option string * state := (None, s).

Definition externals : Externals := {|
  Ext := state;
  x_llm := llm;
  x_all := all;
  x_get := get;
  x_create := create;
  x_update := update;
  x_now := clock;
  x_urandom := urandom;
  x_loads := loads;
  x_dumps := dumps;
  x_repr := repr;
  x_title := title_from false;
  x_seconds_ms := to_ms;
  x_invalid := fun _ => "1 validation error";
  x_limit := unlimited;
|}.

Definition config : Config := {|
  GROQ_API_KEY := Some "gsk_demo";
  groq_importable := true;
  AIRTABLE_API_KEY := Some "pat_demo";
  AIRTABLE_BASE_ID := Some "app_demo";
  DEFAULT_USER_ID := "local-dev";
  AUTH_TOKENS := ∅;
  ENABLE_FALLBACK_ON_QUOTA := true;
  SYSTEM_PROMPT := "You are the Cerebro Research Decomposer.";
  REFINEMENT_PROMPT := "You are a research analyst.";
  FINALIZE_PROMPT := "You are a research summarizer.";
|}.

Definition world (s : state) : World externals :=
  Build_World (s : Ext externals) ∅ ∅ [].

Definition anonymous : Request :=
  {| authorization := None; client_host := Some "203.0.113.7" |}.

(** A row written by an older version of the service: no [Data] column. *)
Definition plain_row (n : Z) (topic : string) : record := {|
  rec_id := "rec" +:+ pretty n;
  rec_createdTime := "2026-01-0" +:+ pretty n +:+ "T00:00:00.000Z";
  rec_fields := [("Session ID", JStr ("SESS-" +:+ pretty n));
                 ("User ID", JStr "local-dev");
                 ("Topic", JStr topic);
                 ("Initial Outline", JStr ("About " +:+ topic))];
|}.

Definition five_rows : list record :=
  [plain_row 1 "Graph databases"; plain_row 2 "Graph theory";
   plain_row 3 "Graph neural networks"; plain_row 4 "Knowledge graphs";
   plain_row 5 "Graph drawing"].

Definition idle (rs : list record) : state :=
  {| llm_replies := []; rows := rs; write_failures := []; ticks := 0 |}.

(** The same service with no Airtable credentials. *)
Definition offline : Config := {|
  GROQ_API_KEY := Some "gsk_demo";
  groq_importable := true;
  AIRTABLE_API_KEY := None;
  AIRTABLE_BASE_ID := None;
  DEFAULT_USER_ID := "local-dev";
  AUTH_TOKENS := ∅;
  ENABLE_FALLBACK_ON_QUOTA := true;
  SYSTEM_PROMPT := "You are the Cerebro Research Decomposer.";
  REFINEMENT_PROMPT := "You are a research analyst.";
  FINALIZE_PROMPT := "You are a research summarizer.";
|}.

(** A cache entry as start leaves it after a fallback outline. *)
Definition cached_item (user_id : string) : cache_item := {|
  ci_user_id := user_id;
  ci_created_at := "2026-01-01T00:00:00+00:00#0";
  ci_data := session_dict (_fallback_outline externals "graph databases")
                          (JArr []) (JStr "") (JArr []);
|}.

Definition cached_world (session_id user_id : string) (s : state) : World externals :=
  Build_World (s : Ext externals) {[ session_id := cached_item user_id ]} ∅ [].

(** The text of the error pyairtable raises when the table has no column
    of that name. *)
Definition unknown_field (name : string) : string :=
  "422 Client Error: Unprocessable Entity [Error: {'type': 'UNKNOWN_FIELD_NAME', "
  +:+ "'message': 'Unknown field name: " +:+ Text.dq +:+ name +:+ Text.dq +:+ "'}]".

(** A table that has none of these eight columns reports them one by one. *)
Definition eight_unknown : list string :=
  map unknown_field
      ["Session ID"; "User ID"; "Topic"; "Subtopics"; "Initial Outline";
       "Summary"; "Tags"; "Search Text"].

(** The texts of the errors for a computed column and for a single-select
    column that does not have the option. *)
Definition computed_field (name : string) : string :=
  "422 Client Error: Unprocessable Entity [Error: {'type': "
  +:+ "'INVALID_VALUE_FOR_COLUMN', 'message': 'Field " +:+ Text.dq +:+ name +:+ Text.dq
  +:+ " cannot accept a value because the field is computed'}]".

Definition invalid_option : string :=
  "422 Client Error: Unprocessable Entity [Error: {'type': "
  +:+ "'INVALID_MULTIPLE_CHOICE_OPTIONS', 'message': 'Insufficient permissions "
  +:+ "to create new select option'}]".

(** A table without the Topic column, with a computed Search Text and a
    Status that takes no new option. *)
Definition three_kinds : list string :=
  [unknown_field "Topic"; computed_field "Search Text"; invalid_option].

Definition rejecting (failures : list string) : state :=
  {| llm_replies := []; rows := []; write_failures := failures; ticks := 0 |}.

(** The row of the cached session. *)
Definition session_row : record := {|
  rec_id := "rec1";
  rec_createdTime := "2026-01-01T00:00:00.000Z";
  rec_fields := [("Session ID", JStr "SESS-0A1B2C3D");
                 ("User ID", JStr "local-dev");
                 ("Topic", JStr "graph databases")];
|}.

(** The LLM answers refine, the table holds the session's row and is down
    for writes. *)
Definition store_down : state :=
  {| llm_replies := [inr (Some insight_reply)];
     rows := [session_row];
     write_failures := ["503 Server Error: Service Unavailable"];
     ticks := 0 |}.

Definition refine_core : RefineRequest :=
  {| rf_sessionId := "SESS-0A1B2C3D"; rf_subtopic := "Core Concepts" |}.

(** The LLM answers finalize and the table takes the write. *)
Definition summarising : state :=
  {| llm_replies := [inr (Some finalize_reply)];
     rows := [session_row];
     write_failures := [];
     ticks := 0 |}.

(** A finalize request whose tags need trimming and hold a repetition and
    a blank entry. *)
Definition finalize_tagged : FinalizeRequest :=
  {| fq_sessionId := "SESS-0A1B2C3D"; fq_tags := Some [" b "; "a"; "b"; "  "] |}.

(** The LLM is over quota on both calls and the table is down. *)
Definition over_quota : state :=
  {| llm_replies := [inl "Error code: 429 - Rate limit reached, retry in 20s";
                     inl "Error code: 429 - Rate limit reached, retry in 19s"];
     rows := [];
     write_failures := ["503 Server Error: Service Unavailable"];
     ticks := 0 |}.

(** The same service with fallback mode switched off. *)
Definition strict : Config := {|
  GROQ_API_KEY := Some "gsk_demo";
  groq_importable := true;
  AIRTABLE_API_KEY := Some "pat_demo";
  AIRTABLE_BASE_ID := Some "app_demo";
  DEFAULT_USER_ID := "local-dev";
  AUTH_TOKENS := ∅;
  ENABLE_FALLBACK_ON_QUOTA := false;
  SYSTEM_PROMPT := "You are the Cerebro Research Decomposer.";
  REFINEMENT_PROMPT := "You are a research analyst.";
  FINALIZE_PROMPT := "You are a research summarizer.";
|}.

(** The fields start writes for a new session. *)
Definition sample_fields : gmap string json :=
  start_create_fields externals "SESS-0A1B2C3D" "local-dev" "graph databases"
    "Core Concepts, Current Landscape" (JStr "An overview.")
    (session_dict (JObj []) (JArr []) (JStr "") (JArr [])).

(** A session as start caches it, a finalized one, and a service whose
    decoder also reads back what the serialiser makes of the two. *)
Definition fresh_session : json :=
  session_dict (_fallback_outline externals "graph databases")
               (JArr []) (JStr "") (JArr []).

Definition tagged_session : json :=
  session_dict (_fallback_outline externals "graph theory")
               (JArr [JObj [("subtopic", JStr "Core Concepts");
                            ("insight", JStr insight_text);
                            ("createdAt", JStr "2026-01-02T00:00:00+00:00")]])
               (JStr summary_text)
               (JArr [JStr "Graphs"; JStr " Storage "; JStr "graphs"; JStr "Algebra"]).

Definition recall (s : string) : string + json :=
  if String.eqb s (dumps fresh_session) then inr fresh_session
  else if String.eqb s (dumps tagged_session) then inr tagged_session
  else loads s.

Definition recalling : Externals := {|
  Ext := state;
  x_llm := llm;
  x_all := all;
  x_get := get;
  x_create := create;
  x_update := update;
  x_now := clock;
  x_urandom := urandom;
  x_loads := recall;
  x_dumps := dumps;
  x_repr := repr;
  x_title := title_from false;
  x_seconds_ms := to_ms;
  x_invalid := fun _ => "1 validation error";
  x_limit := unlimited;
|}.

(** A row as the service writes it: the session is in the Data column. *)
Definition data_row (n : Z) (data : json) : record := {|
  rec_id := "rec" +:+ pretty n;
  rec_createdTime := "2026-01-0" +:+ pretty n +:+ "T00:00:00.000Z";
  rec_fields := [("Session ID", JStr ("SESS-" +:+ pretty n));
                 ("User ID", JStr "local-dev");
                 ("Data", JStr (dumps data))];
|}.

Definition two_rows : list record :=
  [data_row 1 fresh_session; data_row 2 tagged_session].

Definition recalled (s : state) : World recalling :=
  Build_World (s : Ext recalling) ∅ ∅ [].

(** Cells separated by commas, one row per line; a report of one line per
    canvas operation. *)
Definition csv_line (cells : list json) : string :=
  Text.join "," (map repr cells) +:+ String (ascii_of_N 13) (String (ascii_of_N 10) "").

Definition pdf_text (ops : list canvas_op) : string :=
  "%PDF " +:+ pretty (length ops).

Definition renderers : Renderers := {| r_csv_row := csv_line; r_pdf := pdf_text |}.

(** The service with one bearer token configured. *)
Definition secured : Config := {|
  GROQ_API_KEY := Some "gsk_demo";
  groq_importable := true;
  AIRTABLE_API_KEY := Some "pat_demo";
  AIRTABLE_BASE_ID := Some "app_demo";
  DEFAULT_USER_ID := "local-dev";
  AUTH_TOKENS := {[ "tok-alice" := "alice" ]};
  ENABLE_FALLBACK_ON_QUOTA := true;
  SYSTEM_PROMPT := "You are the Cerebro Research Decomposer.";
  REFINEMENT_PROMPT := "You are a research analyst.";
  FINALIZE_PROMPT := "You are a research summarizer.";
|}.

(** The LLM answers refine, the table holds the session's row and limits
    the rate of writes. *)
Definition rate_limited : state :=
  {| llm_replies := [inr (Some insight_reply)];
     rows := [session_row];
     write_failures := ["429 Client Error: Too Many Requests"];
     ticks := 0 |}.

(** The LLM answers refine and the table takes the write. *)
Definition refining : state :=
  {| llm_replies := [inr (Some insight_reply)];
     rows := [session_row];
     write_failures := [];
     ticks := 0 |}.

(** A rate-limit error whose hinted delay has [n] digits, all nines. *)
Definition nines (n : nat) : string := string_of_list_ascii (repeat "9"%char n).

Definition hinted (n : nat) : string :=
  "Error code: 429 - Rate limit reached, retry in " +:+ nines n +:+ "s".

(** The LLM is over quota once, with a hint of 400 digits, and would
    answer the second call. *)
Definition overflowing : state :=
  {| llm_replies := [inl (hinted 400); inr (Some insight_reply)];
     rows := [];
     write_failures := [];
     ticks := 0 |}.

End Demo.

(** ** Vocabulary of the statements *)

(** [phrase] occurs in [text] when case is ignored: some stretch of [text]
    equals [phrase] once both are put in lower case. *)
Definition occurs_ci (phrase text : string) : Prop :=
  exists pre mid post,
    text = pre +:+ mid +:+ post /\ Text.lower mid = Text.lower phrase.

(** The text of [err] carries one of [phrases], case ignored. *)
Definition carries (phrases : list string) (err : exn) : Prop :=
  exists phrase, In phrase phrases /\ occurs_ci phrase (exn_str err).

(** The phrases claim C5 lists, and the tokens that decide. *)
Definition claimed_phrases : list string :=
  ["resource-exhausted"; "quota exceeded"; "HTTP 429"; "rate limit";
   "too many requests"].

Definition quota_tokens : list string :=
  ["resource_exhausted"; "quota exceeded"; "429"; "rate limit"; "too many requests"].

(** The world after provider calls: the outside state moves on and the
    calls are appended to the trace; the cache and the provider issues are
    untouched. *)
Definition logged {X} (w : World X) (s : Ext X) (evs : list event) : World X :=
  Build_World s (SESSION_CACHE w) (PROVIDER_ISSUES w) (trace w ++ evs)%list.

(** [sub] occurs in [text]. *)
Definition occurs (sub text : string) : Prop :=
  exists pre post, text = pre +:+ sub +:+ post.

(** [text] reads [field] right after its first [marker]: [field] runs up
    to the next double quote, or to the end of the text when no double
    quote follows. *)
Definition names_after (marker text field : string) : Prop :=
  exists pre post,
    text = pre +:+ marker +:+ field +:+ post
    /\ (forall pre' post', text = pre' +:+ marker +:+ post' ->
                           (String.length pre <= String.length pre')%nat)
    /\ ~ occurs Text.dq field
    /\ (post = "" \/ exists r, post = String Text.quote r).

(** The three ways in which the store's error text rejects a field: it
    names it as unknown, it names it as computed, or it reports an invalid
    choice option. *)
Definition unknown_field_named (text field : string) : Prop :=
  names_after ("Unknown field name: " +:+ Text.dq) text field.

Definition computed_field_named (text field : string) : Prop :=
  names_after ("Field " +:+ Text.dq) text field
  /\ occurs (Text.dq +:+ " cannot accept a value because the field is computed") text.

Definition invalid_choice (text : string) : Prop :=
  occurs "INVALID_MULTIPLE_CHOICE_OPTIONS" text.

(** The field of [payload] that the store's error [text] rejects: the
    field it names as unknown; failing that (no such name, or not a field
    of the payload), the field it names as computed; failing that,
    [Status] when the text reports an invalid choice option. *)
Definition removes (text : string) (payload : gmap string json) (field : string)
  : Prop :=
  is_Some (payload !! field)
  /\ (unknown_field_named text field
      \/ ((forall f, unknown_field_named text f -> payload !! f = None)
          /\ (computed_field_named text field
              \/ ((forall f, computed_field_named text f -> payload !! f = None)
                  /\ invalid_choice text /\ field = "Status")))).

(** [n] attempts in a row, each rejected by the store with an error that
    makes the adapter remove a field: from payload [p] in world [w] to the
    payload [p'] and world [w'] the next attempt starts from. *)
Inductive strips {X A} (attempt : gmap string json -> M X A)
  : nat -> gmap string json -> World X -> gmap string json -> World X -> Prop :=
| strips_done p w : strips attempt 0 p w p w
| strips_more n p w e w1 field p' w' :
    attempt p w = (inl e, w1) ->
    removes (exn_str e) p field ->
    strips attempt n (delete field p) w1 p' w' ->
    strips attempt (S n) p w p' w'.

(** A run of rejected attempts, computed. *)
Fixpoint run_strips {X A} (attempt : gmap string json -> M X A) (n : nat)
         (p : gmap string json) (w : World X) : option (gmap string json * World X) :=
  match n with
  | O => Some (p, w)
  | S n' =>
      match attempt p w with
      | (inl e, w1) =>
          match field_to_strip (exn_str e) p with
          | Some field => run_strips attempt n' (delete field p) w1
          | None => None
          end
      | (inr _, _) => None
      end
  end.

Definition is_some {A} (o : option A) : bool :=
  match o with Some _ => true | None => false end.

(** The session [item] answers the search [needle]: its title, its
    description, the title of one of its subtopics or one of its tags
    contains [needle], case ignored. *)
Definition item_mentions (needle : string) (item : ResearchResponse) : Prop :=
  occurs_ci needle (o_title (rr_outline item))
  \/ occurs_ci needle (o_description (rr_outline item))
  \/ (exists st, In st (o_subTopics (rr_outline item)) /\ occurs_ci needle (st_title st))
  \/ (exists t, In t (rr_tags item) /\ occurs_ci needle t).

(** The row belongs to the user: its [User ID] field is that string. *)
Definition owned_by (rec : record) (user_id : string) : bool :=
  match Py.assoc "User ID" (rec_fields rec) with
  | Some (JStr u) => String.eqb u user_id
  | _ => false
  end.

Definition lookup_formula (session_id user_id : string) : string :=
  _build_session_formula (_escape_formula session_id) (_escape_formula user_id).

(** The session resolves through none of the three steps: no cache entry
    of this user, and no row by formula nor by record id (or no store at
    all). *)
Definition unresolved {X} (cfg : Config) (session_id user_id : string) (w : World X)
  : Prop :=
  match SESSION_CACHE w !! session_id with
  | Some c => ci_user_id c <> user_id
  | None => True
  end
  /\ (table cfg = false
      \/ (table cfg = true
          /\ exists s,
              x_all X (lookup_formula session_id user_id) (Some 1) (ext w) = (inr [], s)
              /\ match x_get X session_id s with
                 | (inl _, _) => True
                 | (inr rec, _) => owned_by rec user_id = false
                 end)).

(** The outline of [_fallback_outline] as the response model. *)
Definition fallback_base (topic : string) : string :=
  match Text.strip topic with
  | EmptyString => "Research Topic"
  | b => b
  end.

Definition fallback_ResearchOutline (X : Externals) (topic : string) : ResearchOutline :=
  let base := fallback_base topic in
  {| o_title := x_title X base;
     o_description := fallback_description;
     o_subTopics :=
       [ {| st_id := "1"; st_title := "Core Concepts";
            st_description := "Define the foundations of " +:+ base +:+ "." |};
         {| st_id := "2"; st_title := "Current Landscape";
            st_description := "Understand where " +:+ base +:+ " stands today." |};
         {| st_id := "3"; st_title := "Practical Applications";
            st_description := "Identify real-world uses of " +:+ base +:+ "." |};
         {| st_id := "4"; st_title := "Risks and Constraints";
            st_description := "Analyze challenges and limits in " +:+ base +:+ "." |};
         {| st_id := "5"; st_title := "Future Outlook";
            st_description := "Explore likely next developments in " +:+ base +:+ "." |} ] |}.

(** The list without the later repetitions of its elements: each element
    stays where it first occurs. *)
Fixpoint first_occurrences (l : list string) : list string :=
  match l with
  | [] => []
  | x :: r => x :: filter (fun y => y <> x) (first_occurrences r)
  end.

(** The tags finalize settles on: the supplied ones, trimmed and without
    the blank ones, when there are any; the derived ones otherwise. *)
Definition chosen_tags (X : Externals) (payload : FinalizeRequest) (derived : list json)
  : list json :=
  match selected_tags X payload with
  | [] => derived
  | sel => map JStr sel
  end.

(** The provider calls of a run of the call wrapper that slept [delays]:
    a call, then a sleep and another call for each delay. *)
Definition retry_trace (contents : string) (delays : list Z) : list event :=
  EvLLM contents :: concat (map (fun d => [EvSleep d; EvLLM contents]) delays).

(** What the health report says about one of the two providers. *)
Definition health_issue (provider_name : string) (h : providers_health) : option issue :=
  if String.eqb provider_name "llm" then lh_issue (hp_llm h)
  else if String.eqb provider_name "airtable" then ah_issue (hp_airtable h)
  else None.

(** [text] starts with [p]. *)
Definition prefix_of (p text : string) : Prop := exists rest, text = p +:+ rest.

(** The world once the Airtable issue is cleared. *)
Definition cleared {X} (w : World X) : World X :=
  Build_World (ext w) (SESSION_CACHE w) (delete "airtable" (PROVIDER_ISSUES w)) (trace w).

(** A store read that is restricted to the rows of [user_id]: the formula
    is the user clause, or a conjunction whose first member it is. *)
Definition reads_of_user (user_id : string) (ev : event) : Prop :=
  exists formula limit,
    ev = EvAll formula limit
    /\ (formula = user_formula user_id
        \/ exists more,
            formula = "AND(" +:+ Text.join "," (user_formula user_id :: more) +:+ ")").

(** How a read handler leaves the process state: the cache and the LLM
    issue as they were; no Airtable issue after an answer; after a failure,
    which is a 500 whose detail is [what] followed by the error text, an
    Airtable issue of kind [read_error] with that text. *)
Definition read_bookkeeping {X A} (what : string) (w : World X) (out : R A * World X)
  : Prop :=
  SESSION_CACHE (snd out) = SESSION_CACHE w
  /\ PROVIDER_ISSUES (snd out) !! "llm" = PROVIDER_ISSUES w !! "llm"
  /\ match fst out with
     | inr _ => PROVIDER_ISSUES (snd out) !! "airtable" = None
     | inl e =>
         exists t stamp,
           e = HTTPException 500 (what +:+ t)
           /\ PROVIDER_ISSUES (snd out) !! "airtable"
              = Some {| is_kind := "read_error"; is_message := Text.take 300 t;
                        is_updatedAt := stamp |}
     end.

(** A history item as the response model promises it, and a little more:
    an id that is not empty, a progress of 25, 50, 75 or 100, and tags that
    are trimmed and not blank. *)
Definition well_formed_item (item : ResearchResponse) : Prop :=
  rr_sessionId item <> ""
  /\ In (rr_progress item) [25; 50; 75; 100]
  /\ Forall (fun t => t <> "" /\ Text.strip t = t) (rr_tags item).


(** The history item of a row: the row's Data column decodes to a session
    whose outline and progress are the item's. *)
Definition item_of_row (X : Externals) (r : record) (item : ResearchResponse) : Prop :=
  exists data outline,
    _parse_data_blob X (rec_fields r) = inr data
    /\ Py.getitem data "outline" = inr outline
    /\ validate_ResearchOutline X outline = inr (rr_outline item)
    /\ _progress_for X data = inr (rr_progress item).

(** The rows a history read works on: the answer to [formula], or the
    answer to [fallback] when the store refuses [formula]. *)
Definition fetched (X : Externals) (formula fallback : string) (limit : option Z)
           (s : Ext X) (records : list record) : Prop :=
  (exists s1, x_all X formula limit s = (inr records, s1))
  \/ (exists t s1 s2,
         x_all X formula limit s = (inl t, s1)
         /\ x_all X fallback limit s1 = (inr records, s2)).

(** The provider calls a handler added to the trace are all reads
    restricted to the rows of [user_id]. *)
Definition only_reads_of {X A} (user_id : string) (w : World X) (out : R A * World X)
  : Prop :=
  exists evs,
    trace (snd out) = (trace w ++ evs)%list /\ Forall (reads_of_user user_id) evs.

(** The body of the categories handler up to the sort: the read, then the
    loop over the rows. *)
Definition categories_body (X : Externals) (cfg : Config) (user_id : string)
  : M X (gset string * list string) :=
  bind (table_all X cfg (user_formula user_id) (Some 500))
       (fun records => lift (categories_loop X records (∅, []))).

(** [x] is one of the tags of the session in row [r]. *)
Definition row_tag (X : Externals) (r : record) (x : json) : Prop :=
  exists data tags_v tags,
    _parse_data_blob X (rec_fields r) = inr data
    /\ Py.get data "tags" (JArr []) = inr tags_v
    /\ Py.iterate tags_v = inr tags
    /\ In x tags.

(** The two accumulators of the categories loop agree: the keys seen are
    the categories in lower case, no two categories have the same key, and
    every category is trimmed and not empty. *)
Definition categories_agree (acc : gset string * list string) : Prop :=
  (forall k, k ∈ fst acc <-> k ∈ map Text.lower (snd acc))
  /\ NoDup (map Text.lower (snd acc))
  /\ Forall (fun c => c <> "" /\ Text.strip c = c) (snd acc).

(** The tag is blank or its key has been seen. *)
Definition represented (X : Externals) (acc : gset string * list string) (tag : json)
  : Prop :=
  Text.strip (str X tag) = ""
  \/ Text.lower (Text.strip (str X tag)) ∈ fst acc.

(** The texts of a buffer, one after the other. *)
Definition concat_texts (l : list string) : string := foldr String.append "" l.

(** The lines on the current page once [ops] are done, when there were
    [on_page] before. *)
Fixpoint lines_after (on_page : nat) (ops : list canvas_op) : nat :=
  match ops with
  | [] => on_page
  | ShowPage :: r => lines_after 0 r
  | SetFont _ _ :: r => lines_after on_page r
  | DrawString _ _ _ :: r => lines_after (S on_page) r
  end.

(** The layout of the report: every line is set in Helvetica and drawn at
    the left margin, 18 points below the line before it, the first line of
    a page at height 800; a line holds at most 110 characters; and a new
    page is started when, and only when, the page holds 42 lines. *)
Fixpoint laid_out (on_page : nat) (ops : list canvas_op) : Prop :=
  match ops with
  | [] => True
  | ShowPage :: r => on_page = 42%nat /\ laid_out 0 r
  | SetFont name _ :: r => name = "Helvetica" /\ laid_out on_page r
  | DrawString x y text :: r =>
      x = 50 /\ y = 800 - 18 * Z.of_nat on_page /\ (on_page < 42)%nat
      /\ (String.length text <= 110)%nat
      /\ laid_out (S on_page) r
  end.

(** The canvas is in order: its operations are laid out and its height is
    that of the next line. *)
Definition canvas_in_order (c : canvas) : Prop :=
  laid_out 0 (snd c)
  /\ (lines_after 0 (snd c) <= 42)%nat
  /\ fst c = 800 - 18 * Z.of_nat (lines_after 0 (snd c)).

(** The canvas [c'] continues [c]: nothing drawn is taken back. *)
Definition continues (c c' : canvas) : Prop := exists more, snd c' = (snd c ++ more)%list.

(** The head of every report: the title, then the session id. *)
Definition report_head (session_id : string) : list canvas_op :=
  [SetFont "Helvetica" 16; DrawString 50 800 "Cerebro Research Report";
   SetFont "Helvetica" 11;
   DrawString 50 782 (Text.take 110 ("Session ID: " +:+ session_id))].

(** A lookup in the store: by formula, for one row, or by record id. *)
Definition is_lookup (session_id : string) (ev : event) : Prop :=
  (exists formula, ev = EvAll formula (Some 1)) \/ ev = EvGet session_id.

(** The session as refine and finalize resolve it: the data of the cache
    entry of the user when there is one, the decoded Data column of the row
    found in the store otherwise. *)
Definition resolves_to (X : Externals) (cfg : Config) (session_id user_id : string)
           (w : World X) (data : json) : Prop :=
  (exists c,
      SESSION_CACHE w !! session_id = Some c
      /\ ci_user_id c = user_id /\ ci_data c = data)
  \/ ((forall c, SESSION_CACHE w !! session_id = Some c -> ci_user_id c <> user_id)
      /\ exists rec,
          fst (_find_session_record X cfg session_id user_id w) = inr (Some rec)
          /\ _parse_data_blob X (rec_fields rec) = inr data).

(** The entry refine appends to the refinements of a session. *)
Definition refinement_entry (subtopic insight created : string) : json :=
  JObj [("subtopic", JStr subtopic); ("insight", JStr insight);
        ("createdAt", JStr created)].

(** The payloads of the attempts that follow one with payload [p]: each
    is the one before without one of its fields. *)
Fixpoint shrinks_from (p : gmap string json) (ps : list (gmap string json)) : Prop :=
  match ps with
  | [] => True
  | q :: r => (exists field, is_Some (p !! field) /\ q = delete field p)
              /\ shrinks_from q r
  end.

(** The payloads of the attempts of a resilient write of [fields]: the
    first is [fields] as given. *)
Definition attempts (fields : gmap string json) (ps : list (gmap string json)) : Prop :=
  match ps with
  | [] => True
  | q :: r => q = fields /\ shrinks_from fields r
  end.

(** An HTTP error whose status code is one of [codes]. *)
Definition http_in (codes : list Z) (e : exn) : Prop :=
  exists code detail, e = HTTPException code detail /\ In code codes.

(** Any exception that is not an HTTP error, or an HTTP error whose
    status code is one of [codes]. *)
Definition bare_or (codes : list Z) (e : exn) : Prop :=
  match e with
  | Exception _ => True
  | HTTPException code _ => In code codes
  end.

(** Pure code that raises no HTTP error. *)
Definition plain {A} (r : R A) : Prop :=
  match r with inl e => bare_or [] e | inr _ => True end.

(** Every run of [m] leaves the world related to the one it started in by
    [I], and ends with a result in [Q] or an exception in [P]. *)
Definition ends {X A} (I : World X -> World X -> Prop) (Q : A -> Prop) (P : exn -> Prop)
           (m : M X A) : Prop :=
  forall w, I w (snd (m w))
            /\ match fst (m w) with inl e => P e | inr a => Q a end.

(** The two worlds hold the same cache entries, that of [session_id]
    apart. *)
Definition off_session {X} (session_id : string) (w w' : World X) : Prop :=
  forall k, k <> session_id -> SESSION_CACHE w' !! k = SESSION_CACHE w !! k.

(** No constraint between the world before and the world after. *)
Definition any_world {X} (w w' : World X) : Prop := True.

(** How an LLM step leaves the process state: the cache and the Airtable
    issue as they were; after an answer no LLM issue, unless the answer is
    the local fallback for a quota error; after a failure an LLM issue of
    kind [quota], or of kind [error] with the text of the exception
    raised. *)
Definition llm_bookkeeping {X A} (cfg : Config) (w : World X) (out : R A * World X)
  : Prop :=
  SESSION_CACHE (snd out) = SESSION_CACHE w
  /\ PROVIDER_ISSUES (snd out) !! "airtable" = PROVIDER_ISSUES w !! "airtable"
  /\ match fst out with
     | inr _ =>
         PROVIDER_ISSUES (snd out) !! "llm" = None
         \/ (ENABLE_FALLBACK_ON_QUOTA cfg = true
             /\ exists t stamp,
                 _is_quota_error (Exception t) = true
                 /\ PROVIDER_ISSUES (snd out) !! "llm"
                    = Some {| is_kind := "quota"; is_message := Text.take 300 t;
                              is_updatedAt := stamp |})
     | inl e =>
         exists kind t stamp,
           PROVIDER_ISSUES (snd out) !! "llm"
           = Some {| is_kind := kind; is_message := Text.take 300 t;
                     is_updatedAt := stamp |}
           /\ ((kind = "quota" /\ _is_quota_error (Exception t) = true)
               \/ (kind = "error" /\ t = exn_str e /\ _is_quota_error e = false))
     end.

(** A step that leaves the cache and the provider issues alone. *)
Definition quiet {X A} (m : M X A) : Prop :=
  forall w, SESSION_CACHE (snd (m w)) = SESSION_CACHE w
            /\ PROVIDER_ISSUES (snd (m w)) = PROVIDER_ISSUES w.

(** A block that leaves the cache alone, and the provider issues too
    unless it returns: then it has removed the LLM issue. *)
Definition clears_llm {X A} (m : M X A) : Prop :=
  forall w, SESSION_CACHE (snd (m w)) = SESSION_CACHE w
            /\ PROVIDER_ISSUES (snd (m w))
               = match fst (m w) with
                 | inl _ => PROVIDER_ISSUES w
                 | inr _ => delete "llm" (PROVIDER_ISSUES w)
                 end.

(** The world once the rate limiter has looked at a request: slowapi has
    counted the hit in its own store, which is outside state [s]; the
    cache, the provider issues and the trace are untouched. *)
Definition after_limit {X} (w : World X) (s : Ext X) : World X :=
  Build_World s (SESSION_CACHE w) (PROVIDER_ISSUES w) (trace w).

(** The tags finalize derives from the answer of its LLM step: the tags
    of the answer, or the titles of up to five subtopics of the outline
    when the answer has none. *)
Definition derived_tags (X : Externals) (outline : json) (tags : list json)
  : R (list json) :=
  match tags with
  | [] => subtopic_titles5 outline
  | _ => inr tags
  end.

(** The session with the summary and the tags finalize settled on. *)
Definition finalized (summary : string) (tags : list string)
           (kv : list (string * json)) : list (string * json) :=
  Py.dict_set "tags" (JArr (map JStr tags)) (Py.dict_set "summary" (JStr summary) kv).

(** A store write of the row [record_id] that sends fields of [fs], with
    the values they have in [fs], and nothing else. *)
Definition updates_within (record_id : string) (fs : gmap string json) (ev : event)
  : Prop :=
  exists q, ev = EvUpdate record_id q /\ q ⊆ fs.

(** How a rate-limited handler ends when it gets no further than its
    guards: with 429 when the limiter refuses the request, with the error
    [e] of the guards otherwise; either way only the limiter has acted. *)
Definition stopped_at_guard {X A} (route : string) (request : Request) (e : exn)
           (w : World X) : R A * World X :=
  match x_limit X route request (ext w) with
  | (Some detail, s) => (inl (HTTPException 429 detail), after_limit w s)
  | (None, s) => (inl e, after_limit w s)
  end.

(** The store-write step that follows the stage [st] of a session with a
    row in the store sends the session as the cache holds it after the
    stage: the first write carries its serialised form in [Data], with all
    the fields of the stage; any further write sends some of those
    fields. *)
Definition writes_session_back {X A} (cfg : Config) (session_id : string)
           (st : staged A) (w1 : World X) : Prop :=
  forall rec fs,
    st_record st = Some rec -> st_fields st = inr fs ->
    exists item more,
      SESSION_CACHE w1 !! session_id = Some item
      /\ fs !! "Data" = Some (JStr (x_dumps X (ci_data item)))
      /\ trace (snd (write_back X cfg (st_record st) (st_fields st) w1))
         = (trace w1 ++ EvUpdate (rec_id rec) fs :: more)%list
      /\ Forall (updates_within (rec_id rec) fs) more.

(** ** Facts about text *)

(** stdpp blocks the unfolding of [String.append]; the proofs below compute
    with it. *)
#[local] Arguments String.append !_ _ / : simpl nomatch.

Section TextFacts.

Import Text.

Lemma startswith_append (p r : string) : startswith p (p +:+ r) = true.
Proof.
  induction p as [|c p IH]; simpl; [reflexivity|].
  rewrite Ascii.eqb_refl. exact IH.
Qed.

Lemma startswith_inv (p s : string) :
  startswith p s = true -> s = p +:+ drop (String.length p) s.
Proof.
  revert s. induction p as [|c p IH]; intros s H; simpl in *; [reflexivity|].
  destruct s as [|d s]; [discriminate|].
  destruct (Ascii.eqb c d) eqn:E; [|discriminate].
  apply Ascii.eqb_eq in E. subst d. f_equal. apply IH, H.
Qed.

Lemma append_assoc (a b c : string) : (a +:+ b) +:+ c = a +:+ (b +:+ c).
Proof. induction a as [|x a IH]; simpl; [reflexivity|]. now rewrite IH. Qed.

Lemma append_empty_r (a : string) : a +:+ "" = a.
Proof. induction a as [|x a IH]; simpl; [reflexivity|]. now rewrite IH. Qed.

(** [needle in hay] holds exactly when [hay] splits around [needle]. *)
Lemma contains_spec (needle hay : string) :
  contains needle hay = true <-> exists pre post, hay = pre +:+ needle +:+ post.
Proof.
  split.
  - induction hay as [|c hay IH]; simpl.
    + destruct (startswith needle "") eqn:E; [|discriminate].
      intros _. exists "", (drop (String.length needle) ""). simpl.
      now apply startswith_inv.
    + destruct (startswith needle (String c hay)) eqn:E.
      * intros _. exists "", (drop (String.length needle) (String c hay)).
        simpl. now apply startswith_inv.
      * intros H. destruct (IH H) as (pre & post & ->).
        exists (String c pre), post. reflexivity.
  - intros (pre & post & ->).
    induction pre as [|c pre IH]; simpl.
    + destruct needle as [|n needle]; simpl.
      * now destruct post.
      * rewrite Ascii.eqb_refl, startswith_append. reflexivity.
    + destruct (startswith needle (String c (pre +:+ needle +:+ post))); [reflexivity|].
      exact IH.
Qed.

Lemma startswith_contains (p r : string) : contains p (p +:+ r) = true.
Proof. destruct p; simpl; [now destruct r|]. now rewrite Ascii.eqb_refl, startswith_append. Qed.

Lemma contains_false_spec (needle hay : string) :
  contains needle hay = false <-> ~ exists pre post, hay = pre +:+ needle +:+ post.
Proof.
  rewrite <- contains_spec. destruct (contains needle hay); split; intros H;
    try discriminate; try reflexivity; try (intros ?; discriminate).
  exfalso. now apply H.
Qed.

Lemma lower_append (a b : string) : lower (a +:+ b) = lower a +:+ lower b.
Proof. induction a as [|c a IH]; simpl; [reflexivity|]. now rewrite IH. Qed.

Lemma lower_split (t a b : string) :
  lower t = a +:+ b -> exists a' b', t = a' +:+ b' /\ lower a' = a /\ lower b' = b.
Proof.
  revert t. induction a as [|c a IH]; intros t H; simpl in H.
  - exists "", t. auto.
  - destruct t as [|d t]; [discriminate|]. simpl in H.
    injection H as Hc Ht. destruct (IH _ Ht) as (a' & b' & -> & <- & <-).
    exists (String d a'), b'. simpl. now rewrite Hc.
Qed.

End TextFacts.

Lemma occurs_ci_contains (phrase text : string) :
  occurs_ci phrase text <-> Text.contains (Text.lower phrase) (Text.lower text) = true.
Proof.
  rewrite contains_spec. split.
  - intros (pre & mid & post & -> & E).
    exists (Text.lower pre), (Text.lower post).
    now rewrite !lower_append, E.
  - intros (a & b & H).
    destruct (lower_split _ _ _ H) as (pre & rest & -> & <- & Hr).
    destruct (lower_split _ _ _ Hr) as (mid & post & -> & Hm & _).
    now exists pre, mid, post.
Qed.

(** ** Quota errors *)

(** Claim C5, as the code has it.  An exception is classified as a quota
    error exactly when its text, case ignored, contains one of the tokens
    [resource_exhausted], [quota exceeded], [429], [rate limit] and
    [too many requests]; an exception whose text contains none of them is
    classified as a non-quota error. *)
Theorem quota_error_iff_known_phrase (err : exn) :
  (_is_quota_error err = true <-> carries quota_tokens err)
  /\ (_is_quota_error err = false <-> ~ carries quota_tokens err).
Proof.
  assert (H : _is_quota_error err = true <-> carries quota_tokens err).
  { unfold _is_quota_error, carries, quota_tokens.
    rewrite !orb_true_iff. split.
    - intros [[[[H|H]|H]|H]|H];
        [exists "resource_exhausted"|exists "quota exceeded"|exists "429"
        |exists "rate limit"|exists "too many requests"];
        (split; [simpl; tauto | now apply occurs_ci_contains]).
    - intros (p & Hin & Hocc). apply occurs_ci_contains in Hocc.
      simpl in Hin.
      destruct Hin as [<-|[<-|[<-|[<-|[<-|[]]]]]]; simpl in Hocc; tauto. }
  split; [exact H|].
  rewrite <- H. destruct (_is_quota_error err); split; intros; congruence.
Qed.

(** Claim C5 fails as stated, in both directions.  A text with the phrase
    resource-exhausted, written with a hyphen, is not classified as a quota
    error: the code looks for an underscore.  And a text that has the
    digits 429 but none of the listed phrases (here the position in an
    error of the JSON decoder) is classified as one: the code looks for
    the digits alone, not for HTTP 429. *)
Lemma claimed_phrases_are_not_the_tokens :
  let hyphen := Exception "RESOURCE-EXHAUSTED: the model is overloaded" in
  let digits := Exception "Expecting value: line 1 column 430 (char 429)" in
  (carries claimed_phrases hyphen /\ _is_quota_error hyphen = false)
  /\ (~ carries claimed_phrases digits /\ _is_quota_error digits = true).
Proof.
  cbv zeta. split; split.
  - exists "resource-exhausted". split; [simpl; tauto|].
    apply occurs_ci_contains. vm_compute. reflexivity.
  - vm_compute. reflexivity.
  - intros (p & Hin & Hocc). apply occurs_ci_contains in Hocc. simpl in Hin.
    destruct Hin as [<-|[<-|[<-|[<-|[<-|[]]]]]]; vm_compute in Hocc; discriminate.
  - vm_compute. reflexivity.
Qed.

(** ** Running the monad *)

Section Running.

Context {X : Externals}.

Lemma bind_inr {A B} (m : M X A) (k : A -> M X B) w a w1 :
  m w = (inr a, w1) -> bind m k w = k a w1.
Proof. unfold bind. now intros ->. Qed.

Lemma bind_inl {A B} (m : M X A) (k : A -> M X B) w e w1 :
  m w = (inl e, w1) -> bind m k w = (inl e, w1).
Proof. unfold bind. now intros ->. Qed.

Lemma bind_ok_inv {A B} (m : M X A) (k : A -> M X B) w b w' :
  bind m k w = (inr b, w') ->
  exists a w1, m w = (inr a, w1) /\ k a w1 = (inr b, w').
Proof.
  unfold bind. destruct (m w) as [[e|a] w1]; [discriminate|]. eauto.
Qed.

Lemma try_inr {A} (m : M X A) h w a w1 :
  m w = (inr a, w1) -> try_except m h w = (inr a, w1).
Proof. unfold try_except. now intros ->. Qed.

Lemma try_inl {A} (m : M X A) h w e w1 :
  m w = (inl e, w1) -> try_except m h w = h e w1.
Proof. unfold try_except. now intros ->. Qed.

Lemma pair_from_fst {A B} (p : A * B) (a : A) : fst p = a -> p = (a, snd p).
Proof. intros <-. now destruct p. Qed.

Lemma lift_ok_inv {A} (r : R A) (w : World X) a w' :
  lift r w = (inr a, w') -> r = inr a /\ w' = w.
Proof. unfold lift. intros [= -> ->]. auto. Qed.

(** A provider call in terms of the oracle's answer. *)
Lemma provider_run {A} (ev : event) (f : Ext X -> (string + A) * Ext X) (w : World X) :
  provider X ev f w =
  match f (ext w) with
  | (inl t, s) => (inl (Exception t), logged w s [ev])
  | (inr a, s) => (inr a, logged w s [ev])
  end.
Proof.
  unfold provider, bind, emit, outside, logged; simpl.
  destruct (f (ext w)) as [[t|a] s]; reflexivity.
Qed.

Lemma logged_logged (w : World X) s1 s2 evs1 evs2 :
  logged (logged w s1 evs1) s2 evs2 = logged w s2 (evs1 ++ evs2)%list.
Proof. unfold logged; simpl. now rewrite <- app_assoc. Qed.

(** The limiter's check in terms of slowapi's verdict. *)
Lemma limiter_limit_run (route : string) (request : Request) (w : World X) :
  limiter_limit X route request w =
  match x_limit X route request (ext w) with
  | (Some detail, s) => (inl (HTTPException 429 detail), after_limit w s)
  | (None, s) => (inr tt, after_limit w s)
  end.
Proof.
  unfold limiter_limit, bind, outside, after_limit.
  now destruct (x_limit X route request (ext w)) as [[detail|] s].
Qed.

Lemma limiter_limit_admits (route : string) (request : Request) (w w0 : World X) :
  limiter_limit X route request w = (inr tt, w0) ->
  exists s, x_limit X route request (ext w) = (None, s) /\ w0 = after_limit w s.
Proof.
  rewrite limiter_limit_run.
  destruct (x_limit X route request (ext w)) as [[detail|] s]; [discriminate|].
  intros [= <-]. eauto.
Qed.

Lemma limiter_limit_frame (route : string) (request : Request) (w : World X) :
  SESSION_CACHE (snd (limiter_limit X route request w)) = SESSION_CACHE w
  /\ PROVIDER_ISSUES (snd (limiter_limit X route request w)) = PROVIDER_ISSUES w
  /\ trace (snd (limiter_limit X route request w)) = trace w.
Proof.
  rewrite limiter_limit_run.
  now destruct (x_limit X route request (ext w)) as [[detail|] s].
Qed.

Lemma llm_call_run (contents : string) (w : World X) :
  llm_call X contents w =
  match x_llm X contents (ext w) with
  | (inl t, s) => (inl (Exception t), logged w s [EvLLM contents])
  | (inr c, s) => (inr (llm_text c), logged w s [EvLLM contents])
  end.
Proof.
  unfold llm_call, bind. rewrite provider_run.
  destruct (x_llm X contents (ext w)) as [[t|c] s]; reflexivity.
Qed.

End Running.

(** ** The quota-aware call wrapper *)

Lemma retry_delay_at_least (X : Externals) (wait_ms : Z) (err : exn) (d : Z) :
  retry_delay_ms X wait_ms err = inr d -> wait_ms <= d.
Proof.
  unfold retry_delay_ms. destruct (retry_hint _) as [g|].
  - destruct (x_seconds_ms X g); [discriminate|]. intros [= <-]. lia.
  - intros [= <-]. lia.
Qed.

(** One turn of the wrapper that meets a quota error with a retry left:
    the delay is worked out, inside the [except] clause, before the
    sleep. *)
Lemma retry_loop_step (X : Externals) (fuel : nat) (attempt : Z) (contents : string)
      (max_retries wait_ms : Z) (last_error : option exn) :
  retry_loop X (S fuel) attempt contents max_retries wait_ms last_error
  = try_except (llm_call X contents)
      (fun err =>
         if _is_quota_error err && (attempt <? max_retries) then
           bind (lift (retry_delay_ms X wait_ms err))
                (fun delay_ms =>
                   bind (emit (EvSleep delay_ms))
                        (fun _ => retry_loop X fuel (attempt + 1) contents max_retries
                                             wait_ms (Some err)))
         else raise err).
Proof. reflexivity. Qed.

(** The wrapper with the one retry every caller asks for, run by run.  A
    reply is returned.  An error that is not a quota error is raised as it
    is.  On a quota error the wrapper works out the delay: the configured
    wait, or the hinted delay when the error text carries a longer one.  If
    the hint does not convert, the conversion error is raised and nothing
    else happens.  Otherwise the wrapper sleeps and calls the client a
    second and last time: its reply is returned, its error (quota or not)
    is raised. *)
Lemma retry_wrapper_run
      (X : Externals) (contents : string) (wait_ms : Z) (w : World X) :
  let run := _generate_content_with_retry X contents 1 wait_ms w in
  match x_llm X contents (ext w) with
  | (inr c, s1) => run = (inr (llm_text c), logged w s1 [EvLLM contents])
  | (inl t1, s1) =>
      if _is_quota_error (Exception t1) then
        match retry_delay_ms X wait_ms (Exception t1) with
        | inl e => run = (inl e, logged w s1 [EvLLM contents])
        | inr d =>
            wait_ms <= d
            /\ match x_llm X contents s1 with
               | (inr c, s2) =>
                   run = (inr (llm_text c),
                          logged w s2 [EvLLM contents; EvSleep d; EvLLM contents])
               | (inl t2, s2) =>
                   run = (inl (Exception t2),
                          logged w s2 [EvLLM contents; EvSleep d; EvLLM contents])
               end
        end
      else run = (inl (Exception t1), logged w s1 [EvLLM contents])
  end.
Proof.
  unfold _generate_content_with_retry. cbv zeta.
  change (Z.to_nat (1 + 1)) with 2%nat. rewrite retry_loop_step.
  pose proof (llm_call_run contents w) as C1.
  destruct (x_llm X contents (ext w)) as [[t1|c] s1] eqn:E1.
  2: { now rewrite (try_inr _ _ _ _ _ C1). }
  rewrite (try_inl _ _ _ _ _ C1).
  destruct (_is_quota_error (Exception t1)) eqn:Q;
    change (0 <? 1) with true; cbn [andb]; [|reflexivity].
  set (w1 := logged w s1 [EvLLM contents]).
  destruct (retry_delay_ms X wait_ms (Exception t1)) as [e|d] eqn:D.
  { assert (Hl : @lift X Z (inl e) w1 = (inl e, w1)) by reflexivity.
    now rewrite (bind_inl _ _ _ _ _ Hl). }
  assert (Hl : @lift X Z (inr d) w1 = (inr d, w1)) by reflexivity.
  split; [exact (retry_delay_at_least X _ _ _ D)|].
  assert (Hemit : emit (EvSleep d) w1 = (inr tt, logged w s1 [EvLLM contents; EvSleep d])).
  { unfold emit, w1, logged; simpl. now rewrite <- app_assoc. }
  rewrite (bind_inr _ _ _ _ _ Hl), (bind_inr _ _ _ _ _ Hemit), retry_loop_step.
  pose proof (llm_call_run contents (logged w s1 [EvLLM contents; EvSleep d])) as C2.
  simpl in C2.
  destruct (x_llm X contents s1) as [[t2|c] s2] eqn:E2.
  - rewrite (try_inl _ _ _ _ _ C2), andb_false_r, logged_logged. reflexivity.
  - rewrite (try_inr _ _ _ _ _ C2), logged_logged. reflexivity.
Qed.

(** Claim C4 does not hold of the code on a quota error whose hinted delay
    is too long to convert.  The LLM raises a rate-limit error that says
    [retry in] followed by 400 nines and [s]; the error is recognised as a
    quota error and the hint is read.  [float] of the digits is infinite,
    so [int(float(...) * 1000)] raises [OverflowError] inside the [except]
    clause: the wrapper raises that error after its one call, without
    sleeping and without the retry, and the reply the client had for the
    second call is never asked for. *)
Theorem retry_wrapper_overflowing_hint_raises :
  let w := Demo.world Demo.overflowing in
  let run := _generate_content_with_retry Demo.externals "prompt" 1 10000 w in
  _is_quota_error (Exception (Demo.hinted 400)) = true
  /\ retry_hint (Demo.hinted 400) = Some (Demo.nines 400)
  /\ x_seconds_ms Demo.externals (Demo.nines 400)
     = inl "cannot convert float infinity to integer"
  /\ fst run = inl (Exception "cannot convert float infinity to integer")
  /\ trace (snd run) = [EvLLM "prompt"]
  /\ Demo.llm_replies (ext (snd run)) = [inr (Some Demo.insight_reply)].
Proof. vm_compute. repeat split. Qed.

(** ** The schema-drift-tolerant write adapter *)

Lemma after_first_spec (sep hay rest : string) :
  Text.after_first sep hay = Some rest -> exists pre, hay = pre +:+ sep +:+ rest.
Proof.
  revert rest. induction hay as [|c hay IH]; intros rest; simpl.
  - destruct (Text.startswith sep "") eqn:E; [|discriminate].
    intros [= <-]. exists "". simpl. now apply startswith_inv.
  - destruct (Text.startswith sep (String c hay)) eqn:E.
    + intros [= <-]. exists "". simpl. now apply startswith_inv.
    + intros H. destruct (IH _ H) as [pre ->]. now exists (String c pre).
Qed.

Lemma after_first_unfold (sep hay : string) :
  Text.after_first sep hay =
  if Text.startswith sep hay then Some (Text.drop (String.length sep) hay)
  else match hay with
       | EmptyString => None
       | String _ r => Text.after_first sep r
       end.
Proof. now destruct hay. Qed.

Lemma drop_append (p r : string) : Text.drop (String.length p) (p +:+ r) = r.
Proof. induction p as [|c p IH]; simpl; [reflexivity|exact IH]. Qed.

(** [after_first] cuts at the leftmost occurrence. *)
Lemma after_first_leftmost (sep hay rest : string) :
  Text.after_first sep hay = Some rest <->
  exists pre,
    hay = pre +:+ sep +:+ rest
    /\ forall pre' post', hay = pre' +:+ sep +:+ post' ->
                          (String.length pre <= String.length pre')%nat.
Proof.
  split.
  - revert rest. induction hay as [|c hay IH]; intros rest; rewrite after_first_unfold.
    + destruct (Text.startswith sep "") eqn:E; [|discriminate].
      intros [= <-]. exists "". split; [simpl; now apply startswith_inv|].
      intros; simpl; lia.
    + destruct (Text.startswith sep (String c hay)) eqn:E.
      * intros [= <-]. exists "". split; [simpl; now apply startswith_inv|].
        intros; simpl; lia.
      * intros H. destruct (IH _ H) as (pre & -> & Hmin).
        exists (String c pre). split; [reflexivity|].
        intros pre' post' H'. destruct pre' as [|c' pre'].
        -- simpl in H'. rewrite H', startswith_append in E. discriminate.
        -- simpl in H'. injection H' as _ H'. simpl.
           pose proof (Hmin _ _ H'). lia.
  - intros (pre & -> & Hmin). induction pre as [|c pre IH].
    + simpl. now rewrite after_first_unfold, startswith_append, drop_append.
    + rewrite after_first_unfold.
      destruct (Text.startswith sep (String c pre +:+ sep +:+ rest)) eqn:E.
      * apply startswith_inv in E.
        pose proof (Hmin "" _ E) as Hle. simpl in Hle. lia.
      * simpl. apply IH. intros pre' post' H'.
        pose proof (Hmin (String c pre') post') as Hle. simpl in Hle.
        rewrite H' in Hle. specialize (Hle eq_refl). lia.
Qed.

Lemma before_char_clean (c : ascii) (s a b : string) :
  Text.before_char c s <> a +:+ String c b.
Proof.
  revert a. induction s as [|x s IH]; intros a; simpl.
  - now destruct a.
  - destruct (Ascii.eqb x c) eqn:E; [now destruct a|].
    destruct a as [|y a]; simpl.
    + intros [= -> _]. now rewrite Ascii.eqb_refl in E.
    + intros [= _ H]. exact (IH _ H).
Qed.

Lemma before_char_append (c : ascii) (field post : string) :
  (forall a b, field <> a +:+ String c b) ->
  (post = "" \/ exists r, post = String c r) ->
  Text.before_char c (field +:+ post) = field.
Proof.
  induction field as [|x field IH]; intros Hno Hp; simpl.
  - destruct Hp as [->|[r ->]]; simpl; [reflexivity|now rewrite Ascii.eqb_refl].
  - destruct (Ascii.eqb x c) eqn:E.
    + apply Ascii.eqb_eq in E. subst. exfalso. now apply (Hno "" field).
    + f_equal. apply IH; [|exact Hp]. intros a b ->. now apply (Hno (String x a) b).
Qed.

Lemma before_char_spec (c : ascii) (s : string) :
  exists post, s = Text.before_char c s +:+ post
               /\ (post = "" \/ exists r, post = String c r).
Proof.
  induction s as [|a s IH]; simpl.
  - exists "". auto.
  - destruct (Ascii.eqb a c) eqn:E.
    + apply Ascii.eqb_eq in E. subst a. exists (String c s). simpl. eauto.
    + destruct IH as (post & Hs & Hp). exists post. simpl. now rewrite <- Hs.
Qed.

Lemma occurs_contains (sub text : string) :
  occurs sub text <-> Text.contains sub text = true.
Proof. symmetry. apply contains_spec. Qed.

Lemma names_after_occurs (marker text field : string) :
  names_after marker text field -> occurs marker text.
Proof. intros (pre & post & -> & _). now exists pre, (field +:+ post). Qed.

(** The field the code cuts out after a marker is the one the text names
    after it, and the only one. *)
Lemma named_field_spec (marker text field : string) :
  named_field marker text = Some field <-> names_after marker text field.
Proof.
  unfold named_field, names_after. split.
  - destruct (Text.after_first marker text) as [rest|] eqn:E; [|discriminate].
    intros [= <-]. apply after_first_leftmost in E as (pre & -> & Hmin).
    destruct (before_char_spec Text.quote rest) as (post & Hr & Hp).
    exists pre, post. split; [now rewrite <- Hr|]. split; [exact Hmin|].
    split; [|exact Hp]. intros (a & b & H). exact (before_char_clean _ _ _ _ H).
  - intros (pre & post & -> & Hmin & Hno & Hp).
    assert (E : Text.after_first marker (pre +:+ marker +:+ field +:+ post)
                = Some (field +:+ post)).
    { apply after_first_leftmost. exists pre. split; [reflexivity|exact Hmin]. }
    rewrite E. f_equal. apply before_char_append; [|exact Hp].
    intros a b H. apply Hno. now exists a, b.
Qed.

Lemma is_in_true (k : string) (payload : gmap string json) :
  is_in k payload = true <-> is_Some (payload !! k).
Proof.
  unfold is_in. destruct (payload !! k); split; eauto; try discriminate.
  now intros [? ?].
Qed.

Lemma named_in_payload_spec (marker text : string) (payload : gmap string json)
      (field : string) :
  named_in_payload marker text payload = Some field
  <-> names_after marker text field /\ is_Some (payload !! field).
Proof.
  unfold named_in_payload. split.
  - destruct (named_field marker text) as [f|] eqn:N; [|discriminate].
    destruct (is_in f payload) eqn:I; [|discriminate].
    intros [= <-]. split; [now apply named_field_spec|now apply is_in_true].
  - intros [Hn Hp]. apply named_field_spec in Hn. rewrite Hn.
    apply is_in_true in Hp. now rewrite Hp.
Qed.

Lemma named_in_payload_none (marker text : string) (payload : gmap string json) :
  named_in_payload marker text payload = None
  <-> forall f, names_after marker text f -> payload !! f = None.
Proof.
  split.
  - intros H f Hn. destruct (payload !! f) as [v|] eqn:Hf; [|reflexivity].
    assert (Hs : named_in_payload marker text payload = Some f)
      by (apply named_in_payload_spec; split; [exact Hn|now rewrite Hf]).
    congruence.
  - intros H. destruct (named_in_payload marker text payload) as [f|] eqn:E;
      [|reflexivity].
    apply named_in_payload_spec in E as [Hn [v Hv]]. rewrite (H f Hn) in Hv.
    discriminate.
Qed.

Lemma unknown_candidate_spec (text : string) (payload : gmap string json)
      (field : string) :
  unknown_candidate text payload = Some field
  <-> unknown_field_named text field /\ is_Some (payload !! field).
Proof.
  unfold unknown_candidate, unknown_field_named.
  fold marker_unknown. rewrite <- named_in_payload_spec.
  destruct (Text.contains marker_unknown text) eqn:C; [reflexivity|].
  split; [discriminate|]. intros H. apply named_in_payload_spec in H as [Hn _].
  apply names_after_occurs, occurs_contains in Hn. congruence.
Qed.

Lemma unknown_candidate_none (text : string) (payload : gmap string json) :
  unknown_candidate text payload = None
  <-> forall f, unknown_field_named text f -> payload !! f = None.
Proof.
  split.
  - intros H f Hn. destruct (payload !! f) as [v|] eqn:Hf; [|reflexivity].
    assert (Hs : unknown_candidate text payload = Some f)
      by (apply unknown_candidate_spec; split; [exact Hn|now rewrite Hf]).
    congruence.
  - intros H. destruct (unknown_candidate text payload) as [f|] eqn:E; [|reflexivity].
    apply unknown_candidate_spec in E as [Hn [v Hv]]. rewrite (H f Hn) in Hv.
    discriminate.
Qed.

Lemma computed_candidate_spec (text : string) (payload : gmap string json)
      (field : string) :
  computed_candidate text payload = Some field
  <-> computed_field_named text field /\ is_Some (payload !! field).
Proof.
  unfold computed_candidate, computed_field_named.
  fold marker_computed. fold marker_computed_suffix. rewrite occurs_contains.
  destruct (Text.contains marker_computed text) eqn:C; simpl.
  - destruct (Text.contains marker_computed_suffix text) eqn:S.
    + rewrite named_in_payload_spec. tauto.
    + split; [discriminate|]. intros [[_ H] _]. discriminate.
  - split; [discriminate|]. intros [[Hn _] _].
    apply names_after_occurs, occurs_contains in Hn. congruence.
Qed.

Lemma computed_candidate_none (text : string) (payload : gmap string json) :
  computed_candidate text payload = None
  <-> forall f, computed_field_named text f -> payload !! f = None.
Proof.
  split.
  - intros H f Hn. destruct (payload !! f) as [v|] eqn:Hf; [|reflexivity].
    assert (Hs : computed_candidate text payload = Some f)
      by (apply computed_candidate_spec; split; [exact Hn|now rewrite Hf]).
    congruence.
  - intros H. destruct (computed_candidate text payload) as [f|] eqn:E; [|reflexivity].
    apply computed_candidate_spec in E as [Hn [v Hv]]. rewrite (H f Hn) in Hv.
    discriminate.
Qed.

Lemma choice_candidate_spec (text : string) (payload : gmap string json)
      (field : string) :
  choice_candidate text payload = Some field
  <-> invalid_choice text /\ field = "Status" /\ is_Some (payload !! field).
Proof.
  unfold choice_candidate, invalid_choice. rewrite occurs_contains.
  destruct (Text.contains "INVALID_MULTIPLE_CHOICE_OPTIONS" text); simpl.
  - destruct (is_in "Status" payload) eqn:I.
    + apply is_in_true in I. split; [now intros [= <-]|now intros (_ & -> & _)].
    + split; [discriminate|]. intros (_ & -> & H). apply is_in_true in H. congruence.
  - split; [discriminate|]. now intros [? _].
Qed.

(** The field the adapter removes is the one the error text rejects, and
    it removes one whenever the text rejects one. *)
Lemma field_to_strip_spec (text : string) (payload : gmap string json) (field : string) :
  field_to_strip text payload = Some field <-> removes text payload field.
Proof.
  unfold field_to_strip, or_next, removes.
  destruct (unknown_candidate text payload) as [f|] eqn:U.
  { pose proof U as U'. apply unknown_candidate_spec in U' as [Hn Hp]. split.
    - intros [= <-]. auto.
    - intros [Hf [Hu|[Hnone _]]].
      + f_equal. apply unknown_candidate_spec in U.
        assert (E : unknown_candidate text payload = Some field)
          by (apply unknown_candidate_spec; auto).
        apply named_field_spec in Hn. apply named_field_spec in Hu. congruence.
      + destruct Hp as [v Hv]. rewrite (Hnone f Hn) in Hv. discriminate. }
  pose proof (proj1 (unknown_candidate_none text payload) U) as Hnone.
  destruct (computed_candidate text payload) as [f|] eqn:C.
  { pose proof C as C'. apply computed_candidate_spec in C' as [Hn Hp]. split.
    - intros [= <-]. auto.
    - intros [Hf [Hu|[_ [Hc|[Hcnone _]]]]].
      + destruct Hf as [v Hv]. rewrite (Hnone _ Hu) in Hv. discriminate.
      + f_equal. destruct Hn as [Hn _], Hc as [Hc _].
        apply named_field_spec in Hn. apply named_field_spec in Hc. congruence.
      + destruct Hp as [v Hv]. rewrite (Hcnone f Hn) in Hv. discriminate. }
  pose proof (proj1 (computed_candidate_none text payload) C) as Hcnone.
  rewrite choice_candidate_spec. split.
  - intros (Hi & -> & Hp). split; [exact Hp|]. right. split; [exact Hnone|].
    right. auto.
  - intros [Hf [Hu|[_ [Hc|(_ & Hi & ->)]]]].
    + destruct Hf as [v Hv]. rewrite (Hnone _ Hu) in Hv. discriminate.
    + destruct Hf as [v Hv]. rewrite (Hcnone _ Hc) in Hv. discriminate.
    + auto.
Qed.

Lemma field_to_strip_none (text : string) (payload : gmap string json) :
  field_to_strip text payload = None <-> forall field, ~ removes text payload field.
Proof.
  split.
  - intros H field Hr. apply field_to_strip_spec in Hr. congruence.
  - intros H. destruct (field_to_strip text payload) as [f|] eqn:E; [|reflexivity].
    apply field_to_strip_spec in E. now destruct (H f).
Qed.

Lemma field_to_strip_sound (text : string) (payload : gmap string json) (field : string) :
  field_to_strip text payload = Some field ->
  is_Some (payload !! field) /\ removes text payload field.
Proof. intros H. apply field_to_strip_spec in H. split; [apply H|exact H]. Qed.

Section Resilient.

Variable X : Externals.
Variable cfg : Config.

Lemma strip_flag (e : exn) (p : gmap string json) :
  _strip_invalid_airtable_field e p =
  match field_to_strip (exn_str e) p with
  | Some field => (true, delete field p)
  | None => (false, p)
  end.
Proof. reflexivity. Qed.

Lemma create_loop_step (n : nat) (p : gmap string json) (w : World X) :
  create_loop X cfg (S n) p w =
  match table_create X cfg p w with
  | (inr rec, w1) => (inr rec, w1)
  | (inl e, w1) =>
      match field_to_strip (exn_str e) p with
      | Some field => create_loop X cfg n (delete field p) w1
      | None => (inl e, w1)
      end
  end.
Proof.
  simpl. unfold try_except.
  destruct (table_create X cfg p w) as [[e|rec] w1]; [|reflexivity].
  rewrite strip_flag. now destruct (field_to_strip (exn_str e) p).
Qed.

Lemma update_loop_step (n : nat) (record_id : string) (fields p : gmap string json)
      (w : World X) :
  update_loop X cfg (S n) record_id fields p w =
  match table_update X cfg record_id p w with
  | (inr u, w1) => (inr u, w1)
  | (inl e, w1) =>
      match field_to_strip (exn_str e) p with
      | Some field => update_loop X cfg n record_id fields (delete field p) w1
      | None => (inl e, w1)
      end
  end.
Proof.
  simpl. unfold try_except.
  destruct (table_update X cfg record_id p w) as [[e|u] w1]; [|reflexivity].
  rewrite strip_flag. now destruct (field_to_strip (exn_str e) p).
Qed.

Lemma create_loop_strips (n m : nat) p w p' w' :
  strips (table_create X cfg) n p w p' w' ->
  create_loop X cfg (n + m) p w = create_loop X cfg m p' w'.
Proof.
  induction 1 as [|n p w e w1 field p' w' Ha Hf _ IH]; [reflexivity|].
  apply field_to_strip_spec in Hf.
  change (S n + m)%nat with (S (n + m)). rewrite create_loop_step, Ha, Hf. exact IH.
Qed.

Lemma update_loop_strips (n m : nat) record_id fields p w p' w' :
  strips (table_update X cfg record_id) n p w p' w' ->
  update_loop X cfg (n + m) record_id fields p w
  = update_loop X cfg m record_id fields p' w'.
Proof.
  induction 1 as [|n p w e w1 field p' w' Ha Hf _ IH]; [reflexivity|].
  apply field_to_strip_spec in Hf.
  change (S n + m)%nat with (S (n + m)). rewrite update_loop_step, Ha, Hf. exact IH.
Qed.

(** Each rejected attempt costs the payload exactly one of its fields. *)
Lemma strips_payload {A} (attempt : gmap string json -> M X A) n p w p' w' :
  strips attempt n p w p' w' ->
  p' ⊆ p /\ (size p' + n = size p)%nat.
Proof.
  induction 1 as [|n p w e w1 field p' w' _ Hf _ [IH1 IH2]].
  - split; [reflexivity|lia].
  - destruct Hf as [[v Hv] _]. split.
    + etransitivity; [exact IH1|apply delete_subseteq].
    + assert (Hs : size p = S (size (delete field p))).
      { rewrite <- (insert_delete_id p field v Hv) at 1.
        apply map_size_insert_None, lookup_delete_eq. }
      lia.
Qed.

End Resilient.

Lemma run_strips_sound {X A} (attempt : gmap string json -> M X A) n p w p' w' :
  run_strips attempt n p w = Some (p', w') -> strips attempt n p w p' w'.
Proof.
  revert p w. induction n as [|n IH]; intros p w; simpl.
  - intros [= <- <-]. constructor.
  - destruct (attempt p w) as [[e|a] w1] eqn:Ha; [|discriminate].
    destruct (field_to_strip (exn_str e) p) as [field|] eqn:Hf; [|discriminate].
    apply field_to_strip_spec in Hf. intros H. econstructor; eauto.
Qed.

Lemma run_strips_strips {X A} (attempt : gmap string json -> M X A) n p w :
  is_some (run_strips attempt n p w) = true ->
  exists p' w', strips attempt n p w p' w'.
Proof.
  destruct (run_strips attempt n p w) as [[p' w']|] eqn:E; [|discriminate].
  intros _. exists p', w'. now apply run_strips_sound.
Qed.

(** Claim C2, as the code has it.  The adapter removes a field of the
    payload exactly when the store's error rejects one, and then exactly
    that field: the field of the payload the text names as unknown; failing
    that, the field of the payload it names as computed; failing that,
    [Status] when the text reports an invalid choice option and the payload
    has it.  Each of the three kinds of rejection is acted on.  On both
    paths a rejected attempt is followed by another with the field
    removed, and an error that rejects no field of the payload is raised
    as received.  After eight rejected attempts the update path writes only
    [Data] and [Status], taken from the original fields, and the create
    path makes no further attempt and raises its own error, "Unable to
    create Airtable record after removing invalid fields.". *)
Theorem resilient_write_removes_rejected_field (X : Externals) (cfg : Config) :
  (forall err payload,
      match _strip_invalid_airtable_field err payload with
      | (true, payload') =>
          exists field, removes (exn_str err) payload field
                        /\ payload' = delete field payload
      | (false, payload') =>
          payload' = payload /\ forall field, ~ removes (exn_str err) payload field
      end)
  /\ (forall err payload field,
         is_Some (payload !! field) ->
         let gone := (true, delete field payload) in
         let no_unknown :=
           forall f, unknown_field_named (exn_str err) f -> payload !! f = None in
         let no_computed :=
           forall f, computed_field_named (exn_str err) f -> payload !! f = None in
         (unknown_field_named (exn_str err) field ->
          _strip_invalid_airtable_field err payload = gone)
         /\ (no_unknown -> computed_field_named (exn_str err) field ->
             _strip_invalid_airtable_field err payload = gone)
         /\ (no_unknown -> no_computed -> invalid_choice (exn_str err) ->
             field = "Status" ->
             _strip_invalid_airtable_field err payload = gone))
  /\ (forall n fields w p w1 r w2,
         strips (table_create X cfg) n fields w p w1 -> (n < 8)%nat ->
         table_create X cfg p w1 = (r, w2) ->
         match r with
         | inr _ => True
         | inl e => forall field, ~ removes (exn_str e) p field
         end ->
         _create_record_resilient X cfg fields w = (r, w2))
  /\ (forall record_id n fields w p w1 r w2,
         strips (table_update X cfg record_id) n fields w p w1 -> (n < 8)%nat ->
         table_update X cfg record_id p w1 = (r, w2) ->
         match r with
         | inr _ => True
         | inl e => forall field, ~ removes (exn_str e) p field
         end ->
         _update_record_resilient X cfg record_id fields w = (r, w2))
  /\ (forall fields w p w1,
         strips (table_create X cfg) 8 fields w p w1 ->
         _create_record_resilient X cfg fields w = (inl create_exhausted, w1))
  /\ (forall record_id fields w p w1,
         strips (table_update X cfg record_id) 8 fields w p w1 ->
         _update_record_resilient X cfg record_id fields w
         = table_update X cfg record_id (critical_fields fields) w1
         /\ dom (critical_fields fields) = {["Data"; "Status"]}
         /\ (forall v, fields !! "Data" = Some v -> critical_fields fields !! "Data" = Some v)
         /\ (forall v, fields !! "Status" = Some v ->
                       critical_fields fields !! "Status" = Some v)).
Proof.
  assert (Hgone : forall err payload field,
             removes (exn_str err) payload field ->
             _strip_invalid_airtable_field err payload = (true, delete field payload)).
  { intros err payload field Hr. rewrite strip_flag.
    apply field_to_strip_spec in Hr. now rewrite Hr. }
  split; [|split; [|split; [|split; [|split]]]].
  - intros err payload. rewrite strip_flag.
    destruct (field_to_strip (exn_str err) payload) as [field|] eqn:Hf.
    + apply field_to_strip_spec in Hf. eauto.
    + split; [reflexivity|]. now apply field_to_strip_none.
  - intros err payload field Hp. cbv zeta. split; [|split].
    + intros Hu. apply Hgone. split; [exact Hp|]. now left.
    + intros Hnone Hc. apply Hgone. split; [exact Hp|]. right. split; [exact Hnone|].
      now left.
    + intros Hnone Hcnone Hi ->. apply Hgone. split; [exact Hp|]. right.
      split; [exact Hnone|]. right. auto.
  - intros n fields w p w1 r w2 Hs Hn Ht Hr. unfold _create_record_resilient.
    replace 8%nat with (n + S (7 - n))%nat by lia.
    rewrite (create_loop_strips X cfg _ _ _ _ _ _ Hs), create_loop_step, Ht.
    destruct r as [e|rec]; [|reflexivity].
    apply field_to_strip_none in Hr. now rewrite Hr.
  - intros record_id n fields w p w1 r w2 Hs Hn Ht Hr. unfold _update_record_resilient.
    replace 8%nat with (n + S (7 - n))%nat by lia.
    rewrite (update_loop_strips X cfg _ _ _ _ _ _ _ _ Hs), update_loop_step, Ht.
    destruct r as [e|u]; [|reflexivity].
    apply field_to_strip_none in Hr. now rewrite Hr.
  - intros fields w p w1 Hs. unfold _create_record_resilient.
    change 8%nat with (8 + 0)%nat.
    now rewrite (create_loop_strips X cfg _ _ _ _ _ _ Hs).
  - intros record_id fields w p w1 Hs. split; [|split; [|split]].
    + unfold _update_record_resilient. change 8%nat with (8 + 0)%nat.
      now rewrite (update_loop_strips X cfg _ _ _ _ _ _ _ _ Hs).
    + unfold critical_fields. rewrite !dom_insert_L, dom_empty_L. set_solver.
    + intros v Hv. unfold critical_fields. now rewrite lookup_insert_eq, Hv.
    + intros v Hv. unfold critical_fields.
      rewrite lookup_insert_ne by discriminate. now rewrite lookup_insert_eq, Hv.
Qed.

(** Claim C2 fails as stated: a table that lacks eight of the ten columns
    start writes rejects them one by one; all eight errors are received, the
    last one about [Search Text], and what the create path raises is its
    own error, not that one. *)
Lemma create_exhaustion_raises_own_error :
  let w := Demo.world (Demo.rejecting Demo.eight_unknown) in
  let run := _create_record_resilient Demo.externals Demo.config Demo.sample_fields w in
  fst run = inl create_exhausted
  /\ Demo.write_failures (ext (snd run)) = []
  /\ last Demo.eight_unknown = Some (Demo.unknown_field "Search Text")
  /\ fst run <> inl (Exception (Demo.unknown_field "Search Text")).
Proof.
  cbv zeta. split; [vm_compute; reflexivity|].
  split; [vm_compute; reflexivity|].
  split; [reflexivity|].
  intros H. vm_compute in H. discriminate.
Qed.

(** The theorem of claim C2 at work.  A store that rejects one field as
    unknown, the next as computed and then an option of [Status]: three
    updates are rejected, the fourth goes without the three fields and
    succeeds.  And the table above: eight updates are rejected, the ninth
    writes [Data] and [Status] only. *)
Lemma resilient_write_removes_rejected_field_witness :
  (exists p w1 w2,
      strips (table_update Demo.externals Demo.config "rec1") 3 Demo.sample_fields
             (Demo.world (Demo.rejecting Demo.three_kinds)) p w1
      /\ p = delete "Status" (delete "Search Text" (delete "Topic" Demo.sample_fields))
      /\ _update_record_resilient Demo.externals Demo.config "rec1" Demo.sample_fields
           (Demo.world (Demo.rejecting Demo.three_kinds))
         = (inr tt, w2))
  /\ exists p w1,
      strips (table_update Demo.externals Demo.config "rec1") 8 Demo.sample_fields
             (Demo.world (Demo.rejecting Demo.eight_unknown)) p w1
      /\ _update_record_resilient Demo.externals Demo.config "rec1" Demo.sample_fields
           (Demo.world (Demo.rejecting Demo.eight_unknown))
         = table_update Demo.externals Demo.config "rec1"
                        (critical_fields Demo.sample_fields) w1.
Proof.
  pose proof (resilient_write_removes_rejected_field Demo.externals Demo.config)
    as (_ & _ & _ & Hupdate & _ & Hlast).
  split.
  - set (w := Demo.world (Demo.rejecting Demo.three_kinds)).
    set (run := run_strips (table_update Demo.externals Demo.config "rec1") 3
                           Demo.sample_fields w).
    set (p := delete "Status" (delete "Search Text" (delete "Topic" Demo.sample_fields))).
    set (w1 := match run with Some (_, w1) => w1 | None => w end).
    assert (Hrun : run = Some (p, w1)).
    { assert (Hp : option_map fst run = Some p) by (vm_compute; reflexivity).
      unfold w1. destruct run as [[p0 w0]|]; [|discriminate].
      simpl in Hp. now injection Hp as ->. }
    apply run_strips_sound in Hrun.
    set (out := table_update Demo.externals Demo.config "rec1" p w1).
    assert (Hout : out = (inr tt, snd out))
      by (apply pair_from_fst; vm_compute; reflexivity).
    exists p, w1, (snd out). split; [exact Hrun|]. split; [reflexivity|].
    exact (Hupdate "rec1" 3%nat Demo.sample_fields w p w1 (inr tt) (snd out)
                   Hrun ltac:(lia) Hout Logic.I).
  - destruct (run_strips_strips (table_update Demo.externals Demo.config "rec1") 8
                Demo.sample_fields (Demo.world (Demo.rejecting Demo.eight_unknown)))
      as (p & w1 & Hs); [vm_compute; reflexivity|].
    exists p, w1. split; [exact Hs|].
    exact (proj1 (Hlast "rec1" Demo.sample_fields _ p w1 Hs)).
Defined.

(** ** Provider issues and the cache leave the trace alone *)

Section Frames.

Context {X : Externals}.

Lemma set_provider_issue_run (provider_name kind message : string) (w : World X) :
  exists w', _set_provider_issue X provider_name kind message w = (inr tt, w')
             /\ trace w' = trace w
             /\ SESSION_CACHE w' = SESSION_CACHE w
             /\ exists t, PROVIDER_ISSUES w' =
                          <[provider_name := {| is_kind := kind;
                                                is_message := Text.take 300 message;
                                                is_updatedAt := t |}]> (PROVIDER_ISSUES w).
Proof.
  unfold _set_provider_issue, bind, now, outside.
  destruct (x_now X (ext w)) as [t s]. simpl. eauto 10.
Qed.

Lemma clear_provider_issue_run (provider_name : string) (w : World X) :
  exists w', _clear_provider_issue X provider_name w = (inr tt, w')
             /\ trace w' = trace w
             /\ SESSION_CACHE w' = SESSION_CACHE w
             /\ PROVIDER_ISSUES w' = delete provider_name (PROVIDER_ISSUES w).
Proof. unfold _clear_provider_issue. eauto 10. Qed.

Lemma cache_put_run (session_id user_id : string) (data : json)
      (created_at : option string) (w : World X) :
  exists w' created,
    _cache_put X session_id user_id data created_at w = (inr tt, w')
    /\ trace w' = trace w
    /\ PROVIDER_ISSUES w' = PROVIDER_ISSUES w
    /\ SESSION_CACHE w' =
       <[session_id := {| ci_user_id := user_id; ci_created_at := created;
                          ci_data := data |}]> (SESSION_CACHE w).
Proof.
  unfold _cache_put, bind.
  destruct created_at as [c|]; [destruct (Text.nonempty c)|];
    unfold ret, now, outside; try destruct (x_now X (ext w)) as [t s]; simpl; eauto 10.
Qed.

End Frames.

(** ** Paged history *)

Section Paging.

Variable X : Externals.
Variable cfg : Config.

Lemma table_all_run (formula : string) (limit : option Z) (w : World X) :
  table cfg = true ->
  table_all X cfg formula limit w =
  match x_all X formula limit (ext w) with
  | (inl t, s) => (inl (Exception t), logged w s [EvAll formula limit])
  | (inr rs, s) => (inr rs, logged w s [EvAll formula limit])
  end.
Proof.
  intros Ht. unfold table_all, _require_table. rewrite Ht.
  unfold bind at 1, ret. apply provider_run.
Qed.




End Paging.





(** ** History filtering *)

Lemma rbind_ok_inv {A B} (r : R A) (k : A -> R B) (b : B) :
  rbind r k = inr b -> exists a, r = inr a /\ k a = inr b.
Proof. destruct r as [e|a]; [discriminate|]. simpl. eauto. Qed.

Ltac rinv H :=
  let a := fresh "v" in
  let E := fresh "E" in
  apply rbind_ok_inv in H as (a & E & H).

Lemma rmap_ok_inv {A B} (f : A -> R B) (x : A) (l : list A) (ys : list B) :
  rmap f (x :: l) = inr ys ->
  exists y ys', f x = inr y /\ rmap f l = inr ys' /\ ys = y :: ys'.
Proof.
  simpl. intros H. rinv H. rinv H. injection H as <-. eauto.
Qed.

Section Filtering.

Variable X : Externals.
Variable cfg : Config.

Lemma validate_str_inv (j : json) (s : string) :
  validate_str X j = inr s -> j = JStr s.
Proof. destruct j; simpl; try discriminate. now intros [= ->]. Qed.

Lemma required_inv (kv : list (string * json)) (k : string) (whole v : json) :
  required X kv k whole = inr v -> Py.assoc k kv = Some v.
Proof. unfold required. destruct (Py.assoc k kv); [now intros [= ->]|discriminate]. Qed.

Lemma validate_SubTopic_title (j : json) (st : SubTopic) :
  validate_SubTopic X j = inr st ->
  Py.get j "title" (JStr "") = inr (JStr (st_title st)).
Proof.
  destruct j as [| | | | |kv]; try discriminate. unfold validate_SubTopic.
  intros H. rinv H. rinv H. rinv H. rinv H. rinv H. rinv H. injection H as <-.
  simpl. apply required_inv in E1. apply validate_str_inv in E2. subst.
  now rewrite E1.
Qed.

Lemma subtopic_titles (l : list json) (subs : list SubTopic) :
  rmap (validate_SubTopic X) l = inr subs ->
  rmap (fun x => Py.get x "title" (JStr "")) l
  = inr (map (fun st => JStr (st_title st)) subs).
Proof.
  revert subs. induction l as [|x l IH]; intros subs H.
  - injection H as <-. reflexivity.
  - apply rmap_ok_inv in H as (st & subs' & Hx & Hl & ->).
    simpl. rewrite (validate_SubTopic_title _ _ Hx). simpl.
    now rewrite (IH _ Hl).
Qed.

(** What the outline check of pydantic tells about the raw outline. *)
Lemma validate_ResearchOutline_inv (outline : json) (o : ResearchOutline) :
  validate_ResearchOutline X outline = inr o ->
  exists kv l,
    outline = JObj kv
    /\ Py.assoc "title" kv = Some (JStr (o_title o))
    /\ Py.assoc "description" kv = Some (JStr (o_description o))
    /\ Py.assoc "subTopics" kv = Some (JArr l)
    /\ rmap (validate_SubTopic X) l = inr (o_subTopics o).
Proof.
  destruct outline as [| | | | |kv]; try discriminate. unfold validate_ResearchOutline.
  intros H. rinv H. rinv H. rinv H. rinv H. rinv H.
  destruct v3 as [| | | |l|]; try discriminate.
  rinv H. injection H as <-. simpl.
  apply required_inv in E, E1, E3. apply validate_str_inv in E0, E2. subst.
  exists kv, l. auto.
Qed.

Lemma forallb_negb_false {A} (f : A -> bool) (l : list A) :
  forallb (fun x => negb (f x)) l = false -> exists x, In x l /\ f x = true.
Proof.
  induction l as [|x l IH]; simpl; [discriminate|].
  destruct (f x) eqn:E; simpl.
  - intros _. eauto.
  - intros H. destruct (IH H) as (y & Hy & Hf). eauto.
Qed.

(** A session that passes [_matches_filters] with a search string carries
    it in one of the four places. *)
Lemma matches_filters_search (outline : json) (o : ResearchOutline) (tags : list string)
      (category_values : list string) (search : string) :
  _matches_filters X outline tags category_values search = inr true ->
  Text.nonempty search = true ->
  validate_ResearchOutline X outline = inr o ->
  Text.contains search (Text.lower (o_title o)) = true
  \/ Text.contains search (Text.lower (o_description o)) = true
  \/ (exists st, In st (o_subTopics o)
                 /\ Text.contains search (Text.lower (st_title st)) = true)
  \/ (exists t, In t tags /\ Text.contains search (Text.lower t) = true).
Proof.
  intros Hm Hs Hv.
  destruct (validate_ResearchOutline_inv _ _ Hv) as (kv & l & -> & Ht & Hd & Hsub & Hl).
  unfold _matches_filters in Hm. rewrite Hs in Hm.
  destruct (negb _) in Hm; [discriminate|].
  simpl in Hm. rewrite Ht, Hd, Hsub in Hm. simpl in Hm.
  rewrite (subtopic_titles _ _ Hl) in Hm. simpl in Hm.
  rewrite map_map in Hm. simpl in Hm.
  destruct (Text.contains search (Text.lower (o_title o))); [auto|].
  destruct (Text.contains search (Text.lower (o_description o))); [auto|].
  simpl in Hm. right. right.
  destruct (forallb _ (map _ (o_subTopics o))) eqn:F1.
  - destruct (forallb _ (map Text.lower tags)) eqn:F2; [discriminate|].
    right. apply forallb_negb_false in F2 as (x & Hx & Hc).
    apply in_map_iff in Hx as (t & <- & Hin). eauto.
  - left. apply forallb_negb_false in F1 as (x & Hx & Hc).
    apply in_map_iff in Hx as (st & <- & Hin). eauto.
Qed.

End Filtering.

Section HistoryItems.

Variable X : Externals.
Variable cfg : Config.

Lemma history_item_mentions (category_values : list string) (search : string)
      (r : record) (item : ResearchResponse) :
  history_item X category_values (Text.lower (Text.strip search)) r = inr (Some item) ->
  Text.nonempty (Text.lower (Text.strip search)) = true ->
  item_mentions (Text.strip search) item.
Proof.
  intros H Hs. unfold history_item in H.
  rinv H. rinv H. rinv H. rinv H. rinv H.
  destruct v3 as [|]; simpl in H; [|discriminate].
  rinv H. rinv H. rinv H. rinv H. injection H as <-.
  unfold item_mentions; simpl. rewrite !occurs_ci_contains.
  destruct (matches_filters_search X _ _ _ _ _ E3 Hs E4) as [H|[H|[H|H]]]; auto.
  - right. right. left. destruct H as (st & Hin & Hc). exists st.
    now rewrite occurs_ci_contains.
  - right. right. right. destruct H as (t & Hin & Hc). exists t.
    now rewrite occurs_ci_contains.
Qed.

Lemma history_loop_mentions (category_values : list string) (search : string)
      (records : list record) (items : list ResearchResponse) :
  history_loop X category_values (Text.lower (Text.strip search)) records = inr items ->
  Text.nonempty (Text.lower (Text.strip search)) = true ->
  Forall (item_mentions (Text.strip search)) items.
Proof.
  intros H Hs. revert items H.
  induction records as [|r records IH]; intros items H; simpl in H.
  - injection H as <-. constructor.
  - rinv H. rinv H. injection H as <-.
    destruct v as [item|]; [|now apply IH].
    constructor; [|now apply IH].
    now apply (history_item_mentions category_values search r).
Qed.

Lemma build_history_items_inv (user_id category search : string) (limit : option Z)
      (w : World X) (items : list ResearchResponse) (w' : World X) :
  _build_history_items X cfg user_id category search limit w = (inr items, w') ->
  exists records,
    history_loop X (category_values_of category) (Text.lower (Text.strip search)) records
    = inr items.
Proof.
  unfold _build_history_items. intros H.
  apply bind_ok_inv in H as (records & w1 & _ & H).
  apply lift_ok_inv in H as [H _]. eauto.
Qed.

Lemma get_history_inv (request : Request) (category search : string)
      (w : World X) (items : list ResearchResponse) (w' : World X) :
  get_history X cfg request category search w = (inr items, w') ->
  exists user_id w0 w1,
    _build_history_items X cfg user_id category search None w0 = (inr items, w1).
Proof.
  unfold get_history. intros H.
  apply bind_ok_inv in H as (? & w0 & _ & H).
  apply bind_ok_inv in H as (user_id & w1 & Hu & H).
  apply lift_ok_inv in Hu as [_ ->].
  unfold try_except in H.
  destruct (bind (_build_history_items X cfg user_id category search None) _ w0)
    as [[e|items'] w2] eqn:E.
  - destruct (set_provider_issue_run "airtable" "read_error" (exn_str e) w2)
      as (w3 & Hs & _).
    rewrite (bind_inr _ _ _ _ _ Hs) in H. discriminate.
  - injection H as -> ->.
    apply bind_ok_inv in E as (items0 & w3 & Hb & E).
    apply bind_ok_inv in E as (? & w4 & _ & E). injection E as -> _. eauto.
Qed.

Lemma get_history_paged_inv (request : Request) (category search : string)
      (page limit : Z) (w : World X) (r : PagedHistoryResponse) (w' : World X) :
  get_history_paged X cfg request category search page limit w = (inr r, w') ->
  exists user_id w0 items w1,
    _build_history_items X cfg user_id category search
                         (Some (fetch_limit_of page limit)) w0 = (inr items, w1)
    /\ r = paged_response items page limit.
Proof.
  unfold get_history_paged. intros H.
  apply bind_ok_inv in H as (? & w0 & _ & H).
  apply bind_ok_inv in H as (user_id & w1 & Hu & H).
  apply lift_ok_inv in Hu as [_ ->].
  unfold try_except in H.
  destruct (bind (_build_history_items X cfg user_id category search _) _ w0)
    as [[e|r'] w2] eqn:E.
  - destruct (set_provider_issue_run "airtable" "read_error" (exn_str e) w2)
      as (w3 & Hs & _).
    rewrite (bind_inr _ _ _ _ _ Hs) in H. discriminate.
  - injection H as -> ->.
    apply bind_ok_inv in E as (items0 & w3 & Hb & E).
    apply bind_ok_inv in E as (? & w4 & _ & E). injection E as <- _. eauto 10.
Qed.

End HistoryItems.

Lemma nonempty_lower (s : string) : Text.nonempty (Text.lower s) = Text.nonempty s.
Proof. now destruct s. Qed.

Lemma Forall_slice {A} (P : A -> Prop) (start stop : Z) (l : list A) :
  Forall P l -> Forall P (slice start stop l).
Proof.
  intros H. unfold slice. now apply Forall_take, Forall_drop.
Qed.

(** Claim C9, as the code has it.  The code searches for the search
    string trimmed of the white space around it.  When what is left is not
    empty, every session in the returned list (plain or paged) carries it,
    case ignored, in its title, its description, the title of one of its
    subtopics or one of its tags; a session that carries it in none of them
    is therefore not returned.  A search string that is blank filters
    nothing: the answer is the one to the empty search string. *)
Theorem history_search_returns_only_matching
        (X : Externals) (cfg : Config) (request : Request) (category search : string)
        (w : World X) :
  (Text.strip search <> "" ->
   (forall items w',
       get_history X cfg request category search w = (inr items, w') ->
       Forall (item_mentions (Text.strip search)) items)
   /\ (forall page limit r w',
          get_history_paged X cfg request category search page limit w = (inr r, w') ->
          Forall (item_mentions (Text.strip search)) (ph_items r)))
  /\ (Text.strip search = "" ->
      get_history X cfg request category search w
      = get_history X cfg request category "" w
      /\ forall page limit,
          get_history_paged X cfg request category search page limit w
          = get_history_paged X cfg request category "" page limit w).
Proof.
  split.
  - intros Hne.
    assert (Hs : Text.nonempty (Text.lower (Text.strip search)) = true).
    { rewrite nonempty_lower. now destruct (Text.strip search). }
    split.
    + intros items w' H.
      apply get_history_inv in H as (user_id & w0 & w1 & H).
      apply build_history_items_inv in H as (records & H).
      exact (history_loop_mentions X _ _ records _ H Hs).
    + intros page limit r w' H.
      apply get_history_paged_inv in H as (user_id & w0 & items & w1 & H & ->).
      apply build_history_items_inv in H as (records & H).
      simpl. apply Forall_slice. exact (history_loop_mentions X _ _ records _ H Hs).
  - intros Hb. split.
    + unfold get_history, _build_history_items. now rewrite Hb.
    + intros page limit. unfold get_history_paged, _build_history_items.
      now rewrite Hb.
Qed.

(** The theorem of claim C9 on the demo table: the search [" Theory "]
    returns the one session whose title has the word. *)
Lemma history_search_returns_only_matching_witness :
  Text.strip " Theory " <> ""
  /\ match fst (get_history Demo.externals Demo.config Demo.anonymous "All" " Theory "
                  (Demo.world (Demo.idle Demo.five_rows))) with
     | inr items => map rr_sessionId items = ["SESS-2"]
     | inl _ => False
     end
  /\ (forall items w',
         get_history Demo.externals Demo.config Demo.anonymous "All" " Theory "
                     (Demo.world (Demo.idle Demo.five_rows)) = (inr items, w') ->
         Forall (item_mentions (Text.strip " Theory ")) items).
Proof.
  assert (Hne : Text.strip " Theory " <> "") by (vm_compute; discriminate).
  split; [exact Hne|]. split; [vm_compute; reflexivity|].
  exact (proj1 (proj1 (history_search_returns_only_matching
                         Demo.externals Demo.config Demo.anonymous "All" " Theory "
                         (Demo.world (Demo.idle Demo.five_rows))) Hne)).
Defined.

(** Claim C9 fails as stated: the search string [" Theory "], with a space
    on either side, is not empty, and the session returned for it has the
    string in none of the four places; what it has is the word without the
    spaces. *)
Lemma search_with_spaces_returns_unmatched :
  " Theory " <> ""
  /\ exists item,
      fst (get_history Demo.externals Demo.config Demo.anonymous "All" " Theory "
             (Demo.world (Demo.idle Demo.five_rows)))
      = inr [item]
      /\ o_title (rr_outline item) = "Graph theory"
      /\ ~ item_mentions " Theory " item.
Proof.
  split; [discriminate|]. eexists. split; [vm_compute; reflexivity|].
  split; [reflexivity|].
  unfold item_mentions. cbn [rr_outline o_title o_description o_subTopics rr_tags].
  intros [H|[H|[(st & [] & _)|(t & [] & _)]]];
    apply occurs_ci_contains in H; vm_compute in H; discriminate.
Qed.

(** ** Session detail *)

Section SessionDetail.

Variable X : Externals.
Variable cfg : Config.

Lemma cache_get_run (session_id user_id : string) (w : World X) :
  _cache_get X session_id user_id w =
  (inr (match SESSION_CACHE w !! session_id with
        | Some item => if String.eqb (ci_user_id item) user_id then Some item else None
        | None => None
        end), w).
Proof. unfold _cache_get. now destruct (SESSION_CACHE w !! session_id). Qed.

Lemma get_session_run (session_id : string) (request : Request) (w : World X)
      (user_id : string) :
  _resolve_user_id cfg request = inr user_id ->
  get_session X cfg session_id request w =
  try_except
    (match SESSION_CACHE w !! session_id with
     | Some c =>
         if String.eqb (ci_user_id c) user_id
         then lift (session_from_cache X session_id c)
         else session_via_store X cfg session_id user_id
     | None => session_via_store X cfg session_id user_id
     end) on_session_error w.
Proof.
  intros Hu. unfold get_session. unfold bind at 1, lift at 1. rewrite Hu.
  unfold try_except, bind. rewrite cache_get_run.
  destruct (SESSION_CACHE w !! session_id) as [c|]; [|reflexivity].
  now destruct (String.eqb (ci_user_id c) user_id).
Qed.

(** The two store steps of session resolution, in terms of the oracle's
    answers: the lookup by formula, then the lookup by record id checked
    against the user. *)
Lemma find_session_record_run (session_id user_id : string) (w : World X) :
  table cfg = true ->
  _find_session_record X cfg session_id user_id w =
  let first := EvAll (lookup_formula session_id user_id) (Some 1) in
  match x_all X (lookup_formula session_id user_id) (Some 1) (ext w) with
  | (inl t, s) => (inl (Exception t), logged w s [first])
  | (inr (r :: _), s) => (inr (Some r), logged w s [first])
  | (inr [], s) =>
      match x_get X session_id s with
      | (inl _, s2) => (inr None, logged w s2 [first; EvGet session_id])
      | (inr rec, s2) =>
          (inr (if owned_by rec user_id then Some rec else None),
           logged w s2 [first; EvGet session_id])
      end
  end.
Proof.
  intros Ht. unfold _find_session_record. rewrite Ht.
  change (negb true) with false. cbv iota zeta.
  fold (lookup_formula session_id user_id).
  pose proof (table_all_run X cfg (lookup_formula session_id user_id) (Some 1) w Ht) as Ha.
  destruct (x_all X (lookup_formula session_id user_id) (Some 1) (ext w))
    as [[t|records] s].
  - now rewrite (bind_inl _ _ _ _ _ Ha).
  - rewrite (bind_inr _ _ _ _ _ Ha). destruct records as [|r records]; [|reflexivity].
    unfold try_except, _require_table. rewrite Ht. unfold bind at 1, ret.
    unfold bind. rewrite provider_run. simpl.
    destruct (x_get X session_id s) as [[t|rec] s2].
    + rewrite logged_logged. reflexivity.
    + unfold owned_by.
      destruct (Py.assoc "User ID" (rec_fields rec)) as [[| | |u| |]|];
        try (rewrite logged_logged; reflexivity).
      destruct (String.eqb u user_id); rewrite logged_logged; reflexivity.
Qed.

Lemma find_session_record_no_table (session_id user_id : string) (w : World X) :
  table cfg = false ->
  _find_session_record X cfg session_id user_id w = (inr None, w).
Proof. intros Ht. unfold _find_session_record. now rewrite Ht. Qed.

(** The store path starts with the primary lookup. *)
Lemma session_via_store_first_call (session_id user_id : string) (w : World X) :
  table cfg = true ->
  exists evs,
    trace (snd (try_except (session_via_store X cfg session_id user_id)
                           on_session_error w))
    = (trace w ++ EvAll (lookup_formula session_id user_id) (Some 1) :: evs)%list.
Proof.
  intros Ht. unfold session_via_store, _require_table. rewrite Ht.
  unfold try_except, bind at 1, ret. unfold bind.
  rewrite (find_session_record_run session_id user_id w Ht). cbv zeta.
  destruct (x_all X (lookup_formula session_id user_id) (Some 1) (ext w))
    as [[t|[|r records]] s].
  - exists []. reflexivity.
  - destruct (x_get X session_id s) as [[t|rec] s2].
    + exists [EvGet session_id]. reflexivity.
    + destruct (owned_by rec user_id);
        [|exists [EvGet session_id]; reflexivity].
      unfold lift. destruct (session_from_record X rec) as [[c d|t]|d];
        exists [EvGet session_id]; reflexivity.
  - unfold lift. destruct (session_from_record X r) as [[c d|t]|d];
      now exists [].
Qed.

End SessionDetail.

Lemma session_from_cache_well_formed (X : Externals) (session_id : string)
      (c : cache_item) (outline : json) (refinements : list json) (summary : string)
      (tags : list json) o rs ts :
  ci_data c = session_dict outline (JArr refinements) (JStr summary) (JArr tags) ->
  validate_ResearchOutline X outline = inr o ->
  rmap (validate_RefinementEntry X) refinements = inr rs ->
  rmap (validate_str X) tags = inr ts ->
  session_from_cache X session_id c
  = inr {| sd_sessionId := session_id; sd_outline := o;
           sd_createdAt := Some (ci_created_at c); sd_refinements := rs;
           sd_summary := if Text.nonempty summary then Some summary else None;
           sd_tags := ts |}.
Proof.
  intros Hd Ho Hr Ht. unfold session_from_cache. rewrite Hd. simpl.
  unfold build_SessionDetail. rewrite Ho. simpl. rewrite Hr. simpl.
  unfold Py.or_else. simpl. destruct (Text.nonempty summary); simpl; now rewrite Ht.
Qed.

(** Claim C10.  When the cache holds an entry for the requested session
    whose owner is the requesting user, the handler answers from that entry
    alone: the world is left as it was (no store call, whatever the
    configuration of the store), and for a well-formed entry the answer is
    the cached outline, refinements, summary and tags.  An entry owned by
    someone else is a cache miss: the handler does what the store path does,
    which is a 503 when the store is not configured and starts with the
    lookup by formula when it is. *)
Theorem session_detail_served_from_cache
        (X : Externals) (cfg : Config) (session_id : string) (request : Request)
        (w : World X) (user_id : string) (c : cache_item) :
  _resolve_user_id cfg request = inr user_id ->
  SESSION_CACHE w !! session_id = Some c ->
  (ci_user_id c = user_id ->
   get_session X cfg session_id request w
   = match session_from_cache X session_id c with
     | inr detail => (inr detail, w)
     | inl e => on_session_error e w
     end
   /\ forall outline refinements summary tags o rs ts,
       ci_data c = session_dict outline (JArr refinements) (JStr summary) (JArr tags) ->
       validate_ResearchOutline X outline = inr o ->
       rmap (validate_RefinementEntry X) refinements = inr rs ->
       rmap (validate_str X) tags = inr ts ->
       get_session X cfg session_id request w
       = (inr {| sd_sessionId := session_id; sd_outline := o;
                 sd_createdAt := Some (ci_created_at c); sd_refinements := rs;
                 sd_summary := if Text.nonempty summary then Some summary else None;
                 sd_tags := ts |}, w))
  /\ (ci_user_id c <> user_id ->
      get_session X cfg session_id request w
      = try_except (session_via_store X cfg session_id user_id) on_session_error w
      /\ (table cfg = false ->
          get_session X cfg session_id request w
          = (inl (HTTPException 503 "Airtable not configured."), w))
      /\ (table cfg = true ->
          exists evs,
            trace (snd (get_session X cfg session_id request w))
            = (trace w ++ EvAll (lookup_formula session_id user_id) (Some 1)
                       :: evs)%list)).
Proof.
  intros Hu Hc. rewrite (get_session_run X cfg session_id request w user_id Hu), Hc.
  split.
  - intros <-. rewrite String.eqb_refl.
    assert (Hrun : try_except (lift (session_from_cache X session_id c))
                              on_session_error w
                   = match session_from_cache X session_id c with
                     | inr detail => (inr detail, w)
                     | inl e => on_session_error e w
                     end).
    { unfold try_except, lift. now destruct (session_from_cache X session_id c). }
    split; [exact Hrun|].
    intros outline refinements summary tags o rs ts Hd Ho Hr Ht. rewrite Hrun.
    now rewrite (session_from_cache_well_formed X session_id c _ _ _ _ _ _ _ Hd Ho Hr Ht).
  - intros Hne. apply String.eqb_neq in Hne. rewrite Hne.
    split; [reflexivity|]. split.
    + intros Ht. unfold try_except, session_via_store, _require_table.
      rewrite Ht. reflexivity.
    + intros Ht. now apply session_via_store_first_call.
Qed.

(** The theorem of claim C10 on a service without a store: the session
    cached for the default user is returned, and nothing else happens. *)
Lemma session_detail_served_from_cache_witness :
  let w := Demo.cached_world "SESS-0A1B2C3D" "local-dev" (Demo.idle []) in
  table Demo.offline = false
  /\ exists detail,
      get_session Demo.externals Demo.offline "SESS-0A1B2C3D" Demo.anonymous w
      = (inr detail, w)
      /\ o_title (sd_outline detail) = "Graph Databases"
      /\ length (o_subTopics (sd_outline detail)) = 5%nat
      /\ sd_summary detail = None.
Proof.
  cbv zeta. split; [reflexivity|].
  eexists. split.
  - refine (proj2 (proj1 (session_detail_served_from_cache
                            Demo.externals Demo.offline "SESS-0A1B2C3D" Demo.anonymous
                            (Demo.cached_world "SESS-0A1B2C3D" "local-dev" (Demo.idle []))
                            "local-dev" (Demo.cached_item "local-dev") eq_refl _)
                         eq_refl)
                  (_fallback_outline Demo.externals "graph databases") [] "" []
                  _ [] [] eq_refl _ eq_refl eq_refl).
    + vm_compute. reflexivity.
    + vm_compute. reflexivity.
  - repeat split.
Defined.

(** ** Refine on an unknown session *)

Lemma require_genai_ok (X : Externals) (cfg : Config) (w : World X) :
  groq_client cfg = true -> _require_genai X cfg w = (inr tt, w).
Proof.
  unfold _require_genai. intros H. rewrite H.
  unfold groq_client in H. apply andb_true_iff in H as [_ ->]. reflexivity.
Qed.

Lemma unresolved_lookups {X} (cfg : Config) (session_id user_id : string) (w : World X) :
  unresolved cfg session_id user_id w ->
  _cache_get X session_id user_id w = (inr None, w)
  /\ exists w', _find_session_record X cfg session_id user_id w = (inr None, w')
                /\ SESSION_CACHE w' = SESSION_CACHE w
                /\ PROVIDER_ISSUES w' = PROVIDER_ISSUES w.
Proof.
  intros [Hc Hs]. split.
  - rewrite cache_get_run. destruct (SESSION_CACHE w !! session_id) as [c|]; [|reflexivity].
    apply String.eqb_neq in Hc. now rewrite Hc.
  - destruct Hs as [Ht|(Ht & s & Ha & Hg)].
    + exists w. now rewrite find_session_record_no_table.
    + rewrite (find_session_record_run X cfg session_id user_id w Ht). cbv zeta.
      rewrite Ha. destruct (x_get X session_id s) as [[t|rec] s2].
      * eauto.
      * rewrite Hg. eauto.
Qed.

(** Claim C8.  For a request the rate limiter lets through (it arrives in
    world [wi] and the limiter leaves world [w]), a configured LLM and an
    authenticated caller, which are the three checks that come before the
    resolution, refining a session that resolves through none of the three
    steps (cache entry of the same user, store lookup by formula, store
    lookup by record id checked against the user) ends in a 404 "Session
    not found."; the cache and the provider issues are left as they
    were. *)
Theorem refine_unresolved_session_not_found
        (X : Externals) (cfg : Config) (request : Request) (payload : RefineRequest)
        (wi w : World X) (user_id : string) :
  limiter_limit X "refine_research" request wi = (inr tt, w) ->
  groq_client cfg = true ->
  _resolve_user_id cfg request = inr user_id ->
  unresolved cfg (rf_sessionId payload) user_id w ->
  exists w',
    refine_research X cfg request payload wi
    = (inl (HTTPException 404 "Session not found."), w')
    /\ SESSION_CACHE w' = SESSION_CACHE wi
    /\ PROVIDER_ISSUES w' = PROVIDER_ISSUES wi.
Proof.
  intros Hl Hg Hu Hn.
  destruct (unresolved_lookups cfg _ _ w Hn) as (Hc & w' & Hf & Hsc & Hpi).
  exists w'. split.
  2: { destruct (limiter_limit_admits _ _ _ _ Hl) as (s & _ & ->).
       split; [exact Hsc|exact Hpi]. }
  unfold refine_research.
  rewrite (bind_inr _ _ _ _ _ Hl).
  rewrite (bind_inr _ _ _ _ _ (require_genai_ok X cfg w Hg)).
  unfold bind at 1, lift at 1. rewrite Hu.
  assert (Hstage : refine_stage X cfg user_id payload w
                   = (inl (HTTPException 404 "Session not found."), w')).
  { unfold refine_stage. rewrite (bind_inr _ _ _ _ _ Hc), (bind_inr _ _ _ _ _ Hf).
    reflexivity. }
  unfold try_except, refine_body. now rewrite (bind_inl _ _ _ _ _ Hstage).
Qed.

(** The theorem of claim C8 on the demo service: the table is empty and
    the cache holds nothing for the session. *)
Lemma refine_unresolved_session_not_found_witness :
  let w := Demo.world (Demo.idle []) in
  let payload := {| rf_sessionId := "SESS-FFFFFFFF"; rf_subtopic := "Core Concepts" |} in
  unresolved Demo.config "SESS-FFFFFFFF" "local-dev" w
  /\ fst (refine_research Demo.externals Demo.config Demo.anonymous payload w)
     = inl (HTTPException 404 "Session not found.").
Proof.
  cbv zeta.
  assert (Hn : unresolved Demo.config "SESS-FFFFFFFF" "local-dev"
                          (Demo.world (Demo.idle []))).
  { split; [exact I|]. right. split; [reflexivity|].
    exists (Demo.idle []). split; [reflexivity|exact I]. }
  split; [exact Hn|].
  destruct (refine_unresolved_session_not_found
              Demo.externals Demo.config Demo.anonymous
              {| rf_sessionId := "SESS-FFFFFFFF"; rf_subtopic := "Core Concepts" |}
              (Demo.world (Demo.idle [])) (Demo.world (Demo.idle [])) "local-dev"
              eq_refl eq_refl eq_refl Hn)
    as (w' & -> & _).
  reflexivity.
Defined.

(** ** Start under a quota error *)

Section StartFallback.

Variable X : Externals.
Variable cfg : Config.

Lemma fallback_outline_validates (topic : string) :
  validate_ResearchOutline X (_fallback_outline X topic)
  = inr (fallback_ResearchOutline X topic).
Proof. reflexivity. Qed.

(** The store block of start swallows every failure. *)
Lemma start_store_total (session_id user_id topic : string)
      (raw_data session_payload : json) (w : World X) :
  exists sid w', start_store X cfg session_id user_id topic raw_data session_payload w
                 = (inr sid, w').
Proof.
  unfold start_store. destruct (table cfg); [|unfold ret; eauto].
  unfold try_except.
  match goal with |- context [match ?m w with _ => _ end] => destruct (m w) as [[ae|sid] w1] end.
  - destruct (set_provider_issue_run "airtable" "write_error" (exn_str ae) w1)
      as (w2 & Hs & _).
    rewrite (bind_inr _ _ _ _ _ Hs). unfold ret. eauto.
  - eauto.
Qed.

Lemma start_research_run (request : Request) (payload : ResearchRequest)
      (wi w : World X) (user_id : string) :
  limiter_limit X "start_research" request wi = (inr tt, w) ->
  groq_client cfg = true ->
  _resolve_user_id cfg request = inr user_id ->
  start_research X cfg request payload wi
  = try_except (start_body X cfg user_id payload) on_start_error w.
Proof.
  intros Hl Hg Hu. unfold start_research. rewrite (bind_inr _ _ _ _ _ Hl).
  rewrite (bind_inr _ _ _ _ _ (require_genai_ok X cfg w Hg)).
  unfold bind, lift. now rewrite Hu.
Qed.

Lemma http_429_looks_like_quota (detail : string) :
  looks_like_quota (HTTPException 429 detail) = true.
Proof.
  unfold looks_like_quota, exn_str.
  change (pretty 429) with "429". now rewrite startswith_contains.
Qed.

End StartFallback.

(** Claim C6.  When the LLM call of start ends in a recognized quota
    error: with fallback enabled the request succeeds with the locally
    generated outline, which is a function of the topic alone and has a
    title, a non-empty description and exactly 5 subtopics, whatever the
    store does; with fallback disabled the request fails with a 429.  The
    LLM call is reached when the rate limiter has let the request through
    (from world [wi] to world [w]), the LLM is configured and the caller is
    authenticated. *)
Theorem start_quota_error_fallback_or_429
        (X : Externals) (cfg : Config) (request : Request) (payload : ResearchRequest)
        (wi w : World X) (user_id : string) (e : exn) (w1 : World X) :
  limiter_limit X "start_research" request wi = (inr tt, w) ->
  groq_client cfg = true ->
  _resolve_user_id cfg request = inr user_id ->
  _generate_content_with_retry X (start_prompt cfg (rq_topic payload)) 1 10000 w
  = (inl e, w1) ->
  _is_quota_error e = true ->
  (ENABLE_FALLBACK_ON_QUOTA cfg = true ->
   let o := fallback_ResearchOutline X (rq_topic payload) in
   (exists sid w',
       start_research X cfg request payload wi
       = (inr {| rr_sessionId := sid; rr_outline := o; rr_createdAt := None;
                 rr_tags := []; rr_progress := 50 |}, w'))
   /\ validate_ResearchOutline X (_fallback_outline X (rq_topic payload)) = inr o
   /\ o_title o = x_title X (fallback_base (rq_topic payload))
   /\ o_description o <> ""
   /\ length (o_subTopics o) = 5%nat)
  /\ (ENABLE_FALLBACK_ON_QUOTA cfg = false ->
      exists w',
        start_research X cfg request payload wi
        = (inl (HTTPException 429
                  "LLM API quota exhausted. Add billing/key or use fallback mode."), w')).
Proof.
  intros Hl Hg Hu Hllm Hq.
  rewrite (start_research_run X cfg request payload wi w user_id Hl Hg Hu).
  assert (Hout : start_outline X cfg (rq_topic payload) w
                 = on_llm_error X cfg (ret (_fallback_outline X (rq_topic payload)))
                                start_quota_detail e w1).
  { unfold start_outline, try_except. now rewrite (bind_inl _ _ _ _ _ Hllm). }
  destruct (set_provider_issue_run "llm" "quota" (exn_str e) w1) as (w2 & Hs & _).
  split.
  - intros Hen. cbv zeta.
    split; [|split; [reflexivity|split; [reflexivity|split; [discriminate|reflexivity]]]].
    assert (Hout2 : start_outline X cfg (rq_topic payload) w
                    = (inr (_fallback_outline X (rq_topic payload)), w2)).
    { rewrite Hout. unfold on_llm_error. rewrite Hq, Hen. simpl.
      now rewrite (bind_inr _ _ _ _ _ Hs). }
    destruct (x_urandom X (ext w2)) as [hex s3] eqn:Hrand.
    set (w3 := Build_World s3 (SESSION_CACHE w2) (PROVIDER_ISSUES w2) (trace w2)).
    assert (Hur : outside X (x_urandom X) w2 = (inr hex, w3))
      by (unfold outside; now rewrite Hrand).
    set (raw := _fallback_outline X (rq_topic payload)) in *.
    set (payload_json := session_dict raw (JArr []) (JStr "") (JArr [])).
    destruct (start_store_total X cfg ("SESS-" +:+ hex) user_id (rq_topic payload)
                raw payload_json w3) as (sid & w4 & Hst).
    destruct (cache_put_run sid user_id payload_json None w4) as (w5 & created & Hp & _).
    exists sid, w5. apply try_inr. unfold start_body.
    rewrite (bind_inr _ _ _ _ _ Hout2), (bind_inr _ _ _ _ _ Hur).
    rewrite (bind_inr _ _ _ _ _ Hst), (bind_inr _ _ _ _ _ Hp).
    unfold bind, lift, raw. now rewrite fallback_outline_validates.
  - intros Hen.
    assert (Hout2 : start_outline X cfg (rq_topic payload) w
                    = (inl (HTTPException 429 start_quota_detail), w2)).
    { rewrite Hout. unfold on_llm_error. rewrite Hq, Hen. simpl.
      now rewrite (bind_inr _ _ _ _ _ Hs). }
    destruct (set_provider_issue_run
                "llm" "quota" (exn_str (HTTPException 429 start_quota_detail)) w2)
      as (w3 & Hs3 & _).
    exists w3. unfold start_body.
    rewrite (try_inl _ _ _ _ _ (bind_inl _ _ _ _ _ Hout2)).
    unfold on_start_error.
    rewrite http_429_looks_like_quota. now rewrite (bind_inr _ _ _ _ _ Hs3).
Qed.

(** The theorem of claim C6 on the demo service: both LLM calls hit the
    rate limit and the table is down; with fallback enabled start answers
    with the fallback outline for the topic. *)
Lemma start_quota_error_fallback_or_429_witness :
  exists sid w',
    start_research Demo.externals Demo.config Demo.anonymous
                   {| rq_topic := "graph databases" |} (Demo.world Demo.over_quota)
    = (inr {| rr_sessionId := sid;
              rr_outline := fallback_ResearchOutline Demo.externals "graph databases";
              rr_createdAt := None; rr_tags := []; rr_progress := 50 |}, w').
Proof.
  remember (_generate_content_with_retry
              Demo.externals (start_prompt Demo.config "graph databases") 1 10000
              (Demo.world Demo.over_quota)) as out eqn:Eo.
  assert (Hf : fst out
               = inl (Exception "Error code: 429 - Rate limit reached, retry in 19s"))
    by (rewrite Eo; vm_compute; reflexivity).
  destruct out as [r w1]. simpl in Hf. subst r.
  exact (proj1 (proj1 (start_quota_error_fallback_or_429
                         Demo.externals Demo.config Demo.anonymous
                         {| rq_topic := "graph databases" |}
                         (Demo.world Demo.over_quota) (Demo.world Demo.over_quota)
                         "local-dev" _ w1
                         eq_refl eq_refl eq_refl (eq_sym Eo) eq_refl)
                      eq_refl)).
Defined.

(** ** Store-write failures in start, refine and finalize *)

Section StoreWriteFailure.

Variable X : Externals.
Variable cfg : Config.

(** The workflow handler never answers with a result, and what it raises
    is an [HTTPException]. *)
Lemma on_workflow_error_raises {A} (what : string) (e : exn) (w : World X) :
  exists code detail w',
    @on_workflow_error X A what e w = (inl (HTTPException code detail), w')
    /\ SESSION_CACHE w' = SESSION_CACHE w.
Proof.
  unfold on_workflow_error. destruct e as [code detail|t].
  - unfold raise. eauto.
  - destruct (looks_like_quota (Exception t)).
    + destruct (set_provider_issue_run "llm" "quota" (exn_str (Exception t)) w)
        as (w' & Hs & _ & Hc & _).
      rewrite (bind_inr _ _ _ _ _ Hs). unfold raise. eauto.
    + destruct (set_provider_issue_run "airtable" "write_error" (exn_str (Exception t)) w)
        as (w' & Hs & _ & Hc & _).
      rewrite (bind_inr _ _ _ _ _ Hs). unfold raise. eauto.
Qed.

(** For an error that does not look like a quota error: a 500 carrying the
    error text, and an [airtable] issue of kind [write_error]. *)
Lemma on_workflow_error_write_error {A} (what t : string) (w : World X) :
  looks_like_quota (Exception t) = false ->
  exists w' stamp,
    @on_workflow_error X A what (Exception t) w
    = (inl (HTTPException 500 (what +:+ t)), w')
    /\ SESSION_CACHE w' = SESSION_CACHE w
    /\ PROVIDER_ISSUES w' !! "airtable"
       = Some {| is_kind := "write_error"; is_message := Text.take 300 t;
                 is_updatedAt := stamp |}.
Proof.
  intros Hq. unfold on_workflow_error. rewrite Hq.
  destruct (set_provider_issue_run "airtable" "write_error" (exn_str (Exception t)) w)
    as (w' & Hs & _ & Hc & stamp & Hp).
  rewrite (bind_inr _ _ _ _ _ Hs). unfold raise. exists w', stamp.
  split; [reflexivity|]. split; [exact Hc|]. rewrite Hp. apply lookup_insert_eq.
Qed.

Lemma refine_research_run (request : Request) (payload : RefineRequest)
      (wi w : World X) (user_id : string) :
  limiter_limit X "refine_research" request wi = (inr tt, w) ->
  groq_client cfg = true ->
  _resolve_user_id cfg request = inr user_id ->
  refine_research X cfg request payload wi
  = try_except (refine_body X cfg user_id payload)
               (on_workflow_error "Failed to refine research: ") w.
Proof.
  intros Hl Hg Hu. unfold refine_research. rewrite (bind_inr _ _ _ _ _ Hl).
  rewrite (bind_inr _ _ _ _ _ (require_genai_ok X cfg w Hg)).
  unfold bind, lift. now rewrite Hu.
Qed.

Lemma finalize_research_run (request : Request) (payload : FinalizeRequest)
      (wi w : World X) (user_id : string) :
  limiter_limit X "finalize_research" request wi = (inr tt, w) ->
  groq_client cfg = true ->
  _resolve_user_id cfg request = inr user_id ->
  finalize_research X cfg request payload wi
  = try_except (finalize_body X cfg user_id payload)
               (on_workflow_error "Failed to finalize research: ") w.
Proof.
  intros Hl Hg Hu. unfold finalize_research. rewrite (bind_inr _ _ _ _ _ Hl).
  rewrite (bind_inr _ _ _ _ _ (require_genai_ok X cfg w Hg)).
  unfold bind, lift. now rewrite Hu.
Qed.

(** A failed write in start: recorded, and the generated id is kept. *)
Lemma start_store_failure (session_id user_id topic : string)
      (raw_data session_payload : json) (w : World X) (ae : exn) (w1 : World X) :
  table cfg = true ->
  start_store_write X cfg session_id user_id topic raw_data session_payload w
  = (inl ae, w1) ->
  exists w2 stamp,
    start_store X cfg session_id user_id topic raw_data session_payload w
    = (inr session_id, w2)
    /\ PROVIDER_ISSUES w2 !! "airtable"
       = Some {| is_kind := "write_error"; is_message := Text.take 300 (exn_str ae);
                 is_updatedAt := stamp |}.
Proof.
  intros Ht Hw. unfold start_store. rewrite Ht.
  rewrite (try_inl _ _ _ _ _ Hw).
  destruct (set_provider_issue_run "airtable" "write_error" (exn_str ae) w1)
    as (w2 & Hs & _ & _ & stamp & Hp).
  rewrite (bind_inr _ _ _ _ _ Hs). exists w2, stamp.
  split; [reflexivity|]. rewrite Hp. apply lookup_insert_eq.
Qed.

(** Start answers with the outline it has, whatever the store does. *)
Lemma start_answers_despite_store (request : Request) (payload : ResearchRequest)
      (wi w : World X) (user_id : string) (raw_data : json) (w1 : World X)
      (o : ResearchOutline) :
  limiter_limit X "start_research" request wi = (inr tt, w) ->
  groq_client cfg = true ->
  _resolve_user_id cfg request = inr user_id ->
  start_outline X cfg (rq_topic payload) w = (inr raw_data, w1) ->
  validate_ResearchOutline X raw_data = inr o ->
  exists sid w',
    start_research X cfg request payload wi
    = (inr {| rr_sessionId := sid; rr_outline := o; rr_createdAt := None;
              rr_tags := []; rr_progress := 50 |}, w').
Proof.
  intros Hl Hg Hu Ho Hv.
  rewrite (start_research_run X cfg request payload wi w user_id Hl Hg Hu).
  destruct (x_urandom X (ext w1)) as [hex s2] eqn:Hrand.
  set (w2 := Build_World s2 (SESSION_CACHE w1) (PROVIDER_ISSUES w1) (trace w1)).
  assert (Hur : outside X (x_urandom X) w1 = (inr hex, w2))
    by (unfold outside; now rewrite Hrand).
  set (payload_json := session_dict raw_data (JArr []) (JStr "") (JArr [])).
  destruct (start_store_total X cfg ("SESS-" +:+ hex) user_id (rq_topic payload)
              raw_data payload_json w2) as (sid & w3 & Hst).
  destruct (cache_put_run sid user_id payload_json None w3) as (w4 & created & Hp & _).
  exists sid, w4. apply try_inr. unfold start_body.
  rewrite (bind_inr _ _ _ _ _ Ho), (bind_inr _ _ _ _ _ Hur).
  rewrite (bind_inr _ _ _ _ _ Hst), (bind_inr _ _ _ _ _ Hp).
  unfold bind, lift. now rewrite Hv.
Qed.

End StoreWriteFailure.

Section WriteBackFrame.

Variable X : Externals.
Variable cfg : Config.

Lemma table_update_cache (record_id : string) (p : gmap string json) (w : World X) :
  SESSION_CACHE (snd (table_update X cfg record_id p w)) = SESSION_CACHE w.
Proof.
  unfold table_update, _require_table. destruct (table cfg).
  - unfold bind at 1, ret. rewrite provider_run.
    now destruct (x_update X record_id p (ext w)) as [[t|u] s].
  - reflexivity.
Qed.

Lemma update_loop_cache (n : nat) (record_id : string) (fields p : gmap string json)
      (w : World X) :
  SESSION_CACHE (snd (update_loop X cfg n record_id fields p w)) = SESSION_CACHE w.
Proof.
  revert p w. induction n as [|n IH]; intros p w.
  - apply table_update_cache.
  - rewrite update_loop_step.
    pose proof (table_update_cache record_id p w) as Hc.
    destruct (table_update X cfg record_id p w) as [[e|u] w1]; simpl in Hc; [|exact Hc].
    destruct (field_to_strip (exn_str e) p) as [field|]; [|exact Hc].
    now rewrite IH.
Qed.

(** The store-write step leaves the cache alone. *)
Lemma write_back_cache (record : option record) (fields : R (gmap string json))
      (w : World X) :
  SESSION_CACHE (snd (write_back X cfg record fields w)) = SESSION_CACHE w.
Proof.
  unfold write_back. destruct record as [rec|]; [|reflexivity].
  unfold bind at 1, lift. destruct fields as [e|fs]; [reflexivity|].
  unfold _update_record_resilient, bind.
  pose proof (update_loop_cache 8 (rec_id rec) fs fs w) as Hc.
  destruct (update_loop X cfg 8 (rec_id rec) fs fs w) as [[e|u] w1]; exact Hc.
Qed.

(** What a workflow handler does with a failed store write that follows a
    completed stage. *)
Lemma workflow_write_failure {A} (what : string) (body : M X A) (w : World X)
      (e : exn) (w1 w2 : World X) :
  body w = (inl e, w2) ->
  SESSION_CACHE w2 = SESSION_CACHE w1 ->
  exists code detail w',
    try_except body (on_workflow_error what) w = (inl (HTTPException code detail), w')
    /\ SESSION_CACHE w' = SESSION_CACHE w1
    /\ (forall t, e = Exception t -> looks_like_quota e = false ->
                  code = 500 /\ detail = what +:+ t
                  /\ exists stamp,
                      PROVIDER_ISSUES w' !! "airtable"
                      = Some {| is_kind := "write_error";
                                is_message := Text.take 300 t;
                                is_updatedAt := stamp |}).
Proof.
  intros Hb Hc. rewrite (try_inl _ _ _ _ _ Hb).
  destruct e as [code detail|t].
  - exists code, detail, w2. split; [reflexivity|]. split; [exact Hc|]. discriminate.
  - destruct (looks_like_quota (Exception t)) eqn:Hq.
    + destruct (on_workflow_error_raises X (A:=A) what (Exception t) w2)
        as (code & detail & w' & Hr & Hc').
      exists code, detail, w'. split; [exact Hr|]. split; [congruence|].
      intros t' _ Hf. discriminate.
    + destruct (on_workflow_error_write_error X (A:=A) what t w2 Hq)
        as (w' & stamp & Hr & Hc' & Hp).
      exists 500, (what +:+ t), w'. split; [exact Hr|]. split; [congruence|].
      intros t' [= <-] _. eauto.
Qed.

End WriteBackFrame.

(** Claim C3, as the code has it.  In start, a failure of the store write
    is recorded as an [airtable] issue of kind [write_error] and the
    request goes on: whatever the store does, a well-formed outline is
    returned with a success status.  In refine and in finalize, a failure
    of the store write ends the request with an [HTTPException]: a 500
    carrying the error text, with the failure recorded as an [airtable]
    issue of kind [write_error], unless the text looks like a quota error;
    the cache keeps the session as updated before the write.  A request
    reaches the store-write step only past the rate limiter, which lets it
    through from world [wi] to world [w]. *)
Theorem store_write_failure_start_goes_on_others_fail (X : Externals) (cfg : Config) :
  (forall request payload (wi w : World X) user_id raw_data w1 o,
      limiter_limit X "start_research" request wi = (inr tt, w) ->
      groq_client cfg = true ->
      _resolve_user_id cfg request = inr user_id ->
      start_outline X cfg (rq_topic payload) w = (inr raw_data, w1) ->
      validate_ResearchOutline X raw_data = inr o ->
      exists sid w',
        start_research X cfg request payload wi
        = (inr {| rr_sessionId := sid; rr_outline := o; rr_createdAt := None;
                  rr_tags := []; rr_progress := 50 |}, w'))
  /\ (forall session_id user_id topic raw_data session_payload (w : World X) ae w1,
         table cfg = true ->
         start_store_write X cfg session_id user_id topic raw_data session_payload w
         = (inl ae, w1) ->
         exists w2 stamp,
           start_store X cfg session_id user_id topic raw_data session_payload w
           = (inr session_id, w2)
           /\ PROVIDER_ISSUES w2 !! "airtable"
              = Some {| is_kind := "write_error";
                        is_message := Text.take 300 (exn_str ae);
                        is_updatedAt := stamp |})
  /\ (forall request payload (wi w : World X) user_id st w1 e w2,
         limiter_limit X "refine_research" request wi = (inr tt, w) ->
         groq_client cfg = true ->
         _resolve_user_id cfg request = inr user_id ->
         refine_stage X cfg user_id payload w = (inr st, w1) ->
         write_back X cfg (st_record st) (st_fields st) w1 = (inl e, w2) ->
         exists code detail w',
           refine_research X cfg request payload wi
           = (inl (HTTPException code detail), w')
           /\ SESSION_CACHE w' = SESSION_CACHE w1
           /\ (forall t, e = Exception t -> looks_like_quota e = false ->
                         code = 500 /\ detail = "Failed to refine research: " +:+ t
                         /\ exists stamp,
                             PROVIDER_ISSUES w' !! "airtable"
                             = Some {| is_kind := "write_error";
                                       is_message := Text.take 300 t;
                                       is_updatedAt := stamp |}))
  /\ (forall request payload (wi w : World X) user_id st w1 e w2,
         limiter_limit X "finalize_research" request wi = (inr tt, w) ->
         groq_client cfg = true ->
         _resolve_user_id cfg request = inr user_id ->
         finalize_stage X cfg user_id payload w = (inr st, w1) ->
         write_back X cfg (st_record st) (st_fields st) w1 = (inl e, w2) ->
         exists code detail w',
           finalize_research X cfg request payload wi
           = (inl (HTTPException code detail), w')
           /\ SESSION_CACHE w' = SESSION_CACHE w1
           /\ (forall t, e = Exception t -> looks_like_quota e = false ->
                         code = 500 /\ detail = "Failed to finalize research: " +:+ t
                         /\ exists stamp,
                             PROVIDER_ISSUES w' !! "airtable"
                             = Some {| is_kind := "write_error";
                                       is_message := Text.take 300 t;
                                       is_updatedAt := stamp |})).
Proof.
  split; [|split; [|split]].
  - intros.
    now apply (start_answers_despite_store X cfg request payload wi w user_id raw_data w1).
  - intros. now apply (start_store_failure X cfg _ _ _ _ _ w ae w1).
  - intros request payload wi w user_id st w1 e w2 Hl Hg Hu Hst Hw.
    rewrite (refine_research_run X cfg request payload wi w user_id Hl Hg Hu).
    apply (workflow_write_failure X _ _ w e w1 w2).
    + unfold refine_body. rewrite (bind_inr _ _ _ _ _ Hst).
      now rewrite (bind_inl _ _ _ _ _ Hw).
    + pose proof (write_back_cache X cfg (st_record st) (st_fields st) w1) as Hc.
      now rewrite Hw in Hc.
  - intros request payload wi w user_id st w1 e w2 Hl Hg Hu Hst Hw.
    rewrite (finalize_research_run X cfg request payload wi w user_id Hl Hg Hu).
    apply (workflow_write_failure X _ _ w e w1 w2).
    + unfold finalize_body. rewrite (bind_inr _ _ _ _ _ Hst).
      now rewrite (bind_inl _ _ _ _ _ Hw).
    + pose proof (write_back_cache X cfg (st_record st) (st_fields st) w1) as Hc.
      now rewrite Hw in Hc.
Qed.

(** Claim C3 fails as stated: the session is cached, the LLM answers, the
    store-write step is reached (the last provider call is the update of the
    session's row) and fails; refine answers 500 instead of the insight. *)
Lemma refine_store_write_failure_aborts :
  let w := Demo.cached_world "SESS-0A1B2C3D" "local-dev" Demo.store_down in
  let out := refine_research Demo.externals Demo.config Demo.anonymous
                             Demo.refine_core w in
  fst out = inl (HTTPException 500
                   "Failed to refine research: 503 Server Error: Service Unavailable")
  /\ match last (trace (snd out)) with
     | Some (EvUpdate record_id _) => record_id = "rec1"
     | _ => False
     end
  /\ is_kind <$> (PROVIDER_ISSUES (snd out) !! "airtable") = Some "write_error".
Proof.
  cbv zeta. split; [vm_compute; reflexivity|].
  split; vm_compute; reflexivity.
Qed.

(** The theorem of claim C3 on that run: the stage completes, the write
    fails, and the request ends in a 500. *)
Lemma store_write_failure_start_goes_on_others_fail_witness :
  exists detail w',
    refine_research Demo.externals Demo.config Demo.anonymous Demo.refine_core
      (Demo.cached_world "SESS-0A1B2C3D" "local-dev" Demo.store_down)
    = (inl (HTTPException 500 detail), w').
Proof.
  set (w := Demo.cached_world "SESS-0A1B2C3D" "local-dev" Demo.store_down).
  set (staged_run := refine_stage Demo.externals Demo.config "local-dev"
                                  Demo.refine_core w).
  set (st := match fst staged_run with
             | inr st => st
             | inl _ => {| st_record := None; st_fields := inr ∅;
                           st_response := {| rfr_sessionId := ""; rfr_subtopic := "";
                                             rfr_insight := "" |} |}
             end).
  set (write_run := write_back Demo.externals Demo.config (st_record st) (st_fields st)
                               (snd staged_run)).
  assert (Hst : staged_run = (inr st, snd staged_run))
    by (apply pair_from_fst; vm_compute; reflexivity).
  assert (Hw : write_run
               = (inl (Exception "503 Server Error: Service Unavailable"),
                  snd write_run))
    by (apply pair_from_fst; vm_compute; reflexivity).
  destruct (proj1 (proj2 (proj2
              (store_write_failure_start_goes_on_others_fail Demo.externals Demo.config)))
              Demo.anonymous Demo.refine_core w w "local-dev" st (snd staged_run)
              (Exception "503 Server Error: Service Unavailable") (snd write_run)
              eq_refl eq_refl eq_refl Hst Hw)
    as (code & detail & w' & Hr & _ & Hk).
  destruct (Hk _ eq_refl eq_refl) as (-> & _ & _).
  exists detail, w'. exact Hr.
Defined.

(** ** Finalize: the stored tags *)

Lemma first_occurrences_NoDup (l : list string) : NoDup (first_occurrences l).
Proof.
  induction l as [|x r IH]; simpl; [constructor|].
  apply NoDup_cons. split.
  - rewrite list_elem_of_filter. tauto.
  - now apply NoDup_filter.
Qed.

Lemma first_occurrences_elem (l : list string) (x : string) :
  x ∈ first_occurrences l <-> x ∈ l.
Proof.
  induction l as [|y r IH]; simpl; [reflexivity|].
  rewrite !elem_of_cons, list_elem_of_filter, IH.
  destruct (decide (x = y)); tauto.
Qed.

Lemma KStr_elem (x : string) (seen : list string) :
  KStr x ∈ map KStr seen <-> x ∈ seen.
Proof.
  induction seen as [|y seen IH]; simpl.
  - split; intros H; inversion H.
  - rewrite !elem_of_cons, IH. split; intros [H|H]; auto.
    + left. now injection H.
    + left. now rewrite H.
Qed.

(** On strings, [list(dict.fromkeys(l))] is the list of first occurrences. *)
Lemma fromkeys_strings (seen l : list string) :
  fromkeys (map KStr seen) (map JStr l)
  = inr (map JStr (filter (fun s => s ∉ seen) (first_occurrences l))).
Proof.
  revert seen. induction l as [|x r IH]; intros seen; simpl; [reflexivity|].
  destruct (decide (x ∈ seen)) as [Hin|Hout].
  - rewrite bool_decide_eq_true_2 by now apply KStr_elem.
    rewrite IH, filter_cons_False by tauto.
    rewrite list_filter_filter. do 2 f_equal. apply list_filter_iff.
    intros y. split; [|tauto]. intros Hy. split; [exact Hy|]. now intros ->.
  - rewrite bool_decide_eq_false_2 by now rewrite KStr_elem.
    change (KStr x :: map KStr seen) with (map KStr (x :: seen)).
    rewrite IH, filter_cons_True by exact Hout. simpl.
    rewrite list_filter_filter. do 3 f_equal. apply list_filter_iff.
    intros y. rewrite not_elem_of_cons. tauto.
Qed.

Lemma filter_all {A} (P : A -> Prop) `{forall x, Decision (P x)} (l : list A) :
  (forall x, P x) -> filter P l = l.
Proof.
  intros HP. induction l as [|x l IH]; [reflexivity|].
  rewrite filter_cons_True by apply HP. now rewrite IH.
Qed.

Lemma fromkeys_first_occurrences (l : list string) :
  fromkeys [] (map JStr l) = inr (map JStr (first_occurrences l)).
Proof.
  pose proof (fromkeys_strings [] l) as H. simpl in H. rewrite H.
  do 2 f_equal. apply filter_all. intros x Hx. inversion Hx.
Qed.

(** Whatever the input, a result made of strings has no repetition. *)
Lemma fromkeys_NoDup (seen : list key) (l : list json) (ts : list string) :
  fromkeys seen l = inr (map JStr ts) ->
  NoDup ts /\ forall t, t ∈ ts -> KStr t ∉ seen.
Proof.
  revert seen ts. induction l as [|j r IH]; intros seen ts H; simpl in H.
  - injection H as H. destruct ts; [|discriminate]. split; [constructor|].
    intros t Ht. inversion Ht.
  - rinv H. destruct (bool_decide (v ∈ seen)) eqn:Hd; [now apply IH|].
    rinv H. injection H as H. destruct ts as [|t ts]; [discriminate|].
    injection H as -> ->. simpl in E. injection E as <-.
    apply bool_decide_eq_false in Hd.
    destruct (IH _ _ E0) as [Hnd Hseen]. split.
    + apply NoDup_cons. split; [|exact Hnd].
      intros Ht. apply (Hseen t Ht). left.
    + intros t' Ht'. apply elem_of_cons in Ht' as [->|Ht']; [exact Hd|].
      intros Hin. apply (Hseen t' Ht'). now right.
Qed.

Lemma validate_str_list_inv (X : Externals) (l : list json) (ts : list string) :
  validate_str_list X (JArr l) = inr ts -> l = map JStr ts.
Proof.
  simpl. revert ts. induction l as [|j l IH]; intros ts H.
  - injection H as <-. reflexivity.
  - apply rmap_ok_inv in H as (t & ts' & Hj & Hl & ->).
    apply validate_str_inv in Hj as ->. simpl. now rewrite (IH _ Hl).
Qed.

Lemma assoc_dict_set_eq (k : string) (v : json) (kv : list (string * json)) :
  Py.assoc k (Py.dict_set k v kv) = Some v.
Proof.
  induction kv as [|[k' v'] kv IH]; simpl.
  - now rewrite String.eqb_refl.
  - destruct (String.eqb k k') eqn:E; simpl; [now rewrite String.eqb_refl|].
    now rewrite E.
Qed.

Lemma assoc_dict_set_ne (k k' : string) (v : json) (kv : list (string * json)) :
  k <> k' -> Py.assoc k' (Py.dict_set k v kv) = Py.assoc k' kv.
Proof.
  intros Hne. induction kv as [|[k0 v0] kv IH]; simpl.
  - apply not_eq_sym, String.eqb_neq in Hne. now rewrite Hne.
  - destruct (String.eqb k k0) eqn:E; simpl.
    + apply String.eqb_eq in E. subst k0.
      apply not_eq_sym, String.eqb_neq in Hne. now rewrite Hne.
    + now rewrite IH.
Qed.

Lemma setitem_inv (d : json) (k : string) (v d' : json) :
  setitem d k v = inr d' -> exists kv, d = JObj kv /\ d' = JObj (Py.dict_set k v kv).
Proof. destruct d; simpl; try discriminate. intros [= <-]. eauto. Qed.

Lemma key_of_KStr (j : json) (s : string) : key_of j = inr (KStr s) -> j = JStr s.
Proof. destruct j as [|b|n|t|l|kv]; simpl; try discriminate; congruence. Qed.

(** A result made of strings comes from a list made of strings. *)
Lemma fromkeys_all_strings (seen : list key) (l : list json) (ts : list string) :
  fromkeys seen l = inr (map JStr ts) ->
  Forall (fun k => exists s, k = KStr s) seen ->
  exists cs, l = map JStr cs.
Proof.
  revert seen ts. induction l as [|j r IH]; intros seen ts H Hseen; simpl in H.
  - now exists [].
  - rinv H. destruct (bool_decide (v ∈ seen)) eqn:Hd.
    + apply bool_decide_eq_true in Hd. rewrite Forall_forall in Hseen.
      destruct (Hseen _ Hd) as [s ->]. apply key_of_KStr in E as ->.
      rewrite <- Forall_forall in Hseen.
      destruct (IH _ _ H Hseen) as [cs ->]. now exists (s :: cs).
    + rinv H. injection H as H. destruct ts as [|t ts]; [discriminate|].
      injection H as -> ->. simpl in E. injection E as <-.
      destruct (IH _ _ E0) as [cs ->]; [constructor; eauto|].
      now exists (t :: cs).
Qed.

Lemma map_JStr_inj (a b : list string) : map JStr a = map JStr b -> a = b.
Proof.
  revert b. induction a as [|x a IH]; intros [|y b] H; try discriminate; [reflexivity|].
  injection H as -> H. now rewrite (IH _ H).
Qed.

Lemma all_str_strings (ts : list string) : Py.all_str (map JStr ts) = inr ts.
Proof.
  unfold Py.all_str. generalize 0%nat.
  induction ts as [|t ts IH]; intros i; simpl; [reflexivity|]. now rewrite IH.
Qed.

Lemma join_strings (sep : string) (ts : list string) :
  Py.join sep (JArr (map JStr ts)) = inr (Text.join sep ts).
Proof. unfold Py.join. simpl. now rewrite all_str_strings. Qed.

(** * Beyond the claims

    ** The call wrapper under any retry budget *)

Lemma logged_nil {X} (w : World X) : logged w (ext w) [] = w.
Proof. destruct w. unfold logged; simpl. now rewrite app_nil_r. Qed.

Lemma retry_trace_more (contents : string) (d : Z) (delays : list Z) :
  (EvLLM contents :: EvSleep d :: retry_trace contents delays)
  = retry_trace contents (d :: delays).
Proof. reflexivity. Qed.

(** The loop of the wrapper, from any turn on: it makes a call, and sleeps
    and calls again at most as often as there are retries left. *)
Lemma retry_loop_trace (X : Externals) (contents : string) (max_retries wait_ms : Z)
      (n : nat) (attempt : Z) (last_error : option exn) (w : World X) :
  Z.of_nat n = max_retries - attempt ->
  exists s delays,
    snd (retry_loop X (S n) attempt contents max_retries wait_ms last_error w)
    = logged w s (retry_trace contents delays)
    /\ (length delays <= n)%nat
    /\ Forall (fun d => wait_ms <= d) delays.
Proof.
  revert attempt last_error w.
  induction n as [|n IH]; intros attempt last_error w Hn.
  - rewrite retry_loop_step. pose proof (llm_call_run contents w) as C.
    destruct (x_llm X contents (ext w)) as [[t|c] s].
    + rewrite (try_inl _ _ _ _ _ C).
      replace (attempt <? max_retries) with false
        by (symmetry; apply Z.ltb_ge; lia).
      rewrite andb_false_r. exists s, []. simpl. auto.
    + rewrite (try_inr _ _ _ _ _ C). exists s, []. simpl. auto.
  - rewrite retry_loop_step. pose proof (llm_call_run contents w) as C.
    destruct (x_llm X contents (ext w)) as [[t|c] s].
    2: { rewrite (try_inr _ _ _ _ _ C). exists s, []. simpl. split; [reflexivity|].
         split; [lia|constructor]. }
    rewrite (try_inl _ _ _ _ _ C).
    destruct (_is_quota_error (Exception t) && (attempt <? max_retries)) eqn:Q.
    2: { exists s, []. simpl. split; [reflexivity|]. split; [lia|constructor]. }
    destruct (retry_delay_ms X wait_ms (Exception t)) as [e|d] eqn:D.
    { assert (Hl : @lift X Z (inl e) (logged w s [EvLLM contents])
                   = (inl e, logged w s [EvLLM contents])) by reflexivity.
      rewrite (bind_inl _ _ _ _ _ Hl).
      exists s, []. simpl. split; [reflexivity|]. split; [lia|constructor]. }
    assert (Hl : @lift X Z (inr d) (logged w s [EvLLM contents])
                 = (inr d, logged w s [EvLLM contents])) by reflexivity.
    rewrite (bind_inr _ _ _ _ _ Hl).
    set (w1 := logged w s [EvLLM contents; EvSleep d]).
    assert (Hemit : emit (EvSleep d) (logged w s [EvLLM contents]) = (inr tt, w1)).
    { unfold emit, w1, logged; simpl. now rewrite <- app_assoc. }
    rewrite (bind_inr _ _ _ _ _ Hemit).
    destruct (IH (attempt + 1) (Some (Exception t)) w1 ltac:(lia))
      as (s2 & delays & Hrun & Hlen & Hall).
    exists s2, (d :: delays). rewrite Hrun. unfold w1. rewrite logged_logged.
    split; [reflexivity|]. split; [simpl; lia|].
    constructor; [exact (retry_delay_at_least X _ _ _ D)|exact Hall].
Qed.

(** X1.  Whatever the retry budget, the wrapper calls the client at least
    once and at most [max_retries + 1] times, sleeps between two calls and
    nowhere else, never for less than [wait_ms], and touches neither the
    cache nor the provider issues.  With a negative budget it makes no call
    at all and raises "LLM request failed unexpectedly.". *)
Theorem retry_wrapper_respects_budget
        (X : Externals) (contents : string) (max_retries wait_ms : Z) (w : World X) :
  let out := _generate_content_with_retry X contents max_retries wait_ms w in
  (max_retries < 0 ->
   out = (inl (Exception "LLM request failed unexpectedly."), w))
  /\ (0 <= max_retries ->
      exists s delays,
        snd out = logged w s (retry_trace contents delays)
        /\ Z.of_nat (length delays) <= max_retries
        /\ Forall (fun d => wait_ms <= d) delays).
Proof.
  cbv zeta. unfold _generate_content_with_retry. split.
  - intros Hneg. replace (Z.to_nat (max_retries + 1)) with 0%nat by lia. reflexivity.
  - intros Hpos.
    replace (Z.to_nat (max_retries + 1)) with (S (Z.to_nat max_retries)) by lia.
    destruct (retry_loop_trace X contents max_retries wait_ms (Z.to_nat max_retries)
                0 None w ltac:(lia)) as (s & delays & Hrun & Hlen & Hall).
    exists s, delays. split; [exact Hrun|]. split; [lia|exact Hall].
Qed.

(** The theorem above on the demo service with a budget of three retries:
    two rate-limit errors, each with a hint longer than the wait, then an
    error of another kind. *)
Lemma retry_wrapper_respects_budget_witness :
  exists s delays,
    snd (_generate_content_with_retry Demo.externals "prompt" 3 10000
           (Demo.world Demo.over_quota))
    = logged (Demo.world Demo.over_quota) s (retry_trace "prompt" delays)
    /\ Z.of_nat (length delays) <= 3
    /\ Forall (fun d => 10000 <= d) delays.
Proof.
  exact (proj2 (retry_wrapper_respects_budget Demo.externals "prompt" 3 10000
                  (Demo.world Demo.over_quota)) ltac:(lia)).
Defined.

(** ** The session cache *)

(** X2.  A session put in the cache is what the same user gets back, with
    the creation time given (the clock's when none, or an empty one, is
    given); no other user gets it, and the entries of other sessions are
    as before. *)
Theorem cache_put_then_get
        (X : Externals) (session_id user_id : string) (data : json)
        (created_at : option string) (w : World X) :
  exists w' created,
    _cache_put X session_id user_id data created_at w = (inr tt, w')
    /\ (forall c, created_at = Some c -> c <> "" -> created = c)
    /\ _cache_get X session_id user_id w'
       = (inr (Some {| ci_user_id := user_id; ci_created_at := created;
                       ci_data := data |}), w')
    /\ (forall other, other <> user_id ->
          _cache_get X session_id other w' = (inr None, w'))
    /\ (forall sid u, sid <> session_id ->
          fst (_cache_get X sid u w') = fst (_cache_get X sid u w)).
Proof.
  assert (Hput : exists w' created,
             _cache_put X session_id user_id data created_at w = (inr tt, w')
             /\ (forall c, created_at = Some c -> c <> "" -> created = c)
             /\ SESSION_CACHE w' =
                <[session_id := {| ci_user_id := user_id; ci_created_at := created;
                                   ci_data := data |}]> (SESSION_CACHE w)).
  { unfold _cache_put, bind.
    destruct created_at as [c|]; [destruct (Text.nonempty c) eqn:Hc|];
      unfold ret, now, outside; try destruct (x_now X (ext w)) as [t s]; simpl.
    - eexists _, c. split; [reflexivity|]. split; [|reflexivity]. now intros ? [= ->].
    - eexists _, t. split; [reflexivity|]. split; [|reflexivity].
      intros ? [= <-] Hne. destruct c; [contradiction|discriminate].
    - eexists _, t. split; [reflexivity|]. split; [|reflexivity]. discriminate. }
  destruct Hput as (w' & created & Hp & Hcr & Hc).
  exists w', created. split; [exact Hp|]. split; [exact Hcr|].
  split; [|split].
  - rewrite cache_get_run, Hc, lookup_insert_eq. simpl. now rewrite String.eqb_refl.
  - intros other Hne. rewrite cache_get_run, Hc, lookup_insert_eq. simpl.
    apply not_eq_sym, String.eqb_neq in Hne. now rewrite Hne.
  - intros sid u Hne. rewrite !cache_get_run, Hc. simpl.
    now rewrite lookup_insert_ne by congruence.
Qed.

(** ** Provider issues and the health report *)

Lemma take_length (n : nat) (s : string) :
  String.length (Text.take n s) = Nat.min n (String.length s).
Proof.
  revert s. induction n as [|n IH]; intros [|c s]; simpl; try reflexivity.
  now rewrite IH.
Qed.

Lemma take_prefix (n : nat) (s : string) : prefix_of (Text.take n s) s.
Proof.
  revert s. induction n as [|n IH]; intros s.
  - exists s. reflexivity.
  - destruct s as [|c s]; [now exists ""|].
    destruct (IH s) as [rest Hr]. exists rest. simpl. now rewrite <- Hr.
Qed.

Lemma provider_health_run (X : Externals) (cfg : Config) (model tname : string)
      (w : World X) :
  exists h, provider_health X cfg model tname w = (inr h, w)
            /\ lh_issue (hp_llm h) = PROVIDER_ISSUES w !! "llm"
            /\ ah_issue (hp_airtable h) = PROVIDER_ISSUES w !! "airtable".
Proof. unfold provider_health. eauto. Qed.

Lemma health_issue_lookup (provider_name : string) (h : providers_health)
      (issues : gmap string issue) :
  provider_name = "llm" \/ provider_name = "airtable" ->
  lh_issue (hp_llm h) = issues !! "llm" ->
  ah_issue (hp_airtable h) = issues !! "airtable" ->
  health_issue provider_name h = issues !! provider_name.
Proof. intros [->| ->] Hl Ha; unfold health_issue; simpl; assumption. Qed.

(** X3.  An issue recorded for the LLM or for Airtable is what the health
    report shows for that provider, with the kind given and the first 300
    characters of the message, until it is cleared; the report on the
    other provider is not affected by either step. *)
Theorem provider_issue_reported_until_cleared
        (X : Externals) (cfg : Config) (model tname : string)
        (provider_name kind message : string) (w : World X) :
  provider_name = "llm" \/ provider_name = "airtable" ->
  exists w1 w2 h1 h2 stamp,
    _set_provider_issue X provider_name kind message w = (inr tt, w1)
    /\ provider_health X cfg model tname w1 = (inr h1, w1)
    /\ health_issue provider_name h1
       = Some {| is_kind := kind; is_message := Text.take 300 message;
                 is_updatedAt := stamp |}
    /\ prefix_of (Text.take 300 message) message
    /\ String.length (Text.take 300 message) = Nat.min 300 (String.length message)
    /\ _clear_provider_issue X provider_name w1 = (inr tt, w2)
    /\ provider_health X cfg model tname w2 = (inr h2, w2)
    /\ health_issue provider_name h2 = None
    /\ (forall other, other = "llm" \/ other = "airtable" -> other <> provider_name ->
          health_issue other h1 = PROVIDER_ISSUES w !! other
          /\ health_issue other h2 = PROVIDER_ISSUES w !! other).
Proof.
  intros Hp.
  destruct (set_provider_issue_run provider_name kind message w)
    as (w1 & Hs & _ & _ & stamp & Hi).
  destruct (clear_provider_issue_run provider_name w1) as (w2 & Hc & _ & _ & Hi2).
  destruct (provider_health_run X cfg model tname w1) as (h1 & Hh1 & Hl1 & Ha1).
  destruct (provider_health_run X cfg model tname w2) as (h2 & Hh2 & Hl2 & Ha2).
  exists w1, w2, h1, h2, stamp.
  split; [exact Hs|]. split; [exact Hh1|].
  split. { rewrite (health_issue_lookup _ _ _ Hp Hl1 Ha1), Hi. apply lookup_insert_eq. }
  split; [apply take_prefix|]. split; [apply take_length|].
  split; [exact Hc|]. split; [exact Hh2|].
  split. { rewrite (health_issue_lookup _ _ _ Hp Hl2 Ha2), Hi2. apply lookup_delete_eq. }
  intros other Ho Hne.
  rewrite (health_issue_lookup other _ _ Ho Hl1 Ha1), Hi.
  rewrite (health_issue_lookup other _ _ Ho Hl2 Ha2), Hi2, Hi.
  rewrite lookup_delete_ne by congruence.
  now rewrite lookup_insert_ne by congruence.
Qed.

(** The theorem above for an Airtable read error on the demo service. *)
Lemma provider_issue_reported_until_cleared_witness :
  exists w1 h1 stamp,
    _set_provider_issue Demo.externals "airtable" "read_error" "503 Server Error"
                        (Demo.world (Demo.idle [])) = (inr tt, w1)
    /\ provider_health Demo.externals Demo.config "llama" "ResearchSessions" w1
       = (inr h1, w1)
    /\ ah_issue (hp_airtable h1)
       = Some {| is_kind := "read_error"; is_message := "503 Server Error";
                 is_updatedAt := stamp |}.
Proof.
  destruct (provider_issue_reported_until_cleared
              Demo.externals Demo.config "llama" "ResearchSessions"
              "airtable" "read_error" "503 Server Error" (Demo.world (Demo.idle []))
              (or_intror eq_refl))
    as (w1 & w2 & h1 & h2 & stamp & Hs & Hh & Hi & _).
  exists w1, h1, stamp. auto.
Defined.

(** ** Escaping for formulas *)

Lemma apostrophe_not_backslash : Text.backslash <> Text.apostrophe.
Proof. intros H. vm_compute in H. discriminate. Qed.

(** An escaped text never starts with an apostrophe. *)
Lemma escape_formula_head (value r : string) :
  _escape_formula value <> String Text.apostrophe r.
Proof.
  destruct value as [|c v]; simpl; [discriminate|].
  destruct (Ascii.eqb c Text.apostrophe) eqn:E; intros H;
    apply (f_equal (fun s => match s with String x _ => x | EmptyString => c end)) in H;
    simpl in H.
  - now apply apostrophe_not_backslash.
  - apply Ascii.eqb_neq in E. contradiction.
Qed.

Lemma escape_formula_inj (a b : string) :
  _escape_formula a = _escape_formula b -> a = b.
Proof.
  revert b. induction a as [|c a IH]; intros [|d b]; simpl.
  - reflexivity.
  - destruct (Ascii.eqb d Text.apostrophe); discriminate.
  - destruct (Ascii.eqb c Text.apostrophe); discriminate.
  - destruct (Ascii.eqb c Text.apostrophe) eqn:Ec, (Ascii.eqb d Text.apostrophe) eqn:Ed.
    + apply Ascii.eqb_eq in Ec, Ed. intros [= H]. subst. f_equal. now apply IH.
    + intros [= _ H]. symmetry in H. now apply escape_formula_head in H.
    + intros [= _ H]. now apply escape_formula_head in H.
    + intros [= -> H]. f_equal. now apply IH.
Qed.

Lemma escape_formula_guard (value pre post : string) :
  _escape_formula value = pre +:+ String Text.apostrophe post ->
  exists pre', pre = pre' +:+ String Text.backslash "".
Proof.
  revert pre. induction value as [|c v IH]; intros pre; simpl.
  - destruct pre; discriminate.
  - destruct (Ascii.eqb c Text.apostrophe) eqn:E.
    + destruct pre as [|x pre]; simpl.
      { discriminate. }
      intros [= <- H]. destruct pre as [|y pre]; simpl in H.
      { now exists "". }
      injection H as <- H. destruct (IH _ H) as [pre' ->].
      now exists (String Text.backslash (String Text.apostrophe pre')).
    + apply Ascii.eqb_neq in E. destruct pre as [|x pre]; simpl.
      { intros [= H _]. contradiction. }
      intros [= <- H]. destruct (IH _ H) as [pre' ->]. now exists (String c pre').
Qed.

Lemma escape_formula_plain (value : string) :
  Text.contains (String Text.apostrophe "") value = false ->
  _escape_formula value = value.
Proof.
  induction value as [|c v IH]; [reflexivity|].
  cbn [Text.contains Text.startswith _escape_formula].
  rewrite (Ascii.eqb_sym Text.apostrophe c).
  destruct (Ascii.eqb c Text.apostrophe); [discriminate|].
  intros H. now rewrite IH.
Qed.

(** X4.  In an escaped text every apostrophe directly follows a backslash;
    a text without apostrophes is left as it is; and two different texts
    never escape to the same one. *)
Theorem escape_formula_guards_apostrophes (value : string) :
  (forall pre post,
      _escape_formula value = pre +:+ String Text.apostrophe post ->
      exists pre', pre = pre' +:+ String Text.backslash "")
  /\ (Text.contains (String Text.apostrophe "") value = false ->
      _escape_formula value = value)
  /\ (forall other, _escape_formula other = _escape_formula value -> other = value).
Proof.
  split; [|split].
  - intros pre post. apply escape_formula_guard.
  - apply escape_formula_plain.
  - intros other. apply escape_formula_inj.
Qed.

(** ** The local fallback of finalize *)

Lemma rmap_length {A B} (f : A -> R B) (l : list A) (ys : list B) :
  rmap f l = inr ys -> length ys = length l.
Proof.
  revert ys. induction l as [|x l IH]; intros ys H.
  - injection H as <-. reflexivity.
  - apply rmap_ok_inv in H as (y & ys' & _ & Hl & ->). simpl. now rewrite (IH _ Hl).
Qed.

Lemma chars_length (s : string) : length (Py.chars s) = String.length s.
Proof. induction s as [|c s IH]; simpl; [reflexivity|]. now rewrite IH. Qed.

(** A slice up to [n] has at most [n] elements. *)
Lemma slice_to_length (n : nat) (v v' : json) (xs : list json) :
  Py.slice_to n v = inr v' -> Py.iterate v' = inr xs -> (length xs <= n)%nat.
Proof.
  destruct v as [| | |s|l|kv]; simpl; try discriminate.
  - intros [= <-] [= <-]. rewrite chars_length, take_length. lia.
  - intros [= <-] [= <-]. rewrite length_take. lia.
Qed.

(** At most five titles come out of an outline, none of them empty. *)
Lemma subtopic_titles5_shape (outline : json) (titles : list json) :
  subtopic_titles5 outline = inr titles ->
  (length titles <= 5)%nat /\ Forall (fun t => Py.truthy t = true) titles.
Proof.
  unfold subtopic_titles5. intros H. rinv H. rinv H. rinv H. rinv H.
  injection H as <-. split.
  - etransitivity; [apply length_filter|]. rewrite (rmap_length _ _ _ E2).
    exact (slice_to_length _ _ _ _ E0 E1).
  - apply Forall_forall. intros t Ht.
    now apply list_elem_of_filter in Ht as [Ht _].
Qed.

(** X5.  When the local fallback of finalize succeeds, its summary is not
    empty and it proposes between one and five tags, none of them empty:
    the titles of the first five subtopics that have one, or Research,
    Fallback, Analysis when there is none. *)
Theorem fallback_finalize_always_tags
        (X : Externals) (outline : json) (summary : string) (tags : list json) :
  _fallback_finalize X outline = inr (summary, tags) ->
  Text.nonempty summary = true
  /\ (1 <= length tags <= 5)%nat
  /\ Forall (fun t => Py.truthy t = true) tags
  /\ (subtopic_titles5 outline = inr tags
      \/ (subtopic_titles5 outline = inr []
          /\ tags = [JStr "Research"; JStr "Fallback"; JStr "Analysis"])).
Proof.
  unfold _fallback_finalize. intros H. rinv H. rinv H.
  injection H as <- <-. split; [reflexivity|].
  destruct (subtopic_titles5_shape outline v0 E0) as [Hlen Hall].
  destruct v0 as [|t ts].
  - split; [simpl; lia|]. split; [repeat constructor|]. right. auto.
  - split; [simpl in *; lia|]. split; [exact Hall|]. left. exact E0.
Qed.

(** The theorem above on the fallback outline of the demo session. *)
Lemma fallback_finalize_always_tags_witness :
  exists summary tags,
    _fallback_finalize Demo.externals (_fallback_outline Demo.externals "graph databases")
    = inr (summary, tags)
    /\ (1 <= length tags <= 5)%nat.
Proof.
  eexists _, _. split; [vm_compute; reflexivity|].
  exact (proj1 (proj2 (fallback_finalize_always_tags
                         Demo.externals (_fallback_outline Demo.externals "graph databases")
                         _ _ eq_refl))).
Defined.

(** ** Pages as windows on the sessions *)

(** X6.  When the store hands over the first [page * limit + 1] of the
    matching sessions, the page holds the sessions of its window and of no
    other (page 1 the first [limit], page 2 the next [limit], and so on, with
    the page number raised to 1 and the limit brought into 1..100), one
    more page is announced exactly when a session lies beyond the window,
    and [total] is the number of sessions known so far: all of them when the
    window reaches the end, one more than the window holds otherwise. *)
Theorem paged_windows_tile_sessions
        (sessions : list ResearchResponse) (page limit : Z) :
  let p := safe_page_of page in
  let l := safe_limit_of limit in
  let n := Z.of_nat (length sessions) in
  let r := paged_response
             (firstn (Z.to_nat (fetch_limit_of page limit)) sessions) page limit in
  1 <= p /\ 1 <= l <= 100
  /\ ph_page r = p /\ ph_limit r = l
  /\ ph_items r = firstn (Z.to_nat l) (skipn (Z.to_nat ((p - 1) * l)) sessions)
  /\ ph_totalPages r = (if p * l <? n then p + 1 else p)
  /\ ph_total r = Z.max ((p - 1) * l) (Z.min n (p * l + 1)).
Proof.
  cbv zeta.
  assert (Hp : 1 <= safe_page_of page) by (unfold safe_page_of; lia).
  assert (Hl : 1 <= safe_limit_of limit <= 100) by (unfold safe_limit_of; lia).
  split; [exact Hp|]. split; [exact Hl|].
  unfold paged_response, fetch_limit_of, slice; simpl.
  set (p := safe_page_of page) in *. set (l := safe_limit_of limit) in *.
  set (P := p * l). assert (HP : l <= P) by (unfold P; nia).
  replace ((p - 1) * l) with (P - l) by (unfold P; ring).
  replace (P - l + l - (P - l)) with l by ring.
  replace (P - l + l) with P by ring.
  split; [reflexivity|]. split; [reflexivity|].
  assert (Hitems : take (Z.to_nat l) (drop (Z.to_nat (P - l)) (take (Z.to_nat (P + 1)) sessions))
                   = take (Z.to_nat l) (drop (Z.to_nat (P - l)) sessions)).
  { rewrite skipn_firstn_comm, take_take. f_equal. lia. }
  split; [exact Hitems|].
  rewrite Hitems, !length_take, length_drop.
  split.
  - destruct (P <? Z.of_nat (length sessions)) eqn:E.
    + apply Z.ltb_lt in E.
      replace (Z.of_nat (Z.to_nat (P + 1) `min` length sessions) >? P) with true
        by (symmetry; apply Z.gtb_lt; lia).
      reflexivity.
    + apply Z.ltb_ge in E.
      replace (Z.of_nat (Z.to_nat (P + 1) `min` length sessions) >? P) with false
        by (symmetry; rewrite Z.gtb_ltb; apply Z.ltb_ge; lia).
      lia.
  - destruct (Z.of_nat (Z.to_nat (P + 1) `min` length sessions) >? P) eqn:E.
    + apply Z.gtb_lt in E. lia.
    + rewrite Z.gtb_ltb in E. apply Z.ltb_ge in E. lia.
Qed.

(** ** The Data column *)

Lemma session_dict_keys (outline refinements summary tags : json) :
  let data := session_dict outline refinements summary tags in
  Py.getitem data "outline" = inr outline
  /\ Py.getitem data "refinements" = inr refinements
  /\ Py.getitem data "summary" = inr summary
  /\ Py.getitem data "tags" = inr tags.
Proof. repeat split. Qed.

(** What [_parse_data_blob] returns is always a dict with the four keys. *)
Lemma parse_data_blob_inv (X : Externals) (fields : list (string * json)) (data : json) :
  _parse_data_blob X fields = inr data ->
  exists outline refinements summary tags,
    data = session_dict outline refinements summary tags.
Proof.
  unfold _parse_data_blob.
  destruct (Py.assoc "Data" fields) as [d|]; [|intros [= <-]; eauto].
  intros H. rinv H.
  destruct v as [| | | | |kv]; try (injection H as <-; eauto).
  destruct (Py.assoc "outline" kv); injection H as <-; eauto.
Qed.

(** X7.  Reading the Data column never leaves a key out: the result is a
    dict with outline, refinements, summary and tags, so that the four
    subscripts the handlers use cannot raise.  A row without the column is
    read from its Topic and Initial Outline fields, with Untitled and the
    empty text for the missing ones; a decoded value that is not a dict
    with an outline is taken to be the outline itself; and the only
    failure is that of decoding the column. *)
Theorem parse_data_blob_always_four_keys (X : Externals) (fields : list (string * json)) :
  (forall data,
      _parse_data_blob X fields = inr data ->
      exists outline refinements summary tags,
        data = session_dict outline refinements summary tags
        /\ Py.getitem data "outline" = inr outline
        /\ Py.getitem data "refinements" = inr refinements
        /\ Py.getitem data "summary" = inr summary
        /\ Py.getitem data "tags" = inr tags)
  /\ (Py.assoc "Data" fields = None ->
      _parse_data_blob X fields
      = inr (session_dict
               (JObj [("title", default (JStr "Untitled") (Py.assoc "Topic" fields));
                      ("description",
                       default (JStr "") (Py.assoc "Initial Outline" fields));
                      ("subTopics", JArr [])])
               (JArr []) (JStr "") (JArr [])))
  /\ (forall d parsed,
        Py.assoc "Data" fields = Some d ->
        json_loads X d = inr parsed ->
        (forall kv, parsed = JObj kv -> Py.assoc "outline" kv = None) ->
        _parse_data_blob X fields
        = inr (session_dict parsed (JArr []) (JStr "") (JArr [])))
  /\ (forall e,
        _parse_data_blob X fields = inl e ->
        exists d, Py.assoc "Data" fields = Some d /\ json_loads X d = inl e).
Proof.
  split; [|split; [|split]].
  - intros data H.
    destruct (parse_data_blob_inv X fields data H) as (o & r & s & t & ->).
    exists o, r, s, t. repeat split.
  - intros Hd. unfold _parse_data_blob, fields_get. rewrite Hd.
    now destruct (Py.assoc "Topic" fields), (Py.assoc "Initial Outline" fields).
  - intros d parsed Hd Hl Hno. unfold _parse_data_blob. rewrite Hd, Hl. simpl.
    destruct parsed as [| | | | |kv]; try reflexivity.
    now rewrite (Hno kv eq_refl).
  - intros e. unfold _parse_data_blob.
    destruct (Py.assoc "Data" fields) as [d|]; [|discriminate].
    intros H. exists d. split; [reflexivity|].
    destruct (json_loads X d) as [e'|parsed]; [now injection H as ->|].
    simpl in H. destruct parsed as [| | | | |kv]; try discriminate.
    destruct (Py.assoc "outline" kv); discriminate.
Qed.

(** ** Reading the history *)

Section HistoryRun.

Variable X : Externals.
Variable cfg : Config.

(** The history reader in terms of the store's answers: the filtered
    query first, the plain user query when that one is refused. *)
Lemma build_history_items_run (user_id category search : string) (limit : option Z)
      (w : World X) :
  table cfg = true ->
  let cats := category_values_of category in
  let needle := Text.lower (Text.strip search) in
  let formula := _build_history_formula user_id cats needle in
  _build_history_items X cfg user_id category search limit w =
  match x_all X formula limit (ext w) with
  | (inr records, s) =>
      (history_loop X cats needle records, logged w s [EvAll formula limit])
  | (inl _, s) =>
      match x_all X (user_formula user_id) limit s with
      | (inr records, s2) =>
          (history_loop X cats needle records,
           logged w s2 [EvAll formula limit; EvAll (user_formula user_id) limit])
      | (inl t, s2) =>
          (inl (Exception t),
           logged w s2 [EvAll formula limit; EvAll (user_formula user_id) limit])
      end
  end.
Proof.
  intros Ht. cbv zeta. unfold _build_history_items.
  set (formula := _build_history_formula _ _ _).
  unfold bind, try_except. rewrite (table_all_run X cfg formula limit w Ht).
  destruct (x_all X formula limit (ext w)) as [[t|rs] s].
  - rewrite (table_all_run X cfg _ limit _ Ht). simpl.
    destruct (x_all X (user_formula user_id) limit s) as [[t2|rs] s2]; simpl;
      unfold logged; simpl; now rewrite <- app_assoc.
  - reflexivity.
Qed.

(** What a handler that reads from the store makes of its body: the answer
    with the Airtable issue cleared, or a 500 with the issue recorded. *)
Lemma read_handler_run {A B} (what : string) (body : M X A) (k : A -> B) (w : World X) :
  try_except
    (bind body (fun a => bind (_clear_provider_issue X "airtable") (fun _ => ret (k a))))
    (fun e => bind (_set_provider_issue X "airtable" "read_error" (exn_str e))
                   (fun _ => raise (HTTPException 500 (what +:+ exn_str e)))) w
  = match body w with
    | (inr a, w1) => (inr (k a), cleared w1)
    | (inl e, w1) =>
        (inl (HTTPException 500 (what +:+ exn_str e)),
         snd (_set_provider_issue X "airtable" "read_error" (exn_str e) w1))
    end.
Proof.
  unfold try_except, bind at 1.
  destruct (body w) as [[e|a] w1]; [|reflexivity].
  destruct (set_provider_issue_run "airtable" "read_error" (exn_str e) w1)
    as (w2 & Hs & _).
  now rewrite (bind_inr _ _ _ _ _ Hs), Hs.
Qed.

Lemma read_handler_bookkeeping {A B} (what : string) (body : M X A) (k : A -> B)
      (w : World X) :
  SESSION_CACHE (snd (body w)) = SESSION_CACHE w ->
  PROVIDER_ISSUES (snd (body w)) = PROVIDER_ISSUES w ->
  read_bookkeeping what w
    (try_except
       (bind body (fun a => bind (_clear_provider_issue X "airtable")
                                 (fun _ => ret (k a))))
       (fun e => bind (_set_provider_issue X "airtable" "read_error" (exn_str e))
                      (fun _ => raise (HTTPException 500 (what +:+ exn_str e)))) w).
Proof.
  intros Hc Hi. rewrite read_handler_run.
  destruct (body w) as [[e|a] w1]; simpl in Hc, Hi; unfold read_bookkeeping; simpl.
  - destruct (set_provider_issue_run "airtable" "read_error" (exn_str e) w1)
      as (w2 & Hs & _ & Hc2 & stamp & Hi2).
    rewrite Hs. simpl. split; [congruence|]. split.
    + rewrite Hi2, Hi. now rewrite lookup_insert_ne by discriminate.
    + exists (exn_str e), stamp. split; [reflexivity|]. rewrite Hi2.
      apply lookup_insert_eq.
  - split; [exact Hc|]. split.
    + rewrite Hi. now rewrite lookup_delete_ne by discriminate.
    + apply lookup_delete_eq.
Qed.

Lemma build_history_items_frame (user_id category search : string) (limit : option Z)
      (w : World X) :
  table cfg = true ->
  let out := _build_history_items X cfg user_id category search limit w in
  SESSION_CACHE (snd out) = SESSION_CACHE w
  /\ PROVIDER_ISSUES (snd out) = PROVIDER_ISSUES w.
Proof.
  intros Ht. cbv zeta. rewrite (build_history_items_run _ _ _ _ _ Ht). cbv zeta.
  destruct (x_all X _ limit (ext w)) as [[t|rs] s]; [|now split].
  destruct (x_all X (user_formula user_id) limit s) as [[t2|rs] s2]; now split.
Qed.

Lemma get_history_run (request : Request) (category search : string) (w : World X)
      (user_id : string) :
  table cfg = true ->
  _resolve_user_id cfg request = inr user_id ->
  get_history X cfg request category search w
  = try_except
      (bind (_build_history_items X cfg user_id category search None)
            (fun items => bind (_clear_provider_issue X "airtable")
                               (fun _ => ret items)))
      (fun e => bind (_set_provider_issue X "airtable" "read_error" (exn_str e))
                     (fun _ => raise (HTTPException 500
                                        ("Failed to fetch history: " +:+ exn_str e)))) w.
Proof.
  intros Ht Hu. unfold get_history, _require_table. rewrite Ht.
  unfold bind at 1, ret. unfold bind at 1, lift. now rewrite Hu.
Qed.

Lemma get_history_paged_run (request : Request) (category search : string)
      (page limit : Z) (w : World X) (user_id : string) :
  table cfg = true ->
  _resolve_user_id cfg request = inr user_id ->
  get_history_paged X cfg request category search page limit w
  = try_except
      (bind (_build_history_items X cfg user_id category search
               (Some (fetch_limit_of page limit)))
            (fun items => bind (_clear_provider_issue X "airtable")
                               (fun _ => ret (paged_response items page limit))))
      (fun e => bind (_set_provider_issue X "airtable" "read_error" (exn_str e))
                     (fun _ => raise (HTTPException 500
                                        ("Failed to fetch paged history: "
                                         +:+ exn_str e)))) w.
Proof.
  intros Ht Hu. unfold get_history_paged, _require_table. rewrite Ht.
  unfold bind at 1, ret. unfold bind at 1, lift. now rewrite Hu.
Qed.

End HistoryRun.

(** ** More facts about text *)

Section MoreTextFacts.

Import Text.

Lemma rstrip_cons_nonempty (c : ascii) (r : string) :
  rstrip r <> "" -> rstrip (String c r) = String c (rstrip r).
Proof. simpl. destruct (rstrip r); [congruence|reflexivity]. Qed.

Lemma rstrip_keep (c : ascii) (r : string) :
  is_space c = false -> rstrip (String c r) = String c (rstrip r).
Proof. intros H. simpl. rewrite H. now destruct (rstrip r). Qed.

Lemma rstrip_idem (s : string) : rstrip (rstrip s) = rstrip s.
Proof.
  induction s as [|c r IH]; [reflexivity|].
  destruct (rstrip r) as [|d r'] eqn:E.
  - simpl. rewrite E. destruct (is_space c) eqn:Hc; [reflexivity|].
    simpl. now rewrite Hc.
  - rewrite (rstrip_cons_nonempty c r) by (rewrite E; discriminate).
    rewrite E. rewrite rstrip_cons_nonempty; rewrite IH; [reflexivity|discriminate].
Qed.

Lemma lstrip_head (s : string) (c : ascii) (r : string) :
  lstrip s = String c r -> is_space c = false.
Proof.
  induction s as [|a s IH]; simpl; [discriminate|].
  destruct (is_space a) eqn:E; [exact IH|]. now intros [= <- _].
Qed.

Lemma strip_idem (s : string) : strip (strip s) = strip s.
Proof.
  unfold strip. destruct (lstrip s) as [|c r] eqn:E; [reflexivity|].
  pose proof (lstrip_head _ _ _ E) as Hc.
  rewrite (rstrip_keep c r Hc). simpl lstrip. rewrite Hc.
  rewrite <- (rstrip_keep c r Hc). apply rstrip_idem.
Qed.








Lemma nonempty_true (s : string) : nonempty s = true <-> s <> "".
Proof. destruct s; simpl; split; congruence. Qed.

End MoreTextFacts.

Lemma string_compare_trans (a b c : string) :
  String.compare a b <> Gt -> String.compare b c <> Gt -> String.compare a c <> Gt.
Proof.
  revert b c. induction a as [|x a IH]; intros [|y b] [|z c]; simpl; try congruence.
  unfold Ascii.compare.
  destruct (N.compare_spec (N_of_ascii x) (N_of_ascii y)) as [Hxy|Hxy|Hxy];
    destruct (N.compare_spec (N_of_ascii y) (N_of_ascii z)) as [Hyz|Hyz|Hyz];
    destruct (N.compare_spec (N_of_ascii x) (N_of_ascii z)) as [Hxz|Hxz|Hxz];
    try congruence; try lia.
  apply IH.
Qed.

#[local] Instance string_le_trans : Transitive string_le.
Proof.
  intros a b c. unfold string_le, String.leb. intros Hab Hbc.
  pose proof (string_compare_trans a b c) as H.
  destruct (String.compare a b), (String.compare b c), (String.compare a c);
    try reflexivity; try discriminate; exfalso; apply H; first [discriminate|reflexivity].
Qed.

#[local] Instance string_le_total : Total string_le.
Proof. intros a b. apply String.leb_total. Qed.

(** ** The items of the history *)

Section HistoryShape.

Variable X : Externals.
Variable cfg : Config.

(** What a turn of the history loop that keeps its row has established. *)
Lemma history_item_inv (cats : list string) (needle : string) (r : record)
      (item : ResearchResponse) :
  history_item X cats needle r = inr (Some item) ->
  exists data outline tags_v tag_items,
    _parse_data_blob X (rec_fields r) = inr data
    /\ Py.getitem data "outline" = inr outline
    /\ Py.get data "tags" (JArr []) = inr tags_v
    /\ Py.iterate tags_v = inr tag_items
    /\ rr_tags item = stripped_nonblank X tag_items
    /\ _matches_filters X outline (rr_tags item) cats needle = inr true
    /\ validate_ResearchOutline X outline = inr (rr_outline item)
    /\ _progress_for X data = inr (rr_progress item)
    /\ validate_str X
         (Py.or_else (Py.or_else (fields_get (rec_fields r) "Session ID" JNull)
                                 (JStr (rec_id r)))
                     (JStr "UNKNOWN")) = inr (rr_sessionId item).
Proof.
  intros H. unfold history_item in H.
  rinv H. rinv H. rinv H. rinv H. rinv H.
  destruct v3 as [|]; simpl in H; [|discriminate].
  rinv H. rinv H. rinv H. rinv H. injection H as <-. simpl.
  exists v, v0, v1, v2. auto 10.
Qed.

Lemma history_loop_Forall (P : ResearchResponse -> Prop) (cats : list string)
      (needle : string) (records : list record) (items : list ResearchResponse) :
  (forall r item, history_item X cats needle r = inr (Some item) -> P item) ->
  history_loop X cats needle records = inr items ->
  Forall P items.
Proof.
  intros HP. revert items.
  induction records as [|r records IH]; intros items H; simpl in H.
  - injection H as <-. constructor.
  - rinv H. rinv H. injection H as <-.
    destruct v as [item|]; [|now apply IH].
    constructor; [now apply (HP r)|now apply IH].
Qed.

Lemma progress_for_values (data : json) (p : Z) :
  _progress_for X data = inr p -> In p [25; 50; 75; 100].
Proof.
  unfold _progress_for. intros H. rinv H. rinv H. rinv H. rinv H. rinv H.
  injection H as <-.
  destruct (Py.truthy v0), (Py.truthy v1),
    (Text.nonempty (Text.strip (str X v2)) || Py.truthy v3); simpl; auto 10.
Qed.

Lemma session_id_not_empty (a b : json) (sid : string) :
  validate_str X (Py.or_else (Py.or_else a b) (JStr "UNKNOWN")) = inr sid ->
  sid <> "".
Proof.
  unfold Py.or_else at 1.
  destruct (Py.truthy (Py.or_else a b)) eqn:E.
  - intros H. apply validate_str_inv in H. rewrite H in E. simpl in E.
    now apply nonempty_true.
  - intros [= <-]. discriminate.
Qed.

Lemma stripped_nonblank_trimmed (xs : list json) :
  Forall (fun t => t <> "" /\ Text.strip t = t) (stripped_nonblank X xs).
Proof.
  apply Forall_forall. intros t Ht. unfold stripped_nonblank in Ht.
  apply list_elem_of_filter in Ht as [Hne Hin].
  apply list_elem_of_fmap in Hin as (x & -> & _).
  split; [now apply nonempty_true|apply strip_idem].
Qed.

Lemma history_item_well_formed (cats : list string) (needle : string) (r : record)
      (item : ResearchResponse) :
  history_item X cats needle r = inr (Some item) -> well_formed_item item.
Proof.
  intros H.
  destruct (history_item_inv _ _ _ _ H)
    as (data & outline & tv & ti & _ & _ & _ & _ & Ht & _ & _ & Hp & Hs).
  split; [exact (session_id_not_empty _ _ _ Hs)|].
  split; [exact (progress_for_values _ _ Hp)|].
  rewrite Ht. apply stripped_nonblank_trimmed.
Qed.




(** Without a filter every row is kept. *)
Lemma history_loop_unfiltered (records : list record) (items : list ResearchResponse) :
  history_loop X [] "" records = inr items ->
  Forall2 (item_of_row X) records items.
Proof.
  revert items. induction records as [|r records IH]; intros items H; simpl in H.
  - injection H as <-. constructor.
  - rinv H. rinv H. injection H as <-.
    destruct v as [item|].
    + constructor; [|now apply IH].
      destruct (history_item_inv _ _ _ _ E)
        as (data & outline & tv & ti & Hd & Ho & _ & _ & _ & _ & Hv & Hp & _).
      exists data, outline. auto.
    + exfalso. unfold history_item in E.
      rinv E. rinv E. rinv E. rinv E. rinv E.
      assert (v4 = true) as -> by (unfold _matches_filters in E5; simpl in E5; congruence).
      simpl in E. rinv E. rinv E. rinv E. rinv E. discriminate.
Qed.

End HistoryShape.

(** X8.  Every item of a history answer, plain or paged, has a session id
    that is not empty, a progress of 25, 50, 75 or 100, and tags that are
    trimmed and not blank. *)
Theorem history_items_well_formed
        (X : Externals) (cfg : Config) (request : Request) (category search : string)
        (w : World X) :
  (forall items w',
      get_history X cfg request category search w = (inr items, w') ->
      Forall well_formed_item items)
  /\ (forall page limit r w',
         get_history_paged X cfg request category search page limit w = (inr r, w') ->
         Forall well_formed_item (ph_items r)).
Proof.
  split.
  - intros items w' H.
    apply get_history_inv in H as (user_id & w0 & w1 & H).
    apply build_history_items_inv in H as (records & H).
    apply (history_loop_Forall X _ _ _ records _ (history_item_well_formed X _ _) H).
  - intros page limit r w' H.
    apply get_history_paged_inv in H as (user_id & w0 & items & w1 & H & ->).
    apply build_history_items_inv in H as (records & H).
    simpl. apply Forall_slice.
    apply (history_loop_Forall X _ _ _ records _ (history_item_well_formed X _ _) H).
Qed.

(** The theorem above on the five sessions of the demo table. *)
Lemma history_items_well_formed_witness :
  exists items,
    fst (get_history Demo.externals Demo.config Demo.anonymous "All" ""
                     (Demo.world (Demo.idle Demo.five_rows))) = inr items
    /\ length items = 5%nat
    /\ Forall well_formed_item items.
Proof.
  set (out := get_history Demo.externals Demo.config Demo.anonymous "All" ""
                          (Demo.world (Demo.idle Demo.five_rows))).
  set (items := match fst out with inr items => items | inl _ => [] end).
  assert (H : out = (inr items, snd out))
    by (apply pair_from_fst; vm_compute; reflexivity).
  exists items. split; [now rewrite H|]. split; [vm_compute; reflexivity|].
  exact (proj1 (history_items_well_formed Demo.externals Demo.config Demo.anonymous
                  "All" "" (Demo.world (Demo.idle Demo.five_rows)))
               items (snd out) H).
Defined.



(** ** History: every row without a filter, the health report, the caller *)

Section HistoryHandlers.

Variable X : Externals.
Variable cfg : Config.

Lemma category_values_none (category : string) :
  Text.strip category = "" \/ Text.lower (Text.strip category) = "all" ->
  category_values_of category = [].
Proof.
  unfold category_values_of. intros [->| ->]; reflexivity.
Qed.

Lemma history_formula_head (user_id : string) (cats : list string) (needle : string) :
  exists more,
    _build_history_formula user_id cats needle
    = "AND(" +:+ Text.join "," (user_formula user_id :: more) +:+ ")".
Proof.
  unfold _build_history_formula.
  destruct cats as [|c cats], (Text.nonempty needle); eexists; reflexivity.
Qed.

Lemma build_history_items_reads (user_id category search : string) (limit : option Z)
      (w : World X) :
  table cfg = true ->
  only_reads_of user_id w (_build_history_items X cfg user_id category search limit w).
Proof.
  intros Ht. unfold only_reads_of.
  rewrite (build_history_items_run X cfg _ _ _ _ _ Ht). cbv zeta.
  set (formula := _build_history_formula _ _ _).
  assert (H1 : reads_of_user user_id (EvAll formula limit)).
  { exists formula, limit. split; [reflexivity|]. right. apply history_formula_head. }
  assert (H2 : reads_of_user user_id (EvAll (user_formula user_id) limit)).
  { exists (user_formula user_id), limit. auto. }
  destruct (x_all X formula limit (ext w)) as [[t|rs] s].
  - destruct (x_all X (user_formula user_id) limit s) as [[t2|rs] s2];
      (eexists; split; [reflexivity|]; repeat constructor; assumption).
  - eexists; split; [reflexivity|]. repeat constructor; assumption.
Qed.

Lemma read_handler_reads {A B} (user_id what : string) (body : M X A) (k : A -> B)
      (w : World X) :
  only_reads_of user_id w (body w) ->
  only_reads_of user_id w
    (try_except
       (bind body (fun a => bind (_clear_provider_issue X "airtable")
                                 (fun _ => ret (k a))))
       (fun e => bind (_set_provider_issue X "airtable" "read_error" (exn_str e))
                      (fun _ => raise (HTTPException 500 (what +:+ exn_str e)))) w).
Proof.
  intros (evs & Htr & Hall). unfold only_reads_of. rewrite read_handler_run.
  destruct (body w) as [[e|a] w1]; simpl in Htr; simpl.
  - destruct (set_provider_issue_run "airtable" "read_error" (exn_str e) w1)
      as (w2 & Hs & Ht2 & _).
    rewrite Hs. simpl. exists evs. split; [congruence|exact Hall].
  - exists evs. auto.
Qed.

Lemma categories_body_run (user_id : string) (w : World X) :
  table cfg = true ->
  categories_body X cfg user_id w =
  match x_all X (user_formula user_id) (Some 500) (ext w) with
  | (inr records, s) =>
      (categories_loop X records (∅, []),
       logged w s [EvAll (user_formula user_id) (Some 500)])
  | (inl t, s) =>
      (inl (Exception t), logged w s [EvAll (user_formula user_id) (Some 500)])
  end.
Proof.
  intros Ht. unfold categories_body, bind.
  rewrite (table_all_run X cfg _ _ w Ht).
  now destruct (x_all X (user_formula user_id) (Some 500) (ext w)) as [[t|rs] s].
Qed.

Lemma get_history_categories_run (request : Request) (w : World X) (user_id : string) :
  table cfg = true ->
  _resolve_user_id cfg request = inr user_id ->
  get_history_categories X cfg request w
  = try_except
      (bind (categories_body X cfg user_id)
            (fun acc => bind (_clear_provider_issue X "airtable")
                             (fun _ => ret (sort (snd acc)))))
      (fun e => bind (_set_provider_issue X "airtable" "read_error" (exn_str e))
                     (fun _ => raise (HTTPException 500
                                        ("Failed to fetch categories: "
                                         +:+ exn_str e)))) w.
Proof.
  intros Ht Hu. unfold get_history_categories, _require_table. rewrite Ht.
  unfold bind at 1, ret. unfold bind at 1, lift at 1. rewrite Hu.
  unfold try_except, categories_body, bind.
  destruct (table_all X cfg (user_formula user_id) (Some 500) w) as [[e|rs] w1];
    [reflexivity|].
  unfold lift. now destruct (categories_loop X rs (∅, [])).
Qed.

End HistoryHandlers.

(** ** The categories of a user *)

Set Warnings "-clear-no-such-hyp".

Section Categories.

Variable X : Externals.

Lemma add_category_inv (Q : string -> Prop) (acc : gset string * list string)
      (x : json) :
  categories_agree acc ->
  Forall Q (snd acc) ->
  Q (Text.strip (str X x)) ->
  categories_agree (add_category X acc x)
  /\ Forall Q (snd (add_category X acc x))
  /\ fst acc ⊆ fst (add_category X acc x)
  /\ represented X (add_category X acc x) x.
Proof.
  intros (Hk & Hnd & Hall) HQ Hx. unfold add_category, represented.
  destruct (Text.nonempty (Text.strip (str X x))) eqn:Hne; simpl.
  2: { split; [now split|]. split; [exact HQ|]. split; [reflexivity|].
       left. now destruct (Text.strip (str X x)). }
  destruct (bool_decide (Text.lower (Text.strip (str X x)) ∈ fst acc)) eqn:Hd.
  { apply bool_decide_eq_true in Hd.
    split; [now split|]. split; [exact HQ|]. split; [reflexivity|]. now right. }
  apply bool_decide_eq_false in Hd. unfold categories_agree. cbn [fst snd].
  split; [|split; [|split]].
  - split; [|split].
    + intros k. rewrite map_app, elem_of_app, elem_of_union, elem_of_singleton, <- Hk.
      simpl. rewrite list_elem_of_singleton. tauto.
    + rewrite map_app. apply NoDup_app. split; [exact Hnd|]. split.
      * intros k Hin. simpl. rewrite list_elem_of_singleton. intros ->.
        apply Hd, Hk, Hin.
      * simpl. apply NoDup_singleton.
    + apply Forall_app. split; [exact Hall|]. constructor; [|constructor].
      split; [now apply nonempty_true|apply strip_idem].
  - apply Forall_app. split; [exact HQ|]. now constructor.
  - set_solver.
  - right. set_solver.
Qed.

Lemma represented_mono (acc acc' : gset string * list string) (x : json) :
  fst acc ⊆ fst acc' -> represented X acc x -> represented X acc' x.
Proof. intros Hs [H|H]; [now left|right; now apply Hs]. Qed.

Lemma fold_add_category_inv (Q : string -> Prop) (tags : list json)
      (acc : gset string * list string) :
  categories_agree acc ->
  Forall Q (snd acc) ->
  (forall x, In x tags -> Q (Text.strip (str X x))) ->
  let acc' := fold_left (add_category X) tags acc in
  categories_agree acc'
  /\ Forall Q (snd acc')
  /\ fst acc ⊆ fst acc'
  /\ forall x, In x tags -> represented X acc' x.
Proof.
  revert acc. induction tags as [|t tags IH]; intros acc Ha HQ Ht; simpl.
  - split; [exact Ha|]. split; [exact HQ|]. split; [reflexivity|]. intros x [].
  - destruct (add_category_inv Q acc t Ha HQ (Ht t (or_introl eq_refl)))
      as (Ha1 & HQ1 & Hs1 & Hr1).
    destruct (IH _ Ha1 HQ1 (fun x Hx => Ht x (or_intror Hx)))
      as (Ha2 & HQ2 & Hs2 & Hr2).
    split; [exact Ha2|]. split; [exact HQ2|]. split; [set_solver|].
    intros x [<-|Hx]; [|now apply Hr2].
    now apply (represented_mono _ _ _ Hs2).
Qed.

Lemma categories_loop_inv (Q : string -> Prop) (records : list record)
      (acc acc' : gset string * list string) :
  categories_loop X records acc = inr acc' ->
  categories_agree acc ->
  Forall Q (snd acc) ->
  (forall r x, In r records -> row_tag X r x -> Q (Text.strip (str X x))) ->
  categories_agree acc'
  /\ Forall Q (snd acc')
  /\ fst acc ⊆ fst acc'
  /\ forall r x, In r records -> row_tag X r x -> represented X acc' x.
Proof.
  revert acc. induction records as [|r records IH]; intros acc H Ha HQ Hrow; simpl in H.
  - injection H as <-. split; [exact Ha|]. split; [exact HQ|].
    split; [reflexivity|]. intros r x [].
  - rinv H. rinv H. rinv H.
    assert (Htags : forall x, In x v1 <-> row_tag X r x).
    { intros x. split.
      - intros Hx. exists v, v0, v1. auto.
      - intros (d & tv & ts & Hd & Htv & Hts & Hx). congruence. }
    destruct (fold_add_category_inv Q v1 acc Ha HQ) as (Ha1 & HQ1 & Hs1 & Hr1).
    { intros x Hx. apply (Hrow r); [now left|now apply Htags]. }
    destruct (IH _ H Ha1 HQ1 (fun r' x Hr' => Hrow r' x (or_intror Hr')))
      as (Ha2 & HQ2 & Hs2 & Hr2).
    split; [exact Ha2|]. split; [exact HQ2|]. split; [set_solver|].
    intros r' x [<-|Hr'] Hx; [|now apply (Hr2 r')].
    apply (represented_mono _ _ _ Hs2), Hr1. now apply Htags.
Qed.

End Categories.

(** X10.  The categories of a user are the tags of the user's first 500
    rows, trimmed: the answer is in code point order, no two entries are
    equal when case is ignored, none is empty, each is a tag of one of the
    rows, and every tag of a row that is not blank is there, in the
    spelling of its first occurrence or of an earlier one that differs in
    case only. *)
Theorem categories_sorted_distinct_complete
        (X : Externals) (cfg : Config) (request : Request) (w : World X)
        (user_id : string) (cats : list string) (w' : World X) :
  table cfg = true ->
  _resolve_user_id cfg request = inr user_id ->
  get_history_categories X cfg request w = (inr cats, w') ->
  exists records s,
    x_all X (user_formula user_id) (Some 500) (ext w) = (inr records, s)
    /\ StronglySorted string_le cats
    /\ NoDup (map Text.lower cats)
    /\ Forall (fun c => c <> ""
                        /\ exists r x, In r records /\ row_tag X r x
                                       /\ c = Text.strip (str X x)) cats
    /\ forall r x,
        In r records -> row_tag X r x -> Text.strip (str X x) <> "" ->
        exists c, In c cats /\ Text.lower c = Text.lower (Text.strip (str X x)).
Proof.
  intros Ht Hu H.
  rewrite (get_history_categories_run X cfg request w user_id Ht Hu) in H.
  rewrite read_handler_run, (categories_body_run X cfg user_id w Ht) in H.
  destruct (x_all X (user_formula user_id) (Some 500) (ext w)) as [[t|records] s];
    [discriminate|].
  destruct (categories_loop X records (∅, [])) as [e|acc] eqn:Hloop; [discriminate|].
  injection H as <- _. exists records, s. split; [reflexivity|].
  set (Q := fun c : string =>
              exists r x, In r records /\ row_tag X r x /\ c = Text.strip (str X x)).
  destruct (categories_loop_inv X Q records (∅, []) acc Hloop)
    as ((Hk & Hnd & Hall) & HQ & _ & Hrep).
  { split; [|split]; [intros k; simpl; set_solver|constructor|constructor]. }
  { constructor. }
  { intros r x Hr Hx. exists r, x. auto. }
  pose proof (merge_sort_Permutation string_le (snd acc)) as Hperm.
  split; [apply (StronglySorted_merge_sort string_le); apply _|].
  split. { unfold sort. now rewrite Hperm. }
  split.
  - unfold sort. rewrite Hperm. apply Forall_forall. intros c Hc.
    rewrite Forall_forall in Hall, HQ.
    split; [apply (Hall c Hc)|apply (HQ c Hc)].
  - intros r x Hr Hx Hne. destruct (Hrep r x Hr Hx) as [Hb|Hin]; [contradiction|].
    apply Hk, list_elem_of_fmap in Hin as (c & Hc & Hin).
    exists c. split; [|now symmetry].
    apply list_elem_of_In. unfold sort. now rewrite Hperm.
Qed.

(** The theorem above on a table of two sessions: the tags Graphs, Storage
    (with blanks around it), graphs and Algebra give three categories. *)
Lemma categories_sorted_distinct_complete_witness :
  exists w',
    get_history_categories Demo.recalling Demo.config Demo.anonymous
                           (Demo.recalled (Demo.idle Demo.two_rows))
    = (inr ["Algebra"; "Graphs"; "Storage"], w')
    /\ StronglySorted string_le ["Algebra"; "Graphs"; "Storage"]
    /\ NoDup (map Text.lower ["Algebra"; "Graphs"; "Storage"]).
Proof.
  set (out := get_history_categories Demo.recalling Demo.config Demo.anonymous
                                     (Demo.recalled (Demo.idle Demo.two_rows))).
  assert (H : out = (inr ["Algebra"; "Graphs"; "Storage"], snd out))
    by (apply pair_from_fst; vm_compute; reflexivity).
  exists (snd out). split; [exact H|].
  destruct (categories_sorted_distinct_complete
              Demo.recalling Demo.config Demo.anonymous
              (Demo.recalled (Demo.idle Demo.two_rows)) "local-dev" _ (snd out)
              eq_refl eq_refl H) as (records & s & _ & Hs & Hnd & _).
  auto.
Defined.

(** ** What the read handlers leave behind *)

(** X11.  Past the guards, the three history handlers keep the health
    report current: after an answer there is no Airtable issue; after a
    failure, which is a 500 whose detail ends with the error text, there is
    an Airtable issue of kind [read_error] with the first 300 characters of
    that text.  The cache and the LLM issue are as before. *)
Theorem history_reads_keep_health_current
        (X : Externals) (cfg : Config) (request : Request) (category search : string)
        (page limit : Z) (w : World X) (user_id : string) :
  table cfg = true ->
  _resolve_user_id cfg request = inr user_id ->
  read_bookkeeping "Failed to fetch history: " w
    (get_history X cfg request category search w)
  /\ read_bookkeeping "Failed to fetch paged history: " w
       (get_history_paged X cfg request category search page limit w)
  /\ read_bookkeeping "Failed to fetch categories: " w
       (get_history_categories X cfg request w).
Proof.
  intros Ht Hu. split; [|split].
  - rewrite (get_history_run X cfg request category search w user_id Ht Hu).
    apply read_handler_bookkeeping;
      apply (build_history_items_frame X cfg user_id category search None w Ht).
  - rewrite (get_history_paged_run X cfg request category search page limit w
               user_id Ht Hu).
    apply read_handler_bookkeeping;
      apply (build_history_items_frame X cfg user_id category search _ w Ht).
  - rewrite (get_history_categories_run X cfg request w user_id Ht Hu).
    apply read_handler_bookkeeping; rewrite (categories_body_run X cfg user_id w Ht);
      now destruct (x_all X (user_formula user_id) (Some 500) (ext w)) as [[t|rs] s].
Qed.

(** The theorem above on the demo table after an earlier failure: the
    issue is gone once the history has been read. *)
Lemma history_reads_keep_health_current_witness :
  let w := Build_World (Demo.idle Demo.five_rows : Ext Demo.externals) ∅
             {[ "airtable" := {| is_kind := "read_error"; is_message := "timeout";
                                 is_updatedAt := "2026-01-01" |} ]} [] in
  read_bookkeeping "Failed to fetch history: " w
    (get_history Demo.externals Demo.config Demo.anonymous "All" "" w)
  /\ PROVIDER_ISSUES w !! "airtable" <> None.
Proof.
  cbv zeta. split; [|discriminate].
  exact (proj1 (history_reads_keep_health_current
                  Demo.externals Demo.config Demo.anonymous "All" "" 1 12 _
                  "local-dev" eq_refl eq_refl)).
Defined.

(** ** Every row when there is no filter *)

(** X12.  With a category that is blank or All and a blank search, the
    history is the rows of the user as the store returned them, one item
    per row and in the same order: no row is left out.  The rows are the
    answer to the user's formula, or to its plain form when the store
    refuses the first. *)
Theorem unfiltered_history_returns_every_row
        (X : Externals) (cfg : Config) (request : Request) (category search : string)
        (w : World X) (user_id : string) (items : list ResearchResponse)
        (w' : World X) :
  table cfg = true ->
  _resolve_user_id cfg request = inr user_id ->
  Text.strip category = "" \/ Text.lower (Text.strip category) = "all" ->
  Text.strip search = "" ->
  get_history X cfg request category search w = (inr items, w') ->
  exists records,
    fetched X ("AND(" +:+ user_formula user_id +:+ ")") (user_formula user_id)
            None (ext w) records
    /\ Forall2 (item_of_row X) records items
    /\ length items = length records.
Proof.
  intros Ht Hu Hc Hs H.
  rewrite (get_history_run X cfg request category search w user_id Ht Hu) in H.
  rewrite read_handler_run in H.
  rewrite (build_history_items_run X cfg user_id category search None w Ht) in H.
  cbv zeta in H. rewrite (category_values_none category Hc), Hs in H.
  change (_build_history_formula user_id [] (Text.lower ""))
    with ("AND(" +:+ user_formula user_id +:+ ")") in H.
  change (Text.lower "") with "" in H.
  set (formula := "AND(" +:+ user_formula user_id +:+ ")") in *.
  assert (Hdone : forall records,
             history_loop X [] "" records = inr items ->
             Forall2 (item_of_row X) records items /\ length items = length records).
  { intros records Hl. pose proof (history_loop_unfiltered X records items Hl) as HF.
    split; [exact HF|]. symmetry. exact (Forall2_length _ _ _ HF). }
  destruct (x_all X formula None (ext w)) as [[t|records] s] eqn:E1.
  - destruct (x_all X (user_formula user_id) None s) as [[t2|records] s2] eqn:E2;
      [discriminate|].
    destruct (history_loop X [] "" records) as [e|items'] eqn:Hl; [discriminate|].
    injection H as -> _. exists records. split; [|now apply Hdone].
    right. exists t, s, s2. auto.
  - destruct (history_loop X [] "" records) as [e|items'] eqn:Hl; [discriminate|].
    injection H as -> _. exists records. split; [|now apply Hdone].
    left. now exists s.
Qed.

(** The theorem above on the five rows of the demo table. *)
Lemma unfiltered_history_returns_every_row_witness :
  exists items records,
    fst (get_history Demo.externals Demo.config Demo.anonymous " all " "  "
                     (Demo.world (Demo.idle Demo.five_rows))) = inr items
    /\ Forall2 (item_of_row Demo.externals) records items
    /\ length items = 5%nat.
Proof.
  set (out := get_history Demo.externals Demo.config Demo.anonymous " all " "  "
                          (Demo.world (Demo.idle Demo.five_rows))).
  set (items := match fst out with inr items => items | inl _ => [] end).
  assert (H : out = (inr items, snd out))
    by (apply pair_from_fst; vm_compute; reflexivity).
  destruct (unfiltered_history_returns_every_row
              Demo.externals Demo.config Demo.anonymous " all " "  "
              (Demo.world (Demo.idle Demo.five_rows)) "local-dev" items (snd out)
              eq_refl eq_refl (or_intror eq_refl) eq_refl H)
    as (records & _ & HF & _).
  exists items, records. split; [now rewrite H|]. split; [exact HF|].
  vm_compute. reflexivity.
Defined.

(** ** The CSV export *)

Section CsvExport.

Variable X : Externals.
Variable cfg : Config.
Variable render : Renderers.

Lemma csv_cells_seven (r : record) (cells : list json) :
  csv_cells X r = inr cells -> length cells = 7%nat.
Proof.
  unfold csv_cells. intros H.
  rinv H. rinv H. rinv H. rinv H. rinv H. rinv H. rinv H. rinv H. rinv H. rinv H.
  rinv H. now injection H as <-.
Qed.

Lemma csv_rows_inv (records : list record) (buffer out : string) :
  csv_rows X render records buffer = inr out ->
  exists rows,
    Forall2 (fun r cells => csv_cells X r = inr cells /\ length cells = 7%nat)
            records rows
    /\ out = buffer +:+ concat_texts (map (r_csv_row render) rows).
Proof.
  revert buffer. induction records as [|r records IH]; intros buffer H; simpl in H.
  - injection H as <-. exists []. split; [constructor|].
    unfold concat_texts. simpl. now rewrite append_empty_r.
  - rinv H. destruct (IH _ H) as (rows & HF & ->).
    exists (v :: rows). split.
    + constructor; [|exact HF]. split; [exact E|exact (csv_cells_seven _ _ E)].
    + unfold concat_texts. simpl. now rewrite append_assoc.
Qed.

Lemma export_history_csv_run (request : Request) (w : World X) (user_id : string) :
  table cfg = true ->
  _resolve_user_id cfg request = inr user_id ->
  export_history_csv X cfg render request w =
  let read := EvAll (user_formula user_id) None in
  match x_all X (user_formula user_id) None (ext w) with
  | (inr records, s) =>
      match csv_rows X render records (r_csv_row render csv_header) with
      | inr buffer =>
          (inr {| content := buffer; media_type := "text/csv";
                  headers := attachment "cerebro-history.csv" |},
           logged w s [read])
      | inl e =>
          (inl (HTTPException 500 ("Failed to export CSV: " +:+ exn_str e)),
           logged w s [read])
      end
  | (inl t, s) =>
      (inl (HTTPException 500 ("Failed to export CSV: " +:+ t)), logged w s [read])
  end.
Proof.
  intros Ht Hu. unfold export_history_csv, _require_table. rewrite Ht.
  unfold bind at 1, ret. unfold bind at 1, lift at 1. rewrite Hu.
  unfold try_except, bind. rewrite (table_all_run X cfg _ _ w Ht). cbv zeta.
  destruct (x_all X (user_formula user_id) None (ext w)) as [[t|records] s];
    [reflexivity|].
  unfold lift. now destruct (csv_rows X render records (r_csv_row render csv_header)).
Qed.

End CsvExport.

(** X13.  The CSV export reads the rows of the user in one call, without a
    limit, and writes the header row and then one row of seven cells for
    each row read, in the order read.  Whatever happens, the cache and the
    provider issues are as before; a failure past the guards is a 500
    "Failed to export CSV: ...". *)
Theorem csv_export_one_row_per_session
        (X : Externals) (cfg : Config) (render : Renderers) (request : Request)
        (w : World X) (user_id : string) :
  table cfg = true ->
  _resolve_user_id cfg request = inr user_id ->
  let out := export_history_csv X cfg render request w in
  SESSION_CACHE (snd out) = SESSION_CACHE w
  /\ PROVIDER_ISSUES (snd out) = PROVIDER_ISSUES w
  /\ trace (snd out) = (trace w ++ [EvAll (user_formula user_id) None])%list
  /\ match fst out with
     | inr resp =>
         exists records s rows,
           x_all X (user_formula user_id) None (ext w) = (inr records, s)
           /\ Forall2 (fun r cells => csv_cells X r = inr cells
                                      /\ length cells = 7%nat) records rows
           /\ content resp
              = concat_texts (map (r_csv_row render) (csv_header :: rows))
           /\ media_type resp = "text/csv"
           /\ headers resp = attachment "cerebro-history.csv"
     | inl e => exists t, e = HTTPException 500 ("Failed to export CSV: " +:+ t)
     end.
Proof.
  intros Ht Hu. cbv zeta.
  rewrite (export_history_csv_run X cfg render request w user_id Ht Hu). cbv zeta.
  destruct (x_all X (user_formula user_id) None (ext w)) as [[t|records] s].
  { simpl. eauto 10. }
  destruct (csv_rows X render records (r_csv_row render csv_header))
    as [e|buffer] eqn:Hrows.
  { simpl. eauto 10. }
  simpl. split; [reflexivity|]. split; [reflexivity|]. split; [reflexivity|].
  destruct (csv_rows_inv X render records _ _ Hrows) as (rows & HF & ->).
  exists records, s, rows. auto.
Qed.

(** The theorem above on a table of two sessions: a header and two rows. *)
Lemma csv_export_one_row_per_session_witness :
  let out := export_history_csv Demo.recalling Demo.config Demo.renderers
               Demo.anonymous (Demo.recalled (Demo.idle Demo.two_rows)) in
  match fst out with
  | inr resp =>
      exists rows,
        length rows = 2%nat
        /\ content resp
           = concat_texts (map Demo.csv_line (csv_header :: rows))
  | inl _ => False
  end.
Proof.
  cbv zeta.
  pose proof (csv_export_one_row_per_session
                Demo.recalling Demo.config Demo.renderers Demo.anonymous
                (Demo.recalled (Demo.idle Demo.two_rows)) "local-dev"
                eq_refl eq_refl) as H.
  cbv zeta in H. destruct H as (_ & _ & _ & H).
  set (out := export_history_csv Demo.recalling Demo.config Demo.renderers
                Demo.anonymous (Demo.recalled (Demo.idle Demo.two_rows))) in *.
  assert (Hok : exists resp, fst out = inr resp)
    by (eexists; vm_compute; reflexivity).
  destruct Hok as (resp & Hok). rewrite Hok in *.
  destruct H as (records & s & rows & Ha & HF & Hc & _).
  exists rows. split; [|exact Hc].
  rewrite <- (Forall2_length _ _ _ HF).
  vm_compute in Ha. now injection Ha as <- _.
Defined.

(** ** Reads are restricted to the caller *)

(** X14.  Whatever they answer, the provider calls of the history, paged
    history, categories and CSV handlers are reads whose formula is the
    caller's user clause or a conjunction that starts with it: none of them
    writes, calls the LLM, or reads the rows of another user. *)
Theorem store_reads_name_the_caller
        (X : Externals) (cfg : Config) (render : Renderers) (request : Request)
        (category search : string) (page limit : Z) (w : World X)
        (user_id : string) :
  table cfg = true ->
  _resolve_user_id cfg request = inr user_id ->
  only_reads_of user_id w (get_history X cfg request category search w)
  /\ only_reads_of user_id w
       (get_history_paged X cfg request category search page limit w)
  /\ only_reads_of user_id w (get_history_categories X cfg request w)
  /\ only_reads_of user_id w (export_history_csv X cfg render request w).
Proof.
  intros Ht Hu.
  assert (Hplain : forall limit, reads_of_user user_id (EvAll (user_formula user_id) limit)).
  { intros l. exists (user_formula user_id), l. auto. }
  split; [|split; [|split]].
  - rewrite (get_history_run X cfg request category search w user_id Ht Hu).
    apply read_handler_reads. now apply build_history_items_reads.
  - rewrite (get_history_paged_run X cfg request category search page limit w
               user_id Ht Hu).
    apply read_handler_reads. now apply build_history_items_reads.
  - rewrite (get_history_categories_run X cfg request w user_id Ht Hu).
    apply read_handler_reads. unfold only_reads_of.
    rewrite (categories_body_run X cfg user_id w Ht).
    destruct (x_all X (user_formula user_id) (Some 500) (ext w)) as [[t|rs] s];
      (eexists; split; [reflexivity|]; repeat constructor; apply Hplain).
  - unfold only_reads_of.
    rewrite (export_history_csv_run X cfg render request w user_id Ht Hu). cbv zeta.
    destruct (x_all X (user_formula user_id) None (ext w)) as [[t|rs] s];
      [|destruct (csv_rows X render rs (r_csv_row render csv_header))];
      (eexists; split; [reflexivity|]; repeat constructor; apply Hplain).
Qed.

(** The theorem above for a filtered search on the demo table. *)
Lemma store_reads_name_the_caller_witness :
  only_reads_of "local-dev" (Demo.world (Demo.idle Demo.five_rows))
    (get_history Demo.externals Demo.config Demo.anonymous "graphs" "theory"
                 (Demo.world (Demo.idle Demo.five_rows))).
Proof.
  exact (proj1 (store_reads_name_the_caller
                  Demo.externals Demo.config Demo.renderers Demo.anonymous
                  "graphs" "theory" 1 12 (Demo.world (Demo.idle Demo.five_rows))
                  "local-dev" eq_refl eq_refl)).
Defined.

(** ** Writing a session and reading it back *)

Lemma start_create_fields_data (X : Externals) (session_id user_id topic subs : string)
      (description payload : json) :
  start_create_fields X session_id user_id topic subs description payload !! "Data"
  = Some (JStr (x_dumps X payload)).
Proof.
  unfold start_create_fields. simpl.
  rewrite !lookup_insert_ne by discriminate. apply lookup_insert_eq.
Qed.

Lemma refine_update_fields_data (X : Externals) (data outline : json)
      (subtopic insight : string) (fs : gmap string json) :
  refine_update_fields X data outline subtopic insight = inr fs ->
  fs !! "Data" = Some (JStr (x_dumps X data)).
Proof.
  unfold refine_update_fields. intros H. rinv H. rinv H. rinv H. rinv H. rinv H.
  injection H as <-. simpl. apply lookup_insert_eq.
Qed.

Lemma finalize_update_fields_data (X : Externals) (data outline : json)
      (summary : string) (tags : json) (fs : gmap string json) :
  finalize_update_fields X data outline summary tags = inr fs ->
  fs !! "Data" = Some (JStr (x_dumps X data)).
Proof.
  unfold finalize_update_fields. intros H. rinv H. rinv H. rinv H. rinv H.
  injection H as <-. simpl. apply lookup_insert_eq.
Qed.

(** ** The PDF report *)

#[local] Arguments Text.take _ _ : simpl never.

Lemma lines_after_app (n : nat) (ops ops' : list canvas_op) :
  lines_after n (ops ++ ops') = lines_after (lines_after n ops) ops'.
Proof.
  revert n. induction ops as [|[|name size|x y text] ops IH]; intros n; simpl; auto.
Qed.

Lemma laid_out_app (n : nat) (ops ops' : list canvas_op) :
  laid_out n ops -> laid_out (lines_after n ops) ops' -> laid_out n (ops ++ ops').
Proof.
  revert n. induction ops as [|[|name size|x y text] ops IH]; intros n; simpl.
  - auto.
  - intros [-> H] H'. auto.
  - intros [-> H] H'. auto.
  - intros (-> & -> & Hn & Hl & H) H'. auto 10.
Qed.

(** Writing a line keeps the canvas in order. *)
Lemma write_line_in_order (text : string) (size : Z) (c : canvas) :
  canvas_in_order c -> canvas_in_order (write_line text size c).
Proof.
  destruct c as [y ops]. unfold canvas_in_order, write_line; simpl.
  intros (Hl & Hn & ->).
  assert (Htake : (String.length (Text.take 110 text) <= 110)%nat)
    by (rewrite take_length; lia).
  destruct (800 - 18 * Z.of_nat (lines_after 0 ops) <? 60) eqn:E.
  - apply Z.ltb_lt in E.
    assert (Hfull : lines_after 0 ops = 42%nat) by lia.
    simpl. rewrite <- app_assoc. simpl.
    rewrite !lines_after_app. simpl.
    split; [|split; [lia|reflexivity]].
    apply laid_out_app; [exact Hl|]. rewrite Hfull. simpl.
    repeat split; [lia|exact Htake].
  - apply Z.ltb_ge in E. simpl.
    rewrite !lines_after_app. simpl.
    split; [|split; [lia|lia]].
    apply laid_out_app; [exact Hl|]. simpl.
    split; [reflexivity|]. split; [reflexivity|]. split; [reflexivity|].
    split; [lia|]. split; [exact Htake|exact I].
Qed.

Lemma fold_write_line_in_order (chunks : list string) (c : canvas) :
  canvas_in_order c ->
  canvas_in_order (fold_left (fun c chunk => write_line chunk 11 c) chunks c).
Proof.
  revert c. induction chunks as [|x chunks IH]; intros c Hc; simpl; [exact Hc|].
  now apply IH, write_line_in_order.
Qed.

Lemma write_each_in_order (line : json -> R string) (xs : list json) (c c' : canvas) :
  write_each line xs c = inr c' -> canvas_in_order c -> canvas_in_order c'.
Proof.
  revert c. induction xs as [|x xs IH]; intros c H Hc; simpl in H.
  - now injection H as <-.
  - rinv H. apply (IH _ H). now apply write_line_in_order.
Qed.

Lemma pdf_document_in_order (X : Externals) (session_id : string) (rec : record)
      (c : canvas) :
  pdf_document X session_id rec = inr c -> canvas_in_order c.
Proof.
  unfold pdf_document. intros H.
  rinv H. rinv H. rinv H. rinv H. rinv H. rinv H. rinv H. rinv H. rinv H. rinv H.
  rinv H. rinv H.
  assert (H0 : canvas_in_order (800, [])) by (repeat split; simpl; lia).
  repeat match goal with
         | E : context [write_line ?t ?s ?c] |- _ =>
             lazymatch goal with
             | _ : canvas_in_order (write_line t s c) |- _ => fail
             | Hc : canvas_in_order c |- _ =>
                 pose proof (write_line_in_order t s c Hc)
             end
         | E : context [fold_left ?f ?l ?c] |- _ =>
             lazymatch goal with
             | _ : canvas_in_order (fold_left f l c) |- _ => fail
             | Hc : canvas_in_order c |- _ =>
                 pose proof (fold_write_line_in_order l c Hc)
             end
         end.
  assert (H9 : canvas_in_order v9) by (eapply write_each_in_order; eassumption).
  assert (H10 : canvas_in_order v10).
  { destruct (Py.truthy v1); [|now injection E10 as <-].
    rinv E10. eapply write_each_in_order; [eassumption|].
    now do 2 apply write_line_in_order. }
  destruct (Py.truthy v4); [|now injection H as <-].
  rinv H. injection H as <-. now do 3 apply write_line_in_order.
Qed.

Lemma continues_refl (c : canvas) : continues c c.
Proof. exists []. now rewrite app_nil_r. Qed.

Lemma continues_trans (a b c : canvas) : continues a b -> continues b c -> continues a c.
Proof.
  intros [m1 H1] [m2 H2]. exists (m1 ++ m2)%list. now rewrite H2, H1, <- app_assoc.
Qed.

Lemma write_line_continues (text : string) (size : Z) (c : canvas) :
  continues c (write_line text size c).
Proof.
  destruct c as [y ops]. unfold continues, write_line; simpl.
  destruct (y <? 60); simpl; [rewrite <- app_assoc|]; eauto.
Qed.

Lemma fold_write_line_continues (chunks : list string) (c : canvas) :
  continues c (fold_left (fun c chunk => write_line chunk 11 c) chunks c).
Proof.
  revert c. induction chunks as [|x chunks IH]; intros c; simpl; [apply continues_refl|].
  eapply continues_trans; [apply write_line_continues|apply IH].
Qed.

Lemma write_each_continues (line : json -> R string) (xs : list json) (c c' : canvas) :
  write_each line xs c = inr c' -> continues c c'.
Proof.
  revert c. induction xs as [|x xs IH]; intros c H; simpl in H.
  - injection H as <-. apply continues_refl.
  - rinv H. apply (continues_trans _ (write_line v 11 c));
      [apply write_line_continues|now apply IH].
Qed.

(** Every report starts with the title and the session id. *)
Lemma pdf_document_head (X : Externals) (session_id : string) (rec : record)
      (c : canvas) :
  pdf_document X session_id rec = inr c ->
  exists more, snd c = (report_head session_id ++ more)%list.
Proof.
  unfold pdf_document. intros H.
  rinv H. rinv H. rinv H. rinv H. rinv H. rinv H. rinv H. rinv H. rinv H. rinv H.
  rinv H. rinv H.
  set (c2 := write_line ("Session ID: " +:+ session_id) 11
               (write_line "Cerebro Research Report" 16 (800, []))) in *.
  assert (H2 : continues c2 c2) by apply continues_refl.
  repeat match goal with
         | E : context [write_line ?t ?s ?c] |- _ =>
             lazymatch goal with
             | _ : continues c2 (write_line t s c) |- _ => fail
             | Hc : continues c2 c |- _ =>
                 pose proof (continues_trans _ _ _ Hc (write_line_continues t s c))
             end
         | E : context [fold_left ?f ?l ?c] |- _ =>
             lazymatch goal with
             | _ : continues c2 (fold_left f l c) |- _ => fail
             | Hc : continues c2 c |- _ =>
                 pose proof (continues_trans _ _ _ Hc (fold_write_line_continues l c))
             end
         end.
  assert (H9 : continues c2 v9).
  { eapply continues_trans; [|eapply write_each_continues; eassumption]. assumption. }
  assert (H10 : continues c2 v10).
  { destruct (Py.truthy v1); [|now injection E10 as <-].
    rinv E10. eapply continues_trans; [|eapply write_each_continues; eassumption].
    eapply continues_trans; [exact H9|].
    eapply continues_trans; apply write_line_continues. }
  assert (Hc : continues c2 c).
  { destruct (Py.truthy v4); [|now injection H as <-].
    rinv H. injection H as <-. eapply continues_trans; [exact H10|].
    eapply continues_trans; [apply write_line_continues|].
    eapply continues_trans; apply write_line_continues. }
  exact Hc.
Qed.

Section SessionLookups.

Variable X : Externals.
Variable cfg : Config.

(** The lookup of a session in the store: at most the two reads, and
    nothing else. *)
Lemma find_session_record_frame (session_id user_id : string) (w : World X) :
  let out := _find_session_record X cfg session_id user_id w in
  SESSION_CACHE (snd out) = SESSION_CACHE w
  /\ PROVIDER_ISSUES (snd out) = PROVIDER_ISSUES w
  /\ exists evs, trace (snd out) = (trace w ++ evs)%list
                 /\ (length evs <= 2)%nat
                 /\ Forall (is_lookup session_id) evs.
Proof.
  cbv zeta. destruct (table cfg) eqn:Ht.
  2: { rewrite (find_session_record_no_table X cfg _ _ w Ht). simpl.
       split; [reflexivity|]. split; [reflexivity|].
       exists []. rewrite app_nil_r. split; [reflexivity|]. split; [simpl; lia|constructor]. }
  rewrite (find_session_record_run X cfg session_id user_id w Ht). cbv zeta.
  assert (H1 : is_lookup session_id (EvAll (lookup_formula session_id user_id) (Some 1)))
    by (left; eauto).
  assert (H2 : is_lookup session_id (EvGet session_id)) by now right.
  destruct (x_all X _ (Some 1) (ext w)) as [[t|[|r rs]] s]; simpl.
  - split; [reflexivity|]. split; [reflexivity|].
    eexists. split; [reflexivity|]. split; [simpl; lia|].
    constructor; [exact H1|constructor].
  - destruct (x_get X session_id s) as [[t|rec] s2]; simpl;
      (split; [reflexivity|]; split; [reflexivity|];
       eexists; split; [reflexivity|]; split; [simpl; lia|];
       constructor; [exact H1|constructor; [exact H2|constructor]]).
  - split; [reflexivity|]. split; [reflexivity|].
    eexists. split; [reflexivity|]. split; [simpl; lia|].
    constructor; [exact H1|constructor].
Qed.

Lemma export_session_pdf_run (render : Renderers) (session_id : string)
      (request : Request) (w : World X) (user_id : string) :
  table cfg = true ->
  _resolve_user_id cfg request = inr user_id ->
  export_session_pdf X cfg render session_id request w =
  match _find_session_record X cfg session_id user_id w with
  | (inr (Some rec), w1) =>
      match pdf_document X session_id rec with
      | inr c =>
          (inr {| content := r_pdf render (snd c); media_type := "application/pdf";
                  headers := attachment ("cerebro-" +:+ session_id +:+ ".pdf") |}, w1)
      | inl e => on_export_error e w1
      end
  | (inr None, w1) => (inl (HTTPException 404 "Session not found."), w1)
  | (inl e, w1) => on_export_error e w1
  end.
Proof.
  intros Ht Hu. unfold export_session_pdf, _require_table. rewrite Ht.
  unfold bind at 1, ret. unfold bind at 1, lift at 1. rewrite Hu.
  unfold try_except, bind.
  destruct (_find_session_record X cfg session_id user_id w) as [[e|[rec|]] w1];
    [reflexivity| |reflexivity].
  unfold lift. now destruct (pdf_document X session_id rec).
Qed.

Lemma export_session_pdf_guards (render : Renderers) (session_id : string)
      (request : Request) (w : World X) (resp : Response) (w' : World X) :
  export_session_pdf X cfg render session_id request w = (inr resp, w') ->
  table cfg = true /\ exists user_id, _resolve_user_id cfg request = inr user_id.
Proof.
  unfold export_session_pdf, _require_table. intros H.
  destruct (table cfg); [|discriminate]. split; [reflexivity|].
  unfold bind at 1, ret in H. unfold bind at 1, lift at 1 in H.
  destruct (_resolve_user_id cfg request) as [e|user_id]; [discriminate|]. eauto.
Qed.

End SessionLookups.

(** X16.  A PDF export that succeeds is the report of the row found for
    the session and the caller.  The report starts with the title and the
    session id; every line is set in Helvetica, holds at most 110
    characters and is drawn at the left margin, 18 points below the line
    before it, from height 800 down to height 62; and a new page is started
    exactly when a page holds 42 lines.  The cache and the provider issues
    are as before. *)
Theorem pdf_report_is_laid_out
        (X : Externals) (cfg : Config) (render : Renderers) (session_id : string)
        (request : Request) (w : World X) (resp : Response) (w' : World X) :
  export_session_pdf X cfg render session_id request w = (inr resp, w') ->
  exists user_id rec y ops more,
    _resolve_user_id cfg request = inr user_id
    /\ _find_session_record X cfg session_id user_id w = (inr (Some rec), w')
    /\ pdf_document X session_id rec = inr (y, ops)
    /\ content resp = r_pdf render ops
    /\ media_type resp = "application/pdf"
    /\ headers resp = attachment ("cerebro-" +:+ session_id +:+ ".pdf")
    /\ ops = (report_head session_id ++ more)%list
    /\ laid_out 0 ops
    /\ SESSION_CACHE w' = SESSION_CACHE w
    /\ PROVIDER_ISSUES w' = PROVIDER_ISSUES w.
Proof.
  intros H.
  destruct (export_session_pdf_guards X cfg render _ _ _ _ _ H) as (Ht & user_id & Hu).
  rewrite (export_session_pdf_run X cfg render session_id request w user_id Ht Hu) in H.
  destruct (find_session_record_frame X cfg session_id user_id w) as (Hc & Hi & _).
  destruct (_find_session_record X cfg session_id user_id w) as [[e|[rec|]] w1] eqn:Hf;
    [destruct e; discriminate| |discriminate].
  destruct (pdf_document X session_id rec) as [e|[y ops]] eqn:Hdoc;
    [destruct e; discriminate|].
  injection H as <- <-. simpl in Hc, Hi.
  destruct (pdf_document_head X session_id rec _ Hdoc) as [more Hmore].
  pose proof (pdf_document_in_order X session_id rec _ Hdoc) as (Hl & _).
  exists user_id, rec, y, ops, more.
  split; [exact Hu|]. split; [exact Hf|]. split; [exact Hdoc|].
  split; [reflexivity|]. split; [reflexivity|]. split; [reflexivity|].
  split; [exact Hmore|]. split; [exact Hl|]. split; [exact Hc|exact Hi].
Qed.

(** The theorem above on the finalized session of the demo table. *)
Lemma pdf_report_is_laid_out_witness :
  exists resp ops,
    fst (export_session_pdf Demo.recalling Demo.config Demo.renderers "SESS-2"
           Demo.anonymous (Demo.recalled (Demo.idle [Demo.data_row 2 Demo.tagged_session])))
    = inr resp
    /\ content resp = Demo.pdf_text ops
    /\ laid_out 0 ops.
Proof.
  set (out := export_session_pdf Demo.recalling Demo.config Demo.renderers "SESS-2"
                Demo.anonymous
                (Demo.recalled (Demo.idle [Demo.data_row 2 Demo.tagged_session]))).
  set (resp := match fst out with
               | inr resp => resp
               | inl _ => {| content := ""; media_type := ""; headers := [] |}
               end).
  assert (H : out = (inr resp, snd out))
    by (apply pair_from_fst; vm_compute; reflexivity).
  destruct (pdf_report_is_laid_out Demo.recalling Demo.config Demo.renderers "SESS-2"
              Demo.anonymous _ resp (snd out) H)
    as (user_id & rec & y & ops & more & _ & _ & _ & Hc & _ & _ & _ & Hl & _).
  exists resp, ops. split; [now rewrite H|]. auto.
Defined.

(** ** Sessions that do not resolve *)

(** X17.  Like refine, the handlers that finalize a session, return its
    detail or export it as PDF answer 404 "Session not found." for a
    session that resolves through none of the three steps, and leave the
    cache and the provider issues as they were.  (Finalize gets that far
    when the rate limiter lets the request through, from world [wi] to the
    world [w] of the lookups, and the LLM is configured; the other two need
    the store.) *)
Theorem unresolved_session_is_not_found_anywhere
        (X : Externals) (cfg : Config) (render : Renderers) (request : Request)
        (session_id : string) (tags : option (list string)) (w : World X)
        (user_id : string) :
  _resolve_user_id cfg request = inr user_id ->
  unresolved cfg session_id user_id w ->
  (groq_client cfg = true ->
   forall wi,
     limiter_limit X "finalize_research" request wi = (inr tt, w) ->
     exists w',
       finalize_research X cfg request
         {| fq_sessionId := session_id; fq_tags := tags |} wi
       = (inl (HTTPException 404 "Session not found."), w')
       /\ SESSION_CACHE w' = SESSION_CACHE wi
       /\ PROVIDER_ISSUES w' = PROVIDER_ISSUES wi)
  /\ (table cfg = true ->
      exists w',
        get_session X cfg session_id request w
        = (inl (HTTPException 404 "Session not found."), w')
        /\ SESSION_CACHE w' = SESSION_CACHE w
        /\ PROVIDER_ISSUES w' = PROVIDER_ISSUES w)
  /\ (table cfg = true ->
      exists w',
        export_session_pdf X cfg render session_id request w
        = (inl (HTTPException 404 "Session not found."), w')
        /\ SESSION_CACHE w' = SESSION_CACHE w
        /\ PROVIDER_ISSUES w' = PROVIDER_ISSUES w).
Proof.
  intros Hu Hn.
  destruct (unresolved_lookups cfg _ _ w Hn) as (Hc & w' & Hf & Hsc & Hpi).
  split; [|split].
  - intros Hg wi Hl. exists w'. split.
    2: { destruct (limiter_limit_admits _ _ _ _ Hl) as (s & _ & ->).
         split; [exact Hsc|exact Hpi]. }
    rewrite (finalize_research_run X cfg request _ wi w user_id Hl Hg Hu).
    assert (Hstage : finalize_stage X cfg user_id
                       {| fq_sessionId := session_id; fq_tags := tags |} w
                     = (inl (HTTPException 404 "Session not found."), w')).
    { unfold finalize_stage. simpl fq_sessionId.
      rewrite (bind_inr _ _ _ _ _ Hc), (bind_inr _ _ _ _ _ Hf). reflexivity. }
    unfold try_except, finalize_body. now rewrite (bind_inl _ _ _ _ _ Hstage).
  - intros Ht. exists w'. split; [|auto].
    rewrite (get_session_run X cfg session_id request w user_id Hu).
    assert (Hstore : session_via_store X cfg session_id user_id w
                     = (inl (HTTPException 404 "Session not found."), w')).
    { unfold session_via_store, _require_table. rewrite Ht.
      unfold bind at 1, ret. now rewrite (bind_inr _ _ _ _ _ Hf). }
    destruct Hn as [Hcache _].
    destruct (SESSION_CACHE w !! session_id) as [c|].
    + apply String.eqb_neq in Hcache. rewrite Hcache.
      now rewrite (try_inl _ _ _ _ _ Hstore).
    + now rewrite (try_inl _ _ _ _ _ Hstore).
  - intros Ht. exists w'. split; [|auto].
    rewrite (export_session_pdf_run X cfg render session_id request w user_id Ht Hu).
    now rewrite Hf.
Qed.

(** The theorem above on the demo service, whose table is empty. *)
Lemma unresolved_session_is_not_found_anywhere_witness :
  unresolved Demo.config "SESS-FFFFFFFF" "local-dev" (Demo.world (Demo.idle []))
  /\ exists w',
      export_session_pdf Demo.externals Demo.config Demo.renderers "SESS-FFFFFFFF"
                         Demo.anonymous (Demo.world (Demo.idle []))
      = (inl (HTTPException 404 "Session not found."), w').
Proof.
  assert (Hn : unresolved Demo.config "SESS-FFFFFFFF" "local-dev"
                          (Demo.world (Demo.idle []))).
  { split; [exact I|]. right. split; [reflexivity|].
    exists (Demo.idle []). split; [reflexivity|exact I]. }
  split; [exact Hn|].
  destruct (proj2 (proj2 (unresolved_session_is_not_found_anywhere
                            Demo.externals Demo.config Demo.renderers Demo.anonymous
                            "SESS-FFFFFFFF" None (Demo.world (Demo.idle []))
                            "local-dev" eq_refl Hn)) eq_refl)
    as (w' & H & _).
  now exists w'.
Defined.

(** ** Session detail is a read *)

Section SessionRead.

Variable X : Externals.
Variable cfg : Config.

Lemma resolve_user_id_error (request : Request) (e : exn) :
  _resolve_user_id cfg request = inl e ->
  exists detail, e = HTTPException 401 detail.
Proof.
  unfold _resolve_user_id.
  destruct (negb (bool_decide (AUTH_TOKENS cfg = ∅))); [|discriminate].
  destruct (negb (Text.startswith "Bearer " _)); [intros [= <-]; eauto|].
  destruct (AUTH_TOKENS cfg !! _) as [u|]; [|intros [= <-]; eauto].
  destruct (Text.nonempty u); [discriminate|intros [= <-]; eauto].
Qed.

Lemma on_session_error_http {A} (e : exn) (w : World X) :
  exists code detail, @on_session_error X A e w = (inl (HTTPException code detail), w).
Proof. destruct e; simpl; unfold raise; eauto. Qed.

End SessionRead.

(** X18.  Returning the detail of a session never changes the process
    state: whatever the request, the configuration and the answer, the
    cache and the provider issues are as before, the only provider calls
    are the lookups of the session (at most two), and a failure is always
    an HTTP error, never a bare exception. *)
Theorem get_session_is_read_only
        (X : Externals) (cfg : Config) (session_id : string) (request : Request)
        (w : World X) :
  let out := get_session X cfg session_id request w in
  SESSION_CACHE (snd out) = SESSION_CACHE w
  /\ PROVIDER_ISSUES (snd out) = PROVIDER_ISSUES w
  /\ (exists evs,
         trace (snd out) = (trace w ++ evs)%list
         /\ (length evs <= 2)%nat
         /\ Forall (is_lookup session_id) evs)
  /\ (forall e, fst out = inl e -> exists code detail, e = HTTPException code detail).
Proof.
  cbv zeta.
  assert (Hnone : exists evs : list event,
             trace w = (trace w ++ evs)%list /\ (length evs <= 2)%nat
             /\ Forall (is_lookup session_id) evs).
  { exists []. rewrite app_nil_r. split; [reflexivity|]. split; [simpl; lia|constructor]. }
  destruct (_resolve_user_id cfg request) as [e|user_id] eqn:Hu.
  { unfold get_session, bind, lift. rewrite Hu. simpl.
    split; [reflexivity|]. split; [reflexivity|]. split; [exact Hnone|].
    intros e' [= <-]. destruct (resolve_user_id_error cfg _ _ Hu) as [d ->]. eauto. }
  rewrite (get_session_run X cfg session_id request w user_id Hu).
  assert (Hstore :
    let out := try_except (session_via_store X cfg session_id user_id)
                          on_session_error w in
    SESSION_CACHE (snd out) = SESSION_CACHE w
    /\ PROVIDER_ISSUES (snd out) = PROVIDER_ISSUES w
    /\ (exists evs,
           trace (snd out) = (trace w ++ evs)%list
           /\ (length evs <= 2)%nat
           /\ Forall (is_lookup session_id) evs)
    /\ (forall e, fst out = inl e -> exists code detail, e = HTTPException code detail)).
  { cbv zeta. unfold try_except, session_via_store, _require_table.
    destruct (table cfg).
    2: { simpl. split; [reflexivity|]. split; [reflexivity|]. split; [exact Hnone|].
         intros e [= <-]. eauto. }
    unfold bind at 1, ret. unfold bind.
    destruct (find_session_record_frame X cfg session_id user_id w) as (Hc & Hi & Hev).
    destruct (_find_session_record X cfg session_id user_id w) as [[e|[rec|]] w1];
      simpl in Hc, Hi, Hev.
    - destruct (on_session_error_http X (A:=SessionDetail) e w1) as (c & d & ->).
      simpl. split; [exact Hc|]. split; [exact Hi|]. split; [exact Hev|].
      intros e' [= <-]. eauto.
    - unfold lift. destruct (session_from_record X rec) as [e|detail].
      + destruct (on_session_error_http X (A:=SessionDetail) e w1) as (c & d & ->).
        simpl. split; [exact Hc|]. split; [exact Hi|]. split; [exact Hev|].
        intros e' [= <-]. eauto.
      + simpl. split; [exact Hc|]. split; [exact Hi|]. split; [exact Hev|]. discriminate.
    - simpl. split; [exact Hc|]. split; [exact Hi|]. split; [exact Hev|].
      intros e' [= <-]. eauto. }
  destruct (SESSION_CACHE w !! session_id) as [c|]; [|exact Hstore].
  destruct (String.eqb (ci_user_id c) user_id); [|exact Hstore].
  unfold try_except, lift. destruct (session_from_cache X session_id c) as [e|detail].
  - destruct (on_session_error_http X (A:=SessionDetail) e w) as (code & d & ->).
    simpl. split; [reflexivity|]. split; [reflexivity|]. split; [exact Hnone|].
    intros e' [= <-]. eauto.
  - simpl. split; [reflexivity|]. split; [reflexivity|]. split; [exact Hnone|].
    discriminate.
Qed.

(** ** A started session can be read at once *)

Section StartedSession.

Variable X : Externals.
Variable cfg : Config.

Lemma on_start_error_raises {A} (e : exn) (w : World X) :
  exists e' w', @on_start_error X A e w = (inl e', w').
Proof.
  unfold on_start_error. destruct (looks_like_quota e).
  - destruct (set_provider_issue_run "llm" "quota" (exn_str e) w) as (w' & Hs & _).
    rewrite (bind_inr _ _ _ _ _ Hs). unfold raise. eauto.
  - unfold raise. eauto.
Qed.

Lemma require_genai_inv (w : World X) (u : unit) (w' : World X) :
  _require_genai X cfg w = (inr u, w') -> groq_client cfg = true /\ w' = w.
Proof.
  unfold _require_genai.
  destruct (negb (env_set (GROQ_API_KEY cfg))); [discriminate|].
  destruct (groq_client cfg); [|discriminate]. now intros [= _ <-].
Qed.

(** What a start request that succeeds has done. *)
Lemma start_research_inv (request : Request) (payload : ResearchRequest)
      (w : World X) (resp : ResearchResponse) (w' : World X) :
  start_research X cfg request payload w = (inr resp, w') ->
  exists user_id raw_data created,
    groq_client cfg = true
    /\ _resolve_user_id cfg request = inr user_id
    /\ validate_ResearchOutline X raw_data = inr (rr_outline resp)
    /\ SESSION_CACHE w' !! rr_sessionId resp
       = Some {| ci_user_id := user_id; ci_created_at := created;
                 ci_data := session_dict raw_data (JArr []) (JStr "") (JArr []) |}
    /\ rr_createdAt resp = None /\ rr_tags resp = [] /\ rr_progress resp = 50.
Proof.
  unfold start_research. intros H.
  apply bind_ok_inv in H as ([] & wl & _ & H).
  apply bind_ok_inv in H as (u & w0 & Hg & H).
  apply require_genai_inv in Hg as [Hg ->].
  apply bind_ok_inv in H as (user_id & w1 & Hu & H).
  apply lift_ok_inv in Hu as [Hu ->].
  unfold try_except in H.
  destruct (start_body X cfg user_id payload wl) as [[e|resp'] w2] eqn:Hb.
  { destruct (on_start_error_raises (A:=ResearchResponse) e w2) as (e' & w3 & Hr).
    rewrite Hr in H. discriminate. }
  injection H as -> ->. unfold start_body in Hb.
  apply bind_ok_inv in Hb as (raw_data & w3 & _ & Hb).
  apply bind_ok_inv in Hb as (hex & w4 & _ & Hb).
  apply bind_ok_inv in Hb as (sid & w5 & _ & Hb).
  apply bind_ok_inv in Hb as (u' & w6 & Hp & Hb).
  apply bind_ok_inv in Hb as (outline & w7 & Hv & Hb).
  apply lift_ok_inv in Hv as [Hv ->]. injection Hb as <- <-.
  destruct (cache_put_run sid user_id
              (session_dict raw_data (JArr []) (JStr "") (JArr [])) None w5)
    as (w8 & created & Hp' & _ & _ & Hc).
  rewrite Hp' in Hp. assert (w8 = w6) as -> by congruence.
  exists user_id, raw_data, created. simpl.
  split; [exact Hg|]. split; [exact Hu|]. split; [exact Hv|].
  split; [rewrite Hc; apply lookup_insert_eq|auto].
Qed.

End StartedSession.

(** X19.  Once start has answered, the detail of the session it returned
    can be asked for at once by the same caller: it is served from the
    cache, without any provider call, with the outline start returned, a
    creation time, no refinement, no summary and no tag. *)
Theorem started_session_is_served_at_once
        (X : Externals) (cfg : Config) (request : Request) (payload : ResearchRequest)
        (w : World X) (resp : ResearchResponse) (w' : World X) :
  start_research X cfg request payload w = (inr resp, w') ->
  exists created,
    get_session X cfg (rr_sessionId resp) request w'
    = (inr {| sd_sessionId := rr_sessionId resp; sd_outline := rr_outline resp;
              sd_createdAt := Some created; sd_refinements := [];
              sd_summary := None; sd_tags := [] |}, w').
Proof.
  intros H.
  destruct (start_research_inv X cfg request payload w resp w' H)
    as (user_id & raw_data & created & _ & Hu & Hv & Hc & _).
  exists created.
  rewrite (get_session_run X cfg _ request w' user_id Hu), Hc. simpl ci_user_id.
  rewrite String.eqb_refl. unfold try_except, lift.
  now rewrite (session_from_cache_well_formed X (rr_sessionId resp)
                 {| ci_user_id := user_id; ci_created_at := created;
                    ci_data := session_dict raw_data (JArr []) (JStr "") (JArr []) |}
                 raw_data [] "" [] (rr_outline resp) [] [] eq_refl Hv eq_refl eq_refl).
Qed.

(** The theorem above on the demo service while the LLM is over quota
    and the store is down: start answers with the fallback outline, and
    the session can be read. *)
Lemma started_session_is_served_at_once_witness :
  exists resp w' detail,
    start_research Demo.externals Demo.config Demo.anonymous
                   {| rq_topic := "graph databases" |} (Demo.world Demo.over_quota)
    = (inr resp, w')
    /\ get_session Demo.externals Demo.config (rr_sessionId resp) Demo.anonymous w'
       = (inr detail, w')
    /\ sd_outline detail = rr_outline resp.
Proof.
  set (out := start_research Demo.externals Demo.config Demo.anonymous
                             {| rq_topic := "graph databases" |}
                             (Demo.world Demo.over_quota)).
  set (resp := match fst out with
               | inr resp => resp
               | inl _ => {| rr_sessionId := ""; rr_createdAt := None; rr_tags := [];
                             rr_progress := 0;
                             rr_outline := {| o_title := ""; o_description := "";
                                              o_subTopics := [] |} |}
               end).
  assert (H : out = (inr resp, snd out))
    by (apply pair_from_fst; vm_compute; reflexivity).
  destruct (started_session_is_served_at_once
              Demo.externals Demo.config Demo.anonymous
              {| rq_topic := "graph databases" |} (Demo.world Demo.over_quota)
              resp (snd out) H) as (created & Hg).
  exists resp, (snd out). eexists. split; [exact H|]. split; [exact Hg|]. reflexivity.
Defined.

(** ** What refine and finalize change in a session *)

Section WorkflowChanges.

Variable X : Externals.
Variable cfg : Config.

Lemma cache_put_spec (session_id user_id : string) (data : json)
      (created_at : option string) (w : World X) :
  exists w' created,
    _cache_put X session_id user_id data created_at w = (inr tt, w')
    /\ (forall c, created_at = Some c -> c <> "" -> created = c)
    /\ SESSION_CACHE w' =
       <[session_id := {| ci_user_id := user_id; ci_created_at := created;
                          ci_data := data |}]> (SESSION_CACHE w).
Proof.
  unfold _cache_put, bind.
  destruct created_at as [c|]; [destruct (Text.nonempty c) eqn:Hc|];
    unfold ret, now, outside; try destruct (x_now X (ext w)) as [t s]; simpl.
  - eexists _, c. split; [reflexivity|]. split; [|reflexivity]. now intros ? [= ->].
  - eexists _, t. split; [reflexivity|]. split; [|reflexivity].
    intros ? [= <-] Hne. destruct c; [contradiction|discriminate].
  - eexists _, t. split; [reflexivity|]. split; [|reflexivity]. discriminate.
Qed.

(** The first three steps of refine and finalize. *)
Lemma session_resolution (session_id user_id : string) (w : World X)
      (cached : option cache_item) (record : option record) (data : json)
      (w2 w3 w4 : World X) :
  _cache_get X session_id user_id w = (inr cached, w2) ->
  _find_session_record X cfg session_id user_id w2 = (inr record, w3) ->
  session_data X cached record w3 = (inr data, w4) ->
  w2 = w /\ w4 = w3
  /\ resolves_to X cfg session_id user_id w data
  /\ (forall c, SESSION_CACHE w !! session_id = Some c -> ci_user_id c = user_id ->
                cached = Some c).
Proof.
  rewrite cache_get_run. intros [= <- <-] Hf Hd.
  split; [reflexivity|].
  destruct (SESSION_CACHE w !! session_id) as [c|] eqn:Hl.
  - destruct (String.eqb (ci_user_id c) user_id) eqn:He.
    + apply String.eqb_eq in He. simpl in Hd. injection Hd as <- <-.
      split; [reflexivity|]. split; [left; eauto|]. intros c' Hc' _. exact Hc'.
    + apply String.eqb_neq in He.
      destruct record as [rec|]; [|unfold session_data, not_found, raise in Hd; discriminate].
      simpl in Hd.
      apply lift_ok_inv in Hd as [Hd ->]. split; [reflexivity|]. split.
      * right. split; [intros c' Hc'; congruence|]. exists rec. now rewrite Hf.
      * intros c' Hc' Hu'. congruence.
  - destruct record as [rec|]; [|unfold session_data, not_found, raise in Hd; discriminate].
      simpl in Hd.
    apply lift_ok_inv in Hd as [Hd ->]. split; [reflexivity|]. split.
    + right. split; [intros c' Hc'; congruence|]. exists rec. now rewrite Hf.
    + intros c' Hc'. discriminate.
Qed.

Lemma getitem_dict (data : json) (k : string) (v : json) :
  Py.getitem data k = inr v -> exists kv, data = JObj kv /\ Py.assoc k kv = Some v.
Proof.
  destruct data as [| | | | |kv]; simpl; try discriminate.
  destruct (Py.assoc k kv) as [v'|] eqn:E; [|discriminate]. intros [= <-]. eauto.
Qed.

(** What a completed refine stage has done. *)
Lemma refine_stage_inv (user_id : string) (payload : RefineRequest)
      (w : World X) (st : staged RefineResponse) (w1 : World X) :
  refine_stage X cfg user_id payload w = (inr st, w1) ->
  exists kv old insight created stamp,
    resolves_to X cfg (rf_sessionId payload) user_id w (JObj kv)
    /\ Py.assoc "refinements" kv = Some (JArr old)
    /\ Text.nonempty insight = true
    /\ st_response st = {| rfr_sessionId := rf_sessionId payload;
                           rfr_subtopic := rf_subtopic payload;
                           rfr_insight := insight |}
    /\ SESSION_CACHE w1 !! rf_sessionId payload
       = Some {| ci_user_id := user_id; ci_created_at := stamp;
                 ci_data :=
                   JObj (Py.dict_set "refinements"
                           (JArr (old ++ [refinement_entry (rf_subtopic payload)
                                                           insight created]))
                           kv) |}
    /\ (forall c, SESSION_CACHE w !! rf_sessionId payload = Some c ->
                  ci_user_id c = user_id -> ci_created_at c <> "" ->
                  stamp = ci_created_at c).
Proof.
  unfold refine_stage. intros H.
  apply bind_ok_inv in H as (cached & w2 & Hc & H).
  apply bind_ok_inv in H as (record & w3 & Hf & H).
  apply bind_ok_inv in H as (data & w4 & Hd & H).
  destruct (session_resolution _ _ _ _ _ _ _ _ _ Hc Hf Hd) as (-> & -> & Hres & Hcached).
  apply bind_ok_inv in H as (outline & w5 & _ & H).
  apply bind_ok_inv in H as (insight & w6 & _ & H).
  destruct (Text.nonempty insight) eqn:Hins; simpl in H; [|discriminate].
  apply bind_ok_inv in H as (refinements & w7 & Hr & H).
  apply lift_ok_inv in Hr as [Hr ->].
  apply getitem_dict in Hr as (kv & -> & Hr).
  destruct refinements as [| | | |old|]; try discriminate.
  apply bind_ok_inv in H as (created & w8 & _ & H).
  apply bind_ok_inv in H as (refinements' & w9 & Ha & H).
  apply lift_ok_inv in Ha as [Ha ->]. simpl in Ha. injection Ha as <-.
  apply bind_ok_inv in H as (data' & w10 & Hs & H).
  apply lift_ok_inv in Hs as [Hs ->]. simpl in Hs. injection Hs as <-.
  apply bind_ok_inv in H as (u & w11 & Hp & H).
  injection H as <- <-.
  match type of Hp with
  | _cache_put _ ?sid ?uid ?d ?ca ?w0 = _ =>
      destruct (cache_put_spec sid uid d ca w0) as (w' & stamp & Hp' & Hst & Hcache)
  end.
  rewrite Hp' in Hp. assert (w' = w11) as -> by congruence.
  exists kv, old, insight, created, stamp. simpl.
  split; [exact Hres|]. split; [exact Hr|]. split; [exact Hins|].
  split; [reflexivity|]. split; [rewrite Hcache; apply lookup_insert_eq|].
  intros c Hl Hu Hne. apply (Hst (ci_created_at c)); [|exact Hne].
  now rewrite (Hcached c Hl Hu).
Qed.

Lemma refine_research_inv (request : Request) (payload : RefineRequest)
      (wi w : World X) (resp : RefineResponse) (w' : World X) :
  limiter_limit X "refine_research" request wi = (inr tt, w) ->
  refine_research X cfg request payload wi = (inr resp, w') ->
  exists user_id st w1,
    _resolve_user_id cfg request = inr user_id
    /\ refine_stage X cfg user_id payload w = (inr st, w1)
    /\ SESSION_CACHE w' = SESSION_CACHE w1
    /\ resp = st_response st.
Proof.
  unfold refine_research. intros Hl H. rewrite (bind_inr _ _ _ _ _ Hl) in H.
  apply bind_ok_inv in H as (u & w0 & Hg & H).
  apply require_genai_inv in Hg as [Hg ->].
  apply bind_ok_inv in H as (user_id & w1 & Hu & H).
  apply lift_ok_inv in Hu as [Hu ->].
  unfold try_except in H.
  destruct (refine_body X cfg user_id payload w) as [[e|resp'] w2] eqn:Hb.
  - destruct (on_workflow_error_raises X (A:=RefineResponse)
                "Failed to refine research: " e w2) as (c & d & w3 & Hr & _).
    rewrite Hr in H. discriminate.
  - injection H as -> ->. unfold refine_body in Hb.
    apply bind_ok_inv in Hb as (st & w3 & Hst & Hb).
    apply bind_ok_inv in Hb as ([] & w4 & Hw & Hb).
    injection Hb as <- <-.
    exists user_id, st, w3. split; [exact Hu|]. split; [exact Hst|].
    pose proof (write_back_cache X cfg (st_record st) (st_fields st) w3) as Hc.
    rewrite Hw in Hc. auto.
Qed.

(** What a completed finalize stage has done to the session. *)
Lemma finalize_stage_changes (user_id : string) (payload : FinalizeRequest)
      (w : World X) (st : staged (string * json)) (w1 : World X) :
  finalize_stage X cfg user_id payload w = (inr st, w1) ->
  exists kv summary unique stamp,
    resolves_to X cfg (fq_sessionId payload) user_id w (JObj kv)
    /\ st_response st = (summary, JArr unique)
    /\ Text.nonempty summary = true
    /\ SESSION_CACHE w1 !! fq_sessionId payload
       = Some {| ci_user_id := user_id; ci_created_at := stamp;
                 ci_data := JObj (Py.dict_set "tags" (JArr unique)
                                    (Py.dict_set "summary" (JStr summary) kv)) |}
    /\ (forall c, SESSION_CACHE w !! fq_sessionId payload = Some c ->
                  ci_user_id c = user_id -> ci_created_at c <> "" ->
                  stamp = ci_created_at c).
Proof.
  unfold finalize_stage. intros H.
  apply bind_ok_inv in H as (cached & w2 & Hc & H).
  apply bind_ok_inv in H as (record & w3 & Hf & H).
  apply bind_ok_inv in H as (data & w4 & Hd & H).
  destruct (session_resolution _ _ _ _ _ _ _ _ _ Hc Hf Hd) as (-> & -> & Hres & Hcached).
  apply bind_ok_inv in H as (outline & w5 & _ & H).
  apply bind_ok_inv in H as (refinements & w6 & _ & H).
  apply bind_ok_inv in H as (findings & w7 & _ & H).
  apply bind_ok_inv in H as ([summary tags] & w8 & _ & H).
  destruct (Text.nonempty summary) eqn:Hsum; simpl in H; [|discriminate].
  apply bind_ok_inv in H as (derived & w9 & _ & H).
  apply bind_ok_inv in H as (data1 & w10 & Hd1 & H).
  apply lift_ok_inv in Hd1 as [Hd1 ->].
  apply setitem_inv in Hd1 as (kv0 & -> & ->).
  apply bind_ok_inv in H as (? & w11 & _ & H).
  apply bind_ok_inv in H as (unique & w12 & Hu & H).
  apply lift_ok_inv in Hu as [Hu ->].
  apply bind_ok_inv in H as (data2 & w13 & Hd2 & H).
  apply lift_ok_inv in Hd2 as [Hd2 ->]. simpl in Hd2. injection Hd2 as <-.
  apply bind_ok_inv in H as (? & w14 & Hp & H).
  injection H as <- <-.
  match type of Hp with
  | _cache_put _ ?sid ?uid ?d ?ca ?w0 = _ =>
      destruct (cache_put_spec sid uid d ca w0) as (w' & stamp & Hp' & Hst & Hcache)
  end.
  rewrite Hp' in Hp. assert (w' = w14) as -> by congruence.
  exists kv0, summary, unique, stamp. simpl.
  split; [exact Hres|]. split; [reflexivity|]. split; [exact Hsum|].
  split; [rewrite Hcache; apply lookup_insert_eq|].
  intros c Hl Huc Hne. apply (Hst (ci_created_at c)); [|exact Hne].
  now rewrite (Hcached c Hl Huc).
Qed.

Lemma finalize_research_user (request : Request) (payload : FinalizeRequest)
      (wi w : World X) (resp : FinalizeResponse) (w' : World X) :
  limiter_limit X "finalize_research" request wi = (inr tt, w) ->
  finalize_research X cfg request payload wi = (inr resp, w') ->
  exists user_id st w1,
    _resolve_user_id cfg request = inr user_id
    /\ finalize_stage X cfg user_id payload w = (inr st, w1)
    /\ SESSION_CACHE w' = SESSION_CACHE w1
    /\ fr_sessionId resp = fq_sessionId payload
    /\ fr_summary resp = fst (st_response st).
Proof.
  unfold finalize_research. intros Hl H. rewrite (bind_inr _ _ _ _ _ Hl) in H.
  apply bind_ok_inv in H as (u & w0 & Hg & H).
  apply require_genai_inv in Hg as [Hg ->].
  apply bind_ok_inv in H as (user_id & w1 & Hu & H).
  apply lift_ok_inv in Hu as [Hu ->].
  unfold try_except in H.
  destruct (finalize_body X cfg user_id payload w) as [[e|resp'] w2] eqn:Hb.
  - destruct (on_workflow_error_raises X (A:=FinalizeResponse)
                "Failed to finalize research: " e w2) as (c & d & w3 & Hr & _).
    rewrite Hr in H. discriminate.
  - injection H as -> ->. unfold finalize_body in Hb.
    apply bind_ok_inv in Hb as (st & w3 & Hst & Hb).
    apply bind_ok_inv in Hb as ([] & w4 & Hw & Hb).
    apply bind_ok_inv in Hb as (ts & w5 & Hv & Hb).
    apply lift_ok_inv in Hv as [Hv ->]. injection Hb as <- <-.
    exists user_id, st, w3. split; [exact Hu|]. split; [exact Hst|].
    pose proof (write_back_cache X cfg (st_record st) (st_fields st) w3) as Hc.
    rewrite Hw in Hc. auto.
Qed.

End WorkflowChanges.

(** X20.  A refine request that succeeds has appended exactly one entry
    to the refinements of the session as it was resolved: the cache entry
    of the session then holds the old refinements followed by an entry with
    the subtopic asked for, the insight returned (which is not empty) and a
    creation time, and every other key of the session is as before.  The
    entry belongs to the caller and keeps the creation time of the one it
    replaces.  The session is resolved in the world [w] that the rate
    limiter leaves when it lets the request through. *)
Theorem refine_appends_one_refinement
        (X : Externals) (cfg : Config) (request : Request) (payload : RefineRequest)
        (wi w : World X) (resp : RefineResponse) (w' : World X) :
  limiter_limit X "refine_research" request wi = (inr tt, w) ->
  refine_research X cfg request payload wi = (inr resp, w') ->
  exists user_id kv old created item kv',
    _resolve_user_id cfg request = inr user_id
    /\ resolves_to X cfg (rf_sessionId payload) user_id w (JObj kv)
    /\ Py.assoc "refinements" kv = Some (JArr old)
    /\ rfr_sessionId resp = rf_sessionId payload
    /\ rfr_subtopic resp = rf_subtopic payload
    /\ rfr_insight resp <> ""
    /\ SESSION_CACHE w' !! rf_sessionId payload = Some item
    /\ ci_user_id item = user_id
    /\ (forall c, SESSION_CACHE w !! rf_sessionId payload = Some c ->
                  ci_user_id c = user_id -> ci_created_at c <> "" ->
                  ci_created_at item = ci_created_at c)
    /\ ci_data item = JObj kv'
    /\ Py.assoc "refinements" kv'
       = Some (JArr (old ++ [refinement_entry (rf_subtopic payload)
                                              (rfr_insight resp) created]))
    /\ (forall k, k <> "refinements" -> Py.assoc k kv' = Py.assoc k kv).
Proof.
  intros Hl H.
  apply (refine_research_inv X cfg request payload wi w _ _ Hl) in H
    as (user_id & st & w1 & Hu & Hst & Hc & ->).
  destruct (refine_stage_inv X cfg user_id payload w st w1 Hst)
    as (kv & old & insight & created & stamp & Hres & Hold & Hins & Hresp & Hcache & Hstamp).
  rewrite Hresp. simpl.
  eexists user_id, kv, old, created, _, _.
  split; [exact Hu|]. split; [exact Hres|]. split; [exact Hold|].
  split; [reflexivity|]. split; [reflexivity|].
  split; [now apply nonempty_true|].
  split; [rewrite Hc; exact Hcache|]. split; [reflexivity|].
  split; [exact Hstamp|]. split; [reflexivity|].
  split; [apply assoc_dict_set_eq|].
  intros k Hk. apply assoc_dict_set_ne. congruence.
Qed.

(** The theorem above on the demo service: the session is cached, the LLM
    answers, and the cache then holds the new refinement. *)
Lemma refine_appends_one_refinement_witness :
  exists resp w' item kv' old created,
    refine_research Demo.externals Demo.config Demo.anonymous Demo.refine_core
      (Demo.cached_world "SESS-0A1B2C3D" "local-dev"
         {| Demo.llm_replies := [inr (Some Demo.insight_reply)]; Demo.rows := [];
            Demo.write_failures := []; Demo.ticks := 0 |})
    = (inr resp, w')
    /\ SESSION_CACHE w' !! "SESS-0A1B2C3D" = Some item
    /\ ci_data item = JObj kv'
    /\ Py.assoc "refinements" kv'
       = Some (JArr (old ++ [refinement_entry "Core Concepts" Demo.insight_text
                                              created])).
Proof.
  set (w := Demo.cached_world "SESS-0A1B2C3D" "local-dev"
              {| Demo.llm_replies := [inr (Some Demo.insight_reply)]; Demo.rows := [];
                 Demo.write_failures := []; Demo.ticks := 0 |}).
  set (out := refine_research Demo.externals Demo.config Demo.anonymous
                              Demo.refine_core w).
  set (resp := {| rfr_sessionId := "SESS-0A1B2C3D"; rfr_subtopic := "Core Concepts";
                  rfr_insight := Demo.insight_text |}).
  assert (H : out = (inr resp, snd out))
    by (apply pair_from_fst; vm_compute; reflexivity).
  destruct (refine_appends_one_refinement
              Demo.externals Demo.config Demo.anonymous Demo.refine_core w w resp
              (snd out) eq_refl H)
    as (user_id & kv & old & created & item & kv' & _ & _ & _ & _ & _ & _
        & Hitem & _ & _ & Hdata & Hnew & _).
  exists resp, (snd out), item, kv', old, created. auto.
Defined.

(** X21.  A finalize request that succeeds changes nothing in the session
    but its summary and its tags: every other key of the cache entry, the
    outline and the refinements among them, is as the session was
    resolved; the entry belongs to the caller and keeps the creation time
    of the one it replaces; and the summary returned is not empty.  The
    session is resolved in the world [w] that the rate limiter leaves when
    it lets the request through. *)
Theorem finalize_changes_summary_and_tags_only
        (X : Externals) (cfg : Config) (request : Request) (payload : FinalizeRequest)
        (wi w : World X) (resp : FinalizeResponse) (w' : World X) :
  limiter_limit X "finalize_research" request wi = (inr tt, w) ->
  finalize_research X cfg request payload wi = (inr resp, w') ->
  exists user_id kv item kv',
    _resolve_user_id cfg request = inr user_id
    /\ resolves_to X cfg (fq_sessionId payload) user_id w (JObj kv)
    /\ fr_sessionId resp = fq_sessionId payload
    /\ fr_summary resp <> ""
    /\ SESSION_CACHE w' !! fq_sessionId payload = Some item
    /\ ci_user_id item = user_id
    /\ (forall c, SESSION_CACHE w !! fq_sessionId payload = Some c ->
                  ci_user_id c = user_id -> ci_created_at c <> "" ->
                  ci_created_at item = ci_created_at c)
    /\ ci_data item = JObj kv'
    /\ Py.assoc "summary" kv' = Some (JStr (fr_summary resp))
    /\ (forall k, k <> "summary" -> k <> "tags" -> Py.assoc k kv' = Py.assoc k kv).
Proof.
  intros Hl H.
  apply (finalize_research_user X cfg request payload wi w _ _ Hl) in H
    as (user_id & st & w1 & Hu & Hst & Hc & Hsid & Hsum).
  destruct (finalize_stage_changes X cfg user_id payload w st w1 Hst)
    as (kv & summary & unique & stamp & Hres & Hresp & Hne & Hcache & Hstamp).
  rewrite Hresp in Hsum. simpl in Hsum.
  eexists user_id, kv, _, _.
  split; [exact Hu|]. split; [exact Hres|]. split; [exact Hsid|].
  split; [rewrite Hsum; now apply nonempty_true|].
  split; [rewrite Hc; exact Hcache|]. split; [reflexivity|].
  split; [exact Hstamp|]. split; [reflexivity|].
  split.
  - rewrite Hsum. rewrite assoc_dict_set_ne by discriminate. apply assoc_dict_set_eq.
  - intros k Hk1 Hk2. rewrite !assoc_dict_set_ne by congruence. reflexivity.
Qed.

(** The theorem above on the demo service: the fallback outline of the
    cached session is still there after finalize. *)
Lemma finalize_changes_summary_and_tags_only_witness :
  exists resp w' item kv',
    finalize_research Demo.externals Demo.config Demo.anonymous Demo.finalize_tagged
      (Demo.cached_world "SESS-0A1B2C3D" "local-dev" Demo.summarising)
    = (inr resp, w')
    /\ SESSION_CACHE w' !! "SESS-0A1B2C3D" = Some item
    /\ ci_data item = JObj kv'
    /\ Py.assoc "summary" kv' = Some (JStr (fr_summary resp)).
Proof.
  set (w := Demo.cached_world "SESS-0A1B2C3D" "local-dev" Demo.summarising).
  set (out := finalize_research Demo.externals Demo.config Demo.anonymous
                                Demo.finalize_tagged w).
  set (resp := {| fr_sessionId := "SESS-0A1B2C3D"; fr_summary := Demo.summary_text;
                  fr_tags := ["b"; "a"] |}).
  assert (H : out = (inr resp, snd out))
    by (apply pair_from_fst; vm_compute; reflexivity).
  destruct (finalize_changes_summary_and_tags_only
              Demo.externals Demo.config Demo.anonymous Demo.finalize_tagged w w resp
              (snd out) eq_refl H)
    as (user_id & kv & item & kv' & _ & _ & _ & _ & Hitem & _ & _ & Hdata & Hs & _).
  exists resp, (snd out), item, kv'. auto.
Defined.

(** ** Resilient writes are bounded *)

Section ResilientBounds.

Variable X : Externals.
Variable cfg : Config.

Lemma size_delete_field (p : gmap string json) (field : string) :
  is_Some (p !! field) -> size p = S (size (delete field p)).
Proof.
  intros [v Hv]. rewrite <- (insert_delete_id p field v Hv) at 1.
  apply map_size_insert_None, lookup_delete_eq.
Qed.

Lemma table_create_logged (p : gmap string json) (w : World X) :
  table cfg = true ->
  exists s, snd (table_create X cfg p w) = logged w s [EvCreate p].
Proof.
  intros Ht. unfold table_create, _require_table. rewrite Ht.
  unfold bind at 1, ret. rewrite provider_run.
  destruct (x_create X p (ext w)) as [[t|r] s]; eauto.
Qed.

Lemma table_update_logged (record_id : string) (p : gmap string json) (w : World X) :
  table cfg = true ->
  exists s, snd (table_update X cfg record_id p w) = logged w s [EvUpdate record_id p].
Proof.
  intros Ht. unfold table_update, _require_table. rewrite Ht.
  unfold bind at 1, ret. rewrite provider_run.
  destruct (x_update X record_id p (ext w)) as [[t|r] s]; eauto.
Qed.

Lemma create_loop_no_table (n : nat) (p : gmap string json) (w : World X) :
  table cfg = false -> snd (create_loop X cfg n p w) = w.
Proof.
  intros Ht. revert p. induction n as [|n IH]; intros p; [reflexivity|].
  rewrite create_loop_step. unfold table_create, _require_table. rewrite Ht.
  unfold bind, raise.
  destruct (field_to_strip _ p); [apply IH|reflexivity].
Qed.

Lemma update_loop_no_table (n : nat) (record_id : string) (fields p : gmap string json)
      (w : World X) :
  table cfg = false -> snd (update_loop X cfg n record_id fields p w) = w.
Proof.
  intros Ht. revert p. induction n as [|n IH]; intros p.
  - simpl. unfold table_update, _require_table. now rewrite Ht.
  - rewrite update_loop_step. unfold table_update, _require_table. rewrite Ht.
    unfold bind, raise.
    destruct (field_to_strip _ p); [apply IH|reflexivity].
Qed.

Lemma create_loop_attempts (n : nat) (p : gmap string json) (w : World X) :
  table cfg = true ->
  exists s ps,
    snd (create_loop X cfg n p w) = logged w s (map EvCreate ps)
    /\ (length ps <= n)%nat
    /\ (n = 0%nat -> ps = [])
    /\ (n <> 0%nat -> exists r, ps = p :: r /\ shrinks_from p r).
Proof.
  intros Ht. revert p w. induction n as [|n IH]; intros p w.
  - exists (ext w), []. simpl. rewrite logged_nil. auto with lia.
  - rewrite create_loop_step.
    destruct (table_create_logged p w Ht) as [s Hs].
    destruct (table_create X cfg p w) as [[e|rec] w1]; simpl in Hs; subst w1.
    2: { exists s, [p]. simpl. split; [reflexivity|]. split; [lia|].
         split; [discriminate|]. intros _. exists []. split; [reflexivity|exact I]. }
    destruct (field_to_strip (exn_str e) p) as [field|] eqn:Hf.
    2: { exists s, [p]. simpl. split; [reflexivity|]. split; [lia|].
         split; [discriminate|]. intros _. exists []. split; [reflexivity|exact I]. }
    apply field_to_strip_sound in Hf as [Hin _].
    destruct (IH (delete field p) (logged w s [EvCreate p]))
      as (s' & ps & Hw & Hlen & Hz & Hnz).
    exists s', (p :: ps). rewrite Hw, logged_logged. simpl.
    split; [reflexivity|]. split; [lia|]. split; [discriminate|].
    intros _. exists ps. split; [reflexivity|].
    destruct n as [|n].
    + now rewrite Hz.
    + destruct Hnz as (r & -> & Hr); [discriminate|]. simpl. eauto.
Qed.

Lemma update_loop_attempts (n : nat) (record_id : string) (fields p : gmap string json)
      (w : World X) :
  table cfg = true ->
  exists s ps last,
    snd (update_loop X cfg n record_id fields p w)
    = logged w s (map (EvUpdate record_id) ps ++ last)
    /\ (length ps <= n)%nat
    /\ (n = 0%nat -> ps = [])
    /\ (n <> 0%nat -> exists r, ps = p :: r /\ shrinks_from p r)
    /\ (last = []
        \/ (last = [EvUpdate record_id (critical_fields fields)]
            /\ (n <= size p)%nat)).
Proof.
  intros Ht. revert p w. induction n as [|n IH]; intros p w.
  - destruct (table_update_logged record_id (critical_fields fields) w Ht) as [s Hs].
    exists s, [], [EvUpdate record_id (critical_fields fields)]. simpl.
    split; [exact Hs|]. split; [lia|]. split; [reflexivity|].
    split; [congruence|]. right. split; [reflexivity|lia].
  - rewrite update_loop_step.
    destruct (table_update_logged record_id p w Ht) as [s Hs].
    destruct (table_update X cfg record_id p w) as [[e|u] w1]; simpl in Hs; subst w1.
    2: { exists s, [p], []. simpl. split; [reflexivity|]. split; [lia|].
         split; [discriminate|]. split; [|now left]. intros _. exists []. split; [reflexivity|exact I]. }
    destruct (field_to_strip (exn_str e) p) as [field|] eqn:Hf.
    2: { exists s, [p], []. simpl. split; [reflexivity|]. split; [lia|].
         split; [discriminate|]. split; [|now left]. intros _. exists []. split; [reflexivity|exact I]. }
    apply field_to_strip_sound in Hf as [Hin _].
    destruct (IH (delete field p) (logged w s [EvUpdate record_id p]))
      as (s' & ps & last & Hw & Hlen & Hz & Hnz & Hlast).
    exists s', (p :: ps), last. rewrite Hw, logged_logged. simpl.
    split; [reflexivity|]. split; [lia|]. split; [discriminate|]. split.
    + intros _. exists ps. split; [reflexivity|].
      destruct n as [|n].
      * now rewrite Hz.
      * destruct Hnz as (r & -> & Hr); [discriminate|]. simpl. eauto.
    + destruct Hlast as [->|[-> Hsize]]; [now left|]. right.
      split; [reflexivity|]. rewrite (size_delete_field p field Hin). lia.
Qed.

End ResilientBounds.

(** X22.  Whatever the store answers, a resilient create calls it at most
    eight times and a resilient update at most nine times, and neither does
    anything else: the cache and the provider issues are untouched.  The
    first attempt sends the fields as given and each later one the payload
    before it without one of its fields; only the ninth call of an update
    sends something else, [Data] and [Status] alone, and it is never
    reached when fewer than eight fields were given.  Without a table no
    call is made at all. *)
Theorem resilient_writes_are_bounded
        (X : Externals) (cfg : Config) (record_id : string)
        (fields : gmap string json) (w : World X) :
  let c := _create_record_resilient X cfg fields w in
  let u := _update_record_resilient X cfg record_id fields w in
  (SESSION_CACHE (snd c) = SESSION_CACHE w
   /\ PROVIDER_ISSUES (snd c) = PROVIDER_ISSUES w
   /\ exists ps,
       trace (snd c) = (trace w ++ map EvCreate ps)%list
       /\ (length ps <= 8)%nat
       /\ attempts fields ps
       /\ (ps = [] <-> table cfg = false))
  /\ (SESSION_CACHE (snd u) = SESSION_CACHE w
      /\ PROVIDER_ISSUES (snd u) = PROVIDER_ISSUES w
      /\ exists ps last,
          trace (snd u) = (trace w ++ map (EvUpdate record_id) ps ++ last)%list
          /\ (length ps <= 8)%nat
          /\ attempts fields ps
          /\ (ps = [] <-> table cfg = false)
          /\ (last = []
              \/ (last = [EvUpdate record_id (critical_fields fields)]
                  /\ (8 <= size fields)%nat))).
Proof.
  cbv zeta. unfold _create_record_resilient, _update_record_resilient.
  destruct (table cfg) eqn:Ht.
  - split.
    + destruct (create_loop_attempts X cfg 8 fields w Ht)
        as (s & ps & -> & Hlen & _ & Hnz).
      destruct Hnz as (r & -> & Hr); [discriminate|].
      simpl. split; [reflexivity|]. split; [reflexivity|].
      exists (fields :: r). simpl. split; [reflexivity|]. split; [exact Hlen|].
      split; [auto|]. split; discriminate.
    + destruct (update_loop_attempts X cfg 8 record_id fields fields w Ht)
        as (s & ps & last & -> & Hlen & _ & Hnz & Hlast).
      destruct Hnz as (r & -> & Hr); [discriminate|].
      simpl. split; [reflexivity|]. split; [reflexivity|].
      exists (fields :: r), last. simpl. split; [reflexivity|]. split; [exact Hlen|].
      split; [auto|]. split; [split; discriminate|exact Hlast].
  - rewrite (create_loop_no_table X cfg 8 fields w Ht),
            (update_loop_no_table X cfg 8 record_id fields fields w Ht).
    split.
    + split; [reflexivity|]. split; [reflexivity|]. exists [].
      simpl. rewrite app_nil_r. split; [reflexivity|]. split; [lia|].
      split; [exact I|]. split; reflexivity.
    + split; [reflexivity|]. split; [reflexivity|]. exists [], [].
      simpl. rewrite app_nil_r. split; [reflexivity|]. split; [lia|].
      split; [exact I|]. split; [split; reflexivity|]. now left.
Qed.

(** ** Finalize: the tags it settles on and what it stores *)

Section FinalizeStore.

Variable X : Externals.
Variable cfg : Config.

Lemma selected_tags_supplied (payload : FinalizeRequest) :
  selected_tags X payload
  = filter (fun t => Text.nonempty t = true)
           (map Text.strip (default [] (fq_tags payload))).
Proof. unfold selected_tags, stripped_nonblank. now rewrite map_map. Qed.

Lemma shrinks_from_subseteq (p : gmap string json) (ps : list (gmap string json)) :
  shrinks_from p ps -> Forall (fun q => q ⊆ p) ps.
Proof.
  revert p. induction ps as [|q r IH]; intros p H; [constructor|].
  destruct H as [(field & _ & ->) Hr]. constructor; [apply delete_subseteq|].
  eapply Forall_impl; [apply IH, Hr|]. intros q' Hq'. simpl in Hq'.
  etrans; [exact Hq'|apply delete_subseteq].
Qed.

Lemma critical_fields_subseteq (fs : gmap string json) (d s : json) :
  fs !! "Data" = Some d -> fs !! "Status" = Some s -> critical_fields fs ⊆ fs.
Proof.
  intros Hd Hs. unfold critical_fields. rewrite Hd, Hs. simpl.
  apply insert_subseteq_l; [exact Hd|].
  apply insert_subseteq_l; [exact Hs|]. apply map_empty_subseteq.
Qed.

(** The store-write step for a row that was found: the first write sends
    the fields as given, the later ones send some of them. *)
Lemma write_back_updates (rec : record) (fs : gmap string json) (w : World X)
      (d s : json) :
  table cfg = true ->
  fs !! "Data" = Some d -> fs !! "Status" = Some s ->
  exists more,
    trace (snd (write_back X cfg (Some rec) (inr fs) w))
    = (trace w ++ EvUpdate (rec_id rec) fs :: more)%list
    /\ Forall (updates_within (rec_id rec) fs) more.
Proof.
  intros Ht Hd Hs. unfold write_back, _update_record_resilient.
  unfold bind at 1, lift.
  destruct (update_loop_attempts X cfg 8 (rec_id rec) fs fs w Ht)
    as (s0 & ps & last & Hw & _ & _ & Hnz & Hlast).
  destruct Hnz as (r & -> & Hr); [discriminate|].
  exists (map (EvUpdate (rec_id rec)) r ++ last)%list. split.
  - unfold bind.
    destruct (update_loop X cfg 8 (rec_id rec) fs fs w) as [[e|u] w1];
      simpl in Hw; subst w1; reflexivity.
  - apply Forall_app. split.
    + apply Forall_fmap. eapply Forall_impl; [apply shrinks_from_subseteq, Hr|].
      intros q Hq. exists q. auto.
    + destruct Hlast as [->|[-> _]]; [constructor|].
      constructor; [|constructor]. eexists. split; [reflexivity|].
      now apply (critical_fields_subseteq fs d s).
Qed.

Lemma write_back_nothing (fields : R (gmap string json)) (w : World X) :
  write_back X cfg None fields w = (inr tt, w).
Proof. reflexivity. Qed.

(** A completed finalize stage, step by step. *)
Lemma finalize_stage_steps (user_id : string) (payload : FinalizeRequest)
      (w : World X) (st : staged (string * json)) (w1 : World X) :
  finalize_stage X cfg user_id payload w = (inr st, w1) ->
  exists kv outline refinements findings w_found summary tags w_llm derived unique stamp,
    resolves_to X cfg (fq_sessionId payload) user_id w (JObj kv)
    /\ Py.assoc "outline" kv = Some outline
    /\ Py.assoc "refinements" kv = Some refinements
    /\ findings_text X outline refinements = inr findings
    /\ _find_session_record X cfg (fq_sessionId payload) user_id w
       = (inr (st_record st), w_found)
    /\ finalize_llm X cfg outline findings w_found = (inr (summary, tags), w_llm)
    /\ Text.nonempty summary = true
    /\ derived_tags X outline tags = inr derived
    /\ fromkeys [] (chosen_tags X payload derived) = inr unique
    /\ st_response st = (summary, JArr unique)
    /\ st_fields st
       = finalize_update_fields X
           (JObj (Py.dict_set "tags" (JArr unique)
                    (Py.dict_set "summary" (JStr summary) kv)))
           outline summary (JArr unique)
    /\ SESSION_CACHE w1 !! fq_sessionId payload
       = Some {| ci_user_id := user_id; ci_created_at := stamp;
                 ci_data := JObj (Py.dict_set "tags" (JArr unique)
                                    (Py.dict_set "summary" (JStr summary) kv)) |}.
Proof.
  unfold finalize_stage. intros H.
  apply bind_ok_inv in H as (cached & w2 & Hc & H).
  apply bind_ok_inv in H as (record & w3 & Hf & H).
  apply bind_ok_inv in H as (data & w4 & Hd & H).
  destruct (session_resolution X cfg _ _ _ _ _ _ _ _ _ Hc Hf Hd)
    as (-> & -> & Hres & _).
  apply bind_ok_inv in H as (outline & w5 & Ho & H).
  apply lift_ok_inv in Ho as [Ho ->].
  apply bind_ok_inv in H as (refinements & w6 & Hr & H).
  apply lift_ok_inv in Hr as [Hr ->].
  apply bind_ok_inv in H as (findings & w7 & Hfi & H).
  apply lift_ok_inv in Hfi as [Hfi ->].
  apply bind_ok_inv in H as ([summary tags] & w8 & Hllm & H).
  destruct (Text.nonempty summary) eqn:Hsum; simpl in H; [|discriminate].
  apply bind_ok_inv in H as (derived & w9 & Hder & H).
  assert (Hder' : derived_tags X outline tags = inr derived).
  { destruct tags as [|t tags]; simpl.
    - now apply lift_ok_inv in Hder as [Hder _].
    - now injection Hder as <- _. }
  apply bind_ok_inv in H as (data1 & w10 & Hd1 & H).
  apply lift_ok_inv in Hd1 as [Hd1 ->].
  apply setitem_inv in Hd1 as (kv0 & -> & ->).
  apply getitem_dict in Ho as (kv1 & [= <-] & Ho).
  apply getitem_dict in Hr as (kv2 & [= <-] & Hr).
  apply bind_ok_inv in H as (? & w11 & _ & H).
  apply bind_ok_inv in H as (unique & w12 & Hu & H).
  apply lift_ok_inv in Hu as [Hu ->].
  apply bind_ok_inv in H as (data2 & w13 & Hd2 & H).
  apply lift_ok_inv in Hd2 as [Hd2 ->]. simpl in Hd2. injection Hd2 as <-.
  apply bind_ok_inv in H as (? & w14 & Hp & H).
  injection H as <- <-.
  match type of Hp with
  | _cache_put _ ?sid ?uid ?d ?ca ?w0 = _ =>
      destruct (cache_put_spec X sid uid d ca w0) as (w' & stamp & Hp' & _ & Hcache)
  end.
  rewrite Hp' in Hp. assert (w' = w14) as -> by congruence.
  exists kv0, outline, refinements, findings, w3, summary, tags, w8, derived, unique, stamp.
  simpl. split; [exact Hres|]. split; [exact Ho|]. split; [exact Hr|].
  split; [exact Hfi|]. split; [exact Hf|]. split; [exact Hllm|].
  split; [exact Hsum|]. split; [exact Hder'|]. split; [exact Hu|].
  split; [reflexivity|]. split; [reflexivity|].
  rewrite Hcache. apply lookup_insert_eq.
Qed.

(** A finalize request that succeeds went through the stage, the
    store-write step and the validation of the tags. *)
Lemma finalize_research_steps (request : Request) (payload : FinalizeRequest)
      (wi w : World X) (resp : FinalizeResponse) (w' : World X) :
  limiter_limit X "finalize_research" request wi = (inr tt, w) ->
  finalize_research X cfg request payload wi = (inr resp, w') ->
  exists user_id st w1 ts,
    _resolve_user_id cfg request = inr user_id
    /\ finalize_stage X cfg user_id payload w = (inr st, w1)
    /\ write_back X cfg (st_record st) (st_fields st) w1 = (inr tt, w')
    /\ validate_str_list X (snd (st_response st)) = inr ts
    /\ resp = {| fr_sessionId := fq_sessionId payload;
                 fr_summary := fst (st_response st); fr_tags := ts |}.
Proof.
  unfold finalize_research. intros Hl H. rewrite (bind_inr _ _ _ _ _ Hl) in H.
  apply bind_ok_inv in H as (u & w0 & Hg & H).
  apply require_genai_inv in Hg as [Hg ->].
  apply bind_ok_inv in H as (user_id & w1 & Hu & H).
  apply lift_ok_inv in Hu as [Hu ->].
  unfold try_except in H.
  destruct (finalize_body X cfg user_id payload w) as [[e|resp'] w2] eqn:Hb.
  - destruct (on_workflow_error_raises X (A:=FinalizeResponse)
                "Failed to finalize research: " e w2) as (c & d & w3 & Hr & _).
    rewrite Hr in H. discriminate.
  - injection H as -> ->. unfold finalize_body in Hb.
    apply bind_ok_inv in Hb as (st & w3 & Hst & Hb).
    apply bind_ok_inv in Hb as ([] & w4 & Hw & Hb).
    apply bind_ok_inv in Hb as (ts & w5 & Hv & Hb).
    apply lift_ok_inv in Hv as [Hv ->]. injection Hb as <- <-.
    exists user_id, st, w3, ts. auto.
Qed.

End FinalizeStore.

(** Claim C7, as the code has it.  After a successful finalize the tag
    list returned, cached and sent to the store has no repetition and keeps
    each tag where it first occurred in the list finalize settled on.  That
    list is the supplied one, each tag trimmed and the blank ones dropped,
    when at least one supplied tag is not blank; otherwise it is the list
    derived in this call: the tags of the answer of the LLM step on the
    outline and the refinements of the session as it was resolved (or the
    subtopic titles when the answer has none).  The cache entry of the
    session then holds the session with exactly the new summary and the new
    tags, whatever it held before.  When the session has a row in the
    store, the first store write of the call updates that row with the new
    summary, the new tags joined by commas and the serialised cache entry,
    and any further write of the call sends some of the same fields; when
    it has no row, no store write is made. *)
Theorem finalize_stores_tags_once_in_order
        (X : Externals) (cfg : Config) (request : Request) (payload : FinalizeRequest)
        (wi w : World X) (resp : FinalizeResponse) (w' : World X) :
  limiter_limit X "finalize_research" request wi = (inr tt, w) ->
  finalize_research X cfg request payload wi = (inr resp, w') ->
  let sid := fq_sessionId payload in
  exists user_id kv outline refinements findings w_found tags w_llm derived st w1,
    _resolve_user_id cfg request = inr user_id
    /\ resolves_to X cfg sid user_id w (JObj kv)
    /\ Py.assoc "outline" kv = Some outline
    /\ Py.assoc "refinements" kv = Some refinements
    /\ findings_text X outline refinements = inr findings
    /\ _find_session_record X cfg sid user_id w = (inr (st_record st), w_found)
    /\ finalize_llm X cfg outline findings w_found
       = (inr (fr_summary resp, tags), w_llm)
    /\ derived_tags X outline tags = inr derived
    /\ NoDup (fr_tags resp)
    /\ selected_tags X payload
       = filter (fun t => Text.nonempty t = true)
                (map Text.strip (default [] (fq_tags payload)))
    /\ (selected_tags X payload <> [] ->
        fr_tags resp = first_occurrences (selected_tags X payload))
    /\ (selected_tags X payload = [] ->
        exists ds, derived = map JStr ds /\ fr_tags resp = first_occurrences ds)
    /\ (exists item,
           SESSION_CACHE w' !! sid = Some item
           /\ ci_data item = JObj (finalized (fr_summary resp) (fr_tags resp) kv)
           /\ Py.assoc "summary" (finalized (fr_summary resp) (fr_tags resp) kv)
              = Some (JStr (fr_summary resp))
           /\ Py.assoc "tags" (finalized (fr_summary resp) (fr_tags resp) kv)
              = Some (JArr (map JStr (fr_tags resp))))
    /\ finalize_stage X cfg user_id payload w = (inr st, w1)
    /\ (st_record st = None -> trace w' = trace w1)
    /\ (forall rec, st_record st = Some rec ->
          exists fs more,
            trace w' = (trace w1 ++ EvUpdate (rec_id rec) fs :: more)%list
            /\ fs !! "Summary" = Some (JStr (fr_summary resp))
            /\ fs !! "Tags" = Some (JStr (Text.join ", " (fr_tags resp)))
            /\ fs !! "Data"
               = Some (JStr (x_dumps X
                               (JObj (finalized (fr_summary resp) (fr_tags resp) kv))))
            /\ Forall (updates_within (rec_id rec) fs) more).
Proof.
  intros Hl H sid. subst sid.
  destruct (finalize_research_steps X cfg request payload wi w resp w' Hl H)
    as (user_id & st & w1 & ts & Huser & Hst & Hw & Hv & ->).
  destruct (finalize_stage_steps X cfg user_id payload w st w1 Hst)
    as (kv & outline & refinements & findings & w_found & summary & tags & w_llm
        & derived & unique & stamp
        & Hres & Ho & Hr & Hfi & Hfind & Hllm & Hsum & Hder & Hu & Hresp & Hf & Hcache).
  rewrite Hresp in Hv. simpl snd in Hv. rewrite Hresp. simpl fst.
  cbn [fr_tags fr_summary].
  apply validate_str_list_inv in Hv as ->.
  destruct (fromkeys_all_strings _ _ _ Hu ltac:(constructor)) as [chosen Hch].
  assert (Hts : ts = first_occurrences chosen).
  { rewrite Hch, fromkeys_first_occurrences in Hu. injection Hu as Hu.
    symmetry. now apply map_JStr_inj. }
  pose proof (write_back_cache X cfg (st_record st) (st_fields st) w1) as Hcw.
  rewrite Hw in Hcw. simpl in Hcw.
  exists user_id, kv, outline, refinements, findings, w_found, tags, w_llm, derived, st, w1.
  split; [exact Huser|]. split; [exact Hres|]. split; [exact Ho|]. split; [exact Hr|].
  split; [exact Hfi|]. split; [exact Hfind|]. split; [exact Hllm|].
  split; [exact Hder|].
  split; [rewrite Hts; apply first_occurrences_NoDup|].
  split; [apply selected_tags_supplied|].
  split.
  { intros Hsel. rewrite Hts. f_equal. apply map_JStr_inj. rewrite <- Hch.
    unfold chosen_tags. destruct (selected_tags X payload); [contradiction|reflexivity]. }
  split.
  { intros Hsel. exists chosen. split; [|exact Hts].
    rewrite <- Hch. unfold chosen_tags. now rewrite Hsel. }
  split.
  { eexists. rewrite Hcw, Hcache. split; [reflexivity|]. split; [reflexivity|].
    unfold finalized. split; [|apply assoc_dict_set_eq].
    rewrite assoc_dict_set_ne by discriminate. apply assoc_dict_set_eq. }
  split; [exact Hst|].
  split.
  { intros Hrec. rewrite Hrec, write_back_nothing in Hw. now injection Hw as <-. }
  intros rec Hrec.
  assert (Ht : table cfg = true).
  { destruct (table cfg) eqn:Ht; [reflexivity|].
    rewrite (find_session_record_no_table X cfg _ _ _ Ht) in Hfind.
    rewrite Hrec in Hfind. discriminate. }
  rewrite Hrec, Hf in Hw. unfold finalized.
  unfold finalize_update_fields in Hw. rewrite !join_strings in Hw.
  destruct (Py.get outline "title" (JStr "")) as [e|title];
    [unfold write_back, bind, lift in Hw; simpl in Hw; discriminate|].
  destruct (Py.get outline "description" (JStr "")) as [e|description];
    [unfold write_back, bind, lift in Hw; simpl in Hw; discriminate|].
  cbn [rbind] in Hw.
  match type of Hw with
  | write_back _ _ _ (inr ?fs) _ = _ =>
      destruct (write_back_updates X cfg rec fs w1
                  (JStr (x_dumps X (JObj (Py.dict_set "tags" (JArr (map JStr ts))
                                            (Py.dict_set "summary" (JStr summary) kv)))))
                  (JStr "Finalized") Ht)
        as (more & Htr & Hmore);
      [reflexivity|reflexivity|];
      exists fs, more
  end.
  rewrite Hw in Htr. simpl in Htr.
  split; [exact Htr|]. split; [reflexivity|]. split; [reflexivity|].
  split; [reflexivity|exact Hmore].
Qed.

(** The theorem of claim C7 on the demo service: the LLM derives the tags
    Graphs, Databases, Graphs, Storage, the caller supplies [" b "], ["a"],
    ["b"] and a blank one; what is returned is b, a, and the row of the
    session is updated with the tags [b, a]. *)
Lemma finalize_stores_tags_once_in_order_witness :
  let w := Demo.cached_world "SESS-0A1B2C3D" "local-dev" Demo.summarising in
  let out := finalize_research Demo.externals Demo.config Demo.anonymous
                               Demo.finalize_tagged w in
  let resp := {| fr_sessionId := "SESS-0A1B2C3D";
                 fr_summary := Demo.summary_text;
                 fr_tags := ["b"; "a"] |} in
  fst out = inr resp
  /\ NoDup (fr_tags resp)
  /\ fr_tags resp = first_occurrences (selected_tags Demo.externals Demo.finalize_tagged)
  /\ exists before fs more,
      trace (snd out) = (before ++ EvUpdate "rec1" fs :: more)%list
      /\ fs !! "Tags" = Some (JStr "b, a").
Proof.
  cbv zeta.
  set (w := Demo.cached_world "SESS-0A1B2C3D" "local-dev" Demo.summarising).
  set (resp := {| fr_sessionId := "SESS-0A1B2C3D"; fr_summary := Demo.summary_text;
                  fr_tags := ["b"; "a"] |}).
  set (out := finalize_research Demo.externals Demo.config Demo.anonymous
                                Demo.finalize_tagged w).
  assert (H : out = (inr resp, snd out))
    by (apply pair_from_fst; vm_compute; reflexivity).
  destruct (finalize_stores_tags_once_in_order
              Demo.externals Demo.config Demo.anonymous Demo.finalize_tagged
              w w resp (snd out) eq_refl H)
    as (user_id & kv & outline & refinements & findings & w_found & tags & w_llm
        & derived & st & w1 & Hu & _ & _ & _ & _ & Hfind & _ & _ & Hnd & _ & Hsel & _
        & _ & _ & _ & Hrow).
  split; [now rewrite H|]. split; [exact Hnd|].
  split; [apply Hsel; vm_compute; discriminate|].
  assert (user_id = "local-dev") as -> by (vm_compute in Hu; congruence).
  assert (Hrec : fst (_find_session_record Demo.externals Demo.config
                        (fq_sessionId Demo.finalize_tagged) "local-dev" w)
                 = inr (Some Demo.session_row)) by (vm_compute; reflexivity).
  rewrite Hfind in Hrec. simpl in Hrec. injection Hrec as Hrec.
  destruct (Hrow _ Hrec) as (fs & more & Htr & _ & Htags & _).
  exists (trace w1), fs, more. split; [exact Htr|exact Htags].
Defined.

(** Claim C7 fails as stated: a tags override that is not empty does not
    always take precedence.  The caller supplies one tag, a blank one; the
    tags returned are the ones the LLM derived. *)
Lemma blank_tags_override_is_ignored :
  let payload := {| fq_sessionId := "SESS-0A1B2C3D"; fq_tags := Some ["  "] |} in
  let out := finalize_research Demo.externals Demo.config Demo.anonymous payload
               (Demo.cached_world "SESS-0A1B2C3D" "local-dev" Demo.summarising) in
  fq_tags payload <> None /\ fq_tags payload <> Some []
  /\ exists resp,
      fst out = inr resp
      /\ fr_tags resp = ["Graphs"; "Databases"; "Storage"]
      /\ fr_tags resp <> default [] (fq_tags payload).
Proof.
  cbv zeta. split; [discriminate|]. split; [discriminate|].
  eexists. split; [vm_compute; reflexivity|]. split; [reflexivity|discriminate].
Qed.

(** ** What goes to the store is the session *)

Section StoredSession.

Variable X : Externals.
Variable cfg : Config.

Lemma refine_update_fields_status (data outline : json) (subtopic insight : string)
      (fs : gmap string json) :
  refine_update_fields X data outline subtopic insight = inr fs ->
  fs !! "Status" = Some (JStr "Refined").
Proof.
  unfold refine_update_fields. intros H. rinv H. rinv H. rinv H. rinv H. rinv H.
  injection H as <-. simpl. rewrite !lookup_insert_ne by discriminate.
  apply lookup_insert_eq.
Qed.

Lemma finalize_update_fields_status (data outline : json) (summary : string)
      (tags : json) (fs : gmap string json) :
  finalize_update_fields X data outline summary tags = inr fs ->
  fs !! "Status" = Some (JStr "Finalized").
Proof.
  unfold finalize_update_fields. intros H. rinv H. rinv H. rinv H. rinv H.
  injection H as <-. simpl. rewrite !lookup_insert_ne by discriminate.
  apply lookup_insert_eq.
Qed.

(** What a completed refine stage hands to the store-write step. *)
Lemma refine_stage_sent (user_id : string) (payload : RefineRequest)
      (w : World X) (st : staged RefineResponse) (w1 : World X) :
  refine_stage X cfg user_id payload w = (inr st, w1) ->
  exists item outline,
    fst (_find_session_record X cfg (rf_sessionId payload) user_id w)
    = inr (st_record st)
    /\ SESSION_CACHE w1 !! rf_sessionId payload = Some item
    /\ st_fields st
       = refine_update_fields X (ci_data item) outline (rf_subtopic payload)
                              (rfr_insight (st_response st)).
Proof.
  unfold refine_stage. intros H.
  apply bind_ok_inv in H as (cached & w2 & Hc & H).
  rewrite cache_get_run in Hc. injection Hc as _ <-.
  apply bind_ok_inv in H as (record & w3 & Hf & H).
  apply bind_ok_inv in H as (data & w4 & _ & H).
  apply bind_ok_inv in H as (outline & w5 & _ & H).
  apply bind_ok_inv in H as (insight & w6 & _ & H).
  destruct (Text.nonempty insight) eqn:Hins; simpl in H; [|discriminate].
  apply bind_ok_inv in H as (refinements & w7 & _ & H).
  destruct refinements as [| | | |old|]; try discriminate.
  apply bind_ok_inv in H as (created & w8 & _ & H).
  apply bind_ok_inv in H as (refinements' & w9 & _ & H).
  apply bind_ok_inv in H as (data' & w10 & _ & H).
  apply bind_ok_inv in H as (u & w11 & Hp & H).
  injection H as <- <-.
  match type of Hp with
  | _cache_put _ ?sid ?uid ?d ?ca ?w0 = _ =>
      destruct (cache_put_spec X sid uid d ca w0) as (w' & stamp & Hp' & _ & Hcache)
  end.
  rewrite Hp' in Hp. assert (w' = w11) as -> by congruence.
  eexists _, outline. simpl. split; [now rewrite Hf|].
  split; [rewrite Hcache; apply lookup_insert_eq|reflexivity].
Qed.

(** The store-write step after a stage whose fields carry the session of
    the cache. *)
Lemma stage_writes_session_back {A} (session_id user_id : string) (st : staged A)
      (w w1 : World X) (item : cache_item) :
  fst (_find_session_record X cfg session_id user_id w) = inr (st_record st) ->
  SESSION_CACHE w1 !! session_id = Some item ->
  (forall fs, st_fields st = inr fs ->
              fs !! "Data" = Some (JStr (x_dumps X (ci_data item)))
              /\ is_Some (fs !! "Status")) ->
  writes_session_back cfg session_id st w1.
Proof.
  intros Hfind Hcache Hfs rec fs Hrec Hf.
  destruct (Hfs fs Hf) as [Hd [s Hs]].
  assert (Ht : table cfg = true).
  { destruct (table cfg) eqn:Ht; [reflexivity|].
    rewrite (find_session_record_no_table X cfg _ _ _ Ht), Hrec in Hfind.
    discriminate. }
  rewrite Hrec, Hf.
  destruct (write_back_updates X cfg rec fs w1 _ s Ht Hd Hs) as (more & Htr & Hmore).
  exists item, more. auto.
Qed.

End StoredSession.

(** X15.  What refine and finalize send to the store is the session.  When
    the session has a row in the store, the first store write after the
    stage updates that row with all the fields of the stage, and its [Data]
    is the serialised form of the session exactly as the cache holds it
    after the stage; any further write of the step sends some of the same
    fields.  A row that holds the serialised form of a session of the four
    keys in its [Data] column is read back as that very session, whenever
    the decoder undoes the serialiser on it. *)
Theorem stored_session_reads_back (X : Externals) (cfg : Config) (user_id : string) :
  (forall payload (w : World X) st w1,
      refine_stage X cfg user_id payload w = (inr st, w1) ->
      writes_session_back cfg (rf_sessionId payload) st w1)
  /\ (forall payload (w : World X) st w1,
         finalize_stage X cfg user_id payload w = (inr st, w1) ->
         writes_session_back cfg (fq_sessionId payload) st w1)
  /\ (forall row outline refinements summary tags,
         let data := session_dict outline refinements summary tags in
         Py.assoc "Data" row = Some (JStr (x_dumps X data)) ->
         x_loads X (x_dumps X data) = inr data ->
         _parse_data_blob X row = inr data).
Proof.
  split; [|split].
  - intros payload w st w1 Hst.
    destruct (refine_stage_sent X cfg user_id payload w st w1 Hst)
      as (item & outline & Hfind & Hcache & Hf).
    apply (stage_writes_session_back X cfg _ user_id st w w1 item Hfind Hcache).
    intros fs Hfs. rewrite Hf in Hfs. split.
    + exact (refine_update_fields_data X _ _ _ _ _ Hfs).
    + rewrite (refine_update_fields_status X _ _ _ _ _ Hfs). eauto.
  - intros payload w st w1 Hst.
    destruct (finalize_stage_steps X cfg user_id payload w st w1 Hst)
      as (kv & outline & refinements & findings & w_found & summary & tags & w_llm
          & derived & unique & stamp
          & _ & _ & _ & _ & Hfind & _ & _ & _ & _ & _ & Hf & Hcache).
    apply (stage_writes_session_back X cfg _ user_id st w w1 _ (f_equal fst Hfind) Hcache).
    intros fs Hfs. rewrite Hf in Hfs. simpl ci_data. split.
    + exact (finalize_update_fields_data X _ _ _ _ _ Hfs).
    + rewrite (finalize_update_fields_status X _ _ _ _ _ Hfs). eauto.
  - intros row outline refinements summary tags data Hd Hl.
    unfold _parse_data_blob. rewrite Hd. unfold json_loads. rewrite Hl. reflexivity.
Qed.

(** The theorem above on the demo service: refine updates the row of the
    cached session with the session the cache then holds; and the
    finalized session of the demo table is read back from its row. *)
Lemma stored_session_reads_back_witness :
  (exists st w1 item fs more,
      refine_stage Demo.externals Demo.config "local-dev" Demo.refine_core
        (Demo.cached_world "SESS-0A1B2C3D" "local-dev" Demo.refining)
      = (inr st, w1)
      /\ SESSION_CACHE w1 !! "SESS-0A1B2C3D" = Some item
      /\ fs !! "Data" = Some (JStr (Demo.dumps (ci_data item)))
      /\ trace (snd (write_back Demo.externals Demo.config (st_record st)
                                (st_fields st) w1))
         = (trace w1 ++ EvUpdate "rec1" fs :: more)%list)
  /\ _parse_data_blob Demo.recalling (rec_fields (Demo.data_row 2 Demo.tagged_session))
     = inr Demo.tagged_session.
Proof.
  pose proof (stored_session_reads_back Demo.externals Demo.config "local-dev")
    as (Hrefine & _ & _).
  split.
  - set (w := Demo.cached_world "SESS-0A1B2C3D" "local-dev" Demo.refining).
    set (run := refine_stage Demo.externals Demo.config "local-dev" Demo.refine_core w).
    set (st := match fst run with
               | inr st => st
               | inl _ => {| st_record := None; st_fields := inr ∅;
                             st_response := {| rfr_sessionId := ""; rfr_subtopic := "";
                                               rfr_insight := "" |} |}
               end).
    set (fs := match st_fields st with inr fs => fs | inl _ => ∅ end).
    assert (Hst : run = (inr st, snd run))
      by (apply pair_from_fst; vm_compute; reflexivity).
    assert (Hrec : st_record st = Some Demo.session_row) by (vm_compute; reflexivity).
    assert (Hfs : st_fields st = inr fs).
    { unfold fs. destruct (st_fields st) as [e|fs0] eqn:E; [|reflexivity].
      exfalso. assert (Hok : match st_fields st with inr _ => True | inl _ => False end)
        by (vm_compute; exact Logic.I).
      now rewrite E in Hok. }
    destruct (Hrefine Demo.refine_core w st (snd run) Hst _ fs Hrec Hfs)
      as (item & more & Hcache & Hdata & Htr & _).
    exists st, (snd run), item, fs, more. auto.
  - exact (proj2 (proj2 (stored_session_reads_back Demo.recalling Demo.config "local-dev"))
                 (rec_fields (Demo.data_row 2 Demo.tagged_session)) _ _ _ _
                 eq_refl ltac:(vm_compute; reflexivity)).
Defined.

(** ** What the handlers raise, and what they leave alone *)

Section PlainCode.

Variable X : Externals.

Lemma plain_rbind {A B} (r : R A) (k : A -> R B) :
  plain r -> (forall a, plain (k a)) -> plain (rbind r k).
Proof. destruct r as [e|a]; simpl; auto. Qed.

Lemma plain_rmap {A B} (f : A -> R B) (l : list A) :
  (forall x, plain (f x)) -> plain (rmap f l).
Proof.
  intros Hf. induction l as [|x l IH]; simpl; [exact I|].
  apply plain_rbind; [apply Hf|intros y].
  apply plain_rbind; [exact IH|intros ys; exact I].
Qed.

Lemma plain_get (j : json) (k : string) (d : json) : plain (Py.get j k d).
Proof. destruct j; exact I. Qed.

Lemma plain_getitem (j : json) (k : string) : plain (Py.getitem j k).
Proof. destruct j; simpl; try exact I. destruct (Py.assoc k kv); exact I. Qed.

Lemma plain_iterate (j : json) : plain (Py.iterate j).
Proof. destruct j; exact I. Qed.

Lemma plain_slice_to (n : nat) (j : json) : plain (Py.slice_to n j).
Proof. destruct j; exact I. Qed.

Lemma plain_all_str_from (i : nat) (l : list json) : plain (Py.all_str_from i l).
Proof.
  revert i. induction l as [|j l IH]; intros i; simpl; [exact I|].
  destruct j; try exact I. apply plain_rbind; [apply IH|intros; exact I].
Qed.

Lemma plain_join (sep : string) (j : json) : plain (Py.join sep j).
Proof.
  unfold Py.join. apply plain_rbind; [apply plain_iterate|intros l].
  apply plain_rbind; [apply plain_all_str_from|intros; exact I].
Qed.

Lemma plain_json_loads (j : json) : plain (json_loads X j).
Proof. destruct j; simpl; try exact I. destruct (x_loads X s); exact I. Qed.

Lemma plain_parse_data_blob (fields : list (string * json)) :
  plain (_parse_data_blob X fields).
Proof.
  unfold _parse_data_blob. cbv zeta.
  destruct (Py.assoc "Data" fields) as [d|]; [|exact I].
  apply plain_rbind; [apply plain_json_loads|intros parsed].
  destruct parsed; try exact I. destruct (Py.assoc "outline" kv); exact I.
Qed.

Lemma plain_setitem (d : json) (k : string) (v : json) : plain (setitem d k v).
Proof. destruct d; exact I. Qed.

Lemma plain_append (refinements entry : json) : plain (append refinements entry).
Proof. destruct refinements; exact I. Qed.

Lemma plain_fromkeys (seen : list key) (l : list json) : plain (fromkeys seen l).
Proof.
  revert seen. induction l as [|j l IH]; intros seen; simpl; [exact I|].
  apply plain_rbind; [destruct j; exact I|intros k].
  destruct (bool_decide (k ∈ seen)); [apply IH|].
  apply plain_rbind; [apply IH|intros; exact I].
Qed.

Lemma plain_validate_str (j : json) : plain (validate_str X j).
Proof. destruct j; exact I. Qed.

Lemma plain_validate_opt_str (j : json) : plain (validate_opt_str X j).
Proof. destruct j; exact I. Qed.

Lemma plain_required (kv : list (string * json)) (k : string) (whole : json) :
  plain (required X kv k whole).
Proof. unfold required. destruct (Py.assoc k kv); exact I. Qed.

Lemma plain_validate_SubTopic (j : json) : plain (validate_SubTopic X j).
Proof.
  destruct j; try exact I. simpl.
  repeat (apply plain_rbind;
          [first [apply plain_required|apply plain_validate_str]|intros ?]).
  exact I.
Qed.

Lemma plain_validate_ResearchOutline (j : json) : plain (validate_ResearchOutline X j).
Proof.
  destruct j; try exact I. simpl.
  repeat (apply plain_rbind;
          [first [apply plain_required|apply plain_validate_str]|intros ?]).
  match goal with |- plain (match ?s with _ => _ end) => destruct s end; try exact I.
  apply plain_rbind; [apply plain_rmap, plain_validate_SubTopic|intros; exact I].
Qed.

Lemma plain_validate_RefinementEntry (j : json) : plain (validate_RefinementEntry X j).
Proof.
  destruct j; try exact I. simpl.
  repeat (apply plain_rbind;
          [first [apply plain_required|apply plain_validate_str
                 |apply plain_validate_opt_str]|intros ?]).
  exact I.
Qed.

Lemma plain_validate_str_list (j : json) : plain (validate_str_list X j).
Proof. destruct j; try exact I. apply plain_rmap, plain_validate_str. Qed.

Lemma plain_build_SessionDetail (session_id outline created_at refinements summary tags : json) :
  plain (build_SessionDetail X session_id outline created_at refinements summary tags).
Proof.
  unfold build_SessionDetail.
  apply plain_rbind; [apply plain_validate_ResearchOutline|intros o].
  apply plain_rbind; [apply plain_iterate|intros xs].
  apply plain_rbind; [apply plain_rmap, plain_validate_RefinementEntry|intros rs].
  apply plain_rbind; [apply plain_validate_str|intros sid].
  apply plain_rbind; [apply plain_validate_opt_str|intros created].
  apply plain_rbind; [apply plain_validate_opt_str|intros s].
  apply plain_rbind; [apply plain_validate_str_list|intros ts]. exact I.
Qed.

Lemma plain_session_from_cache (session_id : string) (c : cache_item) :
  plain (session_from_cache X session_id c).
Proof.
  unfold session_from_cache. cbv zeta.
  repeat (apply plain_rbind; [apply plain_get|intros ?]).
  apply plain_build_SessionDetail.
Qed.

Lemma plain_session_from_record (rec : record) : plain (session_from_record X rec).
Proof.
  unfold session_from_record. cbv zeta.
  apply plain_rbind; [apply plain_parse_data_blob|intros data].
  repeat (apply plain_rbind; [apply plain_getitem|intros ?]).
  apply plain_build_SessionDetail.
Qed.

Lemma plain_insights (refinements : json) : plain (insights X refinements).
Proof.
  unfold insights. apply plain_rbind; [apply plain_iterate|intros xs].
  apply plain_rbind; [apply plain_rmap; intros; apply plain_get|intros; exact I].
Qed.

Lemma plain_findings_text (outline refinements : json) :
  plain (findings_text X outline refinements).
Proof.
  unfold findings_text. apply plain_rbind; [apply plain_get|intros d].
  apply plain_rbind; [apply plain_insights|intros; exact I].
Qed.

Lemma plain_subtopic_titles5 (outline : json) : plain (subtopic_titles5 outline).
Proof.
  unfold subtopic_titles5. apply plain_rbind; [apply plain_get|intros subs].
  apply plain_rbind; [apply plain_slice_to|intros first5].
  apply plain_rbind; [apply plain_iterate|intros xs].
  apply plain_rbind; [apply plain_rmap; intros; apply plain_get|intros; exact I].
Qed.

Lemma plain_fallback_finalize (outline : json) : plain (_fallback_finalize X outline).
Proof.
  unfold _fallback_finalize. apply plain_rbind; [apply plain_get|intros title].
  cbv zeta. apply plain_rbind; [apply plain_subtopic_titles5|intros; exact I].
Qed.

Lemma plain_refine_update_fields (data outline : json) (subtopic insight : string) :
  plain (refine_update_fields X data outline subtopic insight).
Proof.
  unfold refine_update_fields.
  repeat (apply plain_rbind; [first [apply plain_get|apply plain_join]|intros ?]).
  exact I.
Qed.

Lemma plain_finalize_update_fields (data outline : json) (summary : string) (tags : json) :
  plain (finalize_update_fields X data outline summary tags).
Proof.
  unfold finalize_update_fields.
  repeat (apply plain_rbind; [first [apply plain_get|apply plain_join]|intros ?]).
  exact I.
Qed.

Lemma plain_write_each (line : json -> R string) (xs : list json) (c : canvas) :
  (forall x, plain (line x)) -> plain (write_each line xs c).
Proof.
  intros Hl. revert c. induction xs as [|x xs IH]; intros c; simpl; [exact I|].
  apply plain_rbind; [apply Hl|intros text; apply IH].
Qed.

Lemma plain_subtopic_line (sub : json) : plain (subtopic_line X sub).
Proof. unfold subtopic_line. apply plain_rbind; [apply plain_get|intros; exact I]. Qed.

Lemma plain_refinement_line (ref : json) : plain (refinement_line X ref).
Proof.
  unfold refinement_line.
  repeat (apply plain_rbind; [first [apply plain_get|apply plain_slice_to]|intros ?]).
  exact I.
Qed.

Lemma plain_pdf_document (session_id : string) (rec : record) :
  plain (pdf_document X session_id rec).
Proof.
  unfold pdf_document. cbv zeta.
  apply plain_rbind; [apply plain_parse_data_blob|intros data].
  apply plain_rbind; [apply plain_getitem|intros outline].
  apply plain_rbind; [apply plain_getitem|intros refinements].
  apply plain_rbind; [apply plain_getitem|intros summary].
  apply plain_rbind; [destruct (Py.truthy summary); [exact I|apply plain_get]|intros s].
  apply plain_rbind; [apply plain_getitem|intros tags].
  apply plain_rbind; [apply plain_get|intros title].
  apply plain_rbind; [destruct s; exact I|intros chunks].
  apply plain_rbind; [apply plain_get|intros subs].
  apply plain_rbind; [apply plain_iterate|intros subs'].
  apply plain_rbind; [apply plain_write_each, plain_subtopic_line|intros c].
  apply plain_rbind.
  - destruct (Py.truthy refinements); [|exact I].
    apply plain_rbind; [apply plain_iterate|intros refs].
    apply plain_write_each, plain_refinement_line.
  - intros c'. destruct (Py.truthy tags); [|exact I].
    apply plain_rbind; [apply plain_join|intros; exact I].
Qed.

Lemma resolve_user_id_401 (cfg : Config) (request : Request) :
  match _resolve_user_id cfg request with
  | inl e => http_in [401] e
  | inr _ => True
  end.
Proof.
  destruct (_resolve_user_id cfg request) as [e|u] eqn:Hu; [|exact I].
  destruct (resolve_user_id_error cfg request e Hu) as [d ->].
  exists 401, d. simpl. auto.
Qed.

End PlainCode.

(** Weakening of the exceptions a step may raise. *)
Ltac weaker :=
  first [ intros [? ?|?]; simpl; tauto
        | intros ? (? & ? & -> & ?); simpl in *; tauto
        | intros ? (? & ? & -> & ?); do 2 eexists;
          (split; [reflexivity|simpl in *; tauto]) ].

Section Ends.

Variable X : Externals.
Variable cfg : Config.
Variable I : World X -> World X -> Prop.
Hypothesis I_trans : forall a b c, I a b -> I b c -> I a c.
Hypothesis I_cache : forall w w', SESSION_CACHE w' = SESSION_CACHE w -> I w w'.

Lemma ends_ret {A} (Q : A -> Prop) (P : exn -> Prop) (a : A) :
  Q a -> ends I Q P (ret a).
Proof using All. intros Ha w. split; [now apply I_cache|exact Ha]. Qed.

Lemma ends_raise {A} (Q : A -> Prop) (P : exn -> Prop) (e : exn) :
  P e -> ends I Q P (raise e).
Proof using All. intros He w. split; [now apply I_cache|exact He]. Qed.

Lemma ends_lift {A} (Q : A -> Prop) (P : exn -> Prop) (r : R A) :
  match r with inl e => P e | inr a => Q a end -> ends I Q P (lift r).
Proof using All. intros Hr w. split; [now apply I_cache|exact Hr]. Qed.

Lemma ends_plain {A} (r : R A) :
  plain r -> ends I (fun _ => True) (bare_or []) (lift r).
Proof using All. intros Hr. apply ends_lift. now destruct r. Qed.

Lemma ends_bind {A B} (Q1 : A -> Prop) (Q : B -> Prop) (P : exn -> Prop)
      (m : M X A) (k : A -> M X B) :
  ends I Q1 P m -> (forall a, Q1 a -> ends I Q P (k a)) -> ends I Q P (bind m k).
Proof using All.
  intros Hm Hk w. unfold bind. destruct (Hm w) as [Hi Hr].
  destruct (m w) as [[e|a] w1]; simpl in *; [auto|].
  destruct (Hk a Hr w1) as [Hi' Hr']. split; [|exact Hr'].
  now apply (I_trans _ w1).
Qed.

Lemma ends_try {A} (Q : A -> Prop) (P1 P : exn -> Prop) (m : M X A) (h : exn -> M X A) :
  ends I Q P1 m -> (forall e, P1 e -> ends I Q P (h e)) -> ends I Q P (try_except m h).
Proof using All.
  intros Hm Hh w. unfold try_except. destruct (Hm w) as [Hi Hr].
  destruct (m w) as [[e|a] w1]; simpl in *; [|auto].
  destruct (Hh e Hr w1) as [Hi' Hr']. split; [|exact Hr'].
  now apply (I_trans _ w1).
Qed.

Lemma ends_weaken {A} (Q Q' : A -> Prop) (P P' : exn -> Prop) (m : M X A) :
  ends I Q P m -> (forall a, Q a -> Q' a) -> (forall e, P e -> P' e) -> ends I Q' P' m.
Proof using All.
  intros Hm HQ HP w. destruct (Hm w) as [Hi Hr]. split; [exact Hi|].
  destruct (fst (m w)); auto.
Qed.

(** A step that raises no HTTP error, inside a block that may raise
    some. *)
Lemma ends_step {A B} (codes : list Z) (Q : B -> Prop) (m : M X A) (k : A -> M X B) :
  ends I (fun _ => True) (bare_or []) m ->
  (forall a, ends I Q (bare_or codes) (k a)) ->
  ends I Q (bare_or codes) (bind m k).
Proof using All.
  intros Hm Hk. eapply ends_bind with (Q1 := fun _ => True); [|auto].
  eapply ends_weaken; [exact Hm|auto|]. intros [c d|t]; simpl; tauto.
Qed.

(** A step that never raises. *)
Lemma ends_quiet {A B} (Q : B -> Prop) (P : exn -> Prop) (m : M X A) (k : A -> M X B) :
  ends I (fun _ => True) (fun _ => False) m ->
  (forall a, ends I Q P (k a)) ->
  ends I Q P (bind m k).
Proof using All.
  intros Hm Hk. eapply ends_bind with (Q1 := fun _ => True); [|auto].
  eapply ends_weaken; [exact Hm|auto|intros ? []].
Qed.

Lemma ends_provider {A} (ev : event) (f : Ext X -> (string + A) * Ext X) :
  ends I (fun _ => True) (bare_or []) (provider X ev f).
Proof using All.
  intros w. rewrite provider_run.
  destruct (f (ext w)) as [[t|a] s]; simpl; split; try exact I0; try exact Logic.I;
    now apply I_cache.
Qed.

Lemma ends_now : ends I (fun _ => True) (fun _ => False) (now X).
Proof using All.
  intros w. unfold now, outside. destruct (x_now X (ext w)) as [t s]. simpl.
  split; [now apply I_cache|exact Logic.I].
Qed.

Lemma ends_emit (ev : event) : ends I (fun _ => True) (fun _ => False) (emit ev).
Proof using All. intros w. split; [now apply I_cache|exact Logic.I]. Qed.

Lemma ends_set_provider_issue (provider_name kind message : string) :
  ends I (fun _ => True) (fun _ => False)
       (_set_provider_issue X provider_name kind message).
Proof using All.
  intros w.
  destruct (set_provider_issue_run provider_name kind message w) as (w' & -> & _ & Hc & _).
  split; [now apply I_cache|exact Logic.I].
Qed.

Lemma ends_clear_provider_issue (provider_name : string) :
  ends I (fun _ => True) (fun _ => False) (_clear_provider_issue X provider_name).
Proof using All. intros w. split; [now apply I_cache|exact Logic.I]. Qed.

Lemma ends_cache_get (session_id user_id : string) :
  ends I (fun _ => True) (fun _ => False) (_cache_get X session_id user_id).
Proof using All. intros w. split; [now apply I_cache|exact Logic.I]. Qed.

Lemma ends_require_table :
  ends I (fun _ => table cfg = true) (http_in [503]) (_require_table X cfg).
Proof using All.
  unfold _require_table. destruct (table cfg).
  - now apply ends_ret.
  - apply ends_raise. do 2 eexists. split; [reflexivity|simpl; auto].
Qed.

Lemma ends_require_genai :
  ends I (fun _ => True) (http_in [500]) (_require_genai X cfg).
Proof using All.
  unfold _require_genai.
  destruct (negb (env_set (GROQ_API_KEY cfg))).
  { apply ends_raise. do 2 eexists. split; [reflexivity|simpl; auto]. }
  destruct (negb (groq_client cfg)).
  { apply ends_raise. do 2 eexists. split; [reflexivity|simpl; auto]. }
  now apply ends_ret.
Qed.

Lemma ends_limiter_limit (route : string) (request : Request) :
  ends I (fun _ => True) (http_in [429]) (limiter_limit X route request).
Proof using All.
  intros w. rewrite limiter_limit_run.
  destruct (x_limit X route request (ext w)) as [[detail|] s]; simpl; split;
    try (now apply I_cache); [|exact Logic.I].
  do 2 eexists. split; [reflexivity|simpl; auto].
Qed.

Lemma ends_resolve_user_id (request : Request) :
  ends I (fun _ => True) (http_in [401]) (lift (_resolve_user_id cfg request)).
Proof using All. apply ends_lift. apply resolve_user_id_401. Qed.

Lemma ends_table_all (formula : string) (limit : option Z) :
  table cfg = true ->
  ends I (fun _ => True) (bare_or []) (table_all X cfg formula limit).
Proof using All.
  intros Ht. unfold table_all, _require_table. rewrite Ht.
  eapply ends_bind with (Q1 := fun _ => True); [now apply ends_ret|intros _ _].
  apply ends_provider.
Qed.

Lemma ends_table_update (record_id : string) (p : gmap string json) :
  table cfg = true ->
  ends I (fun _ => True) (bare_or []) (table_update X cfg record_id p).
Proof using All.
  intros Ht. unfold table_update, _require_table. rewrite Ht.
  eapply ends_bind with (Q1 := fun _ => True); [now apply ends_ret|intros _ _].
  apply ends_provider.
Qed.

Lemma ends_update_loop (n : nat) (record_id : string) (fields p : gmap string json) :
  table cfg = true ->
  ends I (fun _ => True) (bare_or []) (update_loop X cfg n record_id fields p).
Proof using All.
  intros Ht. revert p. induction n as [|n IH]; intros p; simpl.
  - now apply ends_table_update.
  - eapply ends_try; [now apply ends_table_update|intros e He].
    rewrite strip_flag. destruct (field_to_strip (exn_str e) p); [apply IH|].
    now apply ends_raise.
Qed.

Lemma ends_find_session_record (session_id user_id : string) :
  ends I (fun r => is_Some r -> table cfg = true) (bare_or [])
       (_find_session_record X cfg session_id user_id).
Proof using All.
  unfold _find_session_record. destruct (table cfg) eqn:Ht; simpl.
  2: { apply ends_ret. now intros [? [=]]. }
  eapply ends_bind; [now apply ends_table_all|intros records _].
  destruct records as [|r records]; [|now apply ends_ret].
  eapply ends_try with (P1 := fun _ => True).
  - eapply ends_bind with (Q1 := fun _ => True).
    + eapply ends_weaken; [apply ends_require_table|auto|auto].
    + intros _ _. eapply ends_bind with (Q1 := fun _ => True).
      * eapply ends_weaken; [apply ends_provider|auto|auto].
      * intros rec _.
        destruct (Py.assoc "User ID" (rec_fields rec)) as [[| | |u| |]|];
          try now apply ends_ret.
        destruct (String.eqb u user_id); now apply ends_ret.
  - intros e _. now apply ends_ret.
Qed.

Lemma ends_write_back (record : option record) (fields : R (gmap string json)) :
  (is_Some record -> table cfg = true) -> plain fields ->
  ends I (fun _ => True) (bare_or []) (write_back X cfg record fields).
Proof using All.
  intros Hr Hf. unfold write_back. destruct record as [rec|]; [|now apply ends_ret].
  eapply ends_bind with (Q1 := fun _ => True); [now apply ends_plain|intros fs _].
  eapply ends_bind with (Q1 := fun _ => True); [apply ends_update_loop; eauto|intros _ _].
  eapply ends_weaken; [apply ends_clear_provider_issue|auto|intros ? []].
Qed.

Lemma ends_llm_call (contents : string) :
  ends I (fun _ => True) (bare_or []) (llm_call X contents).
Proof using All.
  unfold llm_call. eapply ends_bind; [apply ends_provider|intros c _].
  now apply ends_ret.
Qed.

Lemma ends_retry_loop (fuel : nat) (attempt : Z) (contents : string)
      (max_retries wait_ms : Z) (last_error : option exn) :
  (forall e, last_error = Some e -> bare_or [] e) ->
  ends I (fun _ => True) (bare_or [])
       (retry_loop X fuel attempt contents max_retries wait_ms last_error).
Proof using All.
  revert attempt last_error. induction fuel as [|fuel IH]; intros attempt last_error Hl;
    simpl.
  - destruct last_error as [e|]; apply ends_raise; [now apply Hl|exact Logic.I].
  - eapply ends_try; [apply ends_llm_call|intros err Herr].
    destruct (_is_quota_error err && (attempt <? max_retries)); [|now apply ends_raise].
    eapply ends_bind with (Q1 := fun _ => True).
    { apply ends_plain. unfold plain, retry_delay_ms.
      destruct (retry_hint (exn_str err)) as [g|]; [|exact Logic.I].
      destruct (x_seconds_ms X g); exact Logic.I. }
    intros delay_ms _.
    apply ends_quiet; [apply ends_emit|intros _].
    apply IH. now intros e [= <-].
Qed.

Lemma ends_generate (contents : string) (max_retries wait_ms : Z) :
  ends I (fun _ => True) (bare_or [])
       (_generate_content_with_retry X contents max_retries wait_ms).
Proof using All. apply ends_retry_loop. discriminate. Qed.

Lemma ends_on_llm_error {A} (Q : A -> Prop) (fallback : M X A) (detail_429 : string)
      (llm_error : exn) :
  bare_or [] llm_error -> ends I Q (bare_or [429]) fallback ->
  ends I Q (bare_or [429]) (on_llm_error X cfg fallback detail_429 llm_error).
Proof using All.
  intros He Hf. unfold on_llm_error.
  destruct (_is_quota_error llm_error && ENABLE_FALLBACK_ON_QUOTA cfg).
  { apply ends_quiet; [apply ends_set_provider_issue|intros _; exact Hf]. }
  destruct (_is_quota_error llm_error).
  { apply ends_quiet; [apply ends_set_provider_issue|intros _].
    apply ends_raise. simpl. auto. }
  apply ends_quiet; [apply ends_set_provider_issue|intros _].
  apply ends_raise. destruct llm_error; simpl in *; tauto.
Qed.

Lemma ends_refine_insight (outline : json) (subtopic : string) :
  ends I (fun _ => True) (bare_or [429]) (refine_insight X cfg outline subtopic).
Proof using All.
  unfold refine_insight. eapply ends_try with (P1 := bare_or []).
  - apply ends_step; [apply ends_plain, plain_get|intros title].
    apply ends_step; [apply ends_plain, plain_get|intros description].
    apply ends_step; [apply ends_generate|intros text].
    apply ends_step; [apply ends_plain, plain_json_loads|intros parsed].
    apply ends_step; [apply ends_plain, plain_get|intros insight].
    apply ends_quiet; [apply ends_clear_provider_issue|intros _].
    now apply ends_ret.
  - intros e He. apply ends_on_llm_error; [exact He|].
    apply ends_step; [apply ends_plain, plain_get|intros title].
    now apply ends_ret.
Qed.

Lemma ends_finalize_llm (outline : json) (findings : string) :
  ends I (fun _ => True) (bare_or [429]) (finalize_llm X cfg outline findings).
Proof using All.
  unfold finalize_llm. eapply ends_try with (P1 := bare_or []).
  - apply ends_step; [apply ends_plain, plain_get|intros title].
    apply ends_step; [apply ends_generate|intros text].
    apply ends_step; [apply ends_plain, plain_json_loads|intros parsed].
    apply ends_step; [apply ends_plain, plain_get|intros summary].
    apply ends_step; [apply ends_plain, plain_get|intros tags_v].
    apply ends_step; [apply ends_plain, plain_iterate|intros tag_items].
    apply ends_quiet; [apply ends_clear_provider_issue|intros _].
    now apply ends_ret.
  - intros e He. apply ends_on_llm_error; [exact He|].
    eapply ends_weaken; [apply ends_plain, plain_fallback_finalize|auto|].
    intros [c d|t]; simpl; tauto.
Qed.

Lemma ends_session_data (cached : option cache_item) (record : option record) :
  ends I (fun _ => True) (bare_or [404]) (session_data X cached record).
Proof using All.
  unfold session_data. destruct cached as [c|]; [now apply ends_ret|].
  destruct record as [r|].
  - eapply ends_weaken; [apply ends_plain, plain_parse_data_blob|auto|].
    intros [c d|t]; simpl; tauto.
  - apply ends_raise. simpl. auto.
Qed.

Lemma ends_on_workflow_error {A} (Q : A -> Prop) (what : string) (e : exn) :
  bare_or [404; 429; 500] e ->
  ends I Q (http_in [404; 429; 500]) (on_workflow_error what e).
Proof using All.
  intros He. unfold on_workflow_error. destruct e as [code detail|t].
  - apply ends_raise. exists code, detail. auto.
  - destruct (looks_like_quota (Exception t)).
    + apply ends_quiet; [apply ends_set_provider_issue|intros _].
      apply ends_raise. do 2 eexists. split; [reflexivity|simpl; auto].
    + apply ends_quiet; [apply ends_set_provider_issue|intros _].
      apply ends_raise. do 2 eexists. split; [reflexivity|simpl; auto].
Qed.

(** The steps of refine and finalize that write the cache, for a relation
    that allows a write to the entry of one session. *)

Variable the_session : string.
Hypothesis I_put :
  forall w w' item,
    SESSION_CACHE w' = <[the_session := item]> (SESSION_CACHE w) -> I w w'.

Lemma ends_cache_put (user_id : string) (data : json) (created_at : option string) :
  ends I (fun _ => True) (fun _ => False)
       (_cache_put X the_session user_id data created_at).
Proof using All.
  intros w.
  destruct (cache_put_run the_session user_id data created_at w)
    as (w' & created & -> & _ & _ & Hc).
  split; [exact (I_put _ _ _ Hc)|exact Logic.I].
Qed.

Lemma ends_mutate_cached (cached : option cache_item) (data : json) :
  ends I (fun _ => True) (fun _ => False) (mutate_cached X the_session cached data).
Proof using All.
  intros w. destruct cached as [c|]; simpl; (split; [|exact Logic.I]).
  - eapply I_put. reflexivity.
  - now apply I_cache.
Qed.

Lemma ends_refine_stage (user_id : string) (payload : RefineRequest) :
  rf_sessionId payload = the_session ->
  ends I (fun st => (is_Some (st_record st) -> table cfg = true) /\ plain (st_fields st))
       (bare_or [404; 429; 500]) (refine_stage X cfg user_id payload).
Proof using All.
  intros Hs. unfold refine_stage. rewrite Hs.
  apply ends_quiet; [apply ends_cache_get|intros cached].
  eapply ends_bind with (Q1 := fun r => is_Some r -> table cfg = true).
  { eapply ends_weaken; [apply ends_find_session_record|auto|weaker]. }
  intros record Hrec.
  eapply ends_bind with (Q1 := fun _ => True).
  { eapply ends_weaken; [apply ends_session_data|auto|weaker]. }
  intros data _.
  apply ends_step; [apply ends_plain, plain_getitem|intros outline].
  eapply ends_bind with (Q1 := fun _ => True).
  { eapply ends_weaken; [apply ends_refine_insight|auto|weaker]. }
  intros insight _.
  destruct (negb (Text.nonempty insight)).
  { apply ends_raise. simpl. auto. }
  apply ends_step; [apply ends_plain, plain_getitem|intros refinements].
  destruct refinements; try (apply ends_raise; exact Logic.I).
  apply ends_quiet; [apply ends_now|intros created].
  apply ends_step; [apply ends_plain, plain_append|intros refinements'].
  apply ends_step; [apply ends_plain, plain_setitem|intros data'].
  apply ends_quiet; [apply ends_cache_put|intros _].
  apply ends_ret. simpl. split; [exact Hrec|apply plain_refine_update_fields].
Qed.

Lemma ends_finalize_stage (user_id : string) (payload : FinalizeRequest) :
  fq_sessionId payload = the_session ->
  ends I (fun st => (is_Some (st_record st) -> table cfg = true) /\ plain (st_fields st))
       (bare_or [404; 429; 500]) (finalize_stage X cfg user_id payload).
Proof using All.
  intros Hs. unfold finalize_stage. rewrite Hs.
  apply ends_quiet; [apply ends_cache_get|intros cached].
  eapply ends_bind with (Q1 := fun r => is_Some r -> table cfg = true).
  { eapply ends_weaken; [apply ends_find_session_record|auto|weaker]. }
  intros record Hrec.
  eapply ends_bind with (Q1 := fun _ => True).
  { eapply ends_weaken; [apply ends_session_data|auto|weaker]. }
  intros data _.
  apply ends_step; [apply ends_plain, plain_getitem|intros outline].
  apply ends_step; [apply ends_plain, plain_getitem|intros refinements].
  apply ends_step; [apply ends_plain, plain_findings_text|intros findings].
  eapply ends_bind with (Q1 := fun _ => True).
  { eapply ends_weaken; [apply ends_finalize_llm|auto|weaker]. }
  intros [summary tags] _.
  destruct (negb (Text.nonempty summary)).
  { apply ends_raise. simpl. auto. }
  apply ends_step.
  { destruct tags; [apply ends_plain, plain_subtopic_titles5|now apply ends_ret]. }
  intros tags'.
  apply ends_step; [apply ends_plain, plain_setitem|intros data1].
  apply ends_quiet; [apply ends_mutate_cached|intros _].
  apply ends_step; [apply ends_plain, plain_fromkeys|intros unique].
  apply ends_step; [apply ends_plain, plain_setitem|intros data2].
  apply ends_quiet; [apply ends_cache_put|intros _].
  apply ends_ret. simpl. split; [exact Hrec|apply plain_finalize_update_fields].
Qed.

Lemma ends_refine_research (request : Request) (payload : RefineRequest) :
  rf_sessionId payload = the_session ->
  ends I (fun _ => True) (http_in [401; 404; 429; 500])
       (refine_research X cfg request payload).
Proof using All.
  intros Hs. unfold refine_research.
  eapply ends_bind with (Q1 := fun _ => True).
  { eapply ends_weaken; [apply ends_limiter_limit|auto|weaker]. }
  intros _ _. eapply ends_bind with (Q1 := fun _ => True).
  { eapply ends_weaken; [apply ends_require_genai|auto|weaker]. }
  intros _ _. eapply ends_bind with (Q1 := fun _ => True).
  { eapply ends_weaken; [apply ends_resolve_user_id|auto|weaker]. }
  intros user_id _. eapply ends_try with (P1 := bare_or [404; 429; 500]).
  - unfold refine_body.
    eapply ends_bind; [apply ends_refine_stage; exact Hs|intros st [Hrec Hf]].
    apply ends_step; [now apply ends_write_back|intros _]. now apply ends_ret.
  - intros e He.
    eapply ends_weaken;
      [apply ends_on_workflow_error with (Q := fun _ => True); exact He|auto|weaker].
Qed.

Lemma ends_finalize_research (request : Request) (payload : FinalizeRequest) :
  fq_sessionId payload = the_session ->
  ends I (fun _ => True) (http_in [401; 404; 429; 500])
       (finalize_research X cfg request payload).
Proof using All.
  intros Hs. unfold finalize_research.
  eapply ends_bind with (Q1 := fun _ => True).
  { eapply ends_weaken; [apply ends_limiter_limit|auto|weaker]. }
  intros _ _. eapply ends_bind with (Q1 := fun _ => True).
  { eapply ends_weaken; [apply ends_require_genai|auto|weaker]. }
  intros _ _. eapply ends_bind with (Q1 := fun _ => True).
  { eapply ends_weaken; [apply ends_resolve_user_id|auto|weaker]. }
  intros user_id _. eapply ends_try with (P1 := bare_or [404; 429; 500]).
  - unfold finalize_body.
    eapply ends_bind; [apply ends_finalize_stage; exact Hs|intros st [Hrec Hf]].
    apply ends_step; [now apply ends_write_back|intros _].
    apply ends_step; [apply ends_plain, plain_validate_str_list|intros tag_strs].
    now apply ends_ret.
  - intros e He.
    eapply ends_weaken;
      [apply ends_on_workflow_error with (Q := fun _ => True); exact He|auto|weaker].
Qed.

End Ends.

Lemma off_session_trans {X} (session_id : string) (a b c : World X) :
  off_session session_id a b -> off_session session_id b c -> off_session session_id a c.
Proof. intros Hab Hbc k Hk. now rewrite (Hbc k Hk), (Hab k Hk). Qed.

Lemma off_session_cache {X} (session_id : string) (w w' : World X) :
  SESSION_CACHE w' = SESSION_CACHE w -> off_session session_id w w'.
Proof. intros Hc k _. now rewrite Hc. Qed.

Lemma off_session_put {X} (session_id : string) (w w' : World X) (item : cache_item) :
  SESSION_CACHE w' = <[session_id := item]> (SESSION_CACHE w) ->
  off_session session_id w w'.
Proof. intros Hc k Hk. rewrite Hc. now apply lookup_insert_ne. Qed.

Lemma any_trans {X} (a b c : World X) : any_world a b -> any_world b c -> any_world a c.
Proof. exact (fun _ _ => I). Qed.

Lemma any_cache {X} (w w' : World X) :
  SESSION_CACHE w' = SESSION_CACHE w -> any_world w w'.
Proof. exact (fun _ => I). Qed.

Lemma ends_any {X A} (m : M X A) :
  ends any_world (fun _ => True) (fun _ => True) m.
Proof. intros w. split; [exact I|]. now destruct (fst (m w)). Qed.

Section HandlerErrors.

Variable X : Externals.
Variable cfg : Config.
Variable render : Renderers.

(** The two guards every handler but the session detail starts with. *)
Lemma guarded_by_table {A} (codes : list Z) (k : string -> M X A) (request : Request) :
  In 401 codes -> In 503 codes ->
  (forall user_id, ends any_world (fun _ => True) (http_in codes) (k user_id)) ->
  ends any_world (fun _ => True) (http_in codes)
       (bind (_require_table X cfg)
             (fun _ => bind (lift (_resolve_user_id cfg request)) k)).
Proof using All.
  intros H401 H503 Hk.
  eapply (ends_bind X cfg any_world any_trans any_cache) with (Q1 := fun _ => True).
  { eapply (ends_weaken X cfg any_world any_trans any_cache); [apply (ends_require_table X cfg any_world any_trans any_cache)|auto|].
    intros e (c & d & -> & [<-|[]]). now exists 503, d. }
  intros _ _. eapply (ends_bind X cfg any_world any_trans any_cache) with (Q1 := fun _ => True); [|auto].
  eapply (ends_weaken X cfg any_world any_trans any_cache); [apply (ends_resolve_user_id X cfg any_world any_trans any_cache)|auto|].
  intros e (c & d & -> & [<-|[]]). now exists 401, d.
Qed.

Lemma guarded_by_genai {A} (codes : list Z) (k : string -> M X A) (request : Request) :
  In 401 codes -> In 500 codes ->
  (forall user_id, ends any_world (fun _ => True) (http_in codes) (k user_id)) ->
  ends any_world (fun _ => True) (http_in codes)
       (bind (_require_genai X cfg)
             (fun _ => bind (lift (_resolve_user_id cfg request)) k)).
Proof using All.
  intros H401 H500 Hk.
  eapply (ends_bind X cfg any_world any_trans any_cache) with (Q1 := fun _ => True).
  { eapply (ends_weaken X cfg any_world any_trans any_cache); [apply (ends_require_genai X cfg any_world any_trans any_cache)|auto|].
    intros e (c & d & -> & [<-|[]]). now exists 500, d. }
  intros _ _. eapply (ends_bind X cfg any_world any_trans any_cache) with (Q1 := fun _ => True); [|auto].
  eapply (ends_weaken X cfg any_world any_trans any_cache); [apply (ends_resolve_user_id X cfg any_world any_trans any_cache)|auto|].
  intros e (c & d & -> & [<-|[]]). now exists 401, d.
Qed.

(** A [try] block whose handler turns every exception into a 500. *)
Lemma caught_as_500 {A} (body : M X A) (h : exn -> M X A) :
  (forall e w, exists detail w', h e w = (inl (HTTPException 500 detail), w')) ->
  ends any_world (fun _ => True) (http_in [401; 500; 503]) (try_except body h).
Proof using All.
  intros Hh. eapply (ends_try X cfg any_world any_trans any_cache); [apply ends_any|intros e _ w].
  split; [exact I|]. destruct (Hh e w) as (d & w' & ->). simpl.
  exists 500, d. simpl. auto.
Qed.

Lemma read_error_500 {A} (what : string) (e : exn) (w : World X) :
  exists detail w',
    bind (_set_provider_issue X "airtable" "read_error" (exn_str e))
         (fun _ => @raise X A (HTTPException 500 (what +:+ exn_str e))) w
    = (inl (HTTPException 500 detail), w').
Proof using All.
  destruct (set_provider_issue_run "airtable" "read_error" (exn_str e) w)
    as (w' & Hs & _).
  rewrite (bind_inr _ _ _ _ _ Hs). unfold raise. eauto.
Qed.

Lemma start_research_errors (request : Request) (payload : ResearchRequest) :
  ends any_world (fun _ => True) (http_in [401; 429; 500])
       (start_research X cfg request payload).
Proof using All.
  unfold start_research.
  eapply (ends_bind X cfg any_world any_trans any_cache) with (Q1 := fun _ => True).
  { eapply (ends_weaken X cfg any_world any_trans any_cache);
      [apply (ends_limiter_limit X cfg any_world any_trans any_cache)|auto|].
    intros e (c & d & -> & [<-|[]]). exists 429, d. simpl. auto. }
  intros _ _. apply guarded_by_genai; [simpl; auto|simpl; auto|].
  intros user_id. eapply (ends_try X cfg any_world any_trans any_cache); [apply ends_any|intros e _].
  unfold on_start_error. destruct (looks_like_quota e).
  - apply (ends_quiet X cfg any_world any_trans any_cache); [apply (ends_set_provider_issue X cfg any_world any_trans any_cache)|intros _].
    apply (ends_raise X cfg any_world any_trans any_cache). do 2 eexists. split; [reflexivity|simpl; auto].
  - apply (ends_raise X cfg any_world any_trans any_cache). do 2 eexists. split; [reflexivity|simpl; auto].
Qed.

Lemma get_history_errors (request : Request) (category search : string) :
  ends any_world (fun _ => True) (http_in [401; 500; 503])
       (get_history X cfg request category search).
Proof using All.
  unfold get_history. apply guarded_by_table; [simpl; auto|simpl; auto|].
  intros user_id. apply caught_as_500. intros e w. apply read_error_500.
Qed.

Lemma get_history_paged_errors (request : Request) (category search : string)
      (page limit : Z) :
  ends any_world (fun _ => True) (http_in [401; 500; 503])
       (get_history_paged X cfg request category search page limit).
Proof using All.
  unfold get_history_paged. apply guarded_by_table; [simpl; auto|simpl; auto|].
  intros user_id. apply caught_as_500. intros e w. apply read_error_500.
Qed.

Lemma get_history_categories_errors (request : Request) :
  ends any_world (fun _ => True) (http_in [401; 500; 503])
       (get_history_categories X cfg request).
Proof using All.
  unfold get_history_categories. apply guarded_by_table; [simpl; auto|simpl; auto|].
  intros user_id. apply caught_as_500. intros e w. apply read_error_500.
Qed.

Lemma export_history_csv_errors (request : Request) :
  ends any_world (fun _ => True) (http_in [401; 500; 503])
       (export_history_csv X cfg render request).
Proof using All.
  unfold export_history_csv. apply guarded_by_table; [simpl; auto|simpl; auto|].
  intros user_id. apply caught_as_500. intros e w. unfold raise. eauto.
Qed.

(** The [try] block of the session detail and of the PDF export raises
    bare exceptions, 404 and (the detail only) 503; their handler lets
    the HTTP errors through and turns the others into a 500. *)
Lemma passes_http_errors {A} (what : string) (e : exn) :
  bare_or [404; 503] e ->
  ends any_world (fun _ : A => True) (http_in [401; 404; 500; 503])
       (match e with
        | HTTPException _ _ => @raise X A e
        | Exception _ => @raise X A (HTTPException 500 (what +:+ exn_str e))
        end).
Proof using All.
  intros He. destruct e as [code detail|t]; apply (ends_raise X cfg any_world any_trans any_cache).
  - exists code, detail. split; [reflexivity|]. simpl in *. tauto.
  - do 2 eexists. split; [reflexivity|simpl; auto].
Qed.

Lemma get_session_errors (session_id : string) (request : Request) :
  ends any_world (fun _ => True) (http_in [401; 404; 500; 503])
       (get_session X cfg session_id request).
Proof using All.
  unfold get_session. eapply (ends_bind X cfg any_world any_trans any_cache) with (Q1 := fun _ => True).
  { eapply (ends_weaken X cfg any_world any_trans any_cache); [apply (ends_resolve_user_id X cfg any_world any_trans any_cache)|auto|weaker]. }
  intros user_id _. eapply (ends_try X cfg any_world any_trans any_cache) with (P1 := bare_or [404; 503]).
  - apply (ends_quiet X cfg any_world any_trans any_cache); [apply (ends_cache_get X cfg any_world any_trans any_cache)|intros cached].
    destruct cached as [c|].
    + eapply (ends_weaken X cfg any_world any_trans any_cache);
        [apply (ends_plain X cfg any_world any_trans any_cache), plain_session_from_cache|auto|weaker].
    + unfold session_via_store. eapply (ends_bind X cfg any_world any_trans any_cache) with (Q1 := fun _ => True).
      { eapply (ends_weaken X cfg any_world any_trans any_cache); [apply (ends_require_table X cfg any_world any_trans any_cache)|auto|weaker]. }
      intros _ _. eapply (ends_bind X cfg any_world any_trans any_cache) with (Q1 := fun _ => True).
      { eapply (ends_weaken X cfg any_world any_trans any_cache); [apply (ends_find_session_record X cfg any_world any_trans any_cache)|auto|weaker]. }
      intros record _. destruct record as [rec|].
      * eapply (ends_weaken X cfg any_world any_trans any_cache);
          [apply (ends_plain X cfg any_world any_trans any_cache), plain_session_from_record|auto|weaker].
      * apply (ends_raise X cfg any_world any_trans any_cache). simpl. auto.
  - intros e He. apply (passes_http_errors "Failed to fetch session: " e He).
Qed.

Lemma export_session_pdf_errors (session_id : string) (request : Request) :
  ends any_world (fun _ => True) (http_in [401; 404; 500; 503])
       (export_session_pdf X cfg render session_id request).
Proof using All.
  unfold export_session_pdf. apply guarded_by_table; [simpl; auto|simpl; auto|].
  intros user_id. eapply (ends_try X cfg any_world any_trans any_cache) with (P1 := bare_or [404; 503]).
  - eapply (ends_bind X cfg any_world any_trans any_cache) with (Q1 := fun _ => True).
    { eapply (ends_weaken X cfg any_world any_trans any_cache); [apply (ends_find_session_record X cfg any_world any_trans any_cache)|auto|weaker]. }
    intros record _. destruct record as [rec|].
    + eapply (ends_bind X cfg any_world any_trans any_cache) with (Q1 := fun _ => True).
      { eapply (ends_weaken X cfg any_world any_trans any_cache);
          [apply (ends_plain X cfg any_world any_trans any_cache), plain_pdf_document|auto|weaker]. }
      intros c _. now apply (ends_ret X cfg any_world any_trans any_cache).
    + apply (ends_raise X cfg any_world any_trans any_cache). simpl. auto.
  - intros e He. apply (passes_http_errors "Failed to export PDF: " e He).
Qed.

End HandlerErrors.

(** X23.  A handler fails with an HTTP error only, never with a bare
    exception, and with one of a few status codes: 401, 429 or 500 for
    start; 401, 500 or 503 for the history, its pages, the categories and
    the CSV export; 401, 404, 500 or 503 for the session detail and the
    PDF export; 401, 404, 429 or 500 for refine and finalize, which never
    answer 503 although they write to the store. *)
Theorem handlers_fail_with_known_status_codes
        (X : Externals) (cfg : Config) (render : Renderers) (request : Request)
        (w : World X) (e : exn) :
  (forall payload,
      fst (start_research X cfg request payload w) = inl e -> http_in [401; 429; 500] e)
  /\ (forall category search,
         fst (get_history X cfg request category search w) = inl e ->
         http_in [401; 500; 503] e)
  /\ (forall category search page limit,
         fst (get_history_paged X cfg request category search page limit w) = inl e ->
         http_in [401; 500; 503] e)
  /\ (fst (get_history_categories X cfg request w) = inl e -> http_in [401; 500; 503] e)
  /\ (fst (export_history_csv X cfg render request w) = inl e ->
      http_in [401; 500; 503] e)
  /\ (forall session_id,
         fst (get_session X cfg session_id request w) = inl e ->
         http_in [401; 404; 500; 503] e)
  /\ (forall session_id,
         fst (export_session_pdf X cfg render session_id request w) = inl e ->
         http_in [401; 404; 500; 503] e)
  /\ (forall payload,
         fst (refine_research X cfg request payload w) = inl e ->
         http_in [401; 404; 429; 500] e)
  /\ (forall payload,
         fst (finalize_research X cfg request payload w) = inl e ->
         http_in [401; 404; 429; 500] e).
Proof.
  assert (Hends : forall A codes (m : M X A),
             ends any_world (fun _ => True) (http_in codes) m ->
             fst (m w) = inl e -> http_in codes e).
  { intros A codes m Hm He. destruct (Hm w) as [_ Hr]. now rewrite He in Hr. }
  repeat split; intros.
  - eapply Hends; [apply (start_research_errors X cfg render)|eassumption].
  - eapply Hends; [apply (get_history_errors X cfg render)|eassumption].
  - eapply Hends; [apply (get_history_paged_errors X cfg render)|eassumption].
  - eapply Hends; [apply (get_history_categories_errors X cfg render)|eassumption].
  - eapply Hends; [apply (export_history_csv_errors X cfg render)|eassumption].
  - eapply Hends; [apply (get_session_errors X cfg render)|eassumption].
  - eapply Hends; [apply (export_session_pdf_errors X cfg render)|eassumption].
  - eapply Hends; [|eassumption].
    apply (ends_refine_research X cfg any_world any_trans any_cache
             (rf_sessionId payload)); [intros; exact I|reflexivity].
  - eapply Hends; [|eassumption].
    apply (ends_finalize_research X cfg any_world any_trans any_cache
             (fq_sessionId payload)); [intros; exact I|reflexivity].
Qed.

(** X24.  Whatever its outcome, a refine or finalize request changes no
    cache entry but the one of the session it names. *)
Theorem workflow_touches_only_its_session
        (X : Externals) (cfg : Config) (request : Request) (w : World X) :
  (forall payload,
      off_session (rf_sessionId payload) w
                  (snd (refine_research X cfg request payload w)))
  /\ (forall payload,
         off_session (fq_sessionId payload) w
                     (snd (finalize_research X cfg request payload w))).
Proof.
  split; intros payload.
  - apply (ends_refine_research X cfg (off_session (rf_sessionId payload))
             (off_session_trans _) (off_session_cache _) (rf_sessionId payload)
             (fun w w' item => off_session_put _ w w' item) request payload eq_refl w).
  - apply (ends_finalize_research X cfg (off_session (fq_sessionId payload))
             (off_session_trans _) (off_session_cache _) (fq_sessionId payload)
             (fun w w' item => off_session_put _ w w' item) request payload eq_refl w).
Qed.

(** ** Requests that fail the token check *)

Section TokenCheck.

Variable X : Externals.
Variable cfg : Config.

Lemma resolve_user_id_rejects (request : Request) (e : exn) :
  _resolve_user_id cfg request = inl e ->
  AUTH_TOKENS cfg <> ∅
  /\ (e = HTTPException 401 "Missing bearer token."
      \/ e = HTTPException 401 "Invalid token.").
Proof.
  unfold _resolve_user_id.
  destruct (bool_decide (AUTH_TOKENS cfg = ∅)) eqn:Hb; cbn [negb]; [discriminate|].
  apply bool_decide_eq_false in Hb. intros H. split; [exact Hb|].
  destruct (negb (Text.startswith "Bearer " _)); [injection H as <-; auto|].
  destruct (AUTH_TOKENS cfg !! _) as [u|]; [|injection H as <-; auto].
  destruct (Text.nonempty u); [discriminate|injection H as <-; auto].
Qed.

(** A handler that checks the table, then the token. *)
Lemma table_then_token {A} (k : string -> M X A) (request : Request) (e : exn)
      (w : World X) :
  _resolve_user_id cfg request = inl e ->
  bind (_require_table X cfg) (fun _ => bind (lift (_resolve_user_id cfg request)) k) w
  = (inl (if table cfg then e else HTTPException 503 "Airtable not configured."), w).
Proof.
  intros He. unfold bind, _require_table, lift.
  destruct (table cfg); simpl; [now rewrite He|reflexivity].
Qed.

(** A handler that checks the LLM client, then the token. *)
Lemma genai_then_token {A} (k : string -> M X A) (request : Request) (e : exn)
      (w : World X) :
  _resolve_user_id cfg request = inl e ->
  bind (_require_genai X cfg) (fun _ => bind (lift (_resolve_user_id cfg request)) k) w
  = (inl (if groq_client cfg then e
          else HTTPException 500 (if env_set (GROQ_API_KEY cfg)
                                  then "Groq client is not initialized."
                                  else "Groq API key not configured.")), w).
Proof.
  intros He. unfold bind, _require_genai, lift.
  destruct (env_set (GROQ_API_KEY cfg)) eqn:Hk; cbn [negb].
  2: { unfold groq_client. rewrite Hk, andb_false_r. reflexivity. }
  destruct (groq_client cfg); cbn [negb]; [now rewrite He|reflexivity].
Qed.

(** A handler behind the rate limiter that then stops at its guards. *)
Lemma limited_then_guards {A} (route : string) (m : M X A) (request : Request)
      (e : exn) (w : World X) :
  (forall w0, m w0 = (inl e, w0)) ->
  bind (limiter_limit X route request) (fun _ => m) w
  = stopped_at_guard route request e w.
Proof.
  intros Hm. unfold bind. rewrite limiter_limit_run. unfold stopped_at_guard.
  destruct (x_limit X route request (ext w)) as [[detail|] s]; [reflexivity|apply Hm].
Qed.

End TokenCheck.

(** X25.  A request that fails the token check (which only happens when
    tokens are configured, with 401 "Missing bearer token." or 401
    "Invalid token.") gets no further in any handler: no provider is
    called and the cache and the provider issues stay as they were.  For
    the handlers that read the store the answer is that 401, unless the
    table check that comes first has already failed, with 503.  Start,
    refine and finalize first pass the rate limiter, which counts the
    request: they answer 429 when it refuses, and otherwise that 401,
    unless the LLM check that comes first has already failed, with 500
    "Groq API key not configured." without a key and 500 "Groq client is
    not initialized." without a client. *)
Theorem rejected_token_stops_every_handler
        (X : Externals) (cfg : Config) (render : Renderers) (request : Request)
        (e : exn) (w : World X) :
  _resolve_user_id cfg request = inl e ->
  let no_table := HTTPException 503 "Airtable not configured." in
  let answer := if table cfg then e else no_table in
  let no_llm := HTTPException 500 (if env_set (GROQ_API_KEY cfg)
                                   then "Groq client is not initialized."
                                   else "Groq API key not configured.") in
  let guarded := if groq_client cfg then e else no_llm in
  AUTH_TOKENS cfg <> ∅
  /\ (e = HTTPException 401 "Missing bearer token."
      \/ e = HTTPException 401 "Invalid token.")
  /\ (forall session_id, get_session X cfg session_id request w = (inl e, w))
  /\ (forall category search,
         get_history X cfg request category search w = (inl answer, w))
  /\ (forall category search page limit,
         get_history_paged X cfg request category search page limit w
         = (inl answer, w))
  /\ get_history_categories X cfg request w = (inl answer, w)
  /\ export_history_csv X cfg render request w = (inl answer, w)
  /\ (forall session_id,
         export_session_pdf X cfg render session_id request w = (inl answer, w))
  /\ (forall payload,
         start_research X cfg request payload w
         = stopped_at_guard "start_research" request guarded w)
  /\ (forall payload,
         refine_research X cfg request payload w
         = stopped_at_guard "refine_research" request guarded w)
  /\ (forall payload,
         finalize_research X cfg request payload w
         = stopped_at_guard "finalize_research" request guarded w).
Proof.
  intros He. cbv zeta.
  destruct (resolve_user_id_rejects cfg request e He) as [Ht Hd].
  split; [exact Ht|]. split; [exact Hd|].
  split. { intros session_id. unfold get_session, bind, lift. now rewrite He. }
  split. { intros. now apply table_then_token. }
  split. { intros. now apply table_then_token. }
  split. { now apply table_then_token. }
  split. { now apply table_then_token. }
  split. { intros. now apply table_then_token. }
  split.
  { intros. apply limited_then_guards. intros w0. now apply genai_then_token. }
  split; intros; apply limited_then_guards; intros w0; now apply genai_then_token.
Qed.

(** The theorem above on the service with a token configured, for a
    request without a header: the history and start both answer 401. *)
Lemma rejected_token_stops_every_handler_witness :
  _resolve_user_id Demo.secured Demo.anonymous
  = inl (HTTPException 401 "Missing bearer token.")
  /\ get_history Demo.externals Demo.secured Demo.anonymous "All" ""
                 (Demo.world (Demo.idle Demo.five_rows))
     = (inl (HTTPException 401 "Missing bearer token."),
        Demo.world (Demo.idle Demo.five_rows))
  /\ start_research Demo.externals Demo.secured Demo.anonymous
                    {| rq_topic := "graph databases" |}
                    (Demo.world (Demo.idle Demo.five_rows))
     = (inl (HTTPException 401 "Missing bearer token."),
        Demo.world (Demo.idle Demo.five_rows)).
Proof.
  assert (H : _resolve_user_id Demo.secured Demo.anonymous
              = inl (HTTPException 401 "Missing bearer token."))
    by (vm_compute; reflexivity).
  split; [exact H|].
  destruct (rejected_token_stops_every_handler
              Demo.externals Demo.secured Demo.renderers Demo.anonymous _
              (Demo.world (Demo.idle Demo.five_rows)) H)
    as (_ & _ & _ & Hh & _ & _ & _ & _ & Hs & _).
  split; [exact (Hh "All" "")|]. rewrite Hs. reflexivity.
Defined.

(** ** Start writes the session before it checks the outline *)

Section StartOrder.

Variable X : Externals.
Variable cfg : Config.

Lemma on_start_error_run {A} (e : exn) (w : World X) :
  exists code detail w',
    @on_start_error X A e w = (inl (HTTPException code detail), w')
    /\ (code = 429 \/ code = 500)
    /\ SESSION_CACHE w' = SESSION_CACHE w
    /\ trace w' = trace w.
Proof.
  unfold on_start_error. destruct (looks_like_quota e).
  - destruct (set_provider_issue_run "llm" "quota" (exn_str e) w)
      as (w' & Hs & Ht & Hc & _).
    rewrite (bind_inr _ _ _ _ _ Hs). unfold raise. eauto 10.
  - unfold raise. eauto 10.
Qed.

Lemma session_from_cache_invalid (session_id : string) (c : cache_item)
      (outline refinements summary tags : json) (err : exn) :
  ci_data c = session_dict outline refinements summary tags ->
  validate_ResearchOutline X outline = inl err ->
  session_from_cache X session_id c = inl err.
Proof.
  intros Hd Hv. unfold session_from_cache. rewrite Hd. simpl.
  unfold build_SessionDetail. now rewrite Hv.
Qed.

End StartOrder.

(** X26.  Start checks the outline last.  When the LLM step has produced
    a document that is not a valid outline, the request fails with 429 or
    500, but the session has been cached for the caller all the same, under
    an id the caller never learns; asking for the detail of that session
    then fails with 500.  The request is one the rate limiter lets
    through, from world [wi] to world [w]. *)
Theorem start_caches_before_it_validates
        (X : Externals) (cfg : Config) (request : Request) (payload : ResearchRequest)
        (wi w : World X) (user_id : string) (raw_data : json) (w1 : World X)
        (err : exn) :
  limiter_limit X "start_research" request wi = (inr tt, w) ->
  groq_client cfg = true ->
  _resolve_user_id cfg request = inr user_id ->
  start_outline X cfg (rq_topic payload) w = (inr raw_data, w1) ->
  validate_ResearchOutline X raw_data = inl err ->
  exists code detail w' session_id created detail',
    start_research X cfg request payload wi = (inl (HTTPException code detail), w')
    /\ (code = 429 \/ code = 500)
    /\ SESSION_CACHE w' !! session_id
       = Some {| ci_user_id := user_id; ci_created_at := created;
                 ci_data := session_dict raw_data (JArr []) (JStr "") (JArr []) |}
    /\ get_session X cfg session_id request w'
       = (inl (HTTPException 500 detail'), w').
Proof.
  intros Hl0 Hg Hu Ho Hv.
  rewrite (start_research_run X cfg request payload wi w user_id Hl0 Hg Hu).
  unfold try_except, start_body. rewrite (bind_inr _ _ _ _ _ Ho).
  unfold bind at 1, outside. destruct (x_urandom X (ext w1)) as [hex s2].
  set (w2 := Build_World s2 (SESSION_CACHE w1) (PROVIDER_ISSUES w1) (trace w1)).
  set (session_payload := session_dict raw_data (JArr []) (JStr "") (JArr [])).
  destruct (start_store_total X cfg ("SESS-" +:+ hex) user_id (rq_topic payload)
              raw_data session_payload w2) as (sid & w3 & Hst).
  rewrite (bind_inr _ _ _ _ _ Hst).
  destruct (cache_put_run sid user_id session_payload None w3)
    as (w4 & created & Hp & _ & _ & Hc).
  rewrite (bind_inr _ _ _ _ _ Hp). unfold bind, lift. rewrite Hv.
  destruct (on_start_error_run X (A:=ResearchResponse) err w4)
    as (code & detail & w' & -> & Hcode & Hc' & _).
  assert (Hl : SESSION_CACHE w' !! sid
               = Some {| ci_user_id := user_id; ci_created_at := created;
                         ci_data := session_payload |}).
  { rewrite Hc', Hc. apply lookup_insert_eq. }
  pose proof (plain_validate_ResearchOutline X raw_data) as Hplain.
  rewrite Hv in Hplain. destruct err as [c d|t]; [destruct Hplain|].
  exists code, detail, w', sid, created, ("Failed to fetch session: " +:+ t).
  split; [reflexivity|]. split; [exact Hcode|]. split; [exact Hl|].
  rewrite (get_session_run X cfg sid request w' user_id Hu), Hl.
  cbn [ci_user_id]. rewrite String.eqb_refl. unfold try_except, lift.
  now rewrite (session_from_cache_invalid X sid
                 {| ci_user_id := user_id; ci_created_at := created;
                    ci_data := session_payload |}
                 raw_data (JArr []) (JStr "") (JArr []) (Exception t) eq_refl Hv).
Qed.

(** The theorem above on the demo service when the LLM answers without
    content: the document is [{}], start fails with 500, and the cache
    holds a session with that outline. *)
Lemma start_caches_before_it_validates_witness :
  exists detail w' session_id item,
    start_research Demo.externals Demo.config Demo.anonymous
                   {| rq_topic := "graph databases" |}
                   (Demo.world {| Demo.llm_replies := [inr None]; Demo.rows := [];
                                  Demo.write_failures := []; Demo.ticks := 0 |})
    = (inl (HTTPException 500 detail), w')
    /\ SESSION_CACHE w' !! session_id = Some item
    /\ ci_data item = session_dict (JObj []) (JArr []) (JStr "") (JArr []).
Proof.
  set (w := Demo.world {| Demo.llm_replies := [inr None]; Demo.rows := [];
                          Demo.write_failures := []; Demo.ticks := 0 |}).
  set (o := start_outline Demo.externals Demo.config "graph databases" w).
  assert (Ho : o = (inr (JObj []), snd o))
    by (apply pair_from_fst; vm_compute; reflexivity).
  destruct (start_caches_before_it_validates
              Demo.externals Demo.config Demo.anonymous
              {| rq_topic := "graph databases" |} w w "local-dev" (JObj []) (snd o)
              (Exception "1 validation error") eq_refl eq_refl eq_refl Ho eq_refl)
    as (code & detail & w' & sid & created & d' & Hs & Hcode & Hl & _).
  assert (Hfst : fst (start_research Demo.externals Demo.config Demo.anonymous
                        {| rq_topic := "graph databases" |} w)
                 = inl (HTTPException 500 "1 validation error"))
    by (vm_compute; reflexivity).
  rewrite Hs in Hfst. simpl in Hfst. injection Hfst as -> ->.
  exists "1 validation error", w', sid. eexists. split; [exact Hs|].
  split; [exact Hl|reflexivity].
Defined.

(** ** Whose row the lookup returns *)

(** X27.  A row the session lookup returns is either the first row the
    store gave for the formula that names the session and the caller, or,
    when the store gave none, the row whose record id is the session id,
    and then only if its [User ID] field is the caller: the fallback by
    record id never hands over another user's row.  Without a table the
    lookup returns no row. *)
Theorem record_by_id_only_for_its_owner
        (X : Externals) (cfg : Config) (session_id user_id : string) (w : World X)
        (rec : record) (w' : World X) :
  _find_session_record X cfg session_id user_id w = (inr (Some rec), w') ->
  table cfg = true
  /\ ((exists rest s,
          x_all X (lookup_formula session_id user_id) (Some 1) (ext w)
          = (inr (rec :: rest), s))
      \/ (exists s s',
             x_all X (lookup_formula session_id user_id) (Some 1) (ext w) = (inr [], s)
             /\ x_get X session_id s = (inr rec, s')
             /\ Py.assoc "User ID" (rec_fields rec) = Some (JStr user_id))).
Proof.
  destruct (table cfg) eqn:Ht.
  2: { rewrite (find_session_record_no_table X cfg _ _ w Ht). discriminate. }
  rewrite (find_session_record_run X cfg session_id user_id w Ht). cbv zeta.
  intros H. split; [reflexivity|].
  destruct (x_all X (lookup_formula session_id user_id) (Some 1) (ext w))
    as [[t|[|r rs]] s] eqn:Ha; [discriminate| |].
  - right. destruct (x_get X session_id s) as [[t|rec'] s2] eqn:Hget; [discriminate|].
    destruct (owned_by rec' user_id) eqn:Ho; [|discriminate].
    injection H as -> _. exists s, s2. split; [reflexivity|]. split; [exact Hget|].
    unfold owned_by in Ho.
    destruct (Py.assoc "User ID" (rec_fields rec)) as [[| | |u| |]|]; try discriminate.
    apply String.eqb_eq in Ho. now subst u.
  - left. injection H as -> _. eauto.
Qed.

(** The theorem above on the demo table, whose first row answers the
    formula. *)
Lemma record_by_id_only_for_its_owner_witness :
  exists rec w',
    _find_session_record Demo.recalling Demo.config "SESS-1" "local-dev"
                         (Demo.recalled (Demo.idle Demo.two_rows))
    = (inr (Some rec), w')
    /\ table Demo.config = true.
Proof.
  set (out := _find_session_record Demo.recalling Demo.config "SESS-1" "local-dev"
                (Demo.recalled (Demo.idle Demo.two_rows))).
  assert (H : out = (inr (Some (Demo.data_row 1 Demo.fresh_session)), snd out))
    by (apply pair_from_fst; vm_compute; reflexivity).
  destruct (record_by_id_only_for_its_owner Demo.recalling Demo.config "SESS-1"
              "local-dev" _ _ _ H) as [Ht _].
  exists (Demo.data_row 1 Demo.fresh_session), (snd out). split; [exact H|exact Ht].
Defined.

(** ** The LLM issue after an LLM step *)

Section LlmHealth.

Variable X : Externals.
Variable cfg : Config.

Lemma quiet_lift {A} (r : R A) : quiet (@lift X A r).
Proof. intros w. split; reflexivity. Qed.

Lemma quiet_ret {A} (a : A) : quiet (@ret X A a).
Proof. intros w. split; reflexivity. Qed.

Lemma quiet_bind {A B} (m : M X A) (k : A -> M X B) :
  quiet m -> (forall a, quiet (k a)) -> quiet (bind m k).
Proof.
  intros Hm Hk w. unfold bind. destruct (Hm w) as [Hc Hi].
  destruct (m w) as [[e|a] w1]; simpl in *; [auto|].
  destruct (Hk a w1) as [Hc' Hi']. split; congruence.
Qed.

Lemma quiet_generate (contents : string) :
  quiet (_generate_content_with_retry X contents 1 10000).
Proof.
  intros w. unfold _generate_content_with_retry.
  destruct (retry_loop_trace X contents 1 10000 1 0 None w eq_refl)
    as (s & delays & Hs & _).
  change (Z.to_nat (1 + 1)) with 2%nat. rewrite Hs. split; reflexivity.
Qed.

Lemma clears_bind {A B} (m : M X A) (k : A -> M X B) :
  quiet m -> (forall a, clears_llm (k a)) -> clears_llm (bind m k).
Proof.
  intros Hm Hk w. unfold bind. destruct (Hm w) as [Hc Hi].
  destruct (m w) as [[e|a] w1]; simpl in *; [auto|].
  destruct (Hk a w1) as [Hc' Hi']. split; [congruence|].
  rewrite Hi'. now rewrite Hi.
Qed.

Lemma clears_last {A} (a : A) :
  clears_llm (bind (_clear_provider_issue X "llm") (fun _ => @ret X A a)).
Proof. intros w. split; reflexivity. Qed.

(** A [try] block around an LLM call, with the three-way [except] clause
    as its handler. *)
Lemma llm_step_bookkeeping {A} (body fallback : M X A) (detail_429 : string)
      (w : World X) :
  clears_llm body -> quiet fallback ->
  llm_bookkeeping cfg w (try_except body (on_llm_error X cfg fallback detail_429) w).
Proof.
  intros Hb Hf. unfold llm_bookkeeping, try_except. destruct (Hb w) as [Hc Hi].
  destruct (body w) as [[e|a] w1]; simpl in Hc, Hi.
  2: { split; [exact Hc|]. simpl. rewrite Hi. split.
       - now rewrite lookup_delete_ne by discriminate.
       - left. apply lookup_delete_eq. }
  unfold on_llm_error.
  assert (Hq : _is_quota_error (Exception (exn_str e)) = _is_quota_error e)
    by reflexivity.
  destruct (_is_quota_error e) eqn:Q; simpl.
  - destruct (set_provider_issue_run "llm" "quota" (exn_str e) w1)
      as (w2 & Hs & _ & Hc2 & stamp & Hi2).
    assert (Hl : PROVIDER_ISSUES w2 !! "llm"
                 = Some {| is_kind := "quota"; is_message := Text.take 300 (exn_str e);
                           is_updatedAt := stamp |})
      by (rewrite Hi2; apply lookup_insert_eq).
    assert (Ha : PROVIDER_ISSUES w2 !! "airtable" = PROVIDER_ISSUES w !! "airtable")
      by (rewrite Hi2, Hi; now rewrite lookup_insert_ne by discriminate).
    destruct (ENABLE_FALLBACK_ON_QUOTA cfg) eqn:Hfb; rewrite (bind_inr _ _ _ _ _ Hs).
    + destruct (Hf w2) as [Hc3 Hi3].
      split; [congruence|]. rewrite Hi3. split; [exact Ha|].
      destruct (fst (fallback w2)).
      * exists "quota", (exn_str e), stamp. split; [exact Hl|]. left. auto.
      * right. split; [reflexivity|]. exists (exn_str e), stamp. auto.
    + simpl. split; [congruence|]. split; [exact Ha|].
      exists "quota", (exn_str e), stamp. split; [exact Hl|]. left. auto.
  - destruct (set_provider_issue_run "llm" "error" (exn_str e) w1)
      as (w2 & Hs & _ & Hc2 & stamp & Hi2).
    rewrite (bind_inr _ _ _ _ _ Hs). simpl. split; [congruence|]. split.
    + rewrite Hi2, Hi. now rewrite lookup_insert_ne by discriminate.
    + exists "error", (exn_str e), stamp. split; [rewrite Hi2; apply lookup_insert_eq|].
      right. auto.
Qed.

End LlmHealth.

(** X28.  The LLM step of start, of refine and of finalize keeps the
    health report current.  After the step has returned, there is no LLM
    issue, unless fallback mode is on and what it returned is the local
    fallback for a quota error: then the issue is of kind [quota].  After
    it has failed there is an LLM issue: of kind [quota] with the text of
    the quota error, or of kind [error] with the text of the exception it
    raises, which may be a document that does not parse.  The cache and
    the Airtable issue are as before. *)
Theorem llm_steps_keep_health_current
        (X : Externals) (cfg : Config) (w : World X) :
  (forall topic, llm_bookkeeping cfg w (start_outline X cfg topic w))
  /\ (forall outline subtopic,
         llm_bookkeeping cfg w (refine_insight X cfg outline subtopic w))
  /\ (forall outline findings,
         llm_bookkeeping cfg w (finalize_llm X cfg outline findings w)).
Proof.
  split; [|split].
  - intros topic. unfold start_outline. apply llm_step_bookkeeping.
    + apply clears_bind; [apply quiet_generate|intros text].
      apply clears_bind; [apply quiet_lift|intros raw_data]. apply clears_last.
    + apply quiet_ret.
  - intros outline subtopic. unfold refine_insight. apply llm_step_bookkeeping.
    + apply clears_bind; [apply quiet_lift|intros title].
      apply clears_bind; [apply quiet_lift|intros description].
      apply clears_bind; [apply quiet_generate|intros text].
      apply clears_bind; [apply quiet_lift|intros parsed].
      apply clears_bind; [apply quiet_lift|intros insight]. apply clears_last.
    + apply quiet_bind; [apply quiet_lift|intros title; apply quiet_ret].
  - intros outline findings. unfold finalize_llm. apply llm_step_bookkeeping.
    + apply clears_bind; [apply quiet_lift|intros title].
      apply clears_bind; [apply quiet_generate|intros text].
      apply clears_bind; [apply quiet_lift|intros parsed].
      apply clears_bind; [apply quiet_lift|intros summary].
      apply clears_bind; [apply quiet_lift|intros tags_v].
      apply clears_bind; [apply quiet_lift|intros tag_items]. apply clears_last.
    + apply quiet_lift.
Qed.

(** ** A store error that looks like a quota error *)

Section StoreQuota.

Variable X : Externals.
Variable cfg : Config.

Lemma update_loop_issues (n : nat) (record_id : string) (fields p : gmap string json)
      (w : World X) :
  PROVIDER_ISSUES (snd (update_loop X cfg n record_id fields p w)) = PROVIDER_ISSUES w.
Proof.
  destruct (table cfg) eqn:Ht.
  - destruct (update_loop_attempts X cfg n record_id fields p w Ht)
      as (s & ps & last & -> & _). reflexivity.
  - now rewrite (update_loop_no_table X cfg n record_id fields p w Ht).
Qed.

(** A store-write step that fails has not touched the provider issues. *)
Lemma write_back_failure_issues (record : option record) (fields : R (gmap string json))
      (w : World X) (e : exn) (w2 : World X) :
  write_back X cfg record fields w = (inl e, w2) ->
  PROVIDER_ISSUES w2 = PROVIDER_ISSUES w.
Proof.
  unfold write_back. destruct record as [rec|]; [|discriminate].
  unfold bind at 1, lift. destruct fields as [e'|fs]; [now intros [= _ <-]|].
  unfold bind, _update_record_resilient.
  pose proof (update_loop_issues 8 (rec_id rec) fs fs w) as Hi.
  destruct (update_loop X cfg 8 (rec_id rec) fs fs w) as [[e'|u] w1]; simpl in Hi.
  - now intros [= _ <-].
  - discriminate.
Qed.

Lemma on_workflow_error_quota {A} (what t : string) (w : World X) :
  looks_like_quota (Exception t) = true ->
  exists w' stamp,
    @on_workflow_error X A what (Exception t) w
    = (inl (HTTPException 429 "LLM API quota exhausted. Please try again soon."), w')
    /\ SESSION_CACHE w' = SESSION_CACHE w
    /\ PROVIDER_ISSUES w'
       = <["llm" := {| is_kind := "quota"; is_message := Text.take 300 t;
                       is_updatedAt := stamp |}]> (PROVIDER_ISSUES w).
Proof.
  intros Hq. unfold on_workflow_error. rewrite Hq.
  destruct (set_provider_issue_run "llm" "quota" (exn_str (Exception t)) w)
    as (w' & Hs & _ & Hc & stamp & Hp).
  rewrite (bind_inr _ _ _ _ _ Hs). unfold raise. exists w', stamp. auto.
Qed.

End StoreQuota.

(** X29.  In refine and in finalize, a failure of the store write whose
    text contains [429] or [ResourceExhausted] is taken for an LLM quota
    problem: the request ends with 429 "LLM API quota exhausted. Please try
    again soon.", the text is recorded as an LLM issue of kind [quota], and
    the Airtable issue stays as it was before the write.  The cache keeps
    the session as updated before the write.  The request is one the rate
    limiter lets through, from world [wi] to world [w]. *)
Theorem store_rate_limit_is_blamed_on_the_llm
        (X : Externals) (cfg : Config) (request : Request) (wi w : World X)
        (user_id t : string) :
  groq_client cfg = true ->
  _resolve_user_id cfg request = inr user_id ->
  looks_like_quota (Exception t) = true ->
  let answer := HTTPException 429 "LLM API quota exhausted. Please try again soon." in
  let blamed (w1 w' : World X) :=
    SESSION_CACHE w' = SESSION_CACHE w1
    /\ PROVIDER_ISSUES w' !! "airtable" = PROVIDER_ISSUES w1 !! "airtable"
    /\ exists stamp,
        PROVIDER_ISSUES w' !! "llm"
        = Some {| is_kind := "quota"; is_message := Text.take 300 t;
                  is_updatedAt := stamp |} in
  (forall payload st w1 w2,
      limiter_limit X "refine_research" request wi = (inr tt, w) ->
      refine_stage X cfg user_id payload w = (inr st, w1) ->
      write_back X cfg (st_record st) (st_fields st) w1 = (inl (Exception t), w2) ->
      exists w', refine_research X cfg request payload wi = (inl answer, w')
                 /\ blamed w1 w')
  /\ (forall payload st w1 w2,
         limiter_limit X "finalize_research" request wi = (inr tt, w) ->
         finalize_stage X cfg user_id payload w = (inr st, w1) ->
         write_back X cfg (st_record st) (st_fields st) w1 = (inl (Exception t), w2) ->
         exists w', finalize_research X cfg request payload wi = (inl answer, w')
                    /\ blamed w1 w').
Proof.
  intros Hg Hu Hq. cbv zeta.
  assert (Hblame : forall A what (w1 w2 : World X),
             SESSION_CACHE w2 = SESSION_CACHE w1 ->
             PROVIDER_ISSUES w2 = PROVIDER_ISSUES w1 ->
             exists w',
               @on_workflow_error X A what (Exception t) w2
               = (inl (HTTPException 429
                         "LLM API quota exhausted. Please try again soon."), w')
               /\ SESSION_CACHE w' = SESSION_CACHE w1
               /\ PROVIDER_ISSUES w' !! "airtable" = PROVIDER_ISSUES w1 !! "airtable"
               /\ exists stamp,
                   PROVIDER_ISSUES w' !! "llm"
                   = Some {| is_kind := "quota"; is_message := Text.take 300 t;
                             is_updatedAt := stamp |}).
  { intros A what w1 w2 Hc Hi.
    destruct (on_workflow_error_quota X (A:=A) what t w2 Hq)
      as (w' & stamp & -> & Hc' & Hi').
    exists w'. split; [reflexivity|]. split; [congruence|]. split.
    - rewrite Hi', Hi. now rewrite lookup_insert_ne by discriminate.
    - exists stamp. rewrite Hi'. apply lookup_insert_eq. }
  split.
  - intros payload st w1 w2 Hl Hst Hw.
    rewrite (refine_research_run X cfg request payload wi w user_id Hl Hg Hu).
    unfold try_except, refine_body.
    rewrite (bind_inr _ _ _ _ _ Hst), (bind_inl _ _ _ _ _ Hw).
    apply Hblame.
    + pose proof (write_back_cache X cfg (st_record st) (st_fields st) w1) as Hc.
      now rewrite Hw in Hc.
    + exact (write_back_failure_issues X cfg _ _ _ _ _ Hw).
  - intros payload st w1 w2 Hl Hst Hw.
    rewrite (finalize_research_run X cfg request payload wi w user_id Hl Hg Hu).
    unfold try_except, finalize_body.
    rewrite (bind_inr _ _ _ _ _ Hst), (bind_inl _ _ _ _ _ Hw).
    apply Hblame.
    + pose proof (write_back_cache X cfg (st_record st) (st_fields st) w1) as Hc.
      now rewrite Hw in Hc.
    + exact (write_back_failure_issues X cfg _ _ _ _ _ Hw).
Qed.

(** The theorem above on the demo service: the session is cached, the
    LLM answers, and the table refuses the update for its rate limit. *)
Lemma store_rate_limit_is_blamed_on_the_llm_witness :
  exists w' stamp,
    refine_research Demo.externals Demo.config Demo.anonymous Demo.refine_core
      (Demo.cached_world "SESS-0A1B2C3D" "local-dev" Demo.rate_limited)
    = (inl (HTTPException 429 "LLM API quota exhausted. Please try again soon."), w')
    /\ PROVIDER_ISSUES w' !! "llm"
       = Some {| is_kind := "quota";
                 is_message := Text.take 300 "429 Client Error: Too Many Requests";
                 is_updatedAt := stamp |}.
Proof.
  set (w := Demo.cached_world "SESS-0A1B2C3D" "local-dev" Demo.rate_limited).
  set (staged_run := refine_stage Demo.externals Demo.config "local-dev"
                                  Demo.refine_core w).
  set (st := match fst staged_run with
             | inr st => st
             | inl _ => {| st_record := None; st_fields := inr ∅;
                           st_response := {| rfr_sessionId := ""; rfr_subtopic := "";
                                             rfr_insight := "" |} |}
             end).
  set (write_run := write_back Demo.externals Demo.config (st_record st) (st_fields st)
                               (snd staged_run)).
  assert (Hst : staged_run = (inr st, snd staged_run))
    by (apply pair_from_fst; vm_compute; reflexivity).
  assert (Hw : write_run
               = (inl (Exception "429 Client Error: Too Many Requests"),
                  snd write_run))
    by (apply pair_from_fst; vm_compute; reflexivity).
  destruct (proj1 (store_rate_limit_is_blamed_on_the_llm
                     Demo.externals Demo.config Demo.anonymous w w "local-dev"
                     "429 Client Error: Too Many Requests" eq_refl eq_refl eq_refl)
              Demo.refine_core st (snd staged_run) (snd write_run) eq_refl Hst Hw)
    as (w' & Hr & _ & _ & stamp & Hl).
  exists w', stamp. split; [exact Hr|exact Hl].
Defined.
